(** * A shallow embedding of [mm.c], a segregated-free-list allocator

    The allocator of [src/mm.c] manages one contiguous heap obtained from
    [mem_sbrk].  Every block carries a 4-byte header and a 4-byte footer
    holding [size | alloc]; a free block stores, in the first 8 bytes of its
    payload, the pointer to its successor in one of [NUMLIST] = 25 free
    lists.  Pointers and [size_t] are 64-bit, [unsigned int] is 32-bit (the
    file's header comment counts 4 + 4 + 8 bytes for header, footer and
    successor pointer).

    Memory is byte addressed: a function from addresses to bytes, read and
    written in little-endian order.  Every C function becomes a Rocq function
    that passes the allocator state explicitly and returns a [res]ult: a
    value, a [Fault] when the C program would touch memory outside the heap
    (or hit another undefined behaviour), or [OutOfFuel] when a loop did not
    finish within the given number of iterations. *)

From Stdlib Require Import ZArith List Lia Bool.
Import ListNotations.
Local Open Scope Z_scope.

(** ** Results of running C code *)

Inductive res (A : Type) : Type :=
| Ok (a : A)
| Fault
| OutOfFuel.

Arguments Ok {A} a.
Arguments Fault {A}.
Arguments OutOfFuel {A}.

Definition bind {A B : Type} (r : res A) (k : A -> res B) : res B :=
  match r with
  | Ok a => k a
  | Fault => Fault
  | OutOfFuel => OutOfFuel
  end.

Notation "x <- e ;; k" := (bind e (fun x => k))
  (at level 100, e at next level, right associativity).
Notation "' p <- e ;; k" := (bind e (fun p => k))
  (at level 100, p pattern, e at next level, right associativity).

(** ** Machine integers *)

Definition wrap32 (x : Z) : Z := x mod 2 ^ 32.
Definition wrap64 (x : Z) : Z := x mod 2 ^ 64.
Definition SIZE_MAX : Z := 2 ^ 64 - 1.

(** Conversion of an [unsigned int] to [int] (two's complement). *)
Definition to_int (x : Z) : Z :=
  if wrap32 x <? 2 ^ 31 then wrap32 x else wrap32 x - 2 ^ 32.

(** ** Byte-addressed memory *)

Definition memory : Type := Z -> Z.

Definition upd (m : memory) (a v : Z) : memory :=
  fun x => if x =? a then v else m x.

(** [loadn n m a]: the [n] bytes at [a], little endian. *)
Fixpoint loadn (n : nat) (m : memory) (a : Z) : Z :=
  match n with
  | O => 0
  | S k => (m a) mod 256 + 256 * loadn k m (a + 1)
  end.

(** [storen n a v m]: write the low [n] bytes of [v] at [a], little endian. *)
Fixpoint storen (n : nat) (a v : Z) (m : memory) : memory :=
  match n with
  | O => m
  | S k => storen k (a + 1) (v / 256) (upd m a (v mod 256))
  end.

(** [copy_bytes n src_mem dst src m]: [m] with the [n] bytes of [src_mem]
    at [src] written at [dst]. *)
Fixpoint copy_bytes (n : nat) (from : memory) (dst src : Z) (m : memory)
  : memory :=
  match n with
  | O => m
  | S k => copy_bytes k from (dst + 1) (src + 1) (upd m dst (from src))
  end.

(** ** Allocator state

    [mem_start_brk], [mem_brk] and [mem_max_addr] belong to the heap
    provider; [heap_listp] and [freelists] are the two globals of [mm.c]. *)

Record state : Type := mkState {
  mem : memory;
  mem_start_brk : Z;
  mem_brk : Z;
  mem_max_addr : Z;
  heap_listp : Z;
  freelists : Z -> Z
}.

Definition set_mem (s : state) (m : memory) : state :=
  mkState m (mem_start_brk s) (mem_brk s) (mem_max_addr s)
          (heap_listp s) (freelists s).

Definition set_brk (s : state) (b : Z) : state :=
  mkState (mem s) (mem_start_brk s) b (mem_max_addr s)
          (heap_listp s) (freelists s).

Definition set_heap_listp (s : state) (p : Z) : state :=
  mkState (mem s) (mem_start_brk s) (mem_brk s) (mem_max_addr s)
          p (freelists s).

Definition set_freelist (s : state) (i p : Z) : state :=
  mkState (mem s) (mem_start_brk s) (mem_brk s) (mem_max_addr s)
          (heap_listp s) (fun j => if j =? i then p else freelists s j).

(** ** The heap provider *)

Definition VOID_M1 : Z := 2 ^ 64 - 1.

(** Modelled from the spec: [mem_sbrk] of [memlib.c], which is not among
    the sources.  The spec describes
    [grow(byte_count) -> old_top_address | failure], extending the heap
    contiguously and failing when the backing store is exhausted; the
    failure value is the [(void * )-1] that [mm.c] tests for. *)
Definition mem_sbrk (s : state) (incr : Z) : Z * state :=
  if mem_brk s + incr <=? mem_max_addr s
  then (mem_brk s, set_brk s (mem_brk s + incr))
  else (VOID_M1, s).

(** An access of [n] bytes at [a] is defined only inside the heap. *)
Definition valid (s : state) (a n : Z) : bool :=
  (mem_start_brk s <=? a) && (a + n <=? mem_brk s).

(** ** Constants and macros of [mm.c] *)

Definition WSIZE : Z := 4.
Definition DSIZE : Z := 8.
Definition NUMLIST : Z := 25.
Definition MINSIZE : Z := 16.
Definition CHUNKSIZE : Z := Z.shiftl 1 8.
Definition ALIGNMENT : Z := 8.
Definition NULL : Z := 0.

Definition MAX (x y : Z) : Z := if x >? y then x else y.
Definition MIN (x y : Z) : Z := if x <? y then x else y.

(** [PACK(size, alloc)  ((size) | (alloc))] *)
Definition PACK (size alloc : Z) : Z := Z.lor size alloc.

(** [GET(p)  ( *(unsigned int * )(p))] *)
Definition GET (s : state) (p : Z) : res Z :=
  if valid s p 4 then Ok (loadn 4 (mem s) p) else Fault.

(** [PUT(p, val)  ( *(unsigned int * )(p) = (val))]: the value is converted to
    [unsigned int], that is, its low 32 bits are stored. *)
Definition PUT (s : state) (p val : Z) : res state :=
  if valid s p 4 then Ok (set_mem s (storen 4 p val (mem s))) else Fault.

(** [GET_SIZE(p)  (GET(p) & ~0x7)], an [unsigned int]. *)
Definition GET_SIZE (s : state) (p : Z) : res Z :=
  w <- GET s p ;; Ok (Z.land w (2 ^ 32 - 8)).

(** [GET_ALLOC(p)  (GET(p) & 0x1)] *)
Definition GET_ALLOC (s : state) (p : Z) : res Z :=
  w <- GET s p ;; Ok (Z.land w 1).

(** [HDRP(bp)  ((char * )(bp) - WSIZE)] *)
Definition HDRP (bp : Z) : Z := bp - WSIZE.

(** [FTRP(bp)  ((char * )(bp) + GET_SIZE(HDRP(bp)) - DSIZE)] *)
Definition FTRP (s : state) (bp : Z) : res Z :=
  sz <- GET_SIZE s (HDRP bp) ;; Ok (bp + sz - DSIZE).

(** [SUCC(bp)  ( *(char ** ) (bp))], read and written. *)
Definition SUCC (s : state) (bp : Z) : res Z :=
  if valid s bp 8 then Ok (loadn 8 (mem s) bp) else Fault.

Definition SUCC_set (s : state) (bp p : Z) : res state :=
  if valid s bp 8 then Ok (set_mem s (storen 8 bp p (mem s))) else Fault.

(** [NEXT_BLKP(bp)  ((char * )(bp) + GET_SIZE(((char * )(bp) - WSIZE)))] *)
Definition NEXT_BLKP (s : state) (bp : Z) : res Z :=
  sz <- GET_SIZE s (bp - WSIZE) ;; Ok (bp + sz).

(** [PREV_BLKP(bp)  ((char * )(bp) - GET_SIZE(((char * )(bp) - DSIZE)))] *)
Definition PREV_BLKP (s : state) (bp : Z) : res Z :=
  sz <- GET_SIZE s (bp - DSIZE) ;; Ok (bp - sz).

(** [ALIGN(p)  (((size_t)(p) + (ALIGNMENT-1)) & ~0x7)], in [size_t]. *)
Definition ALIGN (p : Z) : Z :=
  Z.land (wrap64 (p + (ALIGNMENT - 1))) (2 ^ 64 - 8).

(** [memcpy]: undefined when a range leaves the heap or the ranges overlap. *)
Definition memcpy (s : state) (dst src n : Z) : res state :=
  if n =? 0 then Ok s
  else if valid s dst n && valid s src n
          && ((dst + n <=? src) || (src + n <=? dst))
  then Ok (set_mem s (copy_bytes (Z.to_nat n) (mem s) dst src (mem s)))
  else Fault.

(** ** Free-list maintenance *)

(** [for (i = 0; size > (unsigned int) 1<<i; i++) {}]: the shift is
    undefined from [i = 32] on; [n] counts the shifts still defined. *)
Fixpoint class_loop (n : nat) (i size : Z) : res Z :=
  match n with
  | O => Fault
  | S k => if size >? Z.shiftl 1 i then class_loop k (i + 1) size else Ok i
  end.

(** The loop followed by [i = MIN(i, NUMLIST - 1)]. *)
Definition size_class (size : Z) : res Z :=
  i <- class_loop 32 0 size ;; Ok (MIN i (NUMLIST - 1)).

(** [while (SUCC(prevptr) != bp) prevptr = SUCC(prevptr);] *)
Fixpoint find_prev (fuel : nat) (s : state) (prevptr bp : Z) : res Z :=
  match fuel with
  | O => OutOfFuel
  | S k =>
      nx <- SUCC s prevptr ;;
      if nx =? bp then Ok prevptr else find_prev k s nx bp
  end.

Definition freelist_remove (fuel : nat) (s : state) (bp : Z) : res state :=
  sb <- SUCC s bp ;;
  succ_alloc <- GET_ALLOC s (HDRP sb) ;;
  size <- GET_SIZE s (HDRP bp) ;;
  i <- size_class size ;;
  if (bp =? freelists s i) && negb (succ_alloc =? 0)
  then Ok (set_freelist s i (heap_listp s))
  else if (bp =? freelists s i) && (succ_alloc =? 0)
  then Ok (set_freelist s i sb)
  else
    prevptr <- find_prev fuel s (freelists s i) bp ;;
    SUCC_set s prevptr sb.

Definition freelist_insert (s : state) (bp : Z) : res state :=
  size <- GET_SIZE s (HDRP bp) ;;
  i <- size_class size ;;
  s1 <- SUCC_set s bp (freelists s i) ;;
  Ok (set_freelist s1 i bp).

(** ** Coalescing *)

Definition coalesce (fuel : nat) (s : state) (bp : Z) : res (Z * state) :=
  pb <- PREV_BLKP s bp ;;
  pf <- FTRP s pb ;;
  prev_alloc <- GET_ALLOC s pf ;;
  nb <- NEXT_BLKP s bp ;;
  next_alloc <- GET_ALLOC s (HDRP nb) ;;
  size <- GET_SIZE s (HDRP bp) ;;
  if negb (prev_alloc =? 0) && negb (next_alloc =? 0) then
    s1 <- freelist_insert s bp ;;
    Ok (bp, s1)
  else if negb (prev_alloc =? 0) && (next_alloc =? 0) then
    nb <- NEXT_BLKP s bp ;;
    s1 <- freelist_remove fuel s nb ;;
    nb <- NEXT_BLKP s1 bp ;;
    nsz <- GET_SIZE s1 (HDRP nb) ;;
    let size := wrap64 (size + nsz) in
    s2 <- PUT s1 (HDRP bp) (PACK size 0) ;;
    f <- FTRP s2 bp ;;
    s3 <- PUT s2 f (PACK size 0) ;;
    s4 <- freelist_insert s3 bp ;;
    Ok (bp, s4)
  else if (prev_alloc =? 0) && negb (next_alloc =? 0) then
    pb <- PREV_BLKP s bp ;;
    s1 <- freelist_remove fuel s pb ;;
    pb <- PREV_BLKP s1 bp ;;
    psz <- GET_SIZE s1 (HDRP pb) ;;
    let size := wrap64 (size + psz) in
    f <- FTRP s1 bp ;;
    s2 <- PUT s1 f (PACK size 0) ;;
    pb <- PREV_BLKP s2 bp ;;
    s3 <- PUT s2 (HDRP pb) (PACK size 0) ;;
    bp' <- PREV_BLKP s3 bp ;;
    s4 <- freelist_insert s3 bp' ;;
    Ok (bp', s4)
  else
    nb <- NEXT_BLKP s bp ;;
    s1 <- freelist_remove fuel s nb ;;
    pb <- PREV_BLKP s1 bp ;;
    s2 <- freelist_remove fuel s1 pb ;;
    pb <- PREV_BLKP s2 bp ;;
    psz <- GET_SIZE s2 (HDRP pb) ;;
    nb <- NEXT_BLKP s2 bp ;;
    nf <- FTRP s2 nb ;;
    nsz <- GET_SIZE s2 nf ;;
    let size := wrap64 (size + wrap32 (psz + nsz)) in
    pb <- PREV_BLKP s2 bp ;;
    s3 <- PUT s2 (HDRP pb) (PACK size 0) ;;
    nb <- NEXT_BLKP s3 bp ;;
    nf <- FTRP s3 nb ;;
    s4 <- PUT s3 nf (PACK size 0) ;;
    bp' <- PREV_BLKP s4 bp ;;
    s5 <- freelist_insert s4 bp' ;;
    Ok (bp', s5).

(** ** Placement *)

Definition place (fuel : nat) (s : state) (bp asize : Z) : res state :=
  csize <- GET_SIZE s (HDRP bp) ;;
  s1 <- freelist_remove fuel s bp ;;
  if wrap64 (csize - asize) >=? MINSIZE then
    s2 <- PUT s1 (HDRP bp) (PACK asize 1) ;;
    f <- FTRP s2 bp ;;
    s3 <- PUT s2 f (PACK asize 1) ;;
    bp' <- NEXT_BLKP s3 bp ;;
    s4 <- PUT s3 (HDRP bp') (PACK (wrap64 (csize - asize)) 0) ;;
    f' <- FTRP s4 bp' ;;
    s5 <- PUT s4 f' (PACK (wrap64 (csize - asize)) 0) ;;
    '(_, s6) <- coalesce fuel s5 bp' ;;
    Ok s6
  else
    s2 <- PUT s1 (HDRP bp) (PACK csize 1) ;;
    f <- FTRP s2 bp ;;
    PUT s2 f (PACK csize 1).

(** ** Fit search *)

(** The inner [while (!GET_ALLOC(HDRP(bp)))] loop of [find_fit]: [Some bp]
    when the function returns [bp] from inside the loop, [None] when the
    loop ends. *)
Fixpoint scan_list (fuel : nat) (s : state) (asize bp : Z)
  : res (option Z) :=
  match fuel with
  | O => OutOfFuel
  | S k =>
      a <- GET_ALLOC s (HDRP bp) ;;
      if a =? 0 then
        sz <- GET_SIZE s (HDRP bp) ;;
        if asize <=? sz then Ok (Some bp)
        else nx <- SUCC s bp ;; scan_list k s asize nx
      else Ok None
  end.

(** [for (i = ...; i < NUMLIST; i++)] of [find_fit], with [n] iterations
    left. *)
Fixpoint fit_loop (n fuel : nat) (s : state) (asize i : Z) : res Z :=
  match n with
  | O => Ok NULL
  | S k =>
      if asize <=? Z.shiftl 1 i then
        r <- scan_list fuel s asize (freelists s i) ;;
        match r with
        | Some bp => Ok bp
        | None => fit_loop k fuel s asize (i + 1)
        end
      else fit_loop k fuel s asize (i + 1)
  end.

Definition find_fit (fuel : nat) (s : state) (asize : Z) : res Z :=
  if asize >? Z.shiftl 1 (NUMLIST - 1) then
    r <- scan_list fuel s asize (freelists s (NUMLIST - 1)) ;;
    match r with
    | Some bp => Ok bp
    | None => Ok NULL
    end
  else fit_loop (Z.to_nat NUMLIST) fuel s asize 0.

(** ** Heap growth and initialisation *)

(** [size = (words % 2) ? (words+1) * WSIZE : words * WSIZE;] *)
Definition extend_size (words : Z) : Z :=
  if words mod 2 =? 0 then wrap64 (words * WSIZE)
  else wrap64 (wrap64 (words + 1) * WSIZE).

Definition extend_heap (fuel : nat) (s : state) (words : Z)
  : res (Z * state) :=
  let size := extend_size words in
  let '(bp, s1) := mem_sbrk s size in
  if bp =? VOID_M1 then Ok (NULL, s1)
  else
    s2 <- PUT s1 (HDRP bp) (PACK size 0) ;;
    f <- FTRP s2 bp ;;
    s3 <- PUT s2 f (PACK size 0) ;;
    nb <- NEXT_BLKP s3 bp ;;
    s4 <- PUT s3 (HDRP nb) (PACK 0 1) ;;
    coalesce fuel s4 bp.

(** [for (int i = 0; i < NUMLIST; i++) freelists[i] = heap_listp;] *)
Fixpoint init_lists (n : nat) (s : state) (i : Z) : state :=
  match n with
  | O => s
  | S k => init_lists k (set_freelist s i (heap_listp s)) (i + 1)
  end.

(** Returns [-1] on error and [0] on success. *)
Definition mm_init (fuel : nat) (s : state) : res (Z * state) :=
  let '(p, s0) := mem_sbrk s (4 * WSIZE) in
  let s1 := set_heap_listp s0 p in
  if p =? VOID_M1 then Ok (-1, s1)
  else
    s2 <- PUT s1 (heap_listp s1) 0 ;;
    s3 <- PUT s2 (heap_listp s2 + 1 * WSIZE) (PACK DSIZE 1) ;;
    s4 <- PUT s3 (heap_listp s3 + 2 * WSIZE) (PACK DSIZE 1) ;;
    s5 <- PUT s4 (heap_listp s4 + 3 * WSIZE) (PACK 0 1) ;;
    let s6 := set_heap_listp s5 (heap_listp s5 + 2 * WSIZE) in
    let s7 := init_lists (Z.to_nat NUMLIST) s6 0 in
    '(r, s8) <- extend_heap fuel s7 (CHUNKSIZE / WSIZE) ;;
    if r =? NULL then Ok (-1, s8) else Ok (0, s8).

(** ** The public operations *)

(** The adjusted block size of [malloc]:
    [MAX(ALIGN(size + DSIZE), MINSIZE)], computed in [size_t]. *)
Definition adjusted_size (size : Z) : Z :=
  MAX (ALIGN (wrap64 (size + DSIZE))) MINSIZE.

Definition malloc (fuel : nat) (s : state) (size : Z) : res (Z * state) :=
  let size := adjusted_size size in
  bp <- find_fit fuel s size ;;
  if negb (bp =? NULL) then
    s1 <- place fuel s bp size ;;
    Ok (bp, s1)
  else
    '(bp, s1) <- extend_heap fuel s (MAX size CHUNKSIZE / WSIZE) ;;
    if bp =? NULL then Ok (NULL, s1)
    else
      s2 <- place fuel s1 bp size ;;
      Ok (bp, s2).

Definition free (fuel : nat) (s : state) (ptr : Z) : res state :=
  if ptr =? 0 then Ok s
  else
    size <- GET_SIZE s (HDRP ptr) ;;
    s1 <- PUT s (HDRP ptr) (PACK size 0) ;;
    f <- FTRP s1 ptr ;;
    s2 <- PUT s1 f (PACK size 0) ;;
    '(_, s3) <- coalesce fuel s2 ptr ;;
    Ok s3.

Definition realloc (fuel : nat) (s : state) (oldptr size : Z)
  : res (Z * state) :=
  if size =? 0 then
    s1 <- free fuel s oldptr ;;
    Ok (0, s1)
  else if oldptr =? NULL then malloc fuel s size
  else
    '(newptr, s1) <- malloc fuel s size ;;
    if newptr =? 0 then Ok (0, s1)
    else
      osz <- GET_SIZE s1 (HDRP oldptr) ;;
      let oldsize := MIN osz size in
      s2 <- memcpy s1 newptr oldptr oldsize ;;
      s3 <- free fuel s2 oldptr ;;
      Ok (newptr, s3).

(** [for (i = 0; i < payload_size; i = i + WSIZE) PUT(bp + i, 0);] *)
Fixpoint zero_loop (fuel : nat) (s : state) (bp i payload_size : Z)
  : res state :=
  match fuel with
  | O => OutOfFuel
  | S k =>
      if i <? payload_size then
        s1 <- PUT s (bp + i) 0 ;;
        zero_loop k s1 bp (i + WSIZE) payload_size
      else Ok s
  end.

Definition calloc (fuel : nat) (s : state) (nmemb size : Z)
  : res (Z * state) :=
  '(bp, s1) <- malloc fuel s (wrap64 (nmemb * size)) ;;
  sz <- GET_SIZE s1 (HDRP bp) ;;
  let payload_size := to_int (wrap32 (sz - DSIZE)) in
  s2 <- zero_loop fuel s1 bp 0 payload_size ;;
  Ok (bp, s2).

(** ** A concrete provider for examples: an empty heap at address 4096 that
    can grow to [cap] bytes, over memory [m]. *)

Definition fresh (m : memory) (cap : Z) : state :=
  mkState m 4096 4096 (4096 + cap) 0 (fun _ => 0).

Definition zeros : memory := fun _ => 0.

(** Modelled from the spec: [mem_heap_lo] and [mem_heap_hi] of [memlib.c],
    the "current valid range" of the heap: its first and its last byte. *)
Definition mem_heap_lo (s : state) : Z := mem_start_brk s.
Definition mem_heap_hi (s : state) : Z := mem_brk s - 1.

(** [in_heap] of [mm.c]: [p <= mem_heap_hi() && p >= mem_heap_lo()]. *)
Definition in_heap (s : state) (p : Z) : bool :=
  (p <=? mem_heap_hi s) && (p >=? mem_heap_lo s).

(** ** Observations on a heap

    The blocks of a heap are those met by the walk of [mm_checkheap]:
    [curptr = heap_listp + DSIZE; while (in_heap(curptr)) ...
     curptr = NEXT_BLKP(curptr)]. *)

Inductive is_block (s : state) : Z -> Prop :=
| first_block :
    in_heap s (heap_listp s + DSIZE) = true ->
    is_block s (heap_listp s + DSIZE)
| next_block (bp nb : Z) :
    is_block s bp -> NEXT_BLKP s bp = Ok nb -> in_heap s nb = true ->
    is_block s nb.

Definition is_free (s : state) (bp : Z) : Prop :=
  GET_ALLOC s (HDRP bp) = Ok 0.

(** No two physically adjacent blocks are both free. *)
Definition no_adjacent_free (s : state) : Prop :=
  forall bp nb, is_block s bp -> NEXT_BLKP s bp = Ok nb -> is_block s nb ->
                ~ (is_free s bp /\ is_free s nb).

(** Every block's header word equals its footer word. *)
Definition tags_agree (s : state) : Prop :=
  forall bp, is_block s bp ->
             exists w f, GET s (HDRP bp) = Ok w /\ FTRP s bp = Ok f /\
                         GET s f = Ok w.

(** The size of the payload of the block at [bp]: its size minus the 8 bytes
    of header and footer. *)
Definition payload_size (s : state) (bp : Z) : res Z :=
  sz <- GET_SIZE s (HDRP bp) ;; Ok (sz - DSIZE).

(** The first [k] bytes of the payload at [newp] in [s'] exist and equal the
    first [k] bytes at [p] in [s]. *)
Definition prefix_copied (s : state) (p : Z) (s' : state) (newp k : Z)
  : Prop :=
  (exists n, payload_size s' newp = Ok n /\ k <= n) /\
  forall i, 0 <= i < k -> mem s' (newp + i) mod 256 = mem s (p + i) mod 256.

(** The state a run ends in (the start state of an empty provider when the
    run does not return). *)
Definition final {A : Type} (r : res (A * state)) : state :=
  match r with
  | Ok (_, s) => s
  | _ => fresh zeros 0
  end.

Definition value {A : Type} (r : res (A * state)) (d : A) : A :=
  match r with
  | Ok (a, _) => a
  | _ => d
  end.

(** ** Scenarios *)

Definition fuel0 : nat := 64.

(** A freshly initialised heap whose provider can supply 1000 bytes. *)
Definition heap0 : state := final (mm_init fuel0 (fresh zeros 1000)).

(** A 24-byte block is freed between two live blocks, then [malloc(0)]. *)
Definition run_freed24 : res (Z * state) :=
  '(a, s) <- malloc fuel0 heap0 16 ;;
  '(g, s) <- malloc fuel0 s 8 ;;
  s <- free fuel0 s a ;;
  Ok (a, s).

Definition run_malloc0 : res (Z * state) :=
  '(_, s) <- run_freed24 ;; malloc fuel0 s 0.

(** Six small blocks; the first two are freed and merged, then reallocated
    as one 32-byte block [p]; two 16-byte blocks are freed. *)
Definition run_six : res (Z * state) :=
  '(a, s) <- malloc fuel0 heap0 8 ;;
  '(b, s) <- malloc fuel0 s 8 ;;
  '(c, s) <- malloc fuel0 s 8 ;;
  '(g, s) <- malloc fuel0 s 8 ;;
  '(q, s) <- malloc fuel0 s 8 ;;
  '(x, s) <- malloc fuel0 s 8 ;;
  s <- free fuel0 s b ;;
  s <- free fuel0 s a ;;
  '(p, s) <- malloc fuel0 s 24 ;;
  s <- free fuel0 s c ;;
  s <- free fuel0 s q ;;
  Ok (p, s).

Definition run_six_realloc : res (Z * state) :=
  '(p, s) <- run_six ;; realloc fuel0 s p SIZE_MAX.

(** A zeroed 24-byte payload [p], a freed 16-byte block after it, then
    [realloc(p, SIZE_MAX)]. *)
Definition run_zeroed : res (Z * state) :=
  '(p, s) <- calloc fuel0 heap0 1 24 ;;
  '(q, s) <- malloc fuel0 s 8 ;;
  '(r, s) <- malloc fuel0 s 8 ;;
  s <- free fuel0 s q ;;
  Ok (p, s).

Definition run_zeroed_realloc : res (Z * state) :=
  '(p, s) <- run_zeroed ;; realloc fuel0 s p SIZE_MAX.

(** Heap memory is handed out uninitialised: here the bytes that will be
    offsets 12..23 of the payload of [p] hold the word 32 and the address
    4104. *)
Definition dirty : memory := storen 8 4176 4104 (storen 4 4172 32 zeros).

Definition run_dirty : res (Z * state) :=
  '(_, s) <- mm_init fuel0 (fresh dirty 1000) ;;
  '(f, s) <- malloc fuel0 s 40 ;;
  '(p, s) <- malloc fuel0 s 24 ;;
  '(g, s) <- malloc fuel0 s 8 ;;
  s <- free fuel0 s f ;;
  Ok (p, s).

Definition run_dirty_realloc : res (Z * state) :=
  '(p, s) <- run_dirty ;; realloc fuel0 s p SIZE_MAX.


(** A heap with one live block, at 4112. *)
Definition heap1 : state := final (malloc fuel0 heap0 8).

(** ** Size classes and fit search, as the specification words them *)

(** [upto n i] is [i; i+1; ...; i+n-1]. *)
Fixpoint upto (n : nat) (i : Z) : list Z :=
  match n with
  | O => []
  | S k => i :: upto k (i + 1)
  end.

(** The bucket indices [0..24]. *)
Definition bucket_indices : list Z := upto (Z.to_nat NUMLIST) 0.

(** "The smallest bucket index [i] such that [size <= 2^i] (or the last
    bucket if none)". *)
Definition smallest_bucket (size : Z) : Z :=
  match find (fun i => size <=? 2 ^ i) bucket_indices with
  | Some i => i
  | None => NUMLIST - 1
  end.

(** The size stored in the header of the block at [bp]. *)
Definition block_size (s : state) (bp : Z) : Z :=
  Z.land (loadn 4 (mem s) (HDRP bp)) (2 ^ 32 - 8).

(** [free_chain s bp l]: following the successor links from [bp] meets the
    blocks [l], each with a header marked free, and then a block whose
    header is marked allocated, which ends the list. *)
Inductive free_chain (s : state) : Z -> list Z -> Prop :=
| chain_end (bp a : Z) :
    GET_ALLOC s (HDRP bp) = Ok a -> a <> 0 -> free_chain s bp []
| chain_link (bp nx : Z) (l : list Z) :
    GET_ALLOC s (HDRP bp) = Ok 0 -> SUCC s bp = Ok nx ->
    free_chain s nx l -> free_chain s bp (bp :: l).

(** The blocks of the buckets [i, i+1, ..., 24], each bucket in link
    order. *)
Definition buckets_from (fl : Z -> list Z) (i : Z) : list Z :=
  concat (map fl (filter (fun j => i <=? j) bucket_indices)).

(** The first block of [l] whose size is at least [asize], or NULL. *)
Definition first_fit (s : state) (asize : Z) (l : list Z) : Z :=
  match find (fun bp => asize <=? block_size s bp) l with
  | Some bp => bp
  | None => NULL
  end.

(** "Required block size = max(round_up_to_8(requested + 8), 16)", over
    the integers. *)
Definition round_up_to_8 (x : Z) : Z := 8 * ((x + 7) / 8).

Definition required_block_size (requested : Z) : Z :=
  Z.max (round_up_to_8 (requested + 8)) 16.

(** The number of bytes [malloc(size)] asks of the provider when no free
    block fits. *)
Definition grow_request (size : Z) : Z :=
  extend_size (MAX (adjusted_size size) CHUNKSIZE / WSIZE).

(** ** The heap as a list of blocks

    A block is described by its block pointer, its size and its allocated
    bit.  [rep s bs fl] relates a state to the list [bs] of its blocks in
    address order and to the contents [fl i] of each free list in link
    order. *)

Definition blk : Type := (Z * Z * bool)%type.

(** The allocated bit as a number. *)
Definition bit (al : bool) : Z := if al then 1 else 0.

(** The tag word of a block: [PACK(size, alloc)]. *)
Definition tag (sz : Z) (al : bool) : Z := sz + (if al then 1 else 0).

(** The blocks [bs] lie one after the other from [a] to [e]; every size is
    a multiple of 8 and at least [MINSIZE]. *)
Fixpoint contig (a : Z) (bs : list blk) (e : Z) : Prop :=
  match bs with
  | [] => a = e
  | (bp, sz, _) :: r =>
      bp = a /\ MINSIZE <= sz /\ sz mod 8 = 0 /\ contig (a + sz) r e
  end.

(** Header and footer of a block hold its tag. *)
Definition tagged (m : memory) (b : blk) : Prop :=
  let '(bp, sz, al) := b in
  loadn 4 m (bp - 4) = tag sz al /\ loadn 4 m (bp + sz - 8) = tag sz al.

(** [lseg m h l t]: the successor links lead from [h] through the blocks
    [l] to [t]. *)
Fixpoint lseg (m : memory) (h : Z) (l : list Z) (t : Z) : Prop :=
  match l with
  | [] => h = t
  | bp :: r => h = bp /\ lseg m (loadn 8 m bp) r t
  end.

Record rep (s : state) (bs : list blk) (fl : Z -> list Z) : Prop := mkRep {
  (* the provider: NULL is no heap address, the heap spans at most 2^31
     bytes and its addresses fit a pointer *)
  rep_start : 0 < mem_start_brk s;
  rep_cap : mem_max_addr s <= mem_start_brk s + 2 ^ 31;
  rep_max : mem_max_addr s < VOID_M1;
  rep_brk : mem_brk s <= mem_max_addr s;
  (* prologue block, blocks, epilogue header *)
  rep_lo : mem_start_brk s <= heap_listp s - 8;
  rep_pro_h : loadn 4 (mem s) (heap_listp s - 4) = tag 8 true;
  rep_pro_f : loadn 4 (mem s) (heap_listp s) = tag 8 true;
  rep_contig : contig (heap_listp s + 8) bs (mem_brk s);
  rep_tags : Forall (tagged (mem s)) bs;
  rep_epi : loadn 4 (mem s) (mem_brk s - 4) = tag 0 true;
  (* each free list links free blocks of its size class and ends at the
     prologue *)
  rep_chain : forall i, 0 <= i < NUMLIST ->
                        lseg (mem s) (freelists s i) (fl i) (heap_listp s);
  rep_listed : forall i bp, 0 <= i < NUMLIST -> In bp (fl i) ->
                            exists sz, In (bp, sz, false) bs /\
                                       smallest_bucket sz = i;
  rep_nodup : forall i, 0 <= i < NUMLIST -> NoDup (fl i)
}.

(** [bp] is in no free list. *)
Definition unlisted (fl : Z -> list Z) (bp : Z) : Prop :=
  forall i, 0 <= i < NUMLIST -> ~ In bp (fl i).

(** A well-formed heap: every free block is in the free list of its size
    class. *)
Definition heap_ok (s : state) (bs : list blk) (fl : Z -> list Z) : Prop :=
  rep s bs fl /\
  forall bp sz, In (bp, sz, false) bs -> In bp (fl (smallest_bucket sz)).

(** Free-list updates: push at the head of the bucket of a size, remove
    from it. *)
Definition fl_insert (fl : Z -> list Z) (sz bp : Z) : Z -> list Z :=
  fun j => if j =? smallest_bucket sz then bp :: fl j else fl j.

Definition fl_remove (fl : Z -> list Z) (sz bp : Z) : Z -> list Z :=
  fun j => if j =? smallest_bucket sz then remove Z.eq_dec bp (fl j)
           else fl j.

Fixpoint fl_remove_all (fl : Z -> list Z) (bs : list blk) : Z -> list Z :=
  match bs with
  | [] => fl
  | (bp, sz, _) :: r => fl_remove_all (fl_remove fl sz bp) r
  end.

(** ** Coalescing, as the specification words it *)

(** A neighbour merged by [coalesce]: none when the neighbouring block is
    allocated, the neighbouring block when it is free (and then it is in the
    free list of its size class). *)
Inductive neighbour (fl : Z -> list Z) : list blk -> Prop :=
| neighbour_allocated : neighbour fl []
| neighbour_free (bp sz : Z) :
    In bp (fl (smallest_bucket sz)) -> neighbour fl [(bp, sz, false)].

(** The last block of [pre], if any, is allocated (before the first block
    lies the prologue, always allocated). *)
Definition ends_allocated (pre : list blk) : Prop :=
  forall pre' b, pre = pre' ++ [b] -> snd b = true.

(** The first block of [post], if any, is allocated (after the last block
    lies the epilogue, always allocated). *)
Definition starts_allocated (post : list blk) : Prop :=
  forall b post', post = b :: post' -> snd b = true.

Definition total (bs : list blk) : Z :=
  fold_right (fun b acc => snd (fst b) + acc) 0 bs.

(** The block made of a freed block [(bp, sz)] and its free neighbours [P]
    and [N]: it starts where the first of them starts, and its size is the
    sum of their sizes. *)
Definition merged_bp (P : list blk) (bp : Z) : Z :=
  match P with
  | [] => bp
  | (pb, _, _) :: _ => pb
  end.

Definition merged_size (P : list blk) (sz : Z) (N : list blk) : Z :=
  total P + sz + total N.

(** The allocated bit a boundary tag shows for a neighbour. *)
Definition neighbour_bit (l : list blk) : Z :=
  match l with
  | [] => 1
  | _ => 0
  end.

(** No operation but [mem_sbrk] moves the break, and none moves the start
    of the heap, its capacity or [heap_listp]. *)
Definition same_heap (s s' : state) : Prop :=
  mem_start_brk s' = mem_start_brk s /\ mem_brk s' = mem_brk s /\
  mem_max_addr s' = mem_max_addr s /\ heap_listp s' = heap_listp s.


(** ** Checking a concrete heap

    [repb] and [heap_okb] decide [rep] and [heap_ok] for given lists of
    blocks and free lists. *)

Fixpoint contigb (a : Z) (bs : list blk) (e : Z) : bool :=
  match bs with
  | [] => a =? e
  | (bp, sz, _) :: r =>
      (bp =? a) && (MINSIZE <=? sz) && (sz mod 8 =? 0) && contigb (a + sz) r e
  end.

Definition taggedb (m : memory) (b : blk) : bool :=
  let '(bp, sz, al) := b in
  (loadn 4 m (bp - 4) =? tag sz al) && (loadn 4 m (bp + sz - 8) =? tag sz al).

Fixpoint lsegb (m : memory) (h : Z) (l : list Z) (t : Z) : bool :=
  match l with
  | [] => h =? t
  | bp :: r => (h =? bp) && lsegb m (loadn 8 m bp) r t
  end.

Definition listedb (bs : list blk) (i bp : Z) : bool :=
  existsb (fun b : blk => let '(bp', sz, al) := b in
                          (bp' =? bp) && negb al && (smallest_bucket sz =? i))
          bs.

Fixpoint nodupb (l : list Z) : bool :=
  match l with
  | [] => true
  | x :: r => negb (existsb (Z.eqb x) r) && nodupb r
  end.

Definition repb (s : state) (bs : list blk) (fl : Z -> list Z) : bool :=
  (0 <? mem_start_brk s)
  && (mem_max_addr s <=? mem_start_brk s + 2 ^ 31)
  && (mem_max_addr s <? VOID_M1)
  && (mem_brk s <=? mem_max_addr s)
  && (mem_start_brk s <=? heap_listp s - 8)
  && (loadn 4 (mem s) (heap_listp s - 4) =? tag 8 true)
  && (loadn 4 (mem s) (heap_listp s) =? tag 8 true)
  && contigb (heap_listp s + 8) bs (mem_brk s)
  && forallb (taggedb (mem s)) bs
  && (loadn 4 (mem s) (mem_brk s - 4) =? tag 0 true)
  && forallb (fun i => lsegb (mem s) (freelists s i) (fl i) (heap_listp s)
                       && forallb (listedb bs i) (fl i)
                       && nodupb (fl i))
             bucket_indices.

Definition heap_okb (s : state) (bs : list blk) (fl : Z -> list Z) : bool :=
  repb s bs fl
  && forallb (fun b : blk => let '(bp, sz, al) := b in
                             al || existsb (Z.eqb bp) (fl (smallest_bucket sz)))
             bs.

(** No two consecutive blocks of the list are free. *)
Fixpoint no_free_pair (bs : list blk) : bool :=
  match bs with
  | [] => true
  | (_, _, al) :: r =>
      match r with
      | (_, _, false) :: _ => al && no_free_pair r
      | _ => no_free_pair r
      end
  end.

(** The free lists of the heap after [run_six]: bucket 4 holds the 16-byte
    blocks 4176 and 4144, most recently freed first; bucket 8 holds the
    160-byte remainder of the first chunk. *)
Definition lists_six (i : Z) : list Z :=
  if i =? 4 then [4176; 4144] else if i =? 8 then [4208] else [].

(** Four 16-byte blocks; the first and the third are freed. *)
Definition run_three : res (Z * state) :=
  '(a, s) <- malloc fuel0 heap0 8 ;;
  '(b, s) <- malloc fuel0 s 8 ;;
  '(c, s) <- malloc fuel0 s 8 ;;
  '(d, s) <- malloc fuel0 s 8 ;;
  s <- free fuel0 s a ;;
  s <- free fuel0 s c ;;
  Ok (b, s).

(** The second block, between them, is marked free as [free] does before
    it calls [coalesce]. *)
Definition run_freed : res (Z * state) :=
  '(b, s) <- run_three ;;
  size <- GET_SIZE s (HDRP b) ;;
  s1 <- PUT s (HDRP b) (PACK size 0) ;;
  f <- FTRP s1 b ;;
  s2 <- PUT s1 f (PACK size 0) ;;
  Ok (b, s2).

Definition lists_three (i : Z) : list Z :=
  if i =? 4 then [4144; 4112] else if i =? 8 then [4176] else [].

(** The blocks after the freed block 4128 and its free neighbours. *)
Definition blocks_after : list blk := [(4160, 16, true); (4176, 192, false)].

(** The heap after [run_freed24]: the freed 24-byte block, a live block and
    the free remainder of the first chunk. *)
Definition blocks_freed24 : list blk :=
  [(4112, 24, false); (4136, 16, true); (4152, 216, false)].

Definition lists_freed24 (i : Z) : list Z :=
  if i =? 5 then [4112] else if i =? 8 then [4152] else [].

(** The heap after [run_six]. *)
Definition blocks_six : list blk :=
  [(4112, 32, true); (4144, 16, false); (4160, 16, true); (4176, 16, false);
   (4192, 16, true); (4208, 160, false)].

(** The heap after [run_zeroed]. *)
Definition blocks_zeroed : list blk :=
  [(4112, 32, true); (4144, 16, false); (4160, 16, true); (4176, 192, false)].

Definition lists_zeroed (i : Z) : list Z :=
  if i =? 4 then [4144] else if i =? 8 then [4176] else [].

(** The heap after [run_dirty]. *)
Definition blocks_dirty : list blk :=
  [(4112, 48, false); (4160, 32, true); (4192, 16, true); (4208, 160, false)].

Definition lists_dirty (i : Z) : list Z :=
  if i =? 6 then [4112] else if i =? 8 then [4208] else [].

(** ** What the operations may write

    [off_free bs x]: the byte at [x] belongs to no free block of [bs]
    (header, payload and footer). *)
Definition off_free (bs : list blk) (x : Z) : Prop :=
  forall q sq, In (q, sq, false) bs -> x < q - 4 \/ q + sq - 4 <= x.

(** A well-formed heap between two calls of the public operations: every
    free block is listed, no two neighbouring blocks are both free, and
    block pointers are multiples of 8. *)
Definition heap_inv (s : state) (bs : list blk) (fl : Z -> list Z) : Prop :=
  heap_ok s bs fl /\ no_free_pair bs = true /\ heap_listp s mod 8 = 0.

(** Fuel that no loop of the allocator can use up: every loop walks a free
    list or a payload, and the heap never holds more bytes than the
    provider's capacity. *)
Definition fuel_for (s : state) (fuel : nat) : Prop :=
  mem_max_addr s - mem_start_brk s <= Z.of_nat fuel.

(** Every byte of every live block of [bs], header and footer included, is
    the same in [s'] as in [s]. *)
Definition keeps (bs : list blk) (s s' : state) : Prop :=
  forall q sq x, In (q, sq, true) bs -> q - 4 <= x < q + sq - 4 ->
                 mem s' x = mem s x.

(** ** Sequences of calls

    A client calls the four public operations one after the other. *)
Inductive call : Type :=
| Malloc (n : Z)
| Free (p : Z)
| Realloc (p n : Z)
| Calloc (nmemb size : Z).

(** The value a call returns (0 for [free], which returns nothing) and the
    state it leaves. *)
Definition run_call (fuel : nat) (s : state) (c : call) : res (Z * state) :=
  match c with
  | Malloc n => malloc fuel s n
  | Free p => s' <- free fuel s p ;; Ok (0, s')
  | Realloc p n => realloc fuel s p n
  | Calloc nmemb size => calloc fuel s nmemb size
  end.

(** A live block: a block met by the heap walk whose header is marked
    allocated. *)
Definition live (s : state) (p : Z) : Prop :=
  is_block s p /\ GET_ALLOC s (HDRP p) = Ok 1.

(** The calls a client may make: a pointer argument is NULL or a live
    block, and a size plus the 15 bytes of overhead and rounding fits
    [size_t]. *)
Definition legal (s : state) (c : call) : Prop :=
  match c with
  | Malloc n => 0 <= n <= SIZE_MAX - 15
  | Free p => p = NULL \/ live s p
  | Realloc p n => (p = NULL \/ live s p) /\ 0 <= n <= SIZE_MAX - 15
  | Calloc nmemb size => wrap64 (nmemb * size) <= SIZE_MAX - 15
  end.

(** A provider [mm_init] can start from: the heap lies above address 0,
    its break is a multiple of 8 and its capacity is at most 2^31 bytes. *)
Definition provider_ok (s : state) : Prop :=
  0 < mem_start_brk s <= mem_brk s /\ mem_brk s mod 8 = 0 /\
  mem_max_addr s <= mem_start_brk s + 2 ^ 31 /\ mem_max_addr s < VOID_M1.

(** The states between two calls: after a successful [mm_init], and after
    every legal call that returned. *)
Inductive reach (fuel : nat) (s0 : state) : state -> Prop :=
| reach_init (s : state) :
    mm_init fuel s0 = Ok (0, s) -> reach fuel s0 s
| reach_call (s s' : state) (c : call) (v : Z) :
    reach fuel s0 s -> legal s c -> run_call fuel s c = Ok (v, s') ->
    reach fuel s0 s'.

(** ** More of [mm.c] *)

(** [aligned] of [mm.c]: [(size_t)ALIGN(p) == (size_t)p]. *)
Definition aligned (p : Z) : bool := ALIGN p =? p.

(** ** The heap checker

    [mm_checkheap] prints messages and may end the program with [exit(0)].
    The model returns the messages in the order printed, with the values
    they print, and tells whether the function returned or exited. *)
Inductive message : Type :=
| Prologue_malformed
| Start_free_list
| Free_list_element (p : Z)
| Not_found_in_heap (lineno : Z)
| Outside_heap (lineno : Z)
| Stop_free_list
| Checking (p size alloc : Z)
| Mismatch (header footer lineno : Z)
| Too_small (size lineno : Z)
| Not_aligned (lineno : Z)
| Not_in_free_list (p lineno : Z).

Inductive outcome : Type :=
| Returned
| Exited.

(** [if (!GET_ALLOC(HDRP(heap_listp)) || GET_SIZE(HDRP(heap_listp)) != DSIZE
        || GET(HDRP(heap_listp)) != GET(FTRP(heap_listp)))], with the
    short-circuit evaluation of [||]. *)
Definition check_prologue (s : state) : res (list message) :=
  a <- GET_ALLOC s (HDRP (heap_listp s)) ;;
  if a =? 0 then Ok [Prologue_malformed]
  else
    sz <- GET_SIZE s (HDRP (heap_listp s)) ;;
    if negb (sz =? DSIZE) then Ok [Prologue_malformed]
    else
      h <- GET s (HDRP (heap_listp s)) ;;
      f <- FTRP s (heap_listp s) ;;
      w <- GET s f ;;
      if negb (h =? w) then Ok [Prologue_malformed] else Ok [].

(** [while (curfree != curptr) { if (!(in_heap(curptr))) { ...; exit(0); }
     curptr = NEXT_BLKP(curptr); }]: [true] when the loop ends, [false]
    when the program exits. *)
Fixpoint find_in_heap (fuel : nat) (s : state) (curfree curptr : Z)
  : res bool :=
  match fuel with
  | O => OutOfFuel
  | S k =>
      if negb (curfree =? curptr) then
        if negb (in_heap s curptr) then Ok false
        else nb <- NEXT_BLKP s curptr ;; find_in_heap k s curfree nb
      else Ok true
  end.

(** [while (!GET_ALLOC(HDRP(curfree))) { ... curfree = SUCC(curfree); }]
    over one free list; [f] is the fuel of the inner loop. *)
Fixpoint check_list (f fuel : nat) (s : state) (lineno curfree : Z)
  : res (list message * outcome) :=
  match fuel with
  | O => OutOfFuel
  | S k =>
      a <- GET_ALLOC s (HDRP curfree) ;;
      if a =? 0 then
        found <- find_in_heap f s curfree (heap_listp s + DSIZE) ;;
        if found then
          let m := if negb (in_heap s curfree) then [Outside_heap lineno]
                   else [] in
          nx <- SUCC s curfree ;;
          '(ms, o) <- check_list f k s lineno nx ;;
          Ok (Free_list_element curfree :: m ++ ms, o)
        else Ok ([Free_list_element curfree; Not_found_in_heap lineno], Exited)
      else Ok ([], Returned)
  end.

(** [for (int i = 0; i < NUMLIST; i++) { first_free = freelists[i]; ... }]
    with [n] iterations left; the result carries the last value of
    [first_free], which the walk over the blocks goes on to use. *)
Fixpoint check_lists (n fuel : nat) (s : state) (lineno i first_free : Z)
  : res (list message * outcome * Z) :=
  match n with
  | O => Ok ([], Returned, first_free)
  | S k =>
      let first_free := freelists s i in
      '(ms, o) <- check_list fuel fuel s lineno first_free ;;
      match o with
      | Exited => Ok (Start_free_list :: ms, Exited, first_free)
      | Returned =>
          '(ms', o', ff) <- check_lists k fuel s lineno (i + 1) first_free ;;
          Ok (Start_free_list :: ms ++ Stop_free_list :: ms', o', ff)
      end
  end.

(** [for (int i = 0; i < NUMLIST; i++) if (GET_SIZE(HDRP(curptr)) <=
     (unsigned int) 1<<i) { first_free = freelists[i]; break; }]: when no
    [i] is found, [first_free] keeps the value it had. *)
Fixpoint pick_list (n : nat) (s : state) (size i first_free : Z) : Z :=
  match n with
  | O => first_free
  | S k => if size <=? Z.shiftl 1 i then freelists s i
           else pick_list k s size (i + 1) first_free
  end.

(** [while (curptr != curfree) { if (GET_ALLOC(HDRP(curfree))) { ...;
     exit(0); } curfree = SUCC(curfree); }]: [true] when the loop ends,
    [false] when the program exits. *)
Fixpoint find_in_list (fuel : nat) (s : state) (curptr curfree : Z)
  : res bool :=
  match fuel with
  | O => OutOfFuel
  | S k =>
      if negb (curptr =? curfree) then
        a <- GET_ALLOC s (HDRP curfree) ;;
        if negb (a =? 0) then Ok false
        else nx <- SUCC s curfree ;; find_in_list k s curptr nx
      else Ok true
  end.

(** [while (in_heap(curptr)) { ... curptr = NEXT_BLKP(curptr); }] over the
    blocks; [f] is the fuel of the inner loop. *)
Fixpoint check_blocks (f fuel : nat) (s : state)
         (lineno curptr first_free : Z) : res (list message * outcome) :=
  match fuel with
  | O => OutOfFuel
  | S k =>
      if in_heap s curptr then
        sz <- GET_SIZE s (HDRP curptr) ;;
        al <- GET_ALLOC s (HDRP curptr) ;;
        let m := Checking curptr (to_int sz) (to_int al) in
        h <- GET s (HDRP curptr) ;;
        ft <- FTRP s curptr ;;
        w <- GET s ft ;;
        if negb (h =? w) then Ok ([m; Mismatch h w lineno], Exited)
        else if sz <? MINSIZE then Ok ([m; Too_small (to_int sz) lineno], Exited)
        else if negb (aligned curptr) then Ok ([m; Not_aligned lineno], Exited)
        else
          let first_free := pick_list (Z.to_nat NUMLIST) s sz 0 first_free in
          found <- (if al =? 0 then find_in_list f s curptr first_free
                    else Ok true) ;;
          if found then
            nb <- NEXT_BLKP s curptr ;;
            '(ms, o) <- check_blocks f k s lineno nb first_free ;;
            Ok (m :: ms, o)
          else Ok ([m; Not_in_free_list curptr lineno], Exited)
      else Ok ([], Returned)
  end.

Definition mm_checkheap (fuel : nat) (s : state) (lineno : Z)
  : res (list message * outcome) :=
  m0 <- check_prologue s ;;
  '(m1, o1, first_free) <- check_lists (Z.to_nat NUMLIST) fuel s lineno 0 0 ;;
  match o1 with
  | Exited => Ok (m0 ++ m1, Exited)
  | Returned =>
      '(m2, o2) <- check_blocks fuel fuel s lineno (heap_listp s + DSIZE)
                                first_free ;;
      Ok (m0 ++ m1 ++ m2, o2)
  end.

(** What the checker prints for a well-formed heap: the free lists bucket
    by bucket, then the blocks in address order. *)
Definition list_messages (fl : Z -> list Z) (l : list Z) : list message :=
  flat_map (fun i => Start_free_list :: map Free_list_element (fl i)
                       ++ [Stop_free_list]) l.

Definition block_messages (bs : list blk) : list message :=
  map (fun b : blk => let '(q, sq, al) := b in Checking q sq (bit al)) bs.

(** ** More scenarios *)

(** [heap_invb] decides [heap_inv] for given lists of blocks and free
    lists. *)
Definition heap_invb (s : state) (bs : list blk) (fl : Z -> list Z) : bool :=
  heap_okb s bs fl && no_free_pair bs && (heap_listp s mod 8 =? 0).

(** Fuel for a provider of 1000 bytes. *)
Definition fuel1 : nat := 1000.

(** The freshly initialised heap: one free block of 256 bytes, in the list
    of bucket 8. *)
Definition blocks0 : list blk := [(4112, 256, false)].

Definition lists0 (i : Z) : list Z := if i =? 8 then [4112] else [].

(** A client that initialises the heap, allocates 24 bytes and frees
    them. *)
Definition reach1 : state := final (mm_init fuel1 (fresh zeros 1000)).
Definition reach2 : state := final (run_call fuel1 reach1 (Malloc 24)).
Definition reach3 : state := final (run_call fuel1 reach2 (Free 4112)).

(** A client of a provider of [2^25] bytes: a 24-byte block stays live, a
    block of more than [2^24] bytes is allocated after it and freed.  The
    heap then holds the live block and one free block, in the last free
    list. *)
Definition heap_big : state := final (mm_init fuel1 (fresh zeros (2 ^ 25))).

Definition run_big : res (Z * state) :=
  '(a, s) <- malloc fuel1 heap_big 24 ;;
  '(b, s) <- malloc fuel1 s (2 ^ 24 + 8) ;;
  s <- free fuel1 s b ;;
  Ok (a, s).

Definition blocks_big : list blk :=
  [(4112, 32, true); (4144, 16777456, false)].

Definition lists_big (i : Z) : list Z := if i =? 24 then [4144] else [].
(** * Runs of the allocator on concrete heaps *)

Ltac run := vm_compute; reflexivity.

Lemma heap0_initialised :
  value (mm_init fuel0 (fresh zeros 1000)) (-1) = 0 /\
  mem_max_addr heap0 - mem_start_brk heap0 = 1000 /\
  heap_listp heap0 = 4104 /\ mem_brk heap0 = 4368.
Proof. do 3 (split; [run|]); run. Qed.

(** C2, at a failing input.  The provider can supply 1000 bytes, so the
    allocation inside [calloc(1, 2000)] fails and returns NULL; [calloc]
    then reads the header of NULL, four bytes below address 0 and outside
    the heap, instead of returning NULL. *)
Theorem calloc_reads_header_of_null :
  value (malloc fuel0 heap0 (wrap64 (1 * 2000))) 1 = NULL /\
  GET_SIZE heap0 (HDRP NULL) = Fault /\
  calloc fuel0 heap0 1 2000 = Fault.
Proof. do 2 (split; [run|]); run. Qed.

(** C3, at a failing input.  A request of [SIZE_MAX] bytes exceeds the 1000
    bytes the provider can supply, yet [malloc] returns a non-null pointer,
    to a 16-byte block with an 8-byte payload, without asking the provider
    for memory. *)
Theorem malloc_huge_returns_block :
  mem_max_addr heap0 - mem_start_brk heap0 < SIZE_MAX /\
  value (malloc fuel0 heap0 SIZE_MAX) NULL = 4112 /\
  payload_size (final (malloc fuel0 heap0 SIZE_MAX)) 4112 = Ok 8 /\
  mem_brk (final (malloc fuel0 heap0 SIZE_MAX)) = mem_brk heap0.
Proof. do 3 (split; [run|]); run. Qed.


(** * Machine arithmetic *)

Lemma shiftl_1 (i : Z) : 0 <= i -> Z.shiftl 1 i = 2 ^ i.
Proof. intros H. rewrite Z.shiftl_1_l. reflexivity. Qed.

Lemma land_clear3 (k a : Z) :
  3 <= k -> Z.land a (2 ^ k - 8) = 8 * ((a / 8) mod 2 ^ (k - 3)).
Proof.
  intros Hk.
  assert (E : 2 ^ k - 8 = Z.shiftl (Z.ones (k - 3)) 3).
  { rewrite Z.ones_equiv, Z.shiftl_mul_pow2 by lia.
    replace (2 ^ k) with (2 ^ (k - 3) * 2 ^ 3)
      by (rewrite <- Z.pow_add_r by lia; f_equal; lia).
    change (2 ^ 3) with 8. lia. }
  rewrite E.
  replace (8 * ((a / 8) mod 2 ^ (k - 3)))
    with (Z.shiftl (Z.land (Z.shiftr a 3) (Z.ones (k - 3))) 3).
  - rewrite Z.shiftl_land.
    apply Z.bits_inj'. intros n Hn.
    rewrite !Z.land_spec.
    destruct (Z.ltb_spec n 3).
    + rewrite (Z.shiftl_spec_low (Z.ones (k - 3))) by lia.
      rewrite !andb_false_r. reflexivity.
    + rewrite (Z.shiftl_spec (Z.shiftr a 3)) by lia.
      rewrite Z.shiftr_spec by lia.
      replace (n - 3 + 3) with n by lia. reflexivity.
  - rewrite Z.land_ones by lia. rewrite Z.shiftr_div_pow2 by lia.
    rewrite Z.shiftl_mul_pow2 by lia. change (2 ^ 3) with 8. lia.
Qed.

(** A size that is a multiple of 8 and fits 32 bits survives
    [GET_SIZE(PACK(size, alloc))]. *)
Lemma land_size (sz b : Z) :
  0 <= sz < 2 ^ 32 -> sz mod 8 = 0 -> 0 <= b < 8 ->
  Z.land (sz + b) (2 ^ 32 - 8) = sz.
Proof.
  intros Hs Hm Hb. rewrite land_clear3 by lia.
  change (2 ^ (32 - 3)) with 536870912. change (2 ^ 32) with 4294967296 in Hs.
  assert (E : (sz + b) / 8 = sz / 8).
  { pose proof (Z.div_mod sz 8 ltac:(lia)) as D.
    replace (sz + b) with (b + sz / 8 * 8) by lia.
    rewrite Z.div_add by lia. rewrite Z.div_small by lia. lia. }
  rewrite E. rewrite Z.mod_small.
  - pose proof (Z.div_mod sz 8 ltac:(lia)). lia.
  - split; [apply Z.div_pos; lia|].
    apply Z.div_lt_upper_bound; lia.
Qed.

Lemma land_1 (a : Z) : Z.land a 1 = a mod 2.
Proof. change 1 with (Z.ones 1). rewrite Z.land_ones by lia. reflexivity. Qed.

Lemma lor_bit (sz b : Z) :
  sz mod 8 = 0 -> 0 <= b < 8 -> Z.lor sz b = sz + b.
Proof.
  intros Hm Hb.
  pose proof (Z.add_lor_land sz b) as E.
  assert (L : Z.land sz b = 0).
  { apply Z.bits_inj'. intros n Hn. rewrite Z.land_spec, Z.bits_0.
    destruct (Z.ltb_spec n 3).
    - assert (T : Z.testbit sz n = false).
      { replace sz with (Z.shiftl (sz / 8) 3).
        - apply Z.shiftl_spec_low; lia.
        - rewrite Z.shiftl_mul_pow2 by lia. change (2 ^ 3) with 8.
          pose proof (Z.div_mod sz 8 ltac:(lia)). lia. }
      rewrite T. reflexivity.
    - assert (T : Z.testbit b n = false).
      { destruct (Z.eq_dec b 0) as [->|]; [apply Z.bits_0|].
        apply Z.bits_above_log2; [lia|].
        assert (Z.log2 b < 3) by (apply Z.log2_lt_pow2; [lia|]; change (2 ^ 3) with 8; lia).
        lia. }
      rewrite T. apply andb_false_r. }
  lia.
Qed.

(** * The size-class loop computes the smallest bucket *)

Lemma find_upto_some (f : Z -> bool) (n : nat) : forall i x,
  find f (upto n i) = Some x ->
  i <= x < i + Z.of_nat n /\ f x = true /\
  forall y, i <= y < x -> f y = false.
Proof.
  induction n as [|n IH]; intros i x H; [discriminate H|].
  cbn [upto find] in H. destruct (f i) eqn:Fi.
  - injection H as <-. repeat split; try lia. exact Fi.
  - apply IH in H. destruct H as (Hr & Hx & Hy).
    repeat split; try lia; [exact Hx|].
    intros y Hyr. destruct (Z.eq_dec y i) as [->|]; [exact Fi|].
    apply Hy. lia.
Qed.

Lemma find_upto_none (f : Z -> bool) (n : nat) : forall i,
  find f (upto n i) = None ->
  forall y, i <= y < i + Z.of_nat n -> f y = false.
Proof.
  induction n as [|n IH]; intros i H y Hy; [lia|].
  cbn [upto find] in H. destruct (f i) eqn:Fi; [discriminate H|].
  destruct (Z.eq_dec y i) as [->|]; [exact Fi|].
  apply (IH (i + 1) H). lia.
Qed.

Lemma smallest_bucket_range (size : Z) : 0 <= smallest_bucket size <= 24.
Proof.
  unfold smallest_bucket.
  destruct (find _ bucket_indices) eqn:F.
  - apply find_upto_some in F. cbn in F. lia.
  - cbn. lia.
Qed.

(** Below [2^24] the smallest bucket is characterised by [size <= 2^j]. *)
Lemma smallest_bucket_le (size j : Z) :
  size <= 2 ^ 24 -> 0 <= j <= 24 ->
  (size <=? 2 ^ j) = (smallest_bucket size <=? j).
Proof.
  intros Hs Hj. unfold smallest_bucket.
  destruct (find _ bucket_indices) eqn:F.
  - apply find_upto_some in F. destruct F as (Hr & Hz & Hlt).
    apply Z.leb_le in Hz.
    destruct (Z.leb_spec z j) as [L|L].
    + apply Z.leb_le.
      assert (2 ^ z <= 2 ^ j) by (apply Z.pow_le_mono_r; lia). lia.
    + apply Hlt. lia.
  - pose proof (find_upto_none _ _ _ F 24 ltac:(cbn; lia)) as N.
    cbn beta in N. apply Z.leb_gt in N. lia.
Qed.

Lemma smallest_bucket_big (size : Z) :
  2 ^ 24 < size -> smallest_bucket size = 24.
Proof.
  intros Hs. unfold smallest_bucket.
  destruct (find _ bucket_indices) eqn:F; [|reflexivity].
  apply find_upto_some in F. destruct F as (Hr & Hz & _).
  apply Z.leb_le in Hz. cbn in Hr.
  assert (2 ^ z <= 2 ^ 24) by (apply Z.pow_le_mono_r; lia). lia.
Qed.

Lemma class_loop_spec (size : Z) (n : nat) : forall i,
  0 <= i -> size <= 2 ^ (i + Z.of_nat n) ->
  (forall y, 0 <= y < i -> 2 ^ y < size) ->
  exists j, class_loop (S n) i size = Ok j /\ i <= j /\ size <= 2 ^ j /\
            forall y, 0 <= y < j -> 2 ^ y < size.
Proof.
  induction n as [|n IH]; intros i Hi Hs Hlow.
  - cbn [class_loop]. rewrite shiftl_1 by lia.
    replace (i + Z.of_nat 0) with i in Hs by lia.
    destruct (Z.gtb_spec size (2 ^ i)) as [G|G]; [lia|].
    exists i. repeat split; try lia; assumption.
  - remember (S n) as m eqn:Em. cbn [class_loop]. rewrite shiftl_1 by lia.
    destruct (Z.gtb_spec size (2 ^ i)) as [G|G].
    + subst m. destruct (IH (i + 1)) as (j & Hj & Hr); try lia.
      * replace (i + 1 + Z.of_nat n) with (i + Z.of_nat (S n)) by lia.
        exact Hs.
      * intros y Hy. destruct (Z.eq_dec y i) as [->|]; [lia|].
        apply Hlow. lia.
      * exists j. split; [exact Hj|]. destruct Hr as (? & ? & ?).
        repeat split; try lia; assumption.
    + exists i. repeat split; try lia; assumption.
Qed.

(** [size_class] is the specification's bucket, for every size that fits
    the 31 defined shifts. *)
Lemma size_class_spec (size : Z) :
  size <= 2 ^ 31 -> size_class size = Ok (smallest_bucket size).
Proof.
  intros Hs. unfold size_class.
  destruct (class_loop_spec size 31 0 ltac:(lia) Hs ltac:(intros; lia))
    as (j & Hj & H0 & Hle & Hlow).
  change (S 31) with 32%nat in Hj.
  rewrite Hj. cbn [bind]. f_equal. unfold MIN, NUMLIST.
  unfold smallest_bucket.
  destruct (find _ bucket_indices) eqn:F.
  - apply find_upto_some in F. destruct F as (Hr & Hz & Hlt).
    apply Z.leb_le in Hz. cbn in Hr.
    assert (z = j).
    { destruct (Z.lt_trichotomy z j) as [L|[L|L]]; [|exact L|].
      - specialize (Hlow z ltac:(lia)). lia.
      - specialize (Hlt j ltac:(lia)). apply Z.leb_gt in Hlt. lia. }
    subst z. destruct (Z.ltb_spec j (25 - 1)); lia.
  - pose proof (find_upto_none _ _ _ F) as N. cbn in N.
    destruct (Z.ltb_spec j (25 - 1)) as [L|L]; [|reflexivity].
    specialize (N j ltac:(lia)). apply Z.leb_gt in N. lia.
Qed.

(** * Fit search *)

Lemma find_app {A : Type} (f : A -> bool) (l1 l2 : list A) :
  find f (l1 ++ l2) =
  match find f l1 with Some x => Some x | None => find f l2 end.
Proof.
  induction l1 as [|a l1 IH]; [reflexivity|].
  cbn. destruct (f a); [reflexivity | exact IH].
Qed.

Lemma In_upto (n : nat) : forall i x, In x (upto n i) -> i <= x < i + Z.of_nat n.
Proof.
  induction n as [|n IH]; intros i x H; [destruct H|].
  destruct H as [<-|H]; [lia|]. apply IH in H. lia.
Qed.

Lemma GET_ALLOC_size (s : state) (bp a : Z) :
  GET_ALLOC s (HDRP bp) = Ok a -> GET_SIZE s (HDRP bp) = Ok (block_size s bp).
Proof.
  unfold GET_ALLOC, GET_SIZE, GET, block_size.
  destruct (valid s (HDRP bp) 4); [reflexivity | discriminate].
Qed.

Lemma scan_list_spec (s : state) (asize : Z) (bp : Z) (l : list Z) :
  free_chain s bp l -> forall fuel, (length l < fuel)%nat ->
  scan_list fuel s asize bp =
  Ok (find (fun b => asize <=? block_size s b) l).
Proof.
  induction 1 as [bp a Ha Hnz | bp nx l Ha Hs Hc IH]; intros fuel Hf.
  - destruct fuel as [|k]; [cbn in Hf; lia|].
    cbn [scan_list]. rewrite Ha. cbn [bind].
    destruct (Z.eqb_spec a 0); [contradiction | reflexivity].
  - destruct fuel as [|k]; [cbn in Hf; lia|].
    cbn [scan_list]. rewrite Ha. cbn [bind]. rewrite Z.eqb_refl.
    rewrite (GET_ALLOC_size _ _ _ Ha). cbn [bind find].
    destruct (asize <=? block_size s bp); [reflexivity|].
    rewrite Hs. cbn [bind]. apply IH. cbn in Hf. lia.
Qed.

Lemma fit_loop_spec (fuel : nat) (s : state) (asize : Z) (fl : Z -> list Z)
      (n : nat) : forall i,
  0 <= i ->
  (forall j, i <= j < i + Z.of_nat n ->
             free_chain s (freelists s j) (fl j) /\ (length (fl j) < fuel)%nat) ->
  fit_loop n fuel s asize i =
  Ok (first_fit s asize
        (concat (map fl (filter (fun j => asize <=? 2 ^ j) (upto n i))))).
Proof.
  induction n as [|n IH]; intros i Hi H; [reflexivity|].
  cbn [fit_loop upto filter]. rewrite shiftl_1 by lia.
  assert (Hn : fit_loop n fuel s asize (i + 1) =
               Ok (first_fit s asize
                     (concat (map fl (filter (fun j => asize <=? 2 ^ j)
                                             (upto n (i + 1)))))))
    by (apply IH; [lia | intros j Hj; apply H; lia]).
  destruct (asize <=? 2 ^ i); [|exact Hn].
  destruct (H i ltac:(lia)) as [Hc Hl].
  rewrite (scan_list_spec _ _ _ _ Hc _ Hl). cbn [bind map concat].
  unfold first_fit. rewrite find_app.
  destruct (find _ (fl i)); [reflexivity | exact Hn].
Qed.

(** C5.  [find_fit] is first fit over the buckets from the smallest bucket
    index [i] with [asize <= 2^i] (the last bucket, 24, if there is none)
    upwards: it scans that bucket from its head in link order, then the
    buckets of larger index in ascending order, and returns the first block
    whose size is at least [asize], or NULL when all are exhausted.  The
    free lists are any lists the links describe: [fl i] is the list met from
    [freelists[i]], ended by a block marked allocated. *)
Theorem find_fit_first_fit (fuel : nat) (s : state) (asize : Z)
        (fl : Z -> list Z) :
  (forall i, 0 <= i < NUMLIST -> free_chain s (freelists s i) (fl i)) ->
  (forall i, 0 <= i < NUMLIST -> (length (fl i) < fuel)%nat) ->
  find_fit fuel s asize =
  Ok (first_fit s asize (buckets_from fl (smallest_bucket asize))).
Proof.
  intros Hc Hl. unfold find_fit, buckets_from, bucket_indices.
  change (Z.shiftl 1 (NUMLIST - 1)) with (2 ^ 24).
  destruct (Z.gtb_spec asize (2 ^ 24)) as [G|G].
  - rewrite (smallest_bucket_big asize) by lia.
    rewrite (scan_list_spec _ _ _ _ (Hc (NUMLIST - 1) ltac:(unfold NUMLIST; lia)) _
                            (Hl (NUMLIST - 1) ltac:(unfold NUMLIST; lia))).
    cbn [bind]. change (NUMLIST - 1) with 24.
    change (concat (map fl (filter (fun j => 24 <=? j) (upto (Z.to_nat NUMLIST) 0))))
      with (fl 24 ++ []).
    rewrite app_nil_r. unfold first_fit.
    destruct (find _ (fl 24)); reflexivity.
  - rewrite (fit_loop_spec fuel s asize fl (Z.to_nat NUMLIST) 0 ltac:(lia)).
    2:{ intros j Hj. unfold NUMLIST in *. cbn in Hj.
        split; [apply Hc | apply Hl]; lia. }
    do 4 f_equal. apply filter_ext_in. intros j Hj.
    apply In_upto in Hj. unfold NUMLIST in Hj. cbn in Hj. apply smallest_bucket_le; lia.
Qed.

Lemma bucket_cases (i : Z) :
  0 <= i < NUMLIST ->
  i = 4 \/ i = 8 \/ In i [0; 1; 2; 3; 5; 6; 7; 9; 10; 11; 12; 13; 14; 15; 16;
                         17; 18; 19; 20; 21; 22; 23; 24].
Proof. unfold NUMLIST. cbn [In]. lia. Qed.

Lemma lists_six_chains (i : Z) :
  0 <= i < NUMLIST ->
  free_chain (final run_six) (freelists (final run_six) i) (lists_six i).
Proof.
  intros Hi.
  assert (E : forall bp, In bp [4176; 4144; 4208] ->
                         GET_ALLOC (final run_six) (HDRP bp) = Ok 0).
  { intros bp [<-|[<-|[<-|[]]]]; vm_compute; reflexivity. }
  assert (P : GET_ALLOC (final run_six) (HDRP 4104) = Ok 1)
    by (vm_compute; reflexivity).
  destruct (bucket_cases i Hi) as [->|[->|H]].
  - replace (freelists (final run_six) 4) with 4176 by (vm_compute; reflexivity).
    change (lists_six 4) with [4176; 4144].
    apply chain_link with (nx := 4144);
      [apply E; cbn; tauto | vm_compute; reflexivity |].
    apply chain_link with (nx := 4104);
      [apply E; cbn; tauto | vm_compute; reflexivity |].
    apply chain_end with (a := 1); [exact P | discriminate].
  - replace (freelists (final run_six) 8) with 4208 by (vm_compute; reflexivity).
    change (lists_six 8) with [4208].
    apply chain_link with (nx := 4104);
      [apply E; cbn; tauto | vm_compute; reflexivity |].
    apply chain_end with (a := 1); [exact P | discriminate].
  - assert (F : freelists (final run_six) i = 4104 /\ lists_six i = []).
    { cbn [In] in H.
      repeat (destruct H as [<-|H]; [split; vm_compute; reflexivity|]).
      destruct H. }
    destruct F as [-> ->].
    apply chain_end with (a := 1); [exact P | discriminate].
Defined.

Lemma lists_six_short (i : Z) :
  0 <= i < NUMLIST -> (length (lists_six i) < fuel0)%nat.
Proof.
  intros _. unfold lists_six, fuel0.
  destruct (i =? 4); [cbn; lia|]. destruct (i =? 8); cbn; lia.
Defined.

(** On the heap left by [run_six] a request of 16 bytes is served from
    bucket 4 by the block freed last, one of 24 bytes from bucket 8. *)
Lemma find_fit_first_fit_witness :
  find_fit fuel0 (final run_six) 16 = Ok 4176 /\
  find_fit fuel0 (final run_six) 24 = Ok 4208.
Proof.
  split.
  - rewrite (find_fit_first_fit fuel0 (final run_six) 16 lists_six
               lists_six_chains lists_six_short).
    vm_compute. reflexivity.
  - rewrite (find_fit_first_fit fuel0 (final run_six) 24 lists_six
               lists_six_chains lists_six_short).
    vm_compute. reflexivity.
Defined.

(** * Running the code: inversion of [bind] *)

Lemma bind_Ok {A B : Type} (r : res A) (k : A -> res B) (b : B) :
  bind r k = Ok b -> exists a, r = Ok a /\ k a = Ok b.
Proof. destruct r; cbn; intros H; [eauto | discriminate H | discriminate H]. Qed.

Ltac inv_ok :=
  repeat match goal with
         | H : bind _ _ = Ok _ |- _ =>
             apply bind_Ok in H; destruct H as (? & ? & H)
         | H : (let '(_, _) := ?p in _) = Ok _ |- _ => destruct p
         | H : Ok _ = Ok _ |- _ => injection H as H; subst
         | H : (_, _) = (_, _) |- _ => injection H as H; subst
         | H : Fault = Ok _ |- _ => discriminate H
         | H : OutOfFuel = Ok _ |- _ => discriminate H
         end.

(** * What the operations leave alone *)

Lemma same_heap_refl (s : state) : same_heap s s.
Proof. repeat split. Qed.

Lemma same_heap_trans (s1 s2 s3 : state) :
  same_heap s1 s2 -> same_heap s2 s3 -> same_heap s1 s3.
Proof. unfold same_heap. intuition congruence. Qed.

Lemma PUT_same (s s' : state) (p v : Z) : PUT s p v = Ok s' -> same_heap s s'.
Proof.
  unfold PUT. destruct (valid s p 4); intros H; inv_ok. repeat split.
Qed.

Lemma SUCC_set_same (s s' : state) (bp p : Z) :
  SUCC_set s bp p = Ok s' -> same_heap s s'.
Proof.
  unfold SUCC_set. destruct (valid s bp 8); intros H; inv_ok. repeat split.
Qed.

Lemma set_freelist_same (s : state) (i p : Z) : same_heap s (set_freelist s i p).
Proof. repeat split. Qed.

Lemma freelist_remove_same (fuel : nat) (s s' : state) (bp : Z) :
  freelist_remove fuel s bp = Ok s' -> same_heap s s'.
Proof.
  unfold freelist_remove. intros H. inv_ok.
  destruct (_ && _); [inv_ok; apply set_freelist_same|].
  destruct (_ && _); [inv_ok; apply set_freelist_same|].
  inv_ok. eapply SUCC_set_same; eassumption.
Qed.

Lemma freelist_insert_same (s s' : state) (bp : Z) :
  freelist_insert s bp = Ok s' -> same_heap s s'.
Proof.
  unfold freelist_insert. intros H. inv_ok.
  eapply same_heap_trans; [eapply SUCC_set_same; eassumption|].
  apply set_freelist_same.
Qed.

Ltac same_chain :=
  repeat first
    [ eassumption
    | apply same_heap_refl
    | eapply same_heap_trans;
      [ first [ eapply PUT_same; eassumption
              | eapply SUCC_set_same; eassumption
              | eapply freelist_remove_same; eassumption
              | eapply freelist_insert_same; eassumption ] | ] ].

Lemma GET_valid (s : state) (p w : Z) :
  GET s p = Ok w -> mem_start_brk s <= p /\ p + 4 <= mem_brk s.
Proof.
  unfold GET, valid. intros H.
  destruct (mem_start_brk s <=? p) eqn:E1; [|discriminate H].
  destruct (p + 4 <=? mem_brk s) eqn:E2; [|discriminate H].
  apply Z.leb_le in E1, E2. lia.
Qed.

Lemma GET_SIZE_valid (s : state) (p w : Z) :
  GET_SIZE s p = Ok w -> mem_start_brk s <= p /\ p + 4 <= mem_brk s.
Proof. unfold GET_SIZE. intros H. inv_ok. eapply GET_valid; eassumption. Qed.

(** A block handed to [freelist_insert] has its header inside the heap. *)
Lemma freelist_insert_valid (s s' : state) (bp : Z) :
  freelist_insert s bp = Ok s' -> mem_start_brk s <= bp - 4.
Proof.
  unfold freelist_insert. intros H. inv_ok.
  match goal with H : GET_SIZE _ _ = Ok _ |- _ => apply GET_SIZE_valid in H end.
  unfold HDRP, WSIZE in *. lia.
Qed.

Lemma coalesce_same_and_valid (fuel : nat) (s s' : state) (bp bp' : Z) :
  coalesce fuel s bp = Ok (bp', s') ->
  same_heap s s' /\ mem_start_brk s <= bp' - 4.
Proof.
  unfold coalesce. intros H. inv_ok.
  repeat match goal with
         | H : (if ?b then _ else _) = Ok _ |- _ => destruct b
         end; inv_ok;
  match goal with
  | H : freelist_insert ?t _ = Ok _ |- _ =>
      assert (S1 : same_heap s t) by same_chain;
      pose proof (freelist_insert_valid _ _ _ H) as V;
      pose proof (freelist_insert_same _ _ _ H) as S2
  end;
  (split; [exact (same_heap_trans _ _ _ S1 S2)|]);
  destruct S1 as (E & _); lia.
Qed.

Lemma coalesce_same (fuel : nat) (s s' : state) (bp bp' : Z) :
  coalesce fuel s bp = Ok (bp', s') -> same_heap s s'.
Proof. intros H. apply coalesce_same_and_valid in H. tauto. Qed.

Lemma place_same (fuel : nat) (s s' : state) (bp asize : Z) :
  place fuel s bp asize = Ok s' -> same_heap s s'.
Proof.
  unfold place. intros H. inv_ok.
  destruct (_ >=? _); inv_ok.
  - match goal with
    | H : coalesce _ ?t _ = Ok _ |- _ =>
        pose proof (coalesce_same _ _ _ _ _ H) as S2;
        assert (S1 : same_heap s t) by same_chain
    end.
    exact (same_heap_trans _ _ _ S1 S2).
  - same_chain.
Qed.

(** * [malloc] returns NULL exactly when the provider fails *)

Lemma extend_heap_result (fuel : nat) (s s' : state) (words bp : Z) :
  0 <= mem_start_brk s -> mem_brk s < VOID_M1 ->
  extend_heap fuel s words = Ok (bp, s') ->
  (fst (mem_sbrk s (extend_size words)) = VOID_M1 /\ bp = NULL /\ s' = s) \/
  (fst (mem_sbrk s (extend_size words)) <> VOID_M1 /\ bp <> NULL).
Proof.
  intros H0 Hb H. unfold extend_heap in H. cbv zeta in H.
  destruct (mem_sbrk s (extend_size words)) as [p s1] eqn:Eb.
  cbn [fst].
  destruct (Z.eqb_spec p VOID_M1) as [->|Hp].
  - left. inv_ok.
    unfold mem_sbrk in Eb.
    destruct (mem_brk s + extend_size words <=? mem_max_addr s) eqn:E.
    + apply (f_equal fst) in Eb. cbn [fst] in Eb. lia.
    + apply (f_equal snd) in Eb. cbn [snd] in Eb. subst. repeat split.
  - right. split; [exact Hp|]. inv_ok.
    match goal with
    | H : coalesce _ ?t _ = Ok _ |- _ =>
        apply coalesce_same_and_valid in H; destruct H as [_ V];
        assert (S1 : same_heap s1 t) by same_chain
    end.
    destruct S1 as (E & _).
    assert (mem_start_brk s1 = mem_start_brk s).
    { unfold mem_sbrk in Eb.
      destruct (_ <=? _); apply (f_equal snd) in Eb; cbn [snd] in Eb; subst;
        reflexivity. }
    unfold NULL. lia.
Qed.

Lemma malloc_null_iff (fuel : nat) (s s' : state) (n bp : Z) :
  0 <= mem_start_brk s -> mem_brk s < VOID_M1 ->
  malloc fuel s n = Ok (bp, s') ->
  (bp = NULL <->
   find_fit fuel s (adjusted_size n) = Ok NULL /\
   fst (mem_sbrk s (grow_request n)) = VOID_M1) /\
  (bp = NULL -> s' = s).
Proof.
  intros H0 Hb H. unfold malloc in H. cbv zeta in H. inv_ok.
  destruct (Z.eqb_spec x NULL) as [->|Hx]; cbn [negb] in H; inv_ok.
  - match goal with
    | H : extend_heap _ _ _ = Ok _ |- _ =>
        destruct (extend_heap_result _ _ _ _ _ H0 Hb H) as [(F & -> & ->)|(F & N)]
    end.
    + cbn [Z.eqb NULL] in H. inv_ok. unfold grow_request. tauto.
    + destruct (Z.eqb_spec z NULL) as [->|_]; [contradiction|]. inv_ok.
      unfold grow_request. tauto.
  - split; [|contradiction].
    split; [contradiction|]. intros [F _]. congruence.
Qed.

(** C9, as amended.  [realloc(p, 0)] is [free(p)] followed by returning
    NULL, for every [p]; for [n <> 0], [realloc(NULL, n)] is [malloc(n)];
    and when the allocation inside [realloc(p, n)] fails, [realloc] returns
    NULL and leaves the whole state, the old block included, as it was. *)
Theorem realloc_cases (fuel : nat) (s s1 : state) (p n : Z) :
  0 <= mem_start_brk s -> mem_brk s < VOID_M1 ->
  realloc fuel s p 0 = (s' <- free fuel s p ;; Ok (NULL, s')) /\
  (n <> 0 -> realloc fuel s NULL n = malloc fuel s n) /\
  (n <> 0 -> p <> NULL -> malloc fuel s n = Ok (NULL, s1) ->
   s1 = s /\ realloc fuel s p n = Ok (NULL, s)).
Proof.
  intros H0 Hb. split; [reflexivity|]. split.
  - intros Hn. unfold realloc.
    destruct (Z.eqb_spec n 0); [contradiction | reflexivity].
  - intros Hn Hp Hm.
    destruct (malloc_null_iff _ _ _ _ _ H0 Hb Hm) as [_ E].
    specialize (E eq_refl). subst s1. split; [reflexivity|].
    unfold realloc.
    destruct (Z.eqb_spec n 0); [contradiction|].
    destruct (Z.eqb_spec p NULL); [contradiction|].
    rewrite Hm. reflexivity.
Qed.

Lemma realloc_cases_witness :
  realloc fuel0 heap1 4112 0
  = (s' <- free fuel0 heap1 4112 ;; Ok (NULL, s')) /\
  realloc fuel0 heap1 NULL 2000 = malloc fuel0 heap1 2000 /\
  realloc fuel0 heap1 4112 2000 = Ok (NULL, heap1).
Proof.
  assert (H0 : 0 <= mem_start_brk heap1)
    by (vm_compute; intro H; discriminate H).
  assert (Hb : mem_brk heap1 < VOID_M1) by (vm_compute; reflexivity).
  assert (Hm : malloc fuel0 heap1 2000 = Ok (NULL, heap1))
    by (vm_compute; reflexivity).
  destruct (realloc_cases fuel0 heap1 heap1 4112 2000 H0 Hb) as (A & B & C).
  split; [exact A|]. split.
  - apply B. discriminate.
  - apply C; [discriminate | discriminate | exact Hm].
Defined.

(** C9 as stated fails for [n = 0]: on the initialised heap
    [realloc(NULL, 0)] returns NULL and allocates nothing, while
    [malloc(0)] returns the block at 4112. *)
Lemma realloc_null_zero_is_not_malloc :
  value (realloc fuel0 heap0 NULL 0) 1 = NULL /\
  value (malloc fuel0 heap0 0) NULL = 4112 /\
  realloc fuel0 heap0 NULL 0 <> malloc fuel0 heap0 0.
Proof.
  split; [vm_compute; reflexivity|]. split; [vm_compute; reflexivity|].
  intro H. apply (f_equal (fun r => value r 0)) in H.
  vm_compute in H. discriminate H.
Qed.

(** C4 as stated fails: in [run_malloc0] the request of size 0 is served
    by the freed 24-byte block at 4112, whole, not by a block of the
    minimum size 16. *)
Lemma malloc_zero_block_of_24 :
  value run_malloc0 NULL = 4112 /\
  GET (final run_malloc0) (HDRP 4112) = Ok (PACK 24 1) /\
  ~ (exists bp s, run_malloc0 = Ok (bp, s) /\
                  GET_SIZE s (HDRP bp) = Ok MINSIZE).
Proof.
  split; [vm_compute; reflexivity|]. split; [vm_compute; reflexivity|].
  intros (bp & s & H & Hs).
  assert (E : GET_SIZE (final run_malloc0) (HDRP (value run_malloc0 0))
              = Ok 24) by (vm_compute; reflexivity).
  rewrite H in E. cbn [final value] in E. rewrite E in Hs. discriminate Hs.
Qed.


(** * Memory: reading over writes *)

Lemma storen_other (n : nat) : forall a v m x,
  x < a \/ a + Z.of_nat n <= x -> storen n a v m x = m x.
Proof.
  induction n as [|n IH]; intros a v m x H; [reflexivity|].
  cbn [storen]. rewrite IH by lia. unfold upd.
  destruct (Z.eqb_spec x a); [lia | reflexivity].
Qed.

Lemma loadn_ext (n : nat) : forall a m m',
  (forall x, a <= x < a + Z.of_nat n -> m x = m' x) ->
  loadn n m a = loadn n m' a.
Proof.
  induction n as [|n IH]; intros a m m' H; [reflexivity|].
  cbn [loadn]. rewrite (H a) by lia. f_equal. f_equal.
  apply IH. intros x Hx. apply H. lia.
Qed.

Lemma loadn_storen_other (n k : nat) (a b v : Z) (m : memory) :
  a + Z.of_nat n <= b \/ b + Z.of_nat k <= a ->
  loadn n (storen k b v m) a = loadn n m a.
Proof.
  intros H. apply loadn_ext. intros x Hx. apply storen_other. lia.
Qed.

Lemma loadn_storen_same (n : nat) : forall a v m,
  loadn n (storen n a v m) a = v mod 2 ^ (8 * Z.of_nat n).
Proof.
  induction n as [|n IH]; intros a v m.
  - cbn. symmetry. apply Z.mod_1_r.
  - cbn [loadn storen]. rewrite IH.
    rewrite storen_other by lia. unfold upd. rewrite Z.eqb_refl.
    rewrite Z.mod_mod by lia.
    replace (8 * Z.of_nat (S n)) with (8 + 8 * Z.of_nat n) by lia.
    rewrite Z.pow_add_r by lia. change (2 ^ 8) with 256.
    rewrite Z.rem_mul_r by lia. reflexivity.
Qed.

Lemma load4_store4 (a v : Z) (m : memory) :
  0 <= v < 2 ^ 32 -> loadn 4 (storen 4 a v m) a = v.
Proof.
  intros H. rewrite loadn_storen_same. change (2 ^ (8 * Z.of_nat 4)) with (2 ^ 32).
  apply Z.mod_small. exact H.
Qed.

Lemma load8_store8 (a v : Z) (m : memory) :
  0 <= v < 2 ^ 64 -> loadn 8 (storen 8 a v m) a = v.
Proof.
  intros H. rewrite loadn_storen_same. change (2 ^ (8 * Z.of_nat 8)) with (2 ^ 64).
  apply Z.mod_small. exact H.
Qed.

(** * Tags *)

Lemma tag_range (sz : Z) (al : bool) :
  0 <= sz < 2 ^ 31 -> 0 <= tag sz al < 2 ^ 32.
Proof. unfold tag. destruct al; lia. Qed.

Lemma PACK_tag (sz : Z) (al : bool) :
  sz mod 8 = 0 -> PACK sz (if al then 1 else 0) = tag sz al.
Proof.
  intros H. unfold PACK, tag. apply lor_bit; [exact H|]. destruct al; lia.
Qed.

Lemma tag_size (sz : Z) (al : bool) :
  0 <= sz < 2 ^ 31 -> sz mod 8 = 0 -> Z.land (tag sz al) (2 ^ 32 - 8) = sz.
Proof.
  intros H Hm. unfold tag. apply land_size; [lia | exact Hm |].
  destruct al; lia.
Qed.

Lemma tag_alloc (sz : Z) (al : bool) :
  sz mod 8 = 0 -> Z.land (tag sz al) 1 = if al then 1 else 0.
Proof.
  intros Hm. rewrite land_1. unfold tag.
  assert (E : sz mod 2 = 0).
  { pose proof (Z.div_mod sz 8 ltac:(lia)) as D.
    replace sz with (0 + (4 * (sz / 8)) * 2) by lia.
    rewrite Z.mod_add by lia. reflexivity. }
  pose proof (Z.div_mod sz 2 ltac:(lia)) as D.
  destruct al.
  - replace (sz + 1) with (1 + (sz / 2) * 2) by lia.
    rewrite Z.mod_add by lia. reflexivity.
  - rewrite Z.add_0_r. exact E.
Qed.

(** * Accesses inside the heap *)

Lemma valid_intro (s : state) (a n : Z) :
  mem_start_brk s <= a -> a + n <= mem_brk s -> valid s a n = true.
Proof.
  intros H1 H2. unfold valid. apply andb_true_intro.
  split; apply Z.leb_le; assumption.
Qed.

Lemma GET_ok (s : state) (p : Z) :
  mem_start_brk s <= p -> p + 4 <= mem_brk s ->
  GET s p = Ok (loadn 4 (mem s) p).
Proof. intros H1 H2. unfold GET. rewrite valid_intro by assumption. reflexivity. Qed.

Lemma PUT_ok (s : state) (p v : Z) :
  mem_start_brk s <= p -> p + 4 <= mem_brk s ->
  PUT s p v = Ok (set_mem s (storen 4 p v (mem s))).
Proof. intros H1 H2. unfold PUT. rewrite valid_intro by assumption. reflexivity. Qed.

Lemma SUCC_ok (s : state) (bp : Z) :
  mem_start_brk s <= bp -> bp + 8 <= mem_brk s ->
  SUCC s bp = Ok (loadn 8 (mem s) bp).
Proof. intros H1 H2. unfold SUCC. rewrite valid_intro by assumption. reflexivity. Qed.

Lemma SUCC_set_ok (s : state) (bp p : Z) :
  mem_start_brk s <= bp -> bp + 8 <= mem_brk s ->
  SUCC_set s bp p = Ok (set_mem s (storen 8 bp p (mem s))).
Proof.
  intros H1 H2. unfold SUCC_set. rewrite valid_intro by assumption. reflexivity.
Qed.

(** * Geometry of a contiguous list of blocks *)

Lemma contig_app (l1 l2 : list blk) : forall a e,
  contig a (l1 ++ l2) e <-> exists mid, contig a l1 mid /\ contig mid l2 e.
Proof.
  induction l1 as [|[[bp sz] al] l1 IH]; intros a e; cbn [app contig].
  - split.
    + intros H. exists a. split; [reflexivity | exact H].
    + intros (mid & -> & H). exact H.
  - rewrite IH. split.
    + intros (E1 & E2 & E3 & mid & H1 & H2). exists mid. tauto.
    + intros (mid & (E1 & E2 & E3 & H1) & H2). eauto 6.
Qed.

Lemma contig_le (bs : list blk) : forall a e, contig a bs e -> a <= e.
Proof.
  induction bs as [|[[bp sz] al] bs IH]; intros a e; cbn [contig].
  - lia.
  - intros (_ & H & _ & C). apply IH in C. unfold MINSIZE in H. lia.
Qed.

Lemma contig_fun (bs : list blk) : forall a e e',
  contig a bs e -> contig a bs e' -> e = e'.
Proof.
  induction bs as [|[[bp sz] al] bs IH]; intros a e e'; cbn [contig].
  - congruence.
  - intros (_ & _ & _ & C) (_ & _ & _ & C'). eapply IH; eassumption.
Qed.

Lemma contig_total (bs : list blk) : forall a e,
  contig a bs e -> e = a + total bs.
Proof.
  induction bs as [|[[bp sz] al] bs IH]; intros a e; cbn [contig total fold_right].
  - lia.
  - intros (_ & _ & _ & C). apply IH in C. cbn [fst snd]. fold (total bs). lia.
Qed.

Lemma contig_In (bs : list blk) : forall a e bp sz al,
  contig a bs e -> In (bp, sz, al) bs ->
  a <= bp /\ bp + sz <= e /\ MINSIZE <= sz /\ sz mod 8 = 0.
Proof.
  induction bs as [|[[bp0 sz0] al0] bs IH]; intros a e bp sz al C H;
    [destruct H|].
  cbn [contig] in C. destruct C as (-> & M & D & C).
  destruct H as [H|H].
  - injection H as <- <- <-. apply contig_le in C. lia.
  - destruct (IH _ _ _ _ _ C H) as (? & ? & ? & ?). unfold MINSIZE in M.
    repeat split; try assumption; lia.
Qed.

(** Two blocks of a heap are the same block or do not overlap. *)
Lemma contig_disjoint (bs : list blk) : forall a e bp1 sz1 al1 bp2 sz2 al2,
  contig a bs e -> In (bp1, sz1, al1) bs -> In (bp2, sz2, al2) bs ->
  (bp1, sz1, al1) = (bp2, sz2, al2) \/ bp1 + sz1 <= bp2 \/ bp2 + sz2 <= bp1.
Proof.
  induction bs as [|[[bp0 sz0] al0] bs IH];
    intros a e bp1 sz1 al1 bp2 sz2 al2 C H1 H2; [destruct H1|].
  cbn [contig] in C. destruct C as (-> & M & D & C).
  destruct H1 as [H1|H1], H2 as [H2|H2].
  - left. congruence.
  - injection H1 as <- <- <-.
    destruct (contig_In _ _ _ _ _ _ C H2) as (? & _). right. left. lia.
  - injection H2 as <- <- <-.
    destruct (contig_In _ _ _ _ _ _ C H1) as (? & _). right. right. lia.
  - eapply IH; eassumption.
Qed.

(** * Reading a well-formed heap *)

Lemma GET_SIZE_at (s : state) (p sz : Z) (al : bool) :
  mem_start_brk s <= p -> p + 4 <= mem_brk s ->
  loadn 4 (mem s) p = tag sz al -> 0 <= sz < 2 ^ 31 -> sz mod 8 = 0 ->
  GET_SIZE s p = Ok sz.
Proof.
  intros H1 H2 E Hs Hm. unfold GET_SIZE. rewrite GET_ok by assumption.
  cbn [bind]. rewrite E, tag_size by assumption. reflexivity.
Qed.

Lemma GET_ALLOC_at (s : state) (p sz : Z) (al : bool) :
  mem_start_brk s <= p -> p + 4 <= mem_brk s ->
  loadn 4 (mem s) p = tag sz al -> sz mod 8 = 0 ->
  GET_ALLOC s p = Ok (if al then 1 else 0).
Proof.
  intros H1 H2 E Hm. unfold GET_ALLOC. rewrite GET_ok by assumption.
  cbn [bind]. rewrite E, tag_alloc by assumption. reflexivity.
Qed.

Section Rep.

Variables (s : state) (bs : list blk) (fl : Z -> list Z).
Hypothesis R : rep s bs fl.

Lemma rep_block (bp sz : Z) (al : bool) :
  In (bp, sz, al) bs ->
  heap_listp s + 8 <= bp /\ bp + sz <= mem_brk s /\
  16 <= sz < 2 ^ 31 /\ sz mod 8 = 0 /\
  loadn 4 (mem s) (bp - 4) = tag sz al /\
  loadn 4 (mem s) (bp + sz - 8) = tag sz al.
Proof.
  intros H.
  destruct (contig_In _ _ _ _ _ _ (rep_contig _ _ _ R) H) as (A & B & C & D).
  pose proof (proj1 (Forall_forall _ _) (rep_tags _ _ _ R) _ H) as T.
  cbn in T. destruct T as [T1 T2].
  pose proof (rep_lo _ _ _ R). pose proof (rep_cap _ _ _ R).
  pose proof (rep_brk _ _ _ R). unfold MINSIZE in C.
  repeat split; try assumption; lia.
Qed.

Lemma rep_heap_bounds :
  0 < mem_start_brk s /\ mem_start_brk s <= heap_listp s - 8 /\
  heap_listp s + 8 <= mem_brk s /\ mem_brk s <= mem_start_brk s + 2 ^ 31 /\
  mem_brk s < 2 ^ 64 - 1.
Proof.
  pose proof (rep_start _ _ _ R). pose proof (rep_lo _ _ _ R).
  pose proof (rep_cap _ _ _ R). pose proof (rep_brk _ _ _ R).
  pose proof (rep_max _ _ _ R). unfold VOID_M1 in *.
  pose proof (contig_le _ _ _ (rep_contig _ _ _ R)).
  repeat split; lia.
Qed.

(** A listed block is a free block of the heap, in the list of its size
    class only. *)
Lemma rep_listed_block (i bp : Z) :
  0 <= i < NUMLIST -> In bp (fl i) ->
  exists sz, In (bp, sz, false) bs /\ smallest_bucket sz = i.
Proof. apply (rep_listed _ _ _ R). Qed.

(** The block pointer determines the block. *)
Lemma rep_block_unique (bp sz1 sz2 : Z) (al1 al2 : bool) :
  In (bp, sz1, al1) bs -> In (bp, sz2, al2) bs -> sz1 = sz2 /\ al1 = al2.
Proof.
  intros H1 H2.
  destruct (contig_disjoint _ _ _ _ _ _ _ _ _ (rep_contig _ _ _ R) H1 H2)
    as [E|E].
  - injection E as <- <-. split; reflexivity.
  - destruct (rep_block _ _ _ H1) as (_ & _ & ? & _).
    destruct (rep_block _ _ _ H2) as (_ & _ & ? & _). lia.
Qed.

Lemma rep_listed_bucket (i j bp : Z) :
  0 <= i < NUMLIST -> 0 <= j < NUMLIST ->
  In bp (fl i) -> In bp (fl j) -> i = j.
Proof.
  intros Hi Hj H1 H2.
  destruct (rep_listed_block _ _ Hi H1) as (sz1 & B1 & <-).
  destruct (rep_listed_block _ _ Hj H2) as (sz2 & B2 & <-).
  destruct (rep_block_unique _ _ _ _ _ B1 B2) as [-> _]. reflexivity.
Qed.

End Rep.

(** * Frames *)

Lemma lseg_frame (m m' : memory) (l : list Z) : forall h t,
  lseg m h l t ->
  (forall y, In y l -> loadn 8 m' y = loadn 8 m y) ->
  lseg m' h l t.
Proof.
  induction l as [|y l IH]; intros h t H F; [exact H|].
  cbn [lseg] in *. destruct H as [-> H]. split; [reflexivity|].
  rewrite (F y) by (left; reflexivity).
  apply IH; [exact H|]. intros z Hz. apply F. right. exact Hz.
Qed.

Lemma lseg_app (m : memory) (l1 l2 : list Z) : forall h t,
  lseg m h (l1 ++ l2) t <-> exists mid, lseg m h l1 mid /\ lseg m mid l2 t.
Proof.
  induction l1 as [|y l1 IH]; intros h t; cbn [app lseg].
  - split.
    + intros H. exists h. split; [reflexivity | exact H].
    + intros (mid & -> & H). exact H.
  - rewrite IH. split.
    + intros (E & mid & H1 & H2). exists mid. tauto.
    + intros (mid & (E & H1) & H2). eauto.
Qed.

Lemma tagged_frame (m m' : memory) (bp sz : Z) (al : bool) :
  tagged m (bp, sz, al) ->
  (forall x, bp - 4 <= x < bp -> m' x = m x) ->
  (forall x, bp + sz - 8 <= x < bp + sz - 4 -> m' x = m x) ->
  tagged m' (bp, sz, al).
Proof.
  intros [T1 T2] F1 F2. split.
  - rewrite <- T1. apply loadn_ext. intros x Hx. apply F1. lia.
  - rewrite <- T2. apply loadn_ext. intros x Hx. apply F2. lia.
Qed.

(** Replacing the blocks [mid] of a heap, none of them in a free list, by
    blocks [mid'] over the same bytes: a state that differs only inside
    those bytes, and carries the tags of [mid'], represents the new list of
    blocks. *)
Lemma rep_replace (s s' : state) (pre mid mid' post : list blk)
      (fl : Z -> list Z) (a e : Z) :
  rep s (pre ++ mid ++ post) fl ->
  same_heap s s' -> freelists s' = freelists s ->
  contig (heap_listp s + 8) pre a -> contig a mid e -> contig a mid' e ->
  (forall x, x < a - 4 \/ e - 4 <= x -> mem s' x = mem s x) ->
  Forall (tagged (mem s')) mid' ->
  (forall bp sz al, In (bp, sz, al) mid -> unlisted fl bp) ->
  rep s' (pre ++ mid' ++ post) fl.
Proof.
  intros R (E1 & E2 & E3 & E4) EF Cpre Cmid Cmid' F T U.
  pose proof (rep_heap_bounds _ _ _ R) as (B1 & B2 & B3 & B4 & B5).
  pose proof (rep_contig _ _ _ R) as C.
  apply contig_app in C. destruct C as (a0 & C1 & C).
  apply contig_app in C. destruct C as (e0 & C2 & C3).
  assert (a0 = a) by (eapply contig_fun; eassumption). subst a0.
  assert (e0 = e) by (eapply contig_fun; eassumption). subst e0.
  pose proof (contig_le _ _ _ Cpre) as L1.
  pose proof (contig_le _ _ _ Cmid) as L2.
  pose proof (contig_le _ _ _ C3) as L3.
  assert (Fpre : forall bp sz al, In (bp, sz, al) pre ->
                                  forall x, bp - 4 <= x < bp + sz - 4 ->
                                            mem s' x = mem s x).
  { intros bp sz al H x Hx. apply F.
    destruct (contig_In _ _ _ _ _ _ Cpre H) as (? & ? & ? & ?). lia. }
  assert (Fpost : forall bp sz al, In (bp, sz, al) post ->
                                   forall x, bp - 4 <= x < bp + sz - 4 ->
                                             mem s' x = mem s x).
  { intros bp sz al H x Hx. apply F.
    destruct (contig_In _ _ _ _ _ _ C3 H) as (? & ? & ? & ?). lia. }
  assert (Tall : Forall (tagged (mem s)) (pre ++ mid ++ post))
    by apply (rep_tags _ _ _ R).
  apply Forall_app in Tall. destruct Tall as [Tpre Tall].
  apply Forall_app in Tall. destruct Tall as [_ Tpost].
  constructor.
  - rewrite E1. exact B1.
  - rewrite E3, E1. apply (rep_cap _ _ _ R).
  - rewrite E3. apply (rep_max _ _ _ R).
  - rewrite E2, E3. apply (rep_brk _ _ _ R).
  - rewrite E1, E4. exact B2.
  - rewrite E4. rewrite <- (rep_pro_h _ _ _ R).
    apply loadn_ext. intros x Hx. apply F. lia.
  - rewrite E4. rewrite <- (rep_pro_f _ _ _ R).
    apply loadn_ext. intros x Hx. apply F. lia.
  - rewrite E4, E2. apply contig_app. exists a. split; [exact Cpre|].
    apply contig_app. exists e. split; assumption.
  - apply Forall_app. split; [|apply Forall_app; split; [exact T|]].
    + apply Forall_forall. intros [[bp sz] al] H.
      pose proof (proj1 (Forall_forall _ _) Tpre _ H) as Tb.
      destruct (contig_In _ _ _ _ _ _ Cpre H) as (? & ? & M & ?).
      unfold MINSIZE in M.
      eapply tagged_frame; [exact Tb | |];
        intros x Hx; apply (Fpre _ _ _ H); lia.
    + apply Forall_forall. intros [[bp sz] al] H.
      pose proof (proj1 (Forall_forall _ _) Tpost _ H) as Tb.
      destruct (contig_In _ _ _ _ _ _ C3 H) as (? & ? & M & ?).
      unfold MINSIZE in M.
      eapply tagged_frame; [exact Tb | |];
        intros x Hx; apply (Fpost _ _ _ H); lia.
  - rewrite E2. rewrite <- (rep_epi _ _ _ R).
    apply loadn_ext. intros x Hx. apply F. lia.
  - intros i Hi. rewrite EF, E4.
    apply lseg_frame with (m := mem s); [apply (rep_chain _ _ _ R); exact Hi|].
    intros y Hy.
    destruct (rep_listed _ _ _ R i y Hi Hy) as (sz & Hb & _).
    apply loadn_ext. intros x Hx.
    apply in_app_or in Hb. destruct Hb as [Hb|Hb].
    + destruct (contig_In _ _ _ _ _ _ Cpre Hb) as (? & ? & M & ?).
      unfold MINSIZE in M. apply (Fpre _ _ _ Hb). lia.
    + apply in_app_or in Hb. destruct Hb as [Hb|Hb].
      * exfalso. apply (U _ _ _ Hb i Hi Hy).
      * destruct (contig_In _ _ _ _ _ _ C3 Hb) as (? & ? & M & ?).
        unfold MINSIZE in M. apply (Fpost _ _ _ Hb). lia.
  - intros i bp Hi Hy.
    destruct (rep_listed _ _ _ R i bp Hi Hy) as (sz & Hb & Hc).
    exists sz. split; [|exact Hc].
    apply in_app_or in Hb. destruct Hb as [Hb|Hb];
      [apply in_or_app; left; exact Hb|].
    apply in_app_or in Hb. destruct Hb as [Hb|Hb].
    + exfalso. apply (U _ _ _ Hb i Hi Hy).
    + apply in_or_app. right. apply in_or_app. right. exact Hb.
  - apply (rep_nodup _ _ _ R).
Qed.

(** * Free-list maintenance on a well-formed heap *)

Section Lists.

Variables (s : state) (bs : list blk) (fl : Z -> list Z).
Hypothesis R : rep s bs fl.

(** The successor cells of two different blocks do not overlap. *)
Lemma cell_disjoint (y sy : Z) (ay : bool) (p sp : Z) (ap : bool) :
  In (y, sy, ay) bs -> In (p, sp, ap) bs -> y <> p ->
  y + 16 <= p \/ p + 16 <= y.
Proof.
  intros Hy Hp Hn.
  destruct (rep_block _ _ _ R _ _ _ Hy) as (_ & _ & ? & _).
  destruct (rep_block _ _ _ R _ _ _ Hp) as (_ & _ & ? & _).
  destruct (contig_disjoint _ _ _ _ _ _ _ _ _ (rep_contig _ _ _ R) Hy Hp)
    as [E|E]; [congruence | lia].
Qed.

(** Writing the successor cell of a block leaves all tags alone. *)
Lemma succ_store_tags (p sp v : Z) (ap : bool) :
  In (p, sp, ap) bs ->
  let m' := storen 8 p v (mem s) in
  loadn 4 m' (heap_listp s - 4) = tag 8 true /\
  loadn 4 m' (heap_listp s) = tag 8 true /\
  Forall (tagged m') bs /\
  loadn 4 m' (mem_brk s - 4) = tag 0 true.
Proof.
  intros Hp m'.
  destruct (rep_block _ _ _ R _ _ _ Hp) as (P1 & P2 & P3 & _).
  unfold m'. repeat split.
  - rewrite loadn_storen_other by (cbn; lia). apply (rep_pro_h _ _ _ R).
  - rewrite loadn_storen_other by (cbn; lia). apply (rep_pro_f _ _ _ R).
  - apply Forall_forall. intros [[y sy] ay] Hy.
    destruct (rep_block _ _ _ R _ _ _ Hy) as (Y1 & Y2 & Y3 & _ & T1 & T2).
    assert (D : y = p /\ sy = sp \/ y + sy <= p \/ p + sp <= y).
    { destruct (contig_disjoint _ _ _ _ _ _ _ _ _ (rep_contig _ _ _ R) Hy Hp)
        as [E|E]; [left; split; congruence | right; exact E]. }
    split; rewrite loadn_storen_other by (cbn; lia); assumption.
  - rewrite loadn_storen_other by (cbn; lia). apply (rep_epi _ _ _ R).
Qed.

(** Writing the successor cell of a block outside a list segment leaves
    the segment alone. *)
Lemma succ_store_lseg (i p sp v : Z) (ap : bool) (l : list Z) :
  0 <= i < NUMLIST -> In (p, sp, ap) bs ->
  (forall y, In y l -> In y (fl i)) -> ~ In p l ->
  forall h t, lseg (mem s) h l t -> lseg (storen 8 p v (mem s)) h l t.
Proof.
  intros Hi Hp Hl Hn h t H.
  apply lseg_frame with (m := mem s); [exact H|].
  intros y Hy.
  destruct (rep_listed _ _ _ R i y Hi (Hl y Hy)) as (sy & Hb & _).
  assert (y <> p) by (intros ->; contradiction).
  destruct (cell_disjoint _ _ _ _ _ _ Hb Hp ltac:(assumption)).
  - apply loadn_storen_other. cbn. lia.
  - apply loadn_storen_other. cbn. lia.
Qed.

(** The head of a free list is the prologue or a block: it fits a
    pointer. *)
Lemma head_range (i : Z) :
  0 <= i < NUMLIST -> 0 <= freelists s i < 2 ^ 64.
Proof.
  intros Hi. pose proof (rep_chain _ _ _ R i Hi) as C.
  pose proof (rep_heap_bounds _ _ _ R) as (B1 & B2 & B3 & B4 & B5).
  destruct (fl i) as [|y l] eqn:E; cbn [lseg] in C.
  - lia.
  - destruct C as [-> _].
    destruct (rep_listed _ _ _ R i y Hi) as (sz & Hb & _);
      [rewrite E; left; reflexivity|].
    destruct (rep_block _ _ _ R _ _ _ Hb) as (? & ? & ? & _). lia.
Qed.

(** [freelist_insert] pushes the block at the head of the list of its size
    class; it writes the successor cell of the block and nothing else. *)
Lemma freelist_insert_frame (bp sz : Z) :
  In (bp, sz, false) bs -> unlisted fl bp ->
  exists s', freelist_insert s bp = Ok s' /\
             rep s' bs (fl_insert fl sz bp) /\
             forall x, x < bp \/ bp + 8 <= x -> mem s' x = mem s x.
Proof.
  intros Hb Hu.
  destruct (rep_block _ _ _ R _ _ _ Hb) as (P1 & P2 & P3 & P4 & T1 & T2).
  pose proof (rep_heap_bounds _ _ _ R) as (B1 & B2 & B3 & B4 & B5).
  pose proof (smallest_bucket_range sz) as Hi.
  set (i := smallest_bucket sz) in *.
  assert (Hi' : 0 <= i < NUMLIST) by (unfold NUMLIST; lia).
  unfold freelist_insert.
  rewrite (GET_SIZE_at s (HDRP bp) sz false)
    by (unfold HDRP, WSIZE; try assumption; lia).
  cbn [bind]. rewrite size_class_spec by lia. cbn [bind]. fold i.
  rewrite SUCC_set_ok by lia. cbn [bind].
  eexists. split; [reflexivity|].
  split; [|intros x Hx; cbn [set_freelist set_mem mem];
           apply storen_other; cbn; lia].
  destruct (succ_store_tags bp sz (freelists s i) false Hb)
    as (M1 & M2 & M3 & M4).
  constructor; cbn [set_freelist set_mem mem mem_start_brk mem_brk
                    mem_max_addr heap_listp freelists].
  - exact B1.
  - apply (rep_cap _ _ _ R).
  - apply (rep_max _ _ _ R).
  - apply (rep_brk _ _ _ R).
  - exact B2.
  - exact M1.
  - exact M2.
  - apply (rep_contig _ _ _ R).
  - exact M3.
  - exact M4.
  - intros j Hj. unfold fl_insert. fold i.
    destruct (Z.eqb_spec j i) as [->|Hne].
    + cbn [lseg]. split; [reflexivity|].
      rewrite load8_store8 by (apply head_range; exact Hi').
      apply (succ_store_lseg i bp sz _ false); try assumption.
      * intros y Hy. exact Hy.
      * apply Hu. exact Hi'.
      * apply (rep_chain _ _ _ R). exact Hi'.
    + apply (succ_store_lseg j bp sz _ false); try assumption.
      * intros y Hy. exact Hy.
      * apply Hu. exact Hj.
      * apply (rep_chain _ _ _ R). exact Hj.
  - intros j y Hj Hy. unfold fl_insert in Hy. fold i in Hy.
    destruct (Z.eqb_spec j i) as [->|Hne].
    + destruct Hy as [<-|Hy].
      * exists sz. split; [exact Hb | reflexivity].
      * apply (rep_listed _ _ _ R); assumption.
    + apply (rep_listed _ _ _ R); assumption.
  - intros j Hj. unfold fl_insert. fold i.
    destruct (Z.eqb_spec j i) as [->|Hne].
    + constructor; [apply Hu; exact Hi' | apply (rep_nodup _ _ _ R); exact Hi'].
    + apply (rep_nodup _ _ _ R). exact Hj.
Qed.

Lemma freelist_insert_spec (bp sz : Z) :
  In (bp, sz, false) bs -> unlisted fl bp ->
  exists s', freelist_insert s bp = Ok s' /\
             rep s' bs (fl_insert fl sz bp).
Proof.
  intros Hb Hu.
  destruct (freelist_insert_frame bp sz Hb Hu) as (s' & A & B & _). eauto.
Qed.

End Lists.

Lemma remove_middle (x : Z) (l1 l2 : list Z) :
  ~ In x l1 -> ~ In x l2 -> remove Z.eq_dec x (l1 ++ x :: l2) = l1 ++ l2.
Proof.
  intros H1 H2. rewrite remove_app. cbn [remove].
  destruct (Z.eq_dec x x); [|contradiction].
  rewrite !notin_remove by assumption. reflexivity.
Qed.

Lemma find_prev_spec (s : state) (bp pv : Z) (l1 : list Z) : forall h fuel,
  lseg (mem s) h (l1 ++ [pv]) bp ->
  (forall y, In y (l1 ++ [pv]) -> mem_start_brk s <= y /\ y + 8 <= mem_brk s) ->
  ~ In bp (l1 ++ [pv]) ->
  (length l1 < fuel)%nat ->
  find_prev fuel s h bp = Ok pv.
Proof.
  induction l1 as [|x l1 IH]; intros h fuel H V N F.
  - cbn [app lseg] in H. destruct H as [-> H].
    destruct fuel as [|k]; [cbn in F; lia|].
    cbn [find_prev].
    rewrite SUCC_ok by (apply V; left; reflexivity).
    cbn [bind]. rewrite H, Z.eqb_refl. reflexivity.
  - cbn [app lseg] in H. destruct H as [-> H].
    destruct fuel as [|k]; [cbn in F; lia|].
    cbn [find_prev].
    rewrite SUCC_ok by (apply V; left; reflexivity).
    cbn [bind].
    assert (Hne : loadn 8 (mem s) x <> bp).
    { destruct (l1 ++ [pv]) as [|z r] eqn:E.
      - destruct l1; discriminate E.
      - cbn [lseg] in H. destruct H as [-> _].
        intros <-. apply N. cbn [app]. right. rewrite E. left. reflexivity. }
    destruct (Z.eqb_spec (loadn 8 (mem s) x) bp); [contradiction|].
    apply IH.
    + exact H.
    + intros y Hy. apply V. right. exact Hy.
    + intros Hin. apply N. right. exact Hin.
    + cbn in F. lia.
Qed.

Section Remove.

Variables (s : state) (bs : list blk) (fl : Z -> list Z).
Hypothesis R : rep s bs fl.

(** [freelist_remove] takes a listed block out of the list of its size
    class; the only memory it may write is the successor cell of the block
    before it in that list, a free block. *)
Lemma freelist_remove_frame (fuel : nat) (bp sz : Z) :
  In (bp, sz, false) bs -> In bp (fl (smallest_bucket sz)) ->
  (length (fl (smallest_bucket sz)) <= fuel)%nat ->
  exists s', freelist_remove fuel s bp = Ok s' /\
             rep s' bs (fl_remove fl sz bp) /\
             forall x, off_free bs x -> mem s' x = mem s x.
Proof.
  intros Hb Hin Hf.
  destruct (rep_block _ _ _ R _ _ _ Hb) as (P1 & P2 & P3 & P4 & T1 & T2).
  pose proof (rep_heap_bounds _ _ _ R) as (B1 & B2 & B3 & B4 & B5).
  pose proof (smallest_bucket_range sz) as Hi.
  set (i := smallest_bucket sz) in *.
  assert (Hi' : 0 <= i < NUMLIST) by (unfold NUMLIST; lia).
  destruct (in_split _ _ Hin) as (l1 & l2 & E).
  pose proof (rep_nodup _ _ _ R i Hi') as ND. rewrite E in ND.
  pose proof (NoDup_remove_2 _ _ _ ND) as Nin.
  assert (N1 : ~ In bp l1) by (intros X; apply Nin, in_or_app; left; exact X).
  assert (N2 : ~ In bp l2) by (intros X; apply Nin, in_or_app; right; exact X).
  pose proof (NoDup_remove_1 _ _ _ ND) as ND'.
  pose proof (rep_chain _ _ _ R i Hi') as C. rewrite E in C.
  apply lseg_app in C. destruct C as (mid & C1 & C2).
  cbn [lseg] in C2. destruct C2 as [-> C2].
  remember (loadn 8 (mem s) bp) as sb eqn:Esb.
  (* the successor is the prologue or a listed block *)
  assert (SB : GET_ALLOC s (HDRP sb) = Ok (match l2 with [] => 1 | _ => 0 end)).
  { destruct l2 as [|y l2]; cbn [lseg] in C2.
    - rewrite C2. apply (GET_ALLOC_at s _ 8 true);
        unfold HDRP, WSIZE; try lia; try reflexivity.
      apply (rep_pro_h _ _ _ R).
    - destruct C2 as [-> _].
      destruct (rep_listed _ _ _ R i y Hi') as (sy & Hy & _);
        [rewrite E; apply in_or_app; right; right; left; reflexivity|].
      destruct (rep_block _ _ _ R _ _ _ Hy) as (? & ? & ? & ? & ? & _).
      apply (GET_ALLOC_at s _ sy false); unfold HDRP, WSIZE;
        try assumption; lia. }
  assert (RM : fl_remove fl sz bp i = l1 ++ l2).
  { unfold fl_remove. fold i. rewrite Z.eqb_refl, E.
    apply remove_middle; assumption. }
  assert (Listed' : forall j y, 0 <= j < NUMLIST ->
                                In y (fl_remove fl sz bp j) ->
                                exists sy, In (y, sy, false) bs /\
                                           smallest_bucket sy = j).
  { intros j y Hj Hy. apply (rep_listed _ _ _ R j y Hj).
    unfold fl_remove in Hy. fold i in Hy.
    destruct (j =? i); [apply in_remove in Hy; tauto | exact Hy]. }
  assert (NoDup' : forall j, 0 <= j < NUMLIST ->
                             NoDup (fl_remove fl sz bp j)).
  { intros j Hj. destruct (Z.eq_dec j i) as [->|Hne].
    - rewrite RM. exact ND'.
    - unfold fl_remove. fold i.
      destruct (Z.eqb_spec j i); [contradiction|].
      apply (rep_nodup _ _ _ R j Hj). }
  unfold freelist_remove.
  rewrite SUCC_ok by lia. cbn [bind]. rewrite <- Esb. rewrite SB. cbn [bind].
  rewrite (GET_SIZE_at s (HDRP bp) sz false)
    by (unfold HDRP, WSIZE; try assumption; lia).
  cbn [bind]. rewrite size_class_spec by lia. cbn [bind]. fold i.
  destruct l1 as [|x l1].
  - (* bp is the head of its list *)
    cbn [lseg] in C1. rewrite C1, Z.eqb_refl.
    assert (Head : exists s', (if (true && negb ((match l2 with [] => 1 | _ => 0 end) =? 0))%bool
                               then Ok (set_freelist s i (heap_listp s))
                               else if (true && ((match l2 with [] => 1 | _ => 0 end) =? 0))%bool
                                    then Ok (set_freelist s i sb)
                                    else prevptr <- find_prev fuel s bp bp ;;
                                         SUCC_set s prevptr sb)
                              = Ok s' /\ s' = set_freelist s i sb).
    { destruct l2 as [|y l2]; cbn [lseg] in C2; cbn.
      - rewrite C2. eexists. split; reflexivity.
      - eexists. split; reflexivity. }
    destruct Head as (s' & -> & ->).
    eexists. split; [reflexivity|].
    split; [|intros a _; reflexivity].
    constructor; cbn [set_freelist set_mem mem mem_start_brk mem_brk
                      mem_max_addr heap_listp freelists];
      try apply R; try assumption.
    intros j Hj. destruct (Z.eqb_spec j i) as [->|Hne].
    + rewrite RM. exact C2.
    + unfold fl_remove. fold i.
      destruct (Z.eqb_spec j i); [contradiction|].
      apply (rep_chain _ _ _ R j Hj).
  - (* bp has a predecessor in its list *)
    assert (Hx : freelists s i = x) by (cbn [lseg] in C1; tauto).
    assert (Hne : bp <> x) by (intros ->; apply N1; left; reflexivity).
    destruct (Z.eqb_spec bp (freelists s i)) as [Eq|_];
      [rewrite Hx in Eq; contradiction|].
    cbn [andb].
    destruct (exists_last (l := x :: l1) ltac:(discriminate))
      as (l1' & pv & El).
    rewrite El in *.
    assert (Hpv : In pv (fl i))
      by (rewrite E; apply in_or_app; left; apply in_or_app; right;
          left; reflexivity).
    destruct (rep_listed _ _ _ R i pv Hi' Hpv) as (sp & Hpb & _).
    destruct (rep_block _ _ _ R _ _ _ Hpb) as (Q1 & Q2 & Q3 & _).
    rewrite (find_prev_spec s bp pv l1' (freelists s i) fuel).
    + cbn [bind]. rewrite SUCC_set_ok by lia.
      eexists. split; [reflexivity|].
      split; [|intros a Ha; cbn [set_mem mem]; apply storen_other;
               destruct (Ha _ _ Hpb); cbn; lia].
      destruct (succ_store_tags _ _ _ R pv sp sb false Hpb)
        as (M1 & M2 & M3 & M4).
      constructor; cbn [set_freelist set_mem mem mem_start_brk mem_brk
                        mem_max_addr heap_listp freelists];
        try apply R; try assumption.
      intros j Hj. destruct (Z.eqb_spec j i) as [->|Hnj].
      * rewrite RM.
        apply lseg_app in C1. destruct C1 as (mid & C1 & C1').
        cbn [lseg] in C1'. destruct C1' as [-> C1'].
        assert (NDl : NoDup ((l1' ++ [pv]) ++ l2)) by exact ND'.
        rewrite <- app_assoc in NDl. cbn [app] in NDl.
        pose proof (NoDup_remove_2 _ _ _ NDl) as Npv.
        rewrite <- app_assoc. cbn [app].
        apply lseg_app. exists pv. split.
        -- apply (succ_store_lseg _ _ _ R i pv sp sb false);
             try assumption.
           ++ intros y Hy. rewrite E. apply in_or_app. left.
              apply in_or_app. left. exact Hy.
           ++ intros X. apply Npv, in_or_app. left. exact X.
        -- cbn [lseg]. split; [reflexivity|].
           rewrite load8_store8.
           ++ apply (succ_store_lseg _ _ _ R i pv sp sb false);
                try assumption.
              ** intros y Hy. rewrite E. apply in_or_app. right. right.
                 exact Hy.
              ** intros X. apply Npv, in_or_app. right. exact X.
           ++ destruct l2 as [|y l2]; cbn [lseg] in C2.
              ** rewrite C2. lia.
              ** destruct C2 as [-> _].
                 destruct (rep_listed _ _ _ R i y Hi') as (sy & Hy & _);
                   [rewrite E; apply in_or_app; right; right; left;
                    reflexivity|].
                 destruct (rep_block _ _ _ R _ _ _ Hy) as (? & ? & ? & _).
                 lia.
      * unfold fl_remove. fold i.
        destruct (Z.eqb_spec j i); [contradiction|].
        apply (succ_store_lseg _ _ _ R j pv sp sb false); try assumption.
        -- intros y Hy. exact Hy.
        -- intros X. apply Hnj.
           apply (rep_listed_bucket _ _ _ R j i pv); assumption.
        -- apply (rep_chain _ _ _ R j Hj).
    + exact C1.
    + intros y Hy.
      destruct (rep_listed _ _ _ R i y Hi') as (sy & Hyb & _);
        [rewrite E; apply in_or_app; left; exact Hy|].
      destruct (rep_block _ _ _ R _ _ _ Hyb) as (? & ? & ? & _). lia.
    + exact N1.
    + rewrite E in Hf. rewrite length_app in Hf.
      rewrite length_app in Hf. cbn [length] in Hf. lia.
Qed.

Lemma freelist_remove_spec (fuel : nat) (bp sz : Z) :
  In (bp, sz, false) bs -> In bp (fl (smallest_bucket sz)) ->
  (length (fl (smallest_bucket sz)) <= fuel)%nat ->
  exists s', freelist_remove fuel s bp = Ok s' /\
             rep s' bs (fl_remove fl sz bp).
Proof.
  intros Hb Hin Hf.
  destruct (freelist_remove_frame fuel bp sz Hb Hin Hf) as (s' & A & B & _).
  eauto.
Qed.

End Remove.

(** * Reading the neighbours of a block *)

Lemma tag_free (sz : Z) : tag sz false = sz.
Proof. unfold tag. lia. Qed.

Lemma PACK_0 (sz : Z) : PACK sz 0 = sz.
Proof. unfold PACK. apply Z.lor_0_r. Qed.

Lemma PACK_1 (sz : Z) : sz mod 8 = 0 -> PACK sz 1 = tag sz true.
Proof. intros H. apply (PACK_tag sz true H). Qed.

Lemma wrap64_small (x : Z) : 0 <= x < 2 ^ 64 -> wrap64 x = x.
Proof. intros H. unfold wrap64. apply Z.mod_small. exact H. Qed.

Lemma wrap32_small (x : Z) : 0 <= x < 2 ^ 32 -> wrap32 x = x.
Proof. intros H. unfold wrap32. apply Z.mod_small. exact H. Qed.

Lemma FTRP_at (s : state) (bp sz : Z) (al : bool) :
  mem_start_brk s <= bp - 4 -> bp <= mem_brk s ->
  loadn 4 (mem s) (bp - 4) = tag sz al -> 0 <= sz < 2 ^ 31 -> sz mod 8 = 0 ->
  FTRP s bp = Ok (bp + sz - 8).
Proof.
  intros H1 H2 E Hs Hm. unfold FTRP, HDRP, WSIZE, DSIZE.
  rewrite (GET_SIZE_at s (bp - 4) sz al) by (try assumption; lia).
  reflexivity.
Qed.

Lemma NEXT_at (s : state) (bp sz : Z) (al : bool) :
  mem_start_brk s <= bp - 4 -> bp <= mem_brk s ->
  loadn 4 (mem s) (bp - 4) = tag sz al -> 0 <= sz < 2 ^ 31 -> sz mod 8 = 0 ->
  NEXT_BLKP s bp = Ok (bp + sz).
Proof.
  intros H1 H2 E Hs Hm. unfold NEXT_BLKP, WSIZE.
  rewrite (GET_SIZE_at s (bp - 4) sz al) by (try assumption; lia).
  reflexivity.
Qed.

Lemma PREV_at (s : state) (bp sz : Z) (al : bool) :
  mem_start_brk s <= bp - 8 -> bp - 4 <= mem_brk s ->
  loadn 4 (mem s) (bp - 8) = tag sz al -> 0 <= sz < 2 ^ 31 -> sz mod 8 = 0 ->
  PREV_BLKP s bp = Ok (bp - sz).
Proof.
  intros H1 H2 E Hs Hm. unfold PREV_BLKP, DSIZE.
  rewrite (GET_SIZE_at s (bp - 8) sz al) by (try assumption; lia).
  reflexivity.
Qed.

Lemma list_last_cases {A : Type} (l : list A) :
  l = [] \/ exists l' x, l = l' ++ [x].
Proof.
  destruct l as [|a l]; [left; reflexivity | right].
  destruct (exists_last (l := a :: l) ltac:(discriminate)) as (l' & x & E).
  eauto.
Qed.

Section Neighbours.

Variables (s : state) (bs : list blk) (fl : Z -> list Z).
Hypothesis R : rep s bs fl.

(** The block before address [a] is the last block of the prefix, or the
    prologue: its footer, 8 bytes below [a], tells its size and state. *)
Lemma read_prev (pre rest : list blk) (a : Z) :
  bs = pre ++ rest -> contig (heap_listp s + 8) pre a ->
  exists psz pal,
    PREV_BLKP s a = Ok (a - psz) /\ FTRP s (a - psz) = Ok (a - 8) /\
    GET_ALLOC s (a - 8) = Ok (bit pal) /\
    ((pre = [] /\ pal = true) \/
     exists pre', pre = pre' ++ [(a - psz, psz, pal)]).
Proof.
  intros E C.
  pose proof (rep_heap_bounds _ _ _ R) as (B1 & B2 & B3 & B4 & B5).
  destruct (list_last_cases pre) as [->|(pre' & [[qb qsz] qal] & ->)].
  - cbn [contig] in C. subst a. exists 8, true.
    pose proof (rep_pro_h _ _ _ R) as Th. pose proof (rep_pro_f _ _ _ R) as Tf.
    assert (Tf' : loadn 4 (mem s) (heap_listp s + 8 - 8) = tag 8 true)
      by (replace (heap_listp s + 8 - 8) with (heap_listp s) by lia; exact Tf).
    assert (Th' : loadn 4 (mem s) (heap_listp s + 8 - 8 - 4) = tag 8 true)
      by (replace (heap_listp s + 8 - 8 - 4) with (heap_listp s - 4) by lia;
          exact Th).
    split; [|split; [|split]].
    + apply (PREV_at s _ 8 true); first [lia | exact Tf' | reflexivity].
    + rewrite (FTRP_at s _ 8 true); first [lia | exact Th' | reflexivity | idtac].
      f_equal. lia.
    + apply (GET_ALLOC_at s _ 8 true); first [lia | exact Tf' | reflexivity].
    + left. split; reflexivity.
  - apply contig_app in C. destruct C as (q & _ & C).
    cbn [contig] in C. destruct C as (Eq & _ & _ & Ea).
    subst q. subst a.
    assert (Hq : In (qb, qsz, qal) bs)
      by (rewrite E; apply in_or_app; left; apply in_or_app; right;
          left; reflexivity).
    destruct (rep_block _ _ _ R _ _ _ Hq) as (Q1 & Q2 & Q3 & Q4 & T1 & T2).
    exists qsz, qal.
    assert (T1' : loadn 4 (mem s) (qb + qsz - qsz - 4) = tag qsz qal)
      by (replace (qb + qsz - qsz - 4) with (qb - 4) by lia; exact T1).
    split; [|split; [|split]].
    + apply (PREV_at s _ qsz qal); first [lia | exact T2 | exact Q4].
    + rewrite (FTRP_at s _ qsz qal); first [lia | exact T1' | exact Q4 | idtac].
      f_equal. lia.
    + apply (GET_ALLOC_at s _ qsz qal); first [lia | exact T2 | exact Q4].
    + right. exists pre'.
      replace (qb + qsz - qsz) with qb by lia. reflexivity.
Qed.

(** The block at address [c], after the prefix, is the first of the rest
    or the epilogue: its header tells its state. *)
Lemma read_next (pre rest : list blk) (c : Z) :
  bs = pre ++ rest -> contig (heap_listp s + 8) pre c ->
  exists nal,
    GET_ALLOC s (HDRP c) = Ok (bit nal) /\
    ((rest = [] /\ nal = true) \/
     exists nsz rest', rest = (c, nsz, nal) :: rest').
Proof.
  intros E C.
  pose proof (rep_heap_bounds _ _ _ R) as (B1 & B2 & B3 & B4 & B5).
  pose proof (rep_contig _ _ _ R) as CC. rewrite E in CC.
  apply contig_app in CC. destruct CC as (c' & C1 & C2).
  assert (c' = c) by (eapply contig_fun; eassumption). subst c'.
  pose proof (contig_le _ _ _ C) as L.
  destruct rest as [|[[nb nsz] nal] rest'].
  - cbn [contig] in C2. subst c. exists true. split; [|left; split; reflexivity].
    apply (GET_ALLOC_at s _ 0 true); unfold HDRP, WSIZE; try lia;
      [apply (rep_epi _ _ _ R) | reflexivity].
  - cbn [contig] in C2. destruct C2 as (-> & _).
    assert (Hn : In (c, nsz, nal) bs)
      by (rewrite E; apply in_or_app; right; left; reflexivity).
    destruct (rep_block _ _ _ R _ _ _ Hn) as (Q1 & Q2 & Q3 & Q4 & T1 & T2).
    exists nal. split; [|right; eauto].
    apply (GET_ALLOC_at s _ nsz nal); unfold HDRP, WSIZE; try lia;
      assumption.
Qed.

End Neighbours.

(** * Removing from and adding to the abstract free lists *)

Lemma unlisted_remove (fl : Z -> list Z) (sz x bp : Z) :
  unlisted fl bp -> unlisted (fl_remove fl sz x) bp.
Proof.
  intros U i Hi H. apply (U i Hi). unfold fl_remove in H.
  destruct (i =? smallest_bucket sz); [apply in_remove in H; tauto | exact H].
Qed.

Lemma unlisted_removed (s : state) (bs : list blk) (fl : Z -> list Z)
      (sz x : Z) :
  rep s bs fl -> In (x, sz, false) bs -> unlisted (fl_remove fl sz x) x.
Proof.
  intros R Hb i Hi H. unfold fl_remove in H.
  destruct (Z.eqb_spec i (smallest_bucket sz)) as [->|Hne].
  - apply in_remove in H. tauto.
  - destruct (rep_listed _ _ _ R i x Hi H) as (sz' & Hb' & Hc).
    destruct (rep_block_unique _ _ _ R _ _ _ _ _ Hb Hb') as [-> _].
    congruence.
Qed.

Lemma listed_remove_other (fl : Z -> list Z) (sz x i y : Z) :
  In y (fl i) -> y <> x -> In y (fl_remove fl sz x i).
Proof.
  intros H Hne. unfold fl_remove.
  destruct (i =? smallest_bucket sz); [|exact H].
  apply in_in_remove; assumption.
Qed.

Lemma fl_remove_length (fl : Z -> list Z) (sz x i : Z) :
  (length (fl_remove fl sz x i) <= length (fl i))%nat.
Proof.
  unfold fl_remove. destruct (i =? smallest_bucket sz); [|lia].
  apply remove_length_le.
Qed.

(** * Coalescing *)

Lemma mod8_add (a b : Z) : a mod 8 = 0 -> b mod 8 = 0 -> (a + b) mod 8 = 0.
Proof.
  intros Ha Hb. rewrite Z.add_mod by lia. rewrite Ha, Hb. reflexivity.
Qed.

Lemma mod8_sub (a b : Z) : a mod 8 = 0 -> b mod 8 = 0 -> (a - b) mod 8 = 0.
Proof.
  intros Ha Hb. rewrite Zminus_mod. rewrite Ha, Hb. reflexivity.
Qed.

(** The geometry around a block [bp] with the blocks [P] before and [N]
    after it. *)
Lemma around (s : state) (fl : Z -> list Z) (pre P N post : list blk)
      (bp sz : Z) (al : bool) :
  rep s (pre ++ P ++ (bp, sz, al) :: N ++ post) fl ->
  exists a c,
    contig (heap_listp s + 8) pre a /\ contig a P bp /\
    contig (bp + sz) N c /\ contig c post (mem_brk s) /\
    contig (heap_listp s + 8) (pre ++ P) bp /\
    contig (heap_listp s + 8) ((pre ++ P) ++ [(bp, sz, al)]) (bp + sz).
Proof.
  intros R. pose proof (rep_contig _ _ _ R) as C.
  apply contig_app in C. destruct C as (a & C1 & C).
  apply contig_app in C. destruct C as (b & C2 & C).
  cbn [contig] in C. destruct C as (<- & M & D & C).
  apply contig_app in C. destruct C as (c & C3 & C4).
  exists a, c. repeat split; try assumption.
  - apply contig_app. exists a. split; assumption.
  - apply contig_app. exists bp. split.
    + apply contig_app. exists a. split; assumption.
    + cbn [contig]. repeat split; assumption.
Qed.

(** The four cases of [coalesce].  Each lemma also says what is written:
    only bytes of the freed block and of free blocks. *)
Lemma coalesce_none_frame (fuel : nat) (s : state) (fl : Z -> list Z)
      (pre post : list blk) (bp sz : Z) :
  rep s (pre ++ (bp, sz, false) :: post) fl ->
  ends_allocated pre -> starts_allocated post -> unlisted fl bp ->
  exists s', coalesce fuel s bp = Ok (bp, s') /\
             rep s' (pre ++ (bp, sz, false) :: post) (fl_insert fl sz bp) /\
             GET_ALLOC s (bp - DSIZE) = Ok 1 /\
             GET_ALLOC s (HDRP (bp + sz)) = Ok 1 /\
             forall x, off_free (pre ++ (bp, sz, false) :: post) x ->
                       mem s' x = mem s x.
Proof.
  intros R EA SA U.
  destruct (around s fl pre [] [] post bp sz false R)
    as (a & c & C1 & C2 & C3 & C4 & C5 & C6).
  cbn [contig] in C2, C3. subst a c. rewrite app_nil_r in C6.
  assert (Hb : In (bp, sz, false) (pre ++ (bp, sz, false) :: post))
    by (apply in_or_app; right; left; reflexivity).
  destruct (rep_block _ _ _ R _ _ _ Hb) as (P1 & P2 & P3 & P4 & T1 & T2).
  pose proof (rep_heap_bounds _ _ _ R) as (B1 & B2 & B3 & B4 & B5).
  destruct (read_prev _ _ _ R pre _ bp eq_refl C1)
    as (psz & pal & RP1 & RP2 & RP3 & RP4).
  assert (pal = true).
  { destruct RP4 as [[_ E]|(pre' & E)]; [exact E|].
    apply (EA _ _ E). }
  subst pal.
  destruct (read_next _ _ _ R (pre ++ [(bp, sz, false)]) post (bp + sz))
    as (nal & RN1 & RN2);
    [rewrite <- app_assoc; reflexivity | exact C6 |].
  assert (nal = true).
  { destruct RN2 as [[_ E]|(nsz & post' & E)]; [exact E|].
    apply (SA _ _ E). }
  subst nal.
  destruct (freelist_insert_frame _ _ _ R bp sz Hb U) as (s' & I1 & I2 & I3).
  exists s'.
  split; [|split; [exact I2 | split; [assumption | split; [assumption|]]]].
  2:{ intros x Hx. apply I3. destruct (Hx _ _ Hb); lia. }
  unfold coalesce. rewrite RP1. cbn [bind]. rewrite RP2. cbn [bind].
  rewrite RP3. cbn [bind].
  rewrite (NEXT_at s bp sz false) by (try assumption; lia). cbn [bind].
  rewrite RN1. cbn [bind].
  rewrite (GET_SIZE_at s (HDRP bp) sz false)
    by (unfold HDRP, WSIZE; try assumption; lia).
  cbn [bind bit Z.eqb negb andb]. rewrite I1. reflexivity.
Qed.

Lemma coalesce_none (fuel : nat) (s : state) (fl : Z -> list Z)
      (pre post : list blk) (bp sz : Z) :
  rep s (pre ++ (bp, sz, false) :: post) fl ->
  ends_allocated pre -> starts_allocated post -> unlisted fl bp ->
  exists s', coalesce fuel s bp = Ok (bp, s') /\
             rep s' (pre ++ (bp, sz, false) :: post) (fl_insert fl sz bp) /\
             GET_ALLOC s (bp - DSIZE) = Ok 1 /\
             GET_ALLOC s (HDRP (bp + sz)) = Ok 1.
Proof.
  intros R EA SA U.
  destruct (coalesce_none_frame fuel s fl pre post bp sz R EA SA U)
    as (s' & A & B & C & D & _).
  eauto.
Qed.

Lemma coalesce_next_frame (fuel : nat) (s : state) (fl : Z -> list Z)
      (pre post : list blk) (bp sz nb nsz : Z) :
  rep s (pre ++ (bp, sz, false) :: (nb, nsz, false) :: post) fl ->
  ends_allocated pre -> unlisted fl bp ->
  In nb (fl (smallest_bucket nsz)) ->
  (length (fl (smallest_bucket nsz)) <= fuel)%nat ->
  exists s', coalesce fuel s bp = Ok (bp, s') /\
             rep s' (pre ++ (bp, sz + nsz, false) :: post)
                 (fl_insert (fl_remove fl nsz nb) (sz + nsz) bp) /\
             GET_ALLOC s (bp - DSIZE) = Ok 1 /\
             GET_ALLOC s (HDRP (bp + sz)) = Ok 0 /\
             forall x,
               off_free (pre ++ (bp, sz, false) :: (nb, nsz, false) :: post) x ->
               mem s' x = mem s x.
Proof.
  intros R EA U Ln Hf.
  destruct (around s fl pre [] [(nb, nsz, false)] post bp sz false R)
    as (a & c & C1 & C2 & C3 & C4 & C5 & C6).
  cbn [contig] in C2, C3. subst a. destruct C3 as (-> & _ & _ & <-).
  rewrite app_nil_r in C6.
  set (bs := pre ++ (bp, sz, false) :: (bp + sz, nsz, false) :: post) in *.
  assert (Hb : In (bp, sz, false) bs)
    by (apply in_or_app; right; left; reflexivity).
  assert (Hn : In (bp + sz, nsz, false) bs)
    by (apply in_or_app; right; right; left; reflexivity).
  destruct (rep_block _ _ _ R _ _ _ Hb) as (P1 & P2 & P3 & P4 & T1 & T2).
  destruct (rep_block _ _ _ R _ _ _ Hn) as (N1 & N2 & N3 & N4 & T3 & T4).
  pose proof (rep_heap_bounds _ _ _ R) as (B1 & B2 & B3 & B4 & B5).
  destruct (read_prev _ _ _ R pre _ bp eq_refl C1)
    as (psz & pal & RP1 & RP2 & RP3 & RP4).
  assert (pal = true).
  { destruct RP4 as [[_ E]|(pre' & E)]; [exact E|].
    apply (EA _ _ E). }
  subst pal.
  assert (RN1 : GET_ALLOC s (HDRP (bp + sz)) = Ok 0)
    by (apply (GET_ALLOC_at s _ nsz false); unfold HDRP, WSIZE;
        try assumption; lia).
  (* remove the next block from its list *)
  destruct (freelist_remove_frame _ _ _ R fuel (bp + sz) nsz Hn Ln Hf)
    as (s1 & F1 & R1 & FR1).
  destruct (freelist_remove_same _ _ _ _ F1) as (E1 & E2 & E3 & E4).
  destruct (rep_block _ _ _ R1 _ _ _ Hb) as (_ & _ & _ & _ & T1' & _).
  destruct (rep_block _ _ _ R1 _ _ _ Hn) as (_ & _ & _ & _ & T3' & _).
  (* rewrite the tags *)
  set (T := sz + nsz).
  set (s2 := set_mem s1 (storen 4 (bp - 4) T (mem s1))).
  set (s3 := set_mem s2 (storen 4 (bp + T - 8) T (mem s2))).
  assert (R3 : rep s3 (pre ++ [(bp, T, false)] ++ post) (fl_remove fl nsz (bp + sz))).
  { apply (rep_replace s1 s3 pre [(bp, sz, false); (bp + sz, nsz, false)]
                       [(bp, T, false)] post _ bp (bp + T)).
    - exact R1.
    - repeat split.
    - reflexivity.
    - rewrite E4. exact C1.
    - cbn [contig]. unfold MINSIZE, T. repeat split; try lia; assumption.
    - cbn [contig]. unfold MINSIZE, T.
      repeat split; try lia. apply mod8_add; assumption.
    - intros x Hx. unfold s3, s2. cbn [mem set_mem].
      rewrite !storen_other by (cbn; lia). reflexivity.
    - constructor; [|constructor]. unfold s3, s2. cbn [mem set_mem tagged].
      rewrite tag_free. split.
      + rewrite loadn_storen_other by (cbn; unfold T; lia).
        apply load4_store4. unfold T. lia.
      + apply load4_store4. unfold T. lia.
    - intros x sx ax [H|[H|[]]]; injection H as <- <- <-.
      + apply unlisted_remove. exact U.
      + apply (unlisted_removed s bs); assumption. }
  assert (Hm : In (bp, T, false) (pre ++ [(bp, T, false)] ++ post))
    by (apply in_or_app; right; left; reflexivity).
  destruct (freelist_insert_frame _ _ _ R3 bp T Hm) as (s4 & I1 & I2 & I3);
    [apply unlisted_remove; exact U|].
  exists s4.
  split; [|split; [exact I2 | split; [assumption | split; [assumption|]]]].
  2:{ intros x Hx. rewrite <- (FR1 x Hx).
      destruct (Hx _ _ Hb) as [X1|X1], (Hx _ _ Hn) as [X2|X2]; try lia;
        (rewrite I3 by lia; unfold s3, s2; cbn [mem set_mem];
         rewrite !storen_other by (cbn; unfold T; lia); reflexivity). }
  unfold coalesce. rewrite RP1. cbn [bind]. rewrite RP2. cbn [bind].
  rewrite RP3. cbn [bind].
  rewrite (NEXT_at s bp sz false) by (try assumption; lia). cbn [bind].
  rewrite RN1. cbn [bind].
  rewrite (GET_SIZE_at s (HDRP bp) sz false)
    by (unfold HDRP, WSIZE; try assumption; lia).
  cbn [bind bit Z.eqb negb andb]. rewrite F1. cbn [bind].
  rewrite (NEXT_at s1 bp sz false) by (try assumption; lia). cbn [bind].
  rewrite (GET_SIZE_at s1 (HDRP (bp + sz)) nsz false)
    by (unfold HDRP, WSIZE; try assumption; lia).
  cbn [bind]. rewrite wrap64_small by lia. fold T. rewrite PACK_0.
  unfold HDRP, WSIZE. rewrite PUT_ok by lia. cbn [bind]. fold s2.
  rewrite (FTRP_at s2 bp T false);
    [ | unfold s2; cbn [set_mem mem_start_brk mem_brk mem]; try lia ..].
  - cbn [bind]. rewrite PUT_ok
      by (unfold s2; cbn [set_mem mem_start_brk mem_brk]; unfold T; lia).
    cbn [bind]. fold s3. rewrite I1. reflexivity.
  - rewrite tag_free. apply load4_store4. unfold T. lia.
  - unfold T. apply mod8_add; assumption.
Qed.

Lemma coalesce_next (fuel : nat) (s : state) (fl : Z -> list Z)
      (pre post : list blk) (bp sz nb nsz : Z) :
  rep s (pre ++ (bp, sz, false) :: (nb, nsz, false) :: post) fl ->
  ends_allocated pre -> unlisted fl bp ->
  In nb (fl (smallest_bucket nsz)) ->
  (length (fl (smallest_bucket nsz)) <= fuel)%nat ->
  exists s', coalesce fuel s bp = Ok (bp, s') /\
             rep s' (pre ++ (bp, sz + nsz, false) :: post)
                 (fl_insert (fl_remove fl nsz nb) (sz + nsz) bp) /\
             GET_ALLOC s (bp - DSIZE) = Ok 1 /\
             GET_ALLOC s (HDRP (bp + sz)) = Ok 0.
Proof.
  intros R EA U Ln Hf.
  destruct (coalesce_next_frame fuel s fl pre post bp sz nb nsz R EA U Ln Hf)
    as (s' & A & B & C & D & _).
  eauto.
Qed.

Lemma prev_is_last (s : state) (fl : Z -> list Z) (bs pre rest : list blk)
      (pb psz bp : Z) (pal : bool) :
  rep s bs fl -> bs = (pre ++ [(pb, psz, pal)]) ++ rest ->
  contig (heap_listp s + 8) (pre ++ [(pb, psz, pal)]) bp ->
  PREV_BLKP s bp = Ok pb /\ FTRP s pb = Ok (bp - 8) /\
  GET_ALLOC s (bp - 8) = Ok (bit pal) /\ pb + psz = bp.
Proof.
  intros R E C.
  destruct (read_prev _ _ _ R _ _ bp E C) as (psz' & pal' & RP1 & RP2 & RP3 & RP4).
  destruct RP4 as [[X _]|(pre' & X)];
    [destruct pre; discriminate X|].
  apply app_inj_tail in X. destruct X as [_ X]. injection X as X1 <- <-.
  subst pb. repeat split; try assumption. lia.
Qed.

Lemma coalesce_prev_frame (fuel : nat) (s : state) (fl : Z -> list Z)
      (pre post : list blk) (bp sz pb psz : Z) :
  rep s (pre ++ (pb, psz, false) :: (bp, sz, false) :: post) fl ->
  starts_allocated post -> unlisted fl bp ->
  In pb (fl (smallest_bucket psz)) ->
  (length (fl (smallest_bucket psz)) <= fuel)%nat ->
  exists s', coalesce fuel s bp = Ok (pb, s') /\
             rep s' (pre ++ (pb, psz + sz, false) :: post)
                 (fl_insert (fl_remove fl psz pb) (psz + sz) pb) /\
             GET_ALLOC s (bp - DSIZE) = Ok 0 /\
             GET_ALLOC s (HDRP (bp + sz)) = Ok 1 /\
             forall x,
               off_free (pre ++ (pb, psz, false) :: (bp, sz, false) :: post) x ->
               mem s' x = mem s x.
Proof.
  intros R SA U Lp Hf.
  destruct (around s fl pre [(pb, psz, false)] [] post bp sz false R)
    as (a & c & C1 & C2 & C3 & C4 & C5 & C6).
  cbn [contig] in C2, C3. subst c. destruct C2 as (Ea & _ & _ & Ebp).
  subst a.
  set (bs := pre ++ (pb, psz, false) :: (bp, sz, false) :: post) in *.
  assert (Ebs : bs = (pre ++ [(pb, psz, false)]) ++ (bp, sz, false) :: post)
    by (unfold bs; rewrite <- app_assoc; reflexivity).
  assert (Hb : In (bp, sz, false) bs)
    by (apply in_or_app; right; right; left; reflexivity).
  assert (Hp : In (pb, psz, false) bs)
    by (apply in_or_app; right; left; reflexivity).
  destruct (rep_block _ _ _ R _ _ _ Hb) as (P1 & P2 & P3 & P4 & T1 & T2).
  destruct (rep_block _ _ _ R _ _ _ Hp) as (Q1 & Q2 & Q3 & Q4 & T3 & T4).
  pose proof (rep_heap_bounds _ _ _ R) as (B1 & B2 & B3 & B4 & B5).
  destruct (prev_is_last _ _ _ _ _ _ _ _ _ R Ebs C5) as (RP1 & RP2 & RP3 & _).
  destruct (read_next _ _ _ R ((pre ++ [(pb, psz, false)]) ++ [(bp, sz, false)])
                      post (bp + sz))
    as (nal & RN1 & RN2);
    [unfold bs; rewrite <- !app_assoc; reflexivity | exact C6 |].
  assert (nal = true).
  { destruct RN2 as [[_ E]|(nsz & post' & E)]; [exact E|].
    apply (SA _ _ E). }
  subst nal.
  (* remove the previous block from its list *)
  destruct (freelist_remove_frame _ _ _ R fuel pb psz Hp Lp Hf)
    as (s1 & F1 & R1 & FR1).
  destruct (freelist_remove_same _ _ _ _ F1) as (E1 & E2 & E3 & E4).
  assert (C5' : contig (heap_listp s1 + 8) (pre ++ [(pb, psz, false)]) bp)
    by (rewrite E4; exact C5).
  destruct (prev_is_last _ _ _ _ _ _ _ _ _ R1 Ebs C5') as (RQ1 & _).
  destruct (rep_block _ _ _ R1 _ _ _ Hb) as (_ & _ & _ & _ & T1' & T2').
  destruct (rep_block _ _ _ R1 _ _ _ Hp) as (_ & _ & _ & _ & T3' & T4').
  (* rewrite the tags *)
  set (T := sz + psz).
  set (s2 := set_mem s1 (storen 4 (bp + sz - 8) T (mem s1))).
  set (s3 := set_mem s2 (storen 4 (pb - 4) T (mem s2))).
  assert (Tf : loadn 4 (mem s1) (bp - 8) = tag psz false)
    by (replace (bp - 8) with (pb + psz - 8) by lia; exact T4').
  assert (PV2 : PREV_BLKP s2 bp = Ok pb).
  { rewrite (PREV_at s2 bp psz false);
      unfold s2; cbn [set_mem mem_start_brk mem_brk mem]; try lia;
      try assumption.
    - f_equal. lia.
    - rewrite loadn_storen_other by (cbn; lia). exact Tf. }
  assert (PV3 : PREV_BLKP s3 bp = Ok pb).
  { rewrite (PREV_at s3 bp psz false);
      unfold s3, s2; cbn [set_mem mem_start_brk mem_brk mem]; try lia;
      try assumption.
    - f_equal. lia.
    - rewrite !loadn_storen_other by (cbn; lia). exact Tf. }
  assert (R3 : rep s3 (pre ++ [(pb, psz + sz, false)] ++ post)
                   (fl_remove fl psz pb)).
  { apply (rep_replace s1 s3 pre [(pb, psz, false); (bp, sz, false)]
                       [(pb, psz + sz, false)] post _ pb (bp + sz)).
    - exact R1.
    - repeat split.
    - reflexivity.
    - rewrite E4. exact C1.
    - cbn [contig]. unfold MINSIZE. repeat split; try lia; assumption.
    - cbn [contig]. unfold MINSIZE.
      repeat split; try lia. apply mod8_add; assumption.
    - intros x Hx. unfold s3, s2. cbn [mem set_mem].
      rewrite !storen_other by (cbn; lia). reflexivity.
    - constructor; [|constructor]. unfold s3, s2. cbn [mem set_mem tagged].
      rewrite tag_free. replace (psz + sz) with T by (unfold T; lia).
      split.
      + apply load4_store4. unfold T. lia.
      + replace (pb + T - 8) with (bp + sz - 8) by (unfold T; lia).
        rewrite loadn_storen_other by (cbn; lia).
        apply load4_store4. unfold T. lia.
    - intros x sx ax [H|[H|[]]]; injection H as <- <- <-.
      + apply (unlisted_removed s bs); assumption.
      + apply unlisted_remove. exact U. }
  assert (Hm : In (pb, psz + sz, false) (pre ++ [(pb, psz + sz, false)] ++ post))
    by (apply in_or_app; right; left; reflexivity).
  destruct (freelist_insert_frame _ _ _ R3 pb (psz + sz) Hm)
    as (s4 & I1 & I2 & I3);
    [apply (unlisted_removed s bs); assumption|].
  exists s4.
  split; [|split; [exact I2 | split; [assumption | split; [assumption|]]]].
  2:{ intros x Hx. rewrite <- (FR1 x Hx).
      destruct (Hx _ _ Hb) as [X1|X1], (Hx _ _ Hp) as [X2|X2]; try lia;
        (rewrite I3 by lia; unfold s3, s2; cbn [mem set_mem];
         rewrite !storen_other by (cbn; unfold T; lia); reflexivity). }
  unfold coalesce. rewrite RP1. cbn [bind]. rewrite RP2. cbn [bind].
  rewrite RP3. cbn [bind].
  rewrite (NEXT_at s bp sz false) by (try assumption; lia). cbn [bind].
  rewrite RN1. cbn [bind].
  rewrite (GET_SIZE_at s (HDRP bp) sz false)
    by (unfold HDRP, WSIZE; try assumption; lia).
  cbn [bind bit Z.eqb negb andb]. rewrite F1. cbn [bind].
  rewrite RQ1. cbn [bind].
  rewrite (GET_SIZE_at s1 (HDRP pb) psz false)
    by (unfold HDRP, WSIZE; try assumption; lia).
  cbn [bind]. rewrite wrap64_small by lia. fold T. rewrite PACK_0.
  rewrite (FTRP_at s1 bp sz false) by (try assumption; lia). cbn [bind].
  rewrite PUT_ok by lia. cbn [bind]. fold s2.
  rewrite PV2. cbn [bind]. unfold HDRP, WSIZE.
  rewrite PUT_ok by (unfold s2; cbn [set_mem mem_start_brk mem_brk]; lia).
  cbn [bind]. fold s3. rewrite PV3. cbn [bind]. rewrite I1. reflexivity.
Qed.

Lemma coalesce_prev (fuel : nat) (s : state) (fl : Z -> list Z)
      (pre post : list blk) (bp sz pb psz : Z) :
  rep s (pre ++ (pb, psz, false) :: (bp, sz, false) :: post) fl ->
  starts_allocated post -> unlisted fl bp ->
  In pb (fl (smallest_bucket psz)) ->
  (length (fl (smallest_bucket psz)) <= fuel)%nat ->
  exists s', coalesce fuel s bp = Ok (pb, s') /\
             rep s' (pre ++ (pb, psz + sz, false) :: post)
                 (fl_insert (fl_remove fl psz pb) (psz + sz) pb) /\
             GET_ALLOC s (bp - DSIZE) = Ok 0 /\
             GET_ALLOC s (HDRP (bp + sz)) = Ok 1.
Proof.
  intros R SA U Lp Hf.
  destruct (coalesce_prev_frame fuel s fl pre post bp sz pb psz R SA U Lp Hf)
    as (s' & A & B & C & D & _).
  eauto.
Qed.

Lemma coalesce_both_frame (fuel : nat) (s : state) (fl : Z -> list Z)
      (pre post : list blk) (bp sz pb psz nb nsz : Z) :
  rep s (pre ++ (pb, psz, false) :: (bp, sz, false) :: (nb, nsz, false) :: post)
      fl ->
  unlisted fl bp ->
  In pb (fl (smallest_bucket psz)) -> In nb (fl (smallest_bucket nsz)) ->
  (length (fl (smallest_bucket psz)) <= fuel)%nat ->
  (length (fl (smallest_bucket nsz)) <= fuel)%nat ->
  exists s', coalesce fuel s bp = Ok (pb, s') /\
             rep s' (pre ++ (pb, psz + sz + nsz, false) :: post)
                 (fl_insert (fl_remove (fl_remove fl nsz nb) psz pb)
                            (psz + sz + nsz) pb) /\
             GET_ALLOC s (bp - DSIZE) = Ok 0 /\
             GET_ALLOC s (HDRP (bp + sz)) = Ok 0 /\
             forall x,
               off_free (pre ++ (pb, psz, false) :: (bp, sz, false)
                             :: (nb, nsz, false) :: post) x ->
               mem s' x = mem s x.
Proof.
  intros R U Lp Ln Hfp Hfn.
  destruct (around s fl pre [(pb, psz, false)] [(nb, nsz, false)] post
                   bp sz false R)
    as (a & c & C1 & C2 & C3 & C4 & C5 & C6).
  cbn [contig] in C2, C3. destruct C2 as (Ea & _ & _ & Ebp). subst a.
  destruct C3 as (Enb & _ & _ & Ec). subst nb c.
  set (bs := pre ++ (pb, psz, false) :: (bp, sz, false)
                 :: (bp + sz, nsz, false) :: post) in *.
  assert (Ebs : bs = (pre ++ [(pb, psz, false)])
                       ++ (bp, sz, false) :: (bp + sz, nsz, false) :: post)
    by (unfold bs; rewrite <- app_assoc; reflexivity).
  assert (Hb : In (bp, sz, false) bs)
    by (apply in_or_app; right; right; left; reflexivity).
  assert (Hp : In (pb, psz, false) bs)
    by (apply in_or_app; right; left; reflexivity).
  assert (Hn : In (bp + sz, nsz, false) bs)
    by (apply in_or_app; right; right; right; left; reflexivity).
  destruct (rep_block _ _ _ R _ _ _ Hb) as (P1 & P2 & P3 & P4 & T1 & T2).
  destruct (rep_block _ _ _ R _ _ _ Hp) as (Q1 & Q2 & Q3 & Q4 & T3 & T4).
  destruct (rep_block _ _ _ R _ _ _ Hn) as (N1 & N2 & N3 & N4 & T5 & T6).
  pose proof (rep_heap_bounds _ _ _ R) as (B1 & B2 & B3 & B4 & B5).
  destruct (prev_is_last _ _ _ _ _ _ _ _ _ R Ebs C5) as (RP1 & RP2 & RP3 & _).
  assert (RN1 : GET_ALLOC s (HDRP (bp + sz)) = Ok 0)
    by (apply (GET_ALLOC_at s _ nsz false); unfold HDRP, WSIZE;
        try assumption; lia).
  (* remove the next block, then the previous block *)
  destruct (freelist_remove_frame _ _ _ R fuel (bp + sz) nsz Hn Ln Hfn)
    as (s1 & F1 & R1 & FR1).
  destruct (freelist_remove_same _ _ _ _ F1) as (E1 & E2 & E3 & E4).
  assert (C5' : contig (heap_listp s1 + 8) (pre ++ [(pb, psz, false)]) bp)
    by (rewrite E4; exact C5).
  destruct (prev_is_last _ _ _ _ _ _ _ _ _ R1 Ebs C5') as (RQ1 & _).
  assert (Lp1 : In pb (fl_remove fl nsz (bp + sz) (smallest_bucket psz)))
    by (apply listed_remove_other; [exact Lp | lia]).
  assert (Hfp1 : (length (fl_remove fl nsz (bp + sz) (smallest_bucket psz))
                  <= fuel)%nat)
    by (pose proof (fl_remove_length fl nsz (bp + sz) (smallest_bucket psz));
        lia).
  destruct (freelist_remove_frame _ _ _ R1 fuel pb psz Hp Lp1 Hfp1)
    as (s2 & F2 & R2 & FR2).
  destruct (freelist_remove_same _ _ _ _ F2) as (G1 & G2 & G3 & G4).
  assert (C5'' : contig (heap_listp s2 + 8) (pre ++ [(pb, psz, false)]) bp)
    by (rewrite G4, E4; exact C5).
  destruct (prev_is_last _ _ _ _ _ _ _ _ _ R2 Ebs C5'') as (RR1 & _).
  destruct (rep_block _ _ _ R2 _ _ _ Hb) as (_ & _ & _ & _ & U1 & U2).
  destruct (rep_block _ _ _ R2 _ _ _ Hp) as (_ & _ & _ & _ & U3 & U4).
  destruct (rep_block _ _ _ R2 _ _ _ Hn) as (_ & _ & _ & _ & U5 & U6).
  set (fl2 := fl_remove (fl_remove fl nsz (bp + sz)) psz pb) in *.
  (* rewrite the tags *)
  set (T := sz + (psz + nsz)).
  set (s3 := set_mem s2 (storen 4 (pb - 4) T (mem s2))).
  set (s4 := set_mem s3 (storen 4 (bp + sz + nsz - 8) T (mem s3))).
  assert (Tf : loadn 4 (mem s2) (bp - 8) = tag psz false)
    by (replace (bp - 8) with (pb + psz - 8) by lia; exact U4).
  assert (PV4 : PREV_BLKP s4 bp = Ok pb).
  { rewrite (PREV_at s4 bp psz false);
      unfold s4, s3; cbn [set_mem mem_start_brk mem_brk mem]; try lia;
      try assumption.
    - f_equal. lia.
    - rewrite !loadn_storen_other by (cbn; lia). exact Tf. }
  assert (NX3 : NEXT_BLKP s3 bp = Ok (bp + sz)).
  { apply (NEXT_at s3 bp sz false);
      unfold s3; cbn [set_mem mem_start_brk mem_brk mem]; try lia;
      try assumption.
    rewrite loadn_storen_other by (cbn; lia). exact U1. }
  assert (FN3 : FTRP s3 (bp + sz) = Ok (bp + sz + nsz - 8)).
  { apply (FTRP_at s3 (bp + sz) nsz false);
      unfold s3; cbn [set_mem mem_start_brk mem_brk mem]; try lia;
      try assumption.
    rewrite loadn_storen_other by (cbn; lia). exact U5. }
  assert (R4 : rep s4 (pre ++ [(pb, psz + sz + nsz, false)] ++ post) fl2).
  { apply (rep_replace s2 s4 pre
             [(pb, psz, false); (bp, sz, false); (bp + sz, nsz, false)]
             [(pb, psz + sz + nsz, false)] post _ pb (bp + sz + nsz)).
    - exact R2.
    - repeat split.
    - reflexivity.
    - rewrite G4, E4. exact C1.
    - cbn [contig]. unfold MINSIZE. repeat split; try lia; assumption.
    - cbn [contig]. unfold MINSIZE.
      repeat split; try lia. repeat apply mod8_add; assumption.
    - intros x Hx. unfold s4, s3. cbn [mem set_mem].
      rewrite !storen_other by (cbn; lia). reflexivity.
    - constructor; [|constructor]. unfold s4, s3. cbn [mem set_mem tagged].
      rewrite tag_free. replace (psz + sz + nsz) with T by (unfold T; lia).
      split.
      + rewrite loadn_storen_other by (cbn; lia).
        apply load4_store4. unfold T. lia.
      + replace (pb + T - 8) with (bp + sz + nsz - 8) by (unfold T; lia).
        apply load4_store4. unfold T. lia.
    - intros x sx ax [H|[H|[H|[]]]]; injection H as <- <- <-.
      + apply (unlisted_removed s1 bs); assumption.
      + apply unlisted_remove, unlisted_remove. exact U.
      + apply unlisted_remove. apply (unlisted_removed s bs); assumption. }
  assert (Hm : In (pb, psz + sz + nsz, false)
                  (pre ++ [(pb, psz + sz + nsz, false)] ++ post))
    by (apply in_or_app; right; left; reflexivity).
  destruct (freelist_insert_frame _ _ _ R4 pb (psz + sz + nsz) Hm)
    as (s5 & I1 & I2 & I3);
    [apply (unlisted_removed s1 bs); assumption|].
  exists s5.
  split; [|split; [exact I2 | split; [assumption | split; [assumption|]]]].
  2:{ intros x Hx. rewrite <- (FR1 x Hx), <- (FR2 x Hx).
      destruct (Hx _ _ Hb) as [X1|X1], (Hx _ _ Hp) as [X2|X2],
               (Hx _ _ Hn) as [X3|X3]; try lia;
        (rewrite I3 by lia; unfold s4, s3; cbn [mem set_mem];
         rewrite !storen_other by (cbn; unfold T; lia); reflexivity). }
  unfold coalesce. rewrite RP1. cbn [bind]. rewrite RP2. cbn [bind].
  rewrite RP3. cbn [bind].
  rewrite (NEXT_at s bp sz false) by (try assumption; lia). cbn [bind].
  rewrite RN1. cbn [bind].
  rewrite (GET_SIZE_at s (HDRP bp) sz false)
    by (unfold HDRP, WSIZE; try assumption; lia).
  cbn [bind bit Z.eqb negb andb]. rewrite F1. cbn [bind].
  rewrite RQ1. cbn [bind]. rewrite F2. cbn [bind].
  rewrite RR1. cbn [bind].
  rewrite (GET_SIZE_at s2 (HDRP pb) psz false)
    by (unfold HDRP, WSIZE; try assumption; lia).
  cbn [bind].
  rewrite (NEXT_at s2 bp sz false) by (try assumption; lia). cbn [bind].
  rewrite (FTRP_at s2 (bp + sz) nsz false) by (try assumption; lia).
  cbn [bind].
  rewrite (GET_SIZE_at s2 (bp + sz + nsz - 8) nsz false)
    by (try assumption; lia).
  cbn [bind]. rewrite wrap32_small by lia. rewrite wrap64_small by lia.
  fold T. rewrite PACK_0. unfold HDRP, WSIZE.
  rewrite PUT_ok by lia. cbn [bind]. fold s3.
  rewrite NX3. cbn [bind]. rewrite FN3. cbn [bind].
  rewrite PUT_ok by (unfold s3; cbn [set_mem mem_start_brk mem_brk]; lia).
  cbn [bind]. fold s4. rewrite PV4. cbn [bind]. rewrite I1. reflexivity.
Qed.

Lemma coalesce_both (fuel : nat) (s : state) (fl : Z -> list Z)
      (pre post : list blk) (bp sz pb psz nb nsz : Z) :
  rep s (pre ++ (pb, psz, false) :: (bp, sz, false) :: (nb, nsz, false) :: post)
      fl ->
  unlisted fl bp ->
  In pb (fl (smallest_bucket psz)) -> In nb (fl (smallest_bucket nsz)) ->
  (length (fl (smallest_bucket psz)) <= fuel)%nat ->
  (length (fl (smallest_bucket nsz)) <= fuel)%nat ->
  exists s', coalesce fuel s bp = Ok (pb, s') /\
             rep s' (pre ++ (pb, psz + sz + nsz, false) :: post)
                 (fl_insert (fl_remove (fl_remove fl nsz nb) psz pb)
                            (psz + sz + nsz) pb) /\
             GET_ALLOC s (bp - DSIZE) = Ok 0 /\
             GET_ALLOC s (HDRP (bp + sz)) = Ok 0.
Proof.
  intros R U Lp Ln Hfp Hfn.
  destruct (coalesce_both_frame fuel s fl pre post bp sz pb psz nb nsz
              R U Lp Ln Hfp Hfn) as (s' & A & B & C & D & _).
  eauto.
Qed.

(** The state after coalescing, whatever the case. *)
Lemma coalesce_rep (fuel : nat) (s : state) (fl : Z -> list Z)
      (pre P N post : list blk) (bp sz : Z) :
  rep s (pre ++ P ++ (bp, sz, false) :: N ++ post) fl ->
  neighbour fl P -> neighbour fl N ->
  (P = [] -> ends_allocated pre) -> (N = [] -> starts_allocated post) ->
  unlisted fl bp ->
  (forall i, 0 <= i < NUMLIST -> (length (fl i) <= fuel)%nat) ->
  exists s',
    coalesce fuel s bp = Ok (merged_bp P bp, s') /\
    rep s' (pre ++ (merged_bp P bp, merged_size P sz N, false) :: post)
        (fl_insert (fl_remove_all fl (N ++ P)) (merged_size P sz N)
                   (merged_bp P bp)) /\
    forall x, off_free (pre ++ P ++ (bp, sz, false) :: N ++ post) x ->
              mem s' x = mem s x.
Proof.
  intros R HP HN EA SA U Hf.
  assert (Hf' : forall x, (length (fl (smallest_bucket x)) <= fuel)%nat).
  { intros x. apply Hf. pose proof (smallest_bucket_range x).
    unfold NUMLIST. lia. }
  destruct HP as [|pb psz Lp], HN as [|nb nsz Ln];
    unfold merged_bp, merged_size;
    cbn [app total fold_right fst snd fl_remove_all] in *.
  - replace (0 + sz + 0) with sz by lia.
    destruct (coalesce_none_frame fuel s fl pre post bp sz)
      as (s' & A & B & _ & _ & F); eauto.
  - replace (0 + sz + (nsz + 0)) with (sz + nsz) by lia.
    destruct (coalesce_next_frame fuel s fl pre post bp sz nb nsz)
      as (s' & A & B & _ & _ & F); eauto.
  - replace (psz + 0 + sz + 0) with (psz + sz) by lia.
    destruct (coalesce_prev_frame fuel s fl pre post bp sz pb psz)
      as (s' & A & B & _ & _ & F); eauto.
  - replace (psz + 0 + sz + (nsz + 0)) with (psz + sz + nsz) by lia.
    destruct (coalesce_both_frame fuel s fl pre post bp sz pb psz nb nsz)
      as (s' & A & B & _ & _ & F); eauto.
Qed.

(** C6.  [coalesce] applied to a freshly freed block [bp] of size [sz],
    not yet in a free list, in a well-formed heap.  [P] and [N] are its
    free neighbours: [P] is empty when the block before [bp] is allocated
    and holds that block when it is free, likewise [N] for the block after
    [bp].  Which case applies is read off the footer of the block before
    ([bp - DSIZE]) and the header of the block after ([HDRP(bp + sz)]).
    The free neighbours are removed from their lists; the result starts at
    the first of the merged blocks ([bp] itself, or the previous block when
    it is free), carries the sum of the merged sizes in header and footer,
    and is put at the head of the list of that size's class. *)
Theorem coalesce_merges (fuel : nat) (s : state) (fl : Z -> list Z)
        (pre P N post : list blk) (bp sz : Z) :
  rep s (pre ++ P ++ (bp, sz, false) :: N ++ post) fl ->
  neighbour fl P -> neighbour fl N ->
  (P = [] -> ends_allocated pre) -> (N = [] -> starts_allocated post) ->
  unlisted fl bp ->
  (forall i, 0 <= i < NUMLIST -> (length (fl i) <= fuel)%nat) ->
  exists s',
    coalesce fuel s bp = Ok (merged_bp P bp, s') /\
    rep s' (pre ++ (merged_bp P bp, merged_size P sz N, false) :: post)
        (fl_insert (fl_remove_all fl (N ++ P)) (merged_size P sz N)
                   (merged_bp P bp)) /\
    GET_ALLOC s (bp - DSIZE) = Ok (neighbour_bit P) /\
    GET_ALLOC s (HDRP (bp + sz)) = Ok (neighbour_bit N).
Proof.
  intros R HP HN EA SA U Hf.
  assert (Hf' : forall x, (length (fl (smallest_bucket x)) <= fuel)%nat).
  { intros x. apply Hf. pose proof (smallest_bucket_range x).
    unfold NUMLIST. lia. }
  destruct HP as [|pb psz Lp], HN as [|nb nsz Ln];
    unfold merged_bp, merged_size, neighbour_bit;
    cbn [app total fold_right fst snd fl_remove_all] in *.
  - replace (0 + sz + 0) with sz by lia.
    apply coalesce_none; auto.
  - replace (0 + sz + (nsz + 0)) with (sz + nsz) by lia.
    apply coalesce_next; auto.
  - replace (psz + 0 + sz + 0) with (psz + sz) by lia.
    apply coalesce_prev; auto.
  - replace (psz + 0 + sz + (nsz + 0)) with (psz + sz + nsz) by lia.
    apply coalesce_both; auto.
Qed.

(** * The checkers are sound *)

Lemma upto_In (n : nat) : forall i x,
  i <= x < i + Z.of_nat n -> In x (upto n i).
Proof.
  induction n as [|n IH]; intros i x H; [lia|].
  cbn [upto]. destruct (Z.eq_dec x i) as [->|]; [left; reflexivity|].
  right. apply IH. lia.
Qed.

Lemma contigb_sound (bs : list blk) : forall a e,
  contigb a bs e = true -> contig a bs e.
Proof.
  induction bs as [|[[bp sz] al] bs IH]; intros a e H; cbn [contigb contig] in *.
  - apply Z.eqb_eq. exact H.
  - apply andb_prop in H. destruct H as [H H4].
    apply andb_prop in H. destruct H as [H H3].
    apply andb_prop in H. destruct H as [H1 H2].
    apply Z.eqb_eq in H1, H3. apply Z.leb_le in H2. auto.
Qed.

Lemma taggedb_sound (m : memory) (b : blk) : taggedb m b = true -> tagged m b.
Proof.
  destruct b as [[bp sz] al]. cbn [taggedb tagged]. intros H.
  apply andb_prop in H. destruct H as [H1 H2].
  apply Z.eqb_eq in H1, H2. auto.
Qed.

Lemma lsegb_sound (m : memory) (l : list Z) : forall h t,
  lsegb m h l t = true -> lseg m h l t.
Proof.
  induction l as [|y l IH]; intros h t H; cbn [lsegb lseg] in *.
  - apply Z.eqb_eq. exact H.
  - apply andb_prop in H. destruct H as [H1 H2].
    apply Z.eqb_eq in H1. auto.
Qed.

Lemma listedb_sound (bs : list blk) (i bp : Z) :
  listedb bs i bp = true ->
  exists sz, In (bp, sz, false) bs /\ smallest_bucket sz = i.
Proof.
  unfold listedb. intros H. apply existsb_exists in H.
  destruct H as ([[bp' sz] al] & Hin & H).
  apply andb_prop in H. destruct H as [H H3].
  apply andb_prop in H. destruct H as [H1 H2].
  apply Z.eqb_eq in H1, H3. destruct al; [discriminate H2|].
  subst. eauto.
Qed.

Lemma nodupb_sound (l : list Z) : nodupb l = true -> NoDup l.
Proof.
  induction l as [|x l IH]; intros H; [constructor|].
  cbn [nodupb] in H. apply andb_prop in H. destruct H as [H1 H2].
  constructor; [|apply IH; exact H2].
  intros Hin. apply negb_true_iff in H1.
  assert (E : existsb (Z.eqb x) l = true)
    by (apply existsb_exists; exists x; split; [exact Hin | apply Z.eqb_refl]).
  congruence.
Qed.

Lemma repb_sound (s : state) (bs : list blk) (fl : Z -> list Z) :
  repb s bs fl = true -> rep s bs fl.
Proof.
  unfold repb. intros H.
  repeat match type of H with
         | (_ && _)%bool = true =>
             let H' := fresh "K" in
             apply andb_prop in H; destruct H as [H H']
         end.
  assert (L : forall i, 0 <= i < NUMLIST ->
                        lsegb (mem s) (freelists s i) (fl i) (heap_listp s) = true /\
                        forallb (listedb bs i) (fl i) = true /\
                        nodupb (fl i) = true).
  { intros i Hi.
    pose proof (proj1 (forallb_forall _ _) K i) as X.
    cbn beta in X.
    assert (Hin : In i bucket_indices)
      by (apply upto_In; unfold NUMLIST in *; cbn; lia).
    specialize (X Hin).
    apply andb_prop in X. destruct X as [X X3].
    apply andb_prop in X. destruct X as [X1 X2]. auto. }
  constructor.
  - apply Z.ltb_lt. exact H.
  - apply Z.leb_le. exact K8.
  - apply Z.ltb_lt. exact K7.
  - apply Z.leb_le. exact K6.
  - apply Z.leb_le. exact K5.
  - apply Z.eqb_eq. exact K4.
  - apply Z.eqb_eq. exact K3.
  - apply contigb_sound. exact K2.
  - apply Forall_forall. intros b Hb. apply taggedb_sound.
    apply (proj1 (forallb_forall _ _) K1 b Hb).
  - apply Z.eqb_eq. exact K0.
  - intros i Hi. apply lsegb_sound. apply L. exact Hi.
  - intros i bp Hi Hin. apply listedb_sound.
    destruct (L i Hi) as (_ & X & _).
    apply (proj1 (forallb_forall _ _) X bp Hin).
  - intros i Hi. apply nodupb_sound. apply L. exact Hi.
Qed.

Lemma heap_okb_sound (s : state) (bs : list blk) (fl : Z -> list Z) :
  heap_okb s bs fl = true -> heap_ok s bs fl.
Proof.
  unfold heap_okb. intros H. apply andb_prop in H. destruct H as [H1 H2].
  split; [apply repb_sound; exact H1|].
  intros bp sz Hin.
  pose proof (proj1 (forallb_forall _ _) H2 _ Hin) as X. cbn in X.
  apply existsb_exists in X. destruct X as (y & Hy & E).
  apply Z.eqb_eq in E. subst y. exact Hy.
Qed.

Lemma lists_three_unlisted : unlisted lists_three 4128.
Proof.
  intros i _ H. unfold lists_three in H.
  destruct (i =? 4); [cbn in H; lia|].
  destruct (i =? 8); cbn in H; lia.
Defined.

Lemma lists_three_short (i : Z) :
  0 <= i < NUMLIST -> (length (lists_three i) <= fuel0)%nat.
Proof.
  intros _. unfold lists_three, fuel0.
  destruct (i =? 4); [cbn; lia|]. destruct (i =? 8); cbn; lia.
Defined.

(** The block 4128, freed between the free blocks 4112 and 4144, is merged
    with both into one block of 48 bytes at 4112. *)
Lemma coalesce_merges_witness :
  exists s',
    coalesce fuel0 (final run_freed) 4128 = Ok (4112, s') /\
    rep s' ((4112, 48, false) :: blocks_after)
        (fl_insert (fl_remove (fl_remove lists_three 16 4144) 16 4112)
                   48 4112) /\
    GET_ALLOC (final run_freed) (4128 - DSIZE) = Ok 0 /\
    GET_ALLOC (final run_freed) (HDRP (4128 + 16)) = Ok 0.
Proof.
  apply (coalesce_merges fuel0 (final run_freed) lists_three
           [] [(4112, 16, false)] [(4144, 16, false)] blocks_after 4128 16).
  - apply repb_sound. vm_compute. reflexivity.
  - apply neighbour_free. vm_compute. tauto.
  - apply neighbour_free. vm_compute. tauto.
  - intros H. discriminate H.
  - intros H. discriminate H.
  - exact lists_three_unlisted.
  - exact lists_three_short.
Defined.

(** * Coalescing keeps the heap well formed *)

Lemma middle_distinct (pre0 post0 : list blk) (a e bp sz : Z) (al : bool) :
  contig a (pre0 ++ (bp, sz, al) :: post0) e ->
  forall x sx ax, In (x, sx, ax) pre0 \/ In (x, sx, ax) post0 -> x <> bp.
Proof.
  intros C x sx ax H.
  apply contig_app in C. destruct C as (m & C1 & C2).
  cbn [contig] in C2. destruct C2 as (-> & M & _ & C2). unfold MINSIZE in M.
  destruct H as [H|H].
  - destruct (contig_In _ _ _ _ _ _ C1 H) as (_ & ? & M' & _).
    unfold MINSIZE in M'. lia.
  - destruct (contig_In _ _ _ _ _ _ C2 H) as (? & _). lia.
Qed.

Lemma split_around (fl : Z -> list Z) (pre0 post0 : list blk) :
  (forall x sx, In (x, sx, false) pre0 \/ In (x, sx, false) post0 ->
                In x (fl (smallest_bucket sx))) ->
  exists pre P N post,
    pre0 = pre ++ P /\ post0 = N ++ post /\
    neighbour fl P /\ neighbour fl N /\
    (P = [] -> ends_allocated pre) /\ (N = [] -> starts_allocated post).
Proof.
  intros L.
  assert (HP : exists pre P, pre0 = pre ++ P /\ neighbour fl P /\
                             (P = [] -> ends_allocated pre)).
  { destruct (list_last_cases pre0) as [->|(pre' & [[q qs] [|]] & ->)].
    - exists [], []. repeat split; [constructor|].
      intros _ pre' b E. destruct pre'; discriminate E.
    - exists (pre' ++ [(q, qs, true)]), []. rewrite app_nil_r.
      repeat split; [constructor|].
      intros _ pre'' b E. apply app_inj_tail in E. destruct E as [_ <-].
      reflexivity.
    - exists pre', [(q, qs, false)]. repeat split.
      + constructor. apply L. left. apply in_or_app. right. left. reflexivity.
      + intros E. discriminate E. }
  assert (HN : exists N post, post0 = N ++ post /\ neighbour fl N /\
                              (N = [] -> starts_allocated post)).
  { destruct post0 as [|[[q qs] [|]] post'].
    - exists [], []. repeat split; [constructor|].
      intros _ b post' E. discriminate E.
    - exists [], ((q, qs, true) :: post'). repeat split; [constructor|].
      intros _ b post'' E. injection E as <- _. reflexivity.
    - exists [(q, qs, false)], post'. repeat split.
      + constructor. apply L. right. left. reflexivity.
      + intros E. discriminate E. }
  destruct HP as (pre & P & E1 & N1 & A1).
  destruct HN as (N & post & E2 & N2 & A2).
  exists pre, P, N, post. auto 8.
Qed.

Lemma neighbour_blocks (fl : Z -> list Z) (P : list blk) :
  neighbour fl P ->
  forall x sx ax, In (x, sx, ax) P -> ax = false /\ In x (fl (smallest_bucket sx)).
Proof.
  intros [|pb psz L] x sx ax H; [destruct H|].
  destruct H as [H|[]]. injection H as <- <- <-. auto.
Qed.

Lemma fl_remove_all_keeps (fl : Z -> list Z) (l : list blk) : forall i x,
  In x (fl i) -> (forall y sy ay, In (y, sy, ay) l -> x <> y) ->
  In x (fl_remove_all fl l i).
Proof.
  revert fl. induction l as [|[[y sy] ay] l IH]; intros fl i x H D; [exact H|].
  cbn [fl_remove_all]. apply IH.
  - apply listed_remove_other; [exact H|].
    apply (D y sy ay). left. reflexivity.
  - intros z sz az Hz. apply (D z sz az). right. exact Hz.
Qed.

Lemma fl_remove_all_length (l : list blk) : forall fl i,
  (length (fl_remove_all fl l i) <= length (fl i))%nat.
Proof.
  induction l as [|[[y sy] ay] l IH]; intros fl i; cbn [fl_remove_all]; [lia|].
  pose proof (IH (fl_remove fl sy y) i).
  pose proof (fl_remove_length fl sy y i). lia.
Qed.

Lemma fl_insert_length (fl : Z -> list Z) (sz bp i : Z) :
  (length (fl_insert fl sz bp i) <= length (fl i) + 1)%nat.
Proof.
  unfold fl_insert. destruct (i =? smallest_bucket sz); cbn [length]; lia.
Qed.

Lemma fl_insert_keeps (fl : Z -> list Z) (sz bp i x : Z) :
  In x (fl i) -> In x (fl_insert fl sz bp i).
Proof.
  intros H. unfold fl_insert. destruct (i =? smallest_bucket sz);
    [right; exact H | exact H].
Qed.

Lemma fl_insert_head (fl : Z -> list Z) (sz bp : Z) :
  In bp (fl_insert fl sz bp (smallest_bucket sz)).
Proof. unfold fl_insert. rewrite Z.eqb_refl. left. reflexivity. Qed.

(** Coalescing the one free block that is in no list makes the heap well
    formed: the block is merged with its free neighbours [P] and [N], the
    blocks around them stay, and only bytes of free blocks are written. *)
Lemma coalesce_full (fuel : nat) (s : state) (fl : Z -> list Z)
      (pre0 post0 : list blk) (bp sz : Z) :
  rep s (pre0 ++ (bp, sz, false) :: post0) fl ->
  (forall x sx, In (x, sx, false) pre0 \/ In (x, sx, false) post0 ->
                In x (fl (smallest_bucket sx))) ->
  unlisted fl bp ->
  (forall i, 0 <= i < NUMLIST -> (length (fl i) <= fuel)%nat) ->
  exists s' pre P N post fl',
    pre0 = pre ++ P /\ post0 = N ++ post /\
    neighbour fl P /\ neighbour fl N /\
    coalesce fuel s bp = Ok (merged_bp P bp, s') /\
    heap_ok s' (pre ++ (merged_bp P bp, merged_size P sz N, false) :: post)
            fl' /\
    (forall i, (length (fl' i) <= length (fl i) + 1)%nat) /\
    (P = [] -> ends_allocated pre) /\ (N = [] -> starts_allocated post) /\
    (forall x, off_free (pre0 ++ (bp, sz, false) :: post0) x ->
               mem s' x = mem s x).
Proof.
  intros R L U Hf.
  destruct (split_around fl pre0 post0 L) as (pre & P & N & post & E1 & E2 & NP & NN & A1 & A2).
  subst pre0 post0.
  assert (R' : rep s (pre ++ P ++ (bp, sz, false) :: N ++ post) fl)
    by (rewrite <- app_assoc in R; exact R).
  destruct (coalesce_rep fuel s fl pre P N post bp sz R' NP NN A1 A2 U Hf)
    as (s' & Hc & Rc & Fc).
  exists s', pre, P, N, post,
    (fl_insert (fl_remove_all fl (N ++ P)) (merged_size P sz N) (merged_bp P bp)).
  do 5 (split; [first [reflexivity | assumption]|]).
  split; [split; [exact Rc|]
         | split; [|split; [exact A1 | split; [exact A2|]]]].
  3:{ intros x Hx. apply Fc. rewrite <- app_assoc in Hx. exact Hx. }
  - intros x sx Hin.
    destruct (around s fl pre P N post bp sz false R')
      as (a & c & C1 & C2 & C3 & C4 & C5 & C6).
    assert (M : 16 <= sz).
    { destruct (rep_block _ _ _ R' bp sz false) as (_ & _ & M & _); [|lia].
      apply in_or_app; right; apply in_or_app; right; left; reflexivity. }
    apply in_app_or in Hin. destruct Hin as [Hin|[Hin|Hin]].
    + apply fl_insert_keeps. apply fl_remove_all_keeps.
      * apply L. left. apply in_or_app. left. exact Hin.
      * intros y sy ay Hy.
        destruct (contig_In _ _ _ _ _ _ C1 Hin) as (_ & X1 & X2 & _).
        unfold MINSIZE in X2.
        apply in_app_or in Hy. destruct Hy as [Hy|Hy].
        -- destruct (contig_In _ _ _ _ _ _ C3 Hy) as (Y1 & _).
           pose proof (contig_le _ _ _ C2). lia.
        -- destruct (contig_In _ _ _ _ _ _ C2 Hy) as (Y1 & _). lia.
    + injection Hin as <- <-. apply fl_insert_head.
    + apply fl_insert_keeps. apply fl_remove_all_keeps.
      * apply L. right. apply in_or_app. right. exact Hin.
      * intros y sy ay Hy.
        destruct (contig_In _ _ _ _ _ _ C4 Hin) as (X1 & _).
        pose proof (contig_le _ _ _ C2). pose proof (contig_le _ _ _ C3).
        apply in_app_or in Hy. destruct Hy as [Hy|Hy].
        -- destruct (contig_In _ _ _ _ _ _ C3 Hy) as (_ & Y1 & Y2 & _).
           unfold MINSIZE in Y2. lia.
        -- destruct (contig_In _ _ _ _ _ _ C2 Hy) as (_ & Y1 & Y2 & _).
           unfold MINSIZE in Y2. lia.
  - intros i.
    pose proof (fl_insert_length (fl_remove_all fl (N ++ P))
                  (merged_size P sz N) (merged_bp P bp) i).
    pose proof (fl_remove_all_length (N ++ P) fl i). lia.
Qed.

Lemma coalesce_ok (fuel : nat) (s : state) (fl : Z -> list Z)
      (pre0 post0 : list blk) (bp sz : Z) :
  rep s (pre0 ++ (bp, sz, false) :: post0) fl ->
  (forall x sx, In (x, sx, false) pre0 \/ In (x, sx, false) post0 ->
                In x (fl (smallest_bucket sx))) ->
  unlisted fl bp ->
  (forall i, 0 <= i < NUMLIST -> (length (fl i) <= fuel)%nat) ->
  exists s' pre P N post fl',
    pre0 = pre ++ P /\ post0 = N ++ post /\
    neighbour fl P /\ neighbour fl N /\
    coalesce fuel s bp = Ok (merged_bp P bp, s') /\
    heap_ok s' (pre ++ (merged_bp P bp, merged_size P sz N, false) :: post)
            fl' /\
    (forall i, (length (fl' i) <= length (fl i) + 1)%nat).
Proof.
  intros R L U Hf.
  destruct (coalesce_full fuel s fl pre0 post0 bp sz R L U Hf)
    as (s' & pre & P & N & post & fl' & A & B & C & D & E & F & G & _).
  exists s', pre, P, N, post, fl'. auto 10.
Qed.
(** * Live blocks, free blocks and fuel *)

Lemma live_unlisted (s : state) (bs : list blk) (fl : Z -> list Z)
      (p sz : Z) :
  rep s bs fl -> In (p, sz, true) bs -> unlisted fl p.
Proof.
  intros R Hp i Hi Hin.
  destruct (rep_listed _ _ _ R i p Hi Hin) as (sz' & Hf & _).
  destruct (rep_block_unique _ _ _ R _ _ _ _ _ Hp Hf) as [_ X].
  discriminate X.
Qed.

(** The bytes of a live block belong to no free block. *)
Lemma live_off_free (s : state) (bs : list blk) (fl : Z -> list Z)
      (q sq x : Z) :
  rep s bs fl -> In (q, sq, true) bs -> q - 4 <= x < q + sq - 4 ->
  off_free bs x.
Proof.
  intros R Hq Hx f sf Hf.
  destruct (contig_disjoint _ _ _ _ _ _ _ _ _ (rep_contig _ _ _ R) Hq Hf)
    as [E|E]; [discriminate E | lia].
Qed.

Lemma off_free_keeps (s s' : state) (bs : list blk) (fl : Z -> list Z) :
  rep s bs fl -> (forall x, off_free bs x -> mem s' x = mem s x) ->
  keeps bs s s'.
Proof.
  intros R F q sq x Hq Hx. apply F.
  exact (live_off_free _ _ _ _ _ _ R Hq Hx).
Qed.

(** A state that differs from a well-formed one only inside the payload of
    one live block is as well formed. *)
Lemma rep_payload (s s' : state) (bs : list blk) (fl : Z -> list Z)
      (r rsz : Z) :
  rep s bs fl -> In (r, rsz, true) bs ->
  same_heap s s' -> freelists s' = freelists s ->
  (forall x, x < r \/ r + rsz - 8 <= x -> mem s' x = mem s x) ->
  rep s' bs fl.
Proof.
  intros R Hr SH EF F.
  destruct (in_split _ _ Hr) as (pre & post & E). subst bs.
  destruct (rep_block _ _ _ R _ _ _ Hr) as (P1 & P2 & P3 & P4 & T1 & T2).
  destruct (around s fl pre [] [] post r rsz true R)
    as (a & c & C1 & C2 & C3 & C4 & C5 & C6).
  cbn [contig] in C2, C3. subst a c.
  apply (rep_replace s s' pre [(r, rsz, true)] [(r, rsz, true)] post fl
                     r (r + rsz)); try assumption.
  - cbn [contig]. unfold MINSIZE. repeat split; try lia; assumption.
  - cbn [contig]. unfold MINSIZE. repeat split; try lia; assumption.
  - intros x Hx. apply F. lia.
  - constructor; [|constructor].
    apply (tagged_frame (mem s)); [split; assumption | |];
      intros x Hx; apply F; lia.
  - intros x sx ax [H|[]]. injection H as <- <- <-.
    exact (live_unlisted _ _ _ _ _ R Hr).
Qed.

(** ** Fuel *)

Lemma contig_length (bs : list blk) : forall a e,
  contig a bs e -> 16 * Z.of_nat (length bs) <= e - a.
Proof.
  induction bs as [|[[bp sz] al] bs IH]; intros a e; cbn [contig length].
  - lia.
  - intros (_ & M & _ & C). apply IH in C. unfold MINSIZE in M. lia.
Qed.

Lemma listed_length (s : state) (bs : list blk) (fl : Z -> list Z) (i : Z) :
  rep s bs fl -> 0 <= i < NUMLIST -> (length (fl i) <= length bs)%nat.
Proof.
  intros R Hi.
  rewrite <- (length_map (fun b : blk => fst (fst b)) bs).
  apply NoDup_incl_length; [apply (rep_nodup _ _ _ R); exact Hi|].
  intros y Hy. destruct (rep_listed _ _ _ R i y Hi Hy) as (sz & Hb & _).
  apply in_map_iff. exists (y, sz, false). split; [reflexivity | exact Hb].
Qed.

(** With fuel for the capacity of the provider, no free list is as long as
    the fuel. *)
Lemma rep_fuel (s : state) (bs : list blk) (fl : Z -> list Z) (fuel : nat) :
  rep s bs fl -> fuel_for s fuel ->
  forall i, 0 <= i < NUMLIST -> (length (fl i) < fuel)%nat.
Proof.
  intros R Hf i Hi.
  pose proof (listed_length _ _ _ i R Hi) as L.
  pose proof (contig_length _ _ _ (rep_contig _ _ _ R)) as C.
  pose proof (rep_heap_bounds _ _ _ R) as (B1 & B2 & B3 & B4 & B5).
  pose proof (rep_brk _ _ _ R) as B6.
  unfold fuel_for in Hf. lia.
Qed.

Lemma fuel_for_same (s s' : state) (fuel : nat) :
  mem_start_brk s' = mem_start_brk s -> mem_max_addr s' = mem_max_addr s ->
  fuel_for s fuel -> fuel_for s' fuel.
Proof. unfold fuel_for. intros -> ->. auto. Qed.

(** * No two neighbouring free blocks *)

Lemma no_free_pair_cons (x : blk) (r : list blk) :
  no_free_pair r = false -> no_free_pair (x :: r) = false.
Proof.
  destruct x as [[b s] a]. destruct r as [|[[b' s'] a'] r]; intro H.
  - discriminate H.
  - transitivity (if a' then no_free_pair ((b', s', a') :: r)
                  else a && no_free_pair ((b', s', a') :: r)).
    + destruct a'; reflexivity.
    + destruct a'; [exact H|]. destruct a; [exact H | reflexivity].
Qed.

Lemma no_free_pair_middle (l1 l2 : list blk) (b1 s1 b2 s2 : Z) :
  no_free_pair (l1 ++ (b1, s1, false) :: (b2, s2, false) :: l2) = false.
Proof.
  induction l1 as [|x l1 IH].
  - reflexivity.
  - cbn [app]. apply no_free_pair_cons. exact IH.
Qed.

Lemma nfp_step (b b' : blk) (r : list blk) :
  no_free_pair (b :: b' :: r) = (snd b || snd b') && no_free_pair (b' :: r).
Proof.
  destruct b as [[q sq] a], b' as [[q' sq'] a']. cbn [snd].
  destruct a'; [rewrite orb_true_r | rewrite orb_false_r]; reflexivity.
Qed.

Lemma nfp_cons (b : blk) (r : list blk) :
  no_free_pair (b :: r) = true <->
  no_free_pair r = true /\ (snd b = true \/ starts_allocated r).
Proof.
  destruct r as [|b' r].
  - split.
    + intros _. split; [reflexivity|]. right. intros x l E. discriminate E.
    + intros _. destruct b as [[q sq] a]. reflexivity.
  - rewrite nfp_step, andb_true_iff, orb_true_iff. split.
    + intros [[H|H] H2]; (split; [exact H2|]); [left; exact H|].
      right. intros x l E. injection E as <- _. exact H.
    + intros [H2 [H|H]]; (split; [|exact H2]); [left; exact H|].
      right. exact (H b' r eq_refl).
Qed.

Lemma ends_allocated_tail (x : blk) (l : list blk) :
  ends_allocated (x :: l) -> ends_allocated l.
Proof.
  intros H l' b E. apply (H (x :: l') b). rewrite E. reflexivity.
Qed.

Lemma nfp_app_inv (l1 l2 : list blk) :
  no_free_pair (l1 ++ l2) = true ->
  no_free_pair l1 = true /\ no_free_pair l2 = true.
Proof.
  induction l1 as [|x l1 IH]; cbn [app]; intros H.
  - split; [reflexivity | exact H].
  - apply nfp_cons in H. destruct H as [H1 H2].
    destruct (IH H1) as [I1 I2]. split; [|exact I2].
    apply nfp_cons. split; [exact I1|].
    destruct H2 as [H2|H2]; [left; exact H2 | right].
    intros b l E. subst l1. apply (H2 b (l ++ l2)). reflexivity.
Qed.

(** Around a free block, both neighbours are allocated. *)
Lemma nfp_around_free (l1 l2 : list blk) (q sq : Z) :
  no_free_pair (l1 ++ (q, sq, false) :: l2) = true ->
  ends_allocated l1 /\ starts_allocated l2.
Proof.
  intros H. split.
  - intros l' [[x sx] ax] E. subst l1. cbn [snd].
    destruct ax; [reflexivity|].
    rewrite <- app_assoc in H. cbn [app] in H.
    rewrite no_free_pair_middle in H. discriminate H.
  - intros [[x sx] ax] l' E. subst l2. cbn [snd].
    destruct ax; [reflexivity|].
    rewrite no_free_pair_middle in H. discriminate H.
Qed.

Lemma nfp_insert (l1 l2 : list blk) (b : blk) :
  no_free_pair l1 = true -> no_free_pair l2 = true ->
  (snd b = true \/ (ends_allocated l1 /\ starts_allocated l2)) ->
  no_free_pair (l1 ++ b :: l2) = true.
Proof.
  induction l1 as [|x l1 IH]; cbn [app]; intros H1 H2 Hb.
  - apply nfp_cons. split; [exact H2|]. tauto.
  - apply nfp_cons in H1. destruct H1 as [H1 Hx].
    apply nfp_cons. split.
    + apply IH; [exact H1 | exact H2|].
      destruct Hb as [Hb|[Hb Hb']]; [left; exact Hb | right].
      split; [exact (ends_allocated_tail _ _ Hb) | exact Hb'].
    + destruct Hx as [Hx|Hx]; [left; exact Hx|].
      destruct l1 as [|y l1]; cbn [app].
      * destruct Hb as [Hb|[Hb _]].
        -- right. intros z l E. injection E as <- _. exact Hb.
        -- left. exact (Hb [] x eq_refl).
      * right. intros z l E. injection E as <- _.
        exact (Hx y l1 eq_refl).
Qed.

(** A free neighbour of a block is not separated from it by an allocated
    block: the blocks before a merged one end allocated, those after it
    start allocated. *)
Lemma nfp_neighbours (fl : Z -> list Z) (pre P N post : list blk) :
  no_free_pair (pre ++ P) = true -> no_free_pair (N ++ post) = true ->
  neighbour fl P -> neighbour fl N ->
  (P = [] -> ends_allocated pre) -> (N = [] -> starts_allocated post) ->
  no_free_pair pre = true /\ no_free_pair post = true /\
  ends_allocated pre /\ starts_allocated post.
Proof.
  intros H1 H2 NP NN A1 A2.
  destruct (nfp_app_inv _ _ H1) as [I1 _].
  destruct (nfp_app_inv _ _ H2) as [_ I2].
  repeat split; try assumption.
  - destruct NP as [|pb psz _]; [apply A1; reflexivity|].
    apply (nfp_around_free pre [] pb psz H1).
  - destruct NN as [|nb nsz _]; [apply A2; reflexivity|].
    apply (nfp_around_free [] post nb nsz H2).
Qed.

(** * Placement *)

Lemma in_middle {A : Type} (x : A) (l1 l2 : list A) : In x (l1 ++ x :: l2).
Proof. apply in_or_app. right. left. reflexivity. Qed.

(** [place] on a listed free block [bp] of [csize] bytes.  When fewer than
    [MINSIZE] bytes would remain, the whole block becomes the live block;
    otherwise the first [asize] bytes do, and the remainder becomes a free
    block (merged with the next block when that one is free).  Only bytes
    of free blocks are written. *)
Lemma place_full (fuel : nat) (s : state) (fl : Z -> list Z)
      (pre0 post0 : list blk) (bp csize asize : Z) :
  heap_ok s (pre0 ++ (bp, csize, false) :: post0) fl ->
  MINSIZE <= asize <= csize -> asize mod 8 = 0 ->
  (forall i, 0 <= i < NUMLIST -> (length (fl i) <= fuel)%nat) ->
  exists s' fl' placed,
    place fuel s bp asize = Ok s' /\
    heap_ok s' (pre0 ++ placed) fl' /\
    (forall x, off_free (pre0 ++ (bp, csize, false) :: post0) x ->
               mem s' x = mem s x) /\
    ((csize - asize < MINSIZE /\ placed = (bp, csize, true) :: post0) \/
     (MINSIZE <= csize - asize /\
      exists N post,
        post0 = N ++ post /\ (forall b, In b N -> snd b = false) /\
        placed = (bp, asize, true)
                   :: (bp + asize, csize - asize + total N, false) :: post)).
Proof.
  intros [R L] Ha Hm Hf. unfold MINSIZE in *.
  assert (Hb : In (bp, csize, false) (pre0 ++ (bp, csize, false) :: post0))
    by (apply in_or_app; right; left; reflexivity).
  pose proof (L _ _ Hb) as Lb.
  assert (Hfb : (length (fl (smallest_bucket csize)) <= fuel)%nat).
  { apply Hf. pose proof (smallest_bucket_range csize). unfold NUMLIST. lia. }
  destruct (freelist_remove_frame _ _ _ R fuel bp csize Hb Lb Hfb)
    as (s1 & F1 & R1 & FR1).
  destruct (freelist_remove_same _ _ _ _ F1) as (E1 & E2 & E3 & E4).
  set (fl1 := fl_remove fl csize bp) in *.
  destruct (around s1 fl1 pre0 [] [] post0 bp csize false R1)
    as (a & c & C1 & C2 & C3 & C4 & C5 & C6).
  cbn [contig] in C2, C3. subst a c.
  destruct (rep_block _ _ _ R _ _ _ Hb) as (P1 & P2 & P3 & P4 & T1 & T2).
  pose proof (rep_heap_bounds _ _ _ R) as (B1 & B2 & B3 & B4 & B5).
  assert (U1 : unlisted fl1 bp) by exact (unlisted_removed s _ fl csize bp R Hb).
  assert (L1 : forall x sx, In (x, sx, false) pre0 \/ In (x, sx, false) post0 ->
                            In x (fl1 (smallest_bucket sx))).
  { intros x sx H. apply listed_remove_other.
    - apply L. apply in_or_app.
      destruct H as [H|H]; [left; exact H | right; right; exact H].
    - exact (middle_distinct _ _ _ _ _ _ _ (rep_contig _ _ _ R) _ _ _ H). }
  assert (Hf1 : forall i, 0 <= i < NUMLIST -> (length (fl1 i) <= fuel)%nat).
  { intros i Hi. pose proof (fl_remove_length fl csize bp i).
    specialize (Hf i Hi). unfold fl1. lia. }
  unfold place.
  rewrite (GET_SIZE_at s (HDRP bp) csize false)
    by (unfold HDRP, WSIZE; try assumption; lia).
  cbn [bind]. rewrite F1. cbn [bind].
  rewrite wrap64_small by lia. unfold MINSIZE. rewrite Z.geb_leb.
  destruct (Z.leb_spec 16 (csize - asize)) as [Hsplit|Hwhole].
  - (* split *)
    set (rem := csize - asize) in *.
    assert (Hrem : rem mod 8 = 0) by (apply mod8_sub; assumption).
    set (s2 := set_mem s1 (storen 4 (bp - 4) (tag asize true) (mem s1))).
    set (s3 := set_mem s2 (storen 4 (bp + asize - 8) (tag asize true) (mem s2))).
    set (s4 := set_mem s3 (storen 4 (bp + asize - 4) rem (mem s3))).
    set (s5 := set_mem s4 (storen 4 (bp + asize + rem - 8) rem (mem s4))).
    assert (TR : 0 <= tag asize true < 2 ^ 32) by (apply tag_range; lia).
    assert (R5 : rep s5 (pre0 ++ [(bp, asize, true); (bp + asize, rem, false)]
                             ++ post0) fl1).
    { apply (rep_replace s1 s5 pre0 [(bp, csize, false)] _ post0 _ bp
                         (bp + csize)).
      - exact R1.
      - repeat split; assumption.
      - reflexivity.
      - exact C1.
      - cbn [contig]. unfold MINSIZE. repeat split; try lia; assumption.
      - cbn [contig]. unfold MINSIZE, rem.
        repeat split; try lia; try assumption.
      - intros x Hx. unfold s5, s4, s3, s2. cbn [mem set_mem].
        rewrite !storen_other by (cbn; unfold rem; lia). reflexivity.
      - unfold s5, s4, s3, s2. cbn [mem set_mem].
        constructor; [|constructor; [|constructor]]; cbn [tagged].
        + split.
          * rewrite !loadn_storen_other by (cbn; unfold rem; lia).
            apply load4_store4. exact TR.
          * rewrite !loadn_storen_other by (cbn; unfold rem; lia).
            apply load4_store4. exact TR.
        + rewrite tag_free. split.
          * rewrite loadn_storen_other by (cbn; unfold rem; lia).
            apply load4_store4. unfold rem. lia.
          * apply load4_store4. unfold rem. lia.
      - intros x sx ax [H|[]]. injection H as <- <- <-. exact U1. }
    assert (R5' : rep s5 ((pre0 ++ [(bp, asize, true)])
                            ++ (bp + asize, rem, false) :: post0) fl1)
      by (rewrite <- app_assoc; exact R5).
    destruct (coalesce_full fuel s5 fl1 (pre0 ++ [(bp, asize, true)]) post0
                            (bp + asize) rem R5')
      as (s6 & pre & P & N & post & fl' & Ep & En & NP & NN & Hc & Ok6 & _
          & _ & _ & F6).
    + intros x sx [H|H].
      * apply in_app_or in H. destruct H as [H|[H|[]]]; [|discriminate H].
        apply L1. left. exact H.
      * apply L1. right. exact H.
    + intros i Hi Hin.
      assert (Hin' : In (bp + asize) (fl i)).
      { unfold fl1, fl_remove in Hin.
        destruct (i =? smallest_bucket csize);
          [apply in_remove in Hin; tauto | exact Hin]. }
      destruct (rep_listed _ _ _ R i _ Hi Hin') as (sx & Hx & _).
      destruct (rep_block _ _ _ R _ _ _ Hx) as (_ & _ & X & _).
      destruct (contig_disjoint _ _ _ _ _ _ _ _ _ (rep_contig _ _ _ R) Hx Hb)
        as [X1|X1]; [injection X1 as X1 _; lia | unfold rem in *; lia].
    + exact Hf1.
    + assert (EP : P = [] /\ pre = pre0 ++ [(bp, asize, true)]).
      { destruct NP as [|pb psz _].
        - rewrite app_nil_r in Ep. auto.
        - apply app_inj_tail in Ep. destruct Ep as [_ X]. discriminate X. }
      destruct EP as [-> ->].
      unfold merged_bp, merged_size in Ok6. cbn [total fold_right] in Ok6.
      rewrite <- app_assoc in Ok6. cbn [app] in Ok6.
      replace (0 + rem + total N) with (csize - asize + total N) in Ok6
        by (unfold rem; lia).
      exists s6, fl',
        ((bp, asize, true) :: (bp + asize, csize - asize + total N, false)
                           :: post).
      split; [|split; [exact Ok6 | split]].
      * rewrite PACK_1 by assumption. unfold HDRP, WSIZE.
        rewrite PUT_ok by lia. cbn [bind]. fold s2.
        rewrite (FTRP_at s2 bp asize true);
          [ | unfold s2; cbn [set_mem mem_start_brk mem_brk mem]; try lia ..].
        2:{ apply load4_store4. exact TR. }
        cbn [bind].
        rewrite PUT_ok
          by (unfold s2; cbn [set_mem mem_start_brk mem_brk]; lia).
        cbn [bind]. fold s3.
        rewrite (NEXT_at s3 bp asize true);
          [ | unfold s3, s2; cbn [set_mem mem_start_brk mem_brk mem];
              try lia ..].
        2:{ rewrite loadn_storen_other by (cbn; lia).
            apply load4_store4. exact TR. }
        cbn [bind]. rewrite PACK_0.
        rewrite PUT_ok
          by (unfold s3, s2; cbn [set_mem mem_start_brk mem_brk];
              unfold rem in *; lia).
        cbn [bind]. fold rem. fold s4.
        rewrite (FTRP_at s4 (bp + asize) rem false);
          [ | unfold s4, s3, s2; cbn [set_mem mem_start_brk mem_brk mem];
              try (unfold rem in *; lia) ..].
        2:{ rewrite tag_free. apply load4_store4. unfold rem. lia. }
        cbn [bind].
        rewrite PUT_ok
          by (unfold s4, s3, s2; cbn [set_mem mem_start_brk mem_brk];
              unfold rem in *; lia).
        cbn [bind]. fold s5. rewrite Hc. reflexivity.
      * intros x Hx. rewrite <- (FR1 x Hx).
        assert (X5 : mem s5 x = mem s1 x).
        { destruct (Hx _ _ Hb); unfold s5, s4, s3, s2; cbn [mem set_mem];
            rewrite !storen_other by (cbn; unfold rem; lia); reflexivity. }
        rewrite <- X5. apply F6. intros q sq Hq.
        apply in_app_or in Hq. destruct Hq as [Hq|[Hq|Hq]].
        -- apply in_app_or in Hq. destruct Hq as [Hq|[Hq|[]]];
             [|discriminate Hq].
           apply Hx. apply in_or_app. left. exact Hq.
        -- injection Hq as <- <-. destruct (Hx _ _ Hb); unfold rem; lia.
        -- apply Hx. apply in_or_app. right. right. exact Hq.
      * right. split; [lia|]. exists N, post.
        split; [exact En|]. split; [|reflexivity].
        intros [[x sx] ax] Hx. cbn [snd].
        exact (proj1 (neighbour_blocks _ _ NN _ _ _ Hx)).
  - (* the whole block *)
    set (s2 := set_mem s1 (storen 4 (bp - 4) (tag csize true) (mem s1))).
    set (s3 := set_mem s2 (storen 4 (bp + csize - 8) (tag csize true) (mem s2))).
    assert (TR : 0 <= tag csize true < 2 ^ 32) by (apply tag_range; lia).
    assert (R3 : rep s3 (pre0 ++ [(bp, csize, true)] ++ post0) fl1).
    { apply (rep_replace s1 s3 pre0 [(bp, csize, false)] _ post0 _ bp
                         (bp + csize)).
      - exact R1.
      - repeat split; assumption.
      - reflexivity.
      - exact C1.
      - cbn [contig]. unfold MINSIZE. repeat split; try lia; assumption.
      - cbn [contig]. unfold MINSIZE. repeat split; try lia; assumption.
      - intros x Hx. unfold s3, s2. cbn [mem set_mem].
        rewrite !storen_other by (cbn; lia). reflexivity.
      - unfold s3, s2. cbn [mem set_mem].
        constructor; [|constructor]; cbn [tagged]. split.
        + rewrite loadn_storen_other by (cbn; lia).
          apply load4_store4. exact TR.
        + apply load4_store4. exact TR.
      - intros x sx ax [H|[]]. injection H as <- <- <-. exact U1. }
    exists s3, fl1, ((bp, csize, true) :: post0).
    split; [|split; [split; [exact R3|] | split; [|left; split; [lia|reflexivity]]]].
    + rewrite PACK_1 by assumption. unfold HDRP, WSIZE.
      rewrite PUT_ok by lia. cbn [bind]. fold s2.
      rewrite (FTRP_at s2 bp csize true);
        [ | unfold s2; cbn [set_mem mem_start_brk mem_brk mem]; try lia ..].
      2:{ apply load4_store4. exact TR. }
      cbn [bind].
      rewrite PUT_ok
        by (unfold s2; cbn [set_mem mem_start_brk mem_brk]; lia).
      reflexivity.
    + intros x sx H. apply in_app_or in H.
      destruct H as [H|[H|H]]; [|discriminate H|].
      * apply L1. left. exact H.
      * apply L1. right. exact H.
    + intros x Hx. rewrite <- (FR1 x Hx).
      destruct (Hx _ _ Hb); unfold s3, s2; cbn [mem set_mem];
        rewrite !storen_other by (cbn; lia); reflexivity.
Qed.

Lemma place_spec (fuel : nat) (s : state) (bs : list blk)
      (fl : Z -> list Z) (bp csize asize : Z) :
  heap_ok s bs fl -> In (bp, csize, false) bs ->
  MINSIZE <= asize <= csize -> asize mod 8 = 0 ->
  (forall i, 0 <= i < NUMLIST -> (length (fl i) <= fuel)%nat) ->
  exists s' bs' fl' sz,
    place fuel s bp asize = Ok s' /\ heap_ok s' bs' fl' /\
    In (bp, sz, true) bs' /\ asize <= sz < asize + MINSIZE.
Proof.
  intros Hok Hb Ha Hm Hf.
  destruct (in_split _ _ Hb) as (pre0 & post0 & E). subst bs.
  destruct (place_full fuel s fl pre0 post0 bp csize asize Hok Ha Hm Hf)
    as (s' & fl' & placed & Hp & Ok' & _ & Hcase).
  unfold MINSIZE in *.
  destruct Hcase as [[Hlt ->]|(Hge & N & post & _ & _ & ->)].
  - exists s', (pre0 ++ (bp, csize, true) :: post0), fl', csize.
    split; [exact Hp|]. split; [exact Ok'|].
    split; [apply in_middle | lia].
  - exists s', (pre0 ++ (bp, asize, true)
                     :: (bp + asize, csize - asize + total N, false) :: post),
      fl', asize.
    split; [exact Hp|]. split; [exact Ok'|].
    split; [apply in_middle | lia].
Qed.

(** * Heap growth *)

(** A state that differs from a well-formed one by a new block between the
    old break and the new one. *)
Lemma rep_extend (s s' : state) (bs : list blk) (fl : Z -> list Z) (size : Z) :
  rep s bs fl ->
  mem_start_brk s' = mem_start_brk s -> mem_max_addr s' = mem_max_addr s ->
  heap_listp s' = heap_listp s -> freelists s' = freelists s ->
  mem_brk s' = mem_brk s + size -> mem_brk s + size <= mem_max_addr s ->
  MINSIZE <= size -> size mod 8 = 0 ->
  (forall x, x < mem_brk s - 4 -> mem s' x = mem s x) ->
  tagged (mem s') (mem_brk s, size, false) ->
  loadn 4 (mem s') (mem_brk s + size - 4) = tag 0 true ->
  rep s' (bs ++ [(mem_brk s, size, false)]) fl.
Proof.
  intros R E1 E3 E4 EF E2 Hmax Hmin Hmod F T Epi.
  pose proof (rep_heap_bounds _ _ _ R) as (B1 & B2 & B3 & B4 & B5).
  unfold MINSIZE in Hmin.
  constructor.
  - rewrite E1. exact B1.
  - rewrite E3, E1. apply (rep_cap _ _ _ R).
  - rewrite E3. apply (rep_max _ _ _ R).
  - rewrite E2, E3. exact Hmax.
  - rewrite E1, E4. exact B2.
  - rewrite E4. rewrite <- (rep_pro_h _ _ _ R).
    apply loadn_ext. intros x Hx. apply F. lia.
  - rewrite E4. rewrite <- (rep_pro_f _ _ _ R).
    apply loadn_ext. intros x Hx. apply F. lia.
  - rewrite E4, E2. apply contig_app. exists (mem_brk s).
    split; [apply (rep_contig _ _ _ R)|].
    cbn [contig]. unfold MINSIZE. repeat split; try lia; assumption.
  - apply Forall_app. split; [|constructor; [exact T | constructor]].
    apply Forall_forall. intros [[bp sz] al] H.
    destruct (rep_block _ _ _ R _ _ _ H) as (P1 & P2 & P3 & P4 & T1 & T2).
    eapply tagged_frame; [split; eassumption | |];
      intros x Hx; apply F; lia.
  - rewrite E2. exact Epi.
  - intros i Hi. rewrite EF, E4.
    apply lseg_frame with (m := mem s); [apply (rep_chain _ _ _ R); exact Hi|].
    intros y Hy.
    destruct (rep_listed _ _ _ R i y Hi Hy) as (sz & Hb & _).
    destruct (rep_block _ _ _ R _ _ _ Hb) as (P1 & P2 & P3 & _).
    apply loadn_ext. intros x Hx. apply F. cbn in Hx. lia.
  - intros i bp Hi Hy.
    destruct (rep_listed _ _ _ R i bp Hi Hy) as (sz & Hb & Hc).
    exists sz. split; [apply in_or_app; left; exact Hb | exact Hc].
  - apply (rep_nodup _ _ _ R).
Qed.

Lemma extend_heap_fail (fuel : nat) (s : state) (words : Z) :
  mem_max_addr s < mem_brk s + extend_size words ->
  extend_heap fuel s words = Ok (NULL, s).
Proof.
  intros H. unfold extend_heap, mem_sbrk. cbv zeta.
  destruct (Z.leb_spec (mem_brk s + extend_size words) (mem_max_addr s));
    [lia|].
  reflexivity.
Qed.

(** [extend_heap] when the provider has room: the break moves up by
    [extend_size words] bytes, which become a free block at the end of the
    heap, merged with the last block when that one is free.  Below the old
    epilogue header, only bytes of free blocks are written. *)
Lemma extend_heap_full (fuel : nat) (s : state) (bs : list blk)
      (fl : Z -> list Z) (words : Z) :
  heap_ok s bs fl ->
  MINSIZE <= extend_size words -> extend_size words mod 8 = 0 ->
  mem_brk s + extend_size words <= mem_max_addr s ->
  (forall i, 0 <= i < NUMLIST -> (length (fl i) <= fuel)%nat) ->
  exists s' fl' pre P,
    extend_heap fuel s words = Ok (merged_bp P (mem_brk s), s') /\
    bs = pre ++ P /\ neighbour fl P /\ (P = [] -> ends_allocated pre) /\
    heap_ok s' (pre ++ [(merged_bp P (mem_brk s),
                         total P + extend_size words, false)]) fl' /\
    merged_bp P (mem_brk s) <> NULL /\
    mem_start_brk s' = mem_start_brk s /\
    mem_brk s' = mem_brk s + extend_size words /\
    mem_max_addr s' = mem_max_addr s /\ heap_listp s' = heap_listp s /\
    (forall x, x < mem_brk s - 4 -> off_free bs x -> mem s' x = mem s x) /\
    (forall i, (length (fl' i) <= length (fl i) + 1)%nat).
Proof.
  intros [R L] Hmin Hmod Hmax Hf.
  set (size := extend_size words) in *. unfold MINSIZE in Hmin.
  pose proof (rep_heap_bounds _ _ _ R) as (B1 & B2 & B3 & B4 & B5).
  pose proof (rep_cap _ _ _ R) as Hcap.
  set (brk := mem_brk s) in *.
  set (s1 := set_brk s (brk + size)).
  set (s2 := set_mem s1 (storen 4 (brk - 4) size (mem s1))).
  set (s3 := set_mem s2 (storen 4 (brk + size - 8) size (mem s2))).
  set (s4 := set_mem s3 (storen 4 (brk + size - 4) (tag 0 true) (mem s3))).
  assert (R4 : rep s4 (bs ++ [(brk, size, false)]) fl).
  { apply (rep_extend s s4 bs fl size R); try reflexivity;
      try assumption; unfold s4, s3, s2, s1; cbn [set_mem set_brk mem].
    - intros x Hx. rewrite !storen_other by (cbn; fold brk in Hx; lia).
      reflexivity.
    - fold brk. cbn [tagged]. rewrite tag_free. split.
      + rewrite !loadn_storen_other by (cbn; lia).
        apply load4_store4. lia.
      + rewrite loadn_storen_other by (cbn; lia).
        apply load4_store4. lia.
    - fold brk. apply load4_store4. cbn. lia. }
  destruct (coalesce_full fuel s4 fl bs [] brk size R4)
    as (s5 & pre & P & N & post & fl' & Ep & En & NP & NN & Hc & Ok5 & Hl
        & A1 & _ & F5).
  - intros x sx [H|[]]. apply L. exact H.
  - intros i Hi Hin.
    destruct (rep_listed _ _ _ R i _ Hi Hin) as (sx & Hx & _).
    destruct (rep_block _ _ _ R _ _ _ Hx) as (_ & X1 & X2 & _).
    fold brk in X1. lia.
  - exact Hf.
  - symmetry in En. apply app_eq_nil in En. destruct En as [-> ->].
    destruct (coalesce_same _ _ _ _ _ Hc) as (S1 & S2 & S3 & S4).
    unfold merged_size in Ok5. cbn [total fold_right] in Ok5.
    replace (total P + size + 0) with (total P + size) in Ok5 by lia.
    exists s5, fl', pre, P.
    split; [|split; [exact Ep | split; [exact NP | split; [exact A1|]]]].
    2:{ split; [exact Ok5|]. split.
        { unfold NULL, merged_bp.
          destruct NP as [|pb psz Lp]; [lia|].
          assert (Hp : In (pb, psz, false) bs)
            by (rewrite Ep; apply in_or_app; right; left; reflexivity).
          destruct (rep_block _ _ _ R _ _ _ Hp) as (X & _). lia. }
        split; [rewrite S1; reflexivity|].
        split; [rewrite S2; reflexivity|].
        split; [rewrite S3; reflexivity|].
        split; [rewrite S4; reflexivity|].
        split; [|exact Hl].
        intros x Hlt Hx. rewrite F5.
        - unfold s4, s3, s2, s1. cbn [set_mem set_brk mem].
          rewrite !storen_other by (cbn; lia). reflexivity.
        - intros q sq Hq. apply in_app_or in Hq.
          destruct Hq as [Hq|[Hq|[]]]; [apply Hx; exact Hq|].
          injection Hq as <- <-. lia. }
    unfold extend_heap, mem_sbrk. cbv zeta. fold size. fold brk.
    destruct (Z.leb_spec (brk + size) (mem_max_addr s)); [|lia].
    fold s1.
    destruct (Z.eqb_spec brk VOID_M1) as [Ev|_];
      [unfold VOID_M1 in Ev; lia|].
    rewrite PACK_0. unfold HDRP, WSIZE.
    rewrite PUT_ok
      by (unfold s1; cbn [set_brk mem_start_brk mem_brk]; lia).
    cbn [bind]. fold s2.
    rewrite (FTRP_at s2 brk size false);
      [ | unfold s2, s1; cbn [set_mem set_brk mem_start_brk mem_brk mem];
          try lia ..].
    2:{ rewrite tag_free. apply load4_store4. lia. }
    cbn [bind].
    rewrite PUT_ok
      by (unfold s2, s1; cbn [set_mem set_brk mem_start_brk mem_brk]; lia).
    cbn [bind]. fold s3.
    rewrite (NEXT_at s3 brk size false);
      [ | unfold s3, s2, s1;
          cbn [set_mem set_brk mem_start_brk mem_brk mem]; try lia ..].
    2:{ rewrite tag_free. rewrite loadn_storen_other by (cbn; lia).
        apply load4_store4. lia. }
    cbn [bind].
    change (PACK 0 1) with (tag 0 true).
    rewrite PUT_ok
      by (unfold s3, s2, s1;
          cbn [set_mem set_brk mem_start_brk mem_brk]; lia).
    cbn [bind]. fold s4. exact Hc.
Qed.

Lemma extend_heap_spec (fuel : nat) (s : state) (bs : list blk)
      (fl : Z -> list Z) (words : Z) :
  heap_ok s bs fl ->
  MINSIZE <= extend_size words -> extend_size words mod 8 = 0 ->
  mem_brk s + extend_size words <= mem_max_addr s ->
  (forall i, 0 <= i < NUMLIST -> (length (fl i) <= fuel)%nat) ->
  exists bp s' bs' fl' sz,
    extend_heap fuel s words = Ok (bp, s') /\ heap_ok s' bs' fl' /\
    In (bp, sz, false) bs' /\ extend_size words <= sz /\ bp <> NULL /\
    (forall i, (length (fl' i) <= length (fl i) + 1)%nat).
Proof.
  intros Hok Hmin Hmod Hmax Hf.
  destruct (extend_heap_full fuel s bs fl words Hok Hmin Hmod Hmax Hf)
    as (s' & fl' & pre & P & He & Ep & NP & _ & Ok' & Hnn & _ & _ & _ & _
        & _ & Hl).
  exists (merged_bp P (mem_brk s)), s',
    (pre ++ [(merged_bp P (mem_brk s), total P + extend_size words, false)]),
    fl', (total P + extend_size words).
  split; [exact He|]. split; [exact Ok'|]. split; [apply in_middle|].
  split; [|split; [exact Hnn | exact Hl]].
  destruct NP as [|pb psz Lp]; cbn [total fold_right fst snd]; [lia|].
  assert (Hp : In (pb, psz, false) bs)
    by (rewrite Ep; apply in_or_app; right; left; reflexivity).
  destruct (rep_block _ _ _ (proj1 Hok) _ _ _ Hp) as (_ & _ & X & _). lia.
Qed.

(** * Allocation *)

Lemma MAX_max (x y : Z) : MAX x y = Z.max x y.
Proof. unfold MAX. destruct (Z.gtb_spec x y); lia. Qed.

Lemma ALIGN_spec (x : Z) :
  0 <= x -> ALIGN x = 8 * ((wrap64 (x + 7) / 8)) /\
            ALIGN x mod 8 = 0 /\ 0 <= ALIGN x < 2 ^ 64.
Proof.
  intros Hx. unfold ALIGN, ALIGNMENT. replace (8 - 1) with 7 by lia.
  rewrite land_clear3 by lia.
  assert (W : 0 <= wrap64 (x + 7) < 2 ^ 64)
    by (unfold wrap64; apply Z.mod_pos_bound; lia).
  assert (D : 0 <= wrap64 (x + 7) / 8 < 2 ^ 61).
  { split; [apply Z.div_pos; lia|].
    apply Z.div_lt_upper_bound; [lia|]. change (8 * 2 ^ 61) with (2 ^ 64). lia. }
  change (2 ^ (64 - 3)) with (2 ^ 61).
  rewrite Z.mod_small by exact D.
  split; [reflexivity|]. split.
  - rewrite Z.mul_comm. apply Z.mod_mul. lia.
  - change (2 ^ 64) with (8 * 2 ^ 61). lia.
Qed.

Lemma adjusted_size_props (n : Z) :
  0 <= n ->
  MINSIZE <= adjusted_size n < 2 ^ 64 /\ adjusted_size n mod 8 = 0.
Proof.
  intros Hn. unfold adjusted_size, MINSIZE, DSIZE.
  assert (W : 0 <= wrap64 (n + 8))
    by (unfold wrap64; apply Z.mod_pos_bound; lia).
  destruct (ALIGN_spec _ W) as (_ & M & B).
  rewrite MAX_max.
  destruct (Z.max_spec (ALIGN (wrap64 (n + 8))) 16) as [[? ->]|[? ->]];
    [split; [lia | reflexivity] | split; [lia | exact M]].
Qed.

Lemma adjusted_size_exact (n : Z) :
  0 <= n <= SIZE_MAX - 15 -> adjusted_size n = required_block_size n.
Proof.
  intros Hn. unfold SIZE_MAX in Hn.
  unfold adjusted_size, required_block_size, round_up_to_8, MINSIZE, DSIZE.
  rewrite MAX_max. f_equal.
  rewrite wrap64_small by lia.
  destruct (ALIGN_spec (n + 8) ltac:(lia)) as (-> & _).
  rewrite wrap64_small by lia. reflexivity.
Qed.

Lemma extend_size_mult8 (x : Z) :
  0 <= x < 2 ^ 64 -> x mod 8 = 0 -> extend_size (x / WSIZE) = x.
Proof.
  intros Hx Hm. unfold extend_size, WSIZE.
  pose proof (Z.div_mod x 8 ltac:(lia)) as D. rewrite Hm in D.
  assert (E : x / 4 = 2 * (x / 8)).
  { replace x with ((2 * (x / 8)) * 4) at 1 by lia.
    apply Z.div_mul. lia. }
  rewrite E. replace (2 * (x / 8)) with ((x / 8) * 2) by lia.
  rewrite Z.mod_mul by lia. cbn [Z.eqb].
  rewrite wrap64_small by lia. lia.
Qed.

Lemma grow_request_spec (n : Z) :
  0 <= n ->
  grow_request n = Z.max (adjusted_size n) 256 /\
  MINSIZE <= grow_request n /\ grow_request n mod 8 = 0 /\
  adjusted_size n <= grow_request n.
Proof.
  intros Hn. destruct (adjusted_size_props n Hn) as (B & M).
  unfold MINSIZE in *. unfold grow_request, CHUNKSIZE.
  change (Z.shiftl 1 8) with 256. rewrite MAX_max.
  assert (M' : Z.max (adjusted_size n) 256 mod 8 = 0)
    by (destruct (Z.max_spec (adjusted_size n) 256) as [[? ->]|[? ->]];
        [reflexivity | exact M]).
  rewrite extend_size_mult8 by (try exact M'; lia).
  repeat split; first [lia | exact M'].
Qed.

Lemma rep_free_chain (s : state) (bs : list blk) (fl : Z -> list Z) (i : Z) :
  rep s bs fl -> 0 <= i < NUMLIST ->
  free_chain s (freelists s i) (fl i).
Proof.
  intros R Hi.
  pose proof (rep_heap_bounds _ _ _ R) as (B1 & B2 & B3 & B4 & B5).
  assert (G : forall l h, lseg (mem s) h l (heap_listp s) ->
                          (forall y, In y l -> In y (fl i)) ->
                          free_chain s h l).
  { induction l as [|y l IH]; intros h H Hin; cbn [lseg] in H.
    - subst h. apply chain_end with (a := 1); [|discriminate].
      apply (GET_ALLOC_at s _ 8 true); unfold HDRP, WSIZE; try lia;
        [apply (rep_pro_h _ _ _ R) | reflexivity].
    - destruct H as [-> H].
      destruct (rep_listed _ _ _ R i y Hi (Hin y (or_introl eq_refl)))
        as (sz & Hb & _).
      destruct (rep_block _ _ _ R _ _ _ Hb) as (P1 & P2 & P3 & P4 & T1 & _).
      apply chain_link with (nx := loadn 8 (mem s) y).
      + apply (GET_ALLOC_at s _ sz false); unfold HDRP, WSIZE;
          try assumption; lia.
      + apply SUCC_ok; lia.
      + apply IH; [exact H|]. intros z Hz. apply Hin. right. exact Hz. }
  apply G; [apply (rep_chain _ _ _ R); exact Hi | auto].
Qed.

Lemma rep_block_size (s : state) (bs : list blk) (fl : Z -> list Z)
      (bp sz : Z) (al : bool) :
  rep s bs fl -> In (bp, sz, al) bs -> block_size s bp = sz.
Proof.
  intros R Hb.
  destruct (rep_block _ _ _ R _ _ _ Hb) as (P1 & P2 & P3 & P4 & T1 & _).
  unfold block_size, HDRP, WSIZE. rewrite T1. apply tag_size; [lia | exact P4].
Qed.

(** [find_fit] returns NULL or a listed block that is large enough. *)
Lemma find_fit_listed (fuel : nat) (s : state) (bs : list blk)
      (fl : Z -> list Z) (asize : Z) :
  rep s bs fl ->
  (forall i, 0 <= i < NUMLIST -> (length (fl i) < fuel)%nat) ->
  exists r, find_fit fuel s asize = Ok r /\
            (r = NULL \/ exists sz, In (r, sz, false) bs /\ asize <= sz).
Proof.
  intros R Hf.
  assert (Found : forall i bp, 0 <= i < NUMLIST -> In bp (fl i) ->
                               (asize <=? block_size s bp) = true ->
                               exists sz, In (bp, sz, false) bs /\ asize <= sz).
  { intros i bp Hi Hin Hle.
    destruct (rep_listed _ _ _ R i bp Hi Hin) as (sz & Hb & _).
    rewrite (rep_block_size _ _ _ _ _ _ R Hb) in Hle.
    apply Z.leb_le in Hle. eauto. }
  unfold find_fit. change (Z.shiftl 1 (NUMLIST - 1)) with (2 ^ 24).
  destruct (asize >? 2 ^ 24).
  - assert (H24 : 0 <= NUMLIST - 1 < NUMLIST) by (unfold NUMLIST; lia).
    rewrite (scan_list_spec _ _ _ _ (rep_free_chain _ _ _ _ R H24) _
                            (Hf _ H24)).
    cbn [bind].
    destruct (find _ (fl (NUMLIST - 1))) as [bp|] eqn:F.
    + exists bp. split; [reflexivity|]. right.
      apply find_some in F. destruct F as [Hin Hle]. eauto.
    + exists NULL. split; [reflexivity | left; reflexivity].
  - rewrite (fit_loop_spec fuel s asize fl (Z.to_nat NUMLIST) 0 ltac:(lia)).
    2:{ intros j Hj. unfold NUMLIST in *. cbn in Hj.
        split; [apply (rep_free_chain _ _ _ _ R) | apply Hf];
          unfold NUMLIST; lia. }
    unfold first_fit.
    destruct (find _ (concat _)) as [bp|] eqn:F.
    + exists bp. split; [reflexivity|]. right.
      apply find_some in F. destruct F as [Hin Hle].
      apply in_concat in Hin. destruct Hin as (l & Hl & Hin).
      apply in_map_iff in Hl. destruct Hl as (i & <- & Hi).
      apply filter_In in Hi. destruct Hi as [Hi _].
      apply In_upto in Hi. unfold NUMLIST in Hi. cbn in Hi.
      apply (Found i bp); [unfold NUMLIST; lia | exact Hin | exact Hle].
    + exists NULL. split; [reflexivity | left; reflexivity].
Qed.

(** [find_fit] returns NULL only when no free block of the heap is large
    enough. *)
Lemma find_fit_complete (fuel : nat) (s : state) (bs : list blk)
      (fl : Z -> list Z) (asize : Z) :
  heap_ok s bs fl ->
  (forall i, 0 <= i < NUMLIST -> (length (fl i) < fuel)%nat) ->
  find_fit fuel s asize = Ok NULL ->
  forall q sq, In (q, sq, false) bs -> sq < asize.
Proof.
  intros [R L] Hf Hnull q sq Hq.
  destruct (Z.lt_ge_cases sq asize) as [|Hge]; [assumption | exfalso].
  pose proof (L _ _ Hq) as Lq.
  pose proof (rep_heap_bounds _ _ _ R) as (B1 & B2 & B3 & B4 & B5).
  pose proof (smallest_bucket_range sq) as Hj.
  assert (NotNull : forall i bp, 0 <= i < NUMLIST -> In bp (fl i) ->
                                 bp <> NULL).
  { intros i bp Hi Hin.
    destruct (rep_listed _ _ _ R i bp Hi Hin) as (sz & Hb & _).
    destruct (rep_block _ _ _ R _ _ _ Hb) as (X & _). unfold NULL. lia. }
  assert (Fits : (asize <=? block_size s q) = true)
    by (rewrite (rep_block_size _ _ _ _ _ _ R Hq); apply Z.leb_le; lia).
  unfold find_fit in Hnull. change (Z.shiftl 1 (NUMLIST - 1)) with (2 ^ 24) in Hnull.
  destruct (Z.gtb_spec asize (2 ^ 24)) as [G|G].
  - assert (H24 : 0 <= NUMLIST - 1 < NUMLIST) by (unfold NUMLIST; lia).
    rewrite (scan_list_spec _ _ _ _ (rep_free_chain _ _ _ _ R H24) _
                            (Hf _ H24)) in Hnull.
    cbn [bind] in Hnull.
    rewrite (smallest_bucket_big sq) in Lq by lia.
    change (NUMLIST - 1) with 24 in *.
    destruct (find _ (fl 24)) as [bp|] eqn:F.
    + apply find_some in F. destruct F as [Hin _].
      injection Hnull as ->. exact (NotNull 24 NULL H24 Hin eq_refl).
    + pose proof (find_none _ _ F q Lq) as X. cbn beta in X. congruence.
  - rewrite (fit_loop_spec fuel s asize fl (Z.to_nat NUMLIST) 0 ltac:(lia))
      in Hnull.
    2:{ intros j Hj'. unfold NUMLIST in *. cbn in Hj'.
        split; [apply (rep_free_chain _ _ _ _ R) | apply Hf];
          unfold NUMLIST; lia. }
    unfold first_fit in Hnull.
    destruct (find _ (concat _)) as [bp|] eqn:F.
    + apply find_some in F. destruct F as [Hin _].
      apply in_concat in Hin. destruct Hin as (l & Hl & Hin).
      apply in_map_iff in Hl. destruct Hl as (i & <- & Hi).
      apply filter_In in Hi. destruct Hi as [Hi _].
      apply In_upto in Hi. unfold NUMLIST in Hi. cbn in Hi.
      injection Hnull as ->.
      apply (NotNull i NULL); [unfold NUMLIST; lia | exact Hin | reflexivity].
    + assert (Hin : In q (concat (map fl (filter (fun j => asize <=? 2 ^ j)
                                                 (upto (Z.to_nat NUMLIST) 0))))).
      { apply in_concat. exists (fl (smallest_bucket sq)).
        split; [|exact Lq]. apply in_map. apply filter_In. split.
        - apply upto_In. unfold NUMLIST. cbn. lia.
        - apply Z.leb_le.
          destruct (Z.le_gt_cases sq (2 ^ 24)) as [Hs|Hs].
          + pose proof (smallest_bucket_le sq (smallest_bucket sq) Hs Hj) as X.
            rewrite Z.leb_refl in X. apply Z.leb_le in X. lia.
          + rewrite (smallest_bucket_big sq) by lia. lia. }
      pose proof (find_none _ _ F q Hin) as X. cbn beta in X. congruence.
Qed.

(** ** What [place] and [extend_heap] do to the live blocks *)

Lemma all_free_not_live (N : list blk) (q sq : Z) :
  (forall b, In b N -> snd b = false) -> ~ In (q, sq, true) N.
Proof. intros H Hin. specialize (H _ Hin). discriminate H. Qed.

Lemma place_live (fuel : nat) (s : state) (fl : Z -> list Z)
      (pre0 post0 : list blk) (bp csize asize : Z) :
  heap_ok s (pre0 ++ (bp, csize, false) :: post0) fl ->
  MINSIZE <= asize <= csize -> asize mod 8 = 0 ->
  (forall i, 0 <= i < NUMLIST -> (length (fl i) <= fuel)%nat) ->
  exists s' fl' bs' sz,
    place fuel s bp asize = Ok s' /\ heap_ok s' bs' fl' /\
    In (bp, sz, true) bs' /\ asize <= sz < asize + MINSIZE /\
    (forall q sq, In (q, sq, true) bs' <->
                  In (q, sq, true) (pre0 ++ (bp, csize, false) :: post0) \/
                  (q = bp /\ sq = sz)) /\
    keeps (pre0 ++ (bp, csize, false) :: post0) s s' /\
    (no_free_pair (pre0 ++ (bp, csize, false) :: post0) = true ->
     no_free_pair bs' = true).
Proof.
  intros Hok Ha Hm Hf.
  destruct (place_full fuel s fl pre0 post0 bp csize asize Hok Ha Hm Hf)
    as (s' & fl' & placed & Hp & Ok' & F & Hcase).
  pose proof (off_free_keeps _ _ _ _ (proj1 Hok) F) as K.
  unfold MINSIZE in *.
  destruct Hcase as [[Hlt ->]|(Hge & N & post & -> & HN & ->)].
  - exists s', fl', (pre0 ++ (bp, csize, true) :: post0), csize.
    split; [exact Hp|]. split; [exact Ok'|]. split; [apply in_middle|].
    split; [lia|]. split; [|split; [exact K|]].
    + intros q sq. rewrite !in_app_iff. cbn [In]. split.
      * intros [H|[H|H]]; [tauto | injection H as <- <-; tauto | tauto].
      * intros [[H|[H|H]]|[-> ->]]; [tauto | discriminate H | tauto | tauto].
    + intros H. destruct (nfp_app_inv _ _ H) as [H1 H2].
      apply nfp_cons in H2. apply nfp_insert; [tauto | tauto | left; reflexivity].
  - exists s', fl',
      (pre0 ++ (bp, asize, true)
            :: (bp + asize, csize - asize + total N, false) :: post), asize.
    split; [exact Hp|]. split; [exact Ok'|]. split; [apply in_middle|].
    split; [lia|]. split; [|split; [exact K|]].
    + intros q sq. rewrite !in_app_iff. cbn [In]. rewrite in_app_iff.
      pose proof (all_free_not_live N q sq HN) as NN. split.
      * intros [H|[H|[H|H]]];
          [tauto | injection H as <- <-; tauto | discriminate H | tauto].
      * intros [[H|[H|[H|H]]]|[-> ->]];
          [tauto | discriminate H | contradiction | tauto | tauto].
    + intros H. destruct (nfp_around_free _ _ _ _ H) as [_ SA].
      destruct (nfp_app_inv _ _ H) as [H1 H2].
      apply nfp_cons in H2. destruct H2 as [H2 _].
      destruct N as [|b N].
      * cbn [app total fold_right] in *.
        apply nfp_insert; [exact H1 | | left; reflexivity].
        apply nfp_cons. split; [exact H2 | right; exact SA].
      * pose proof (SA b (N ++ post) eq_refl) as X.
        rewrite (HN b (or_introl eq_refl)) in X. discriminate X.
Qed.

Lemma extend_live (fuel : nat) (s : state) (bs : list blk)
      (fl : Z -> list Z) (words : Z) :
  heap_ok s bs fl ->
  MINSIZE <= extend_size words -> extend_size words mod 8 = 0 ->
  mem_brk s + extend_size words <= mem_max_addr s ->
  (forall i, 0 <= i < NUMLIST -> (length (fl i) <= fuel)%nat) ->
  exists bp s' fl' pre sz,
    extend_heap fuel s words = Ok (bp, s') /\
    heap_ok s' (pre ++ [(bp, sz, false)]) fl' /\
    bp <> NULL /\ extend_size words <= sz /\
    (forall q sq, In (q, sq, true) (pre ++ [(bp, sz, false)]) <->
                  In (q, sq, true) bs) /\
    (forall sq, ~ In (bp, sq, true) bs) /\
    keeps bs s s' /\
    (no_free_pair bs = true ->
     no_free_pair (pre ++ [(bp, sz, false)]) = true) /\
    mem_start_brk s' = mem_start_brk s /\
    mem_brk s' = mem_brk s + extend_size words /\
    mem_max_addr s' = mem_max_addr s /\ heap_listp s' = heap_listp s /\
    (forall i, (length (fl' i) <= length (fl i) + 1)%nat).
Proof.
  intros Hok Hmin Hmod Hmax Hf.
  destruct (extend_heap_full fuel s bs fl words Hok Hmin Hmod Hmax Hf)
    as (s' & fl' & pre & P & He & Ep & NP & A1 & Ok' & Hnn & E1 & E2 & E3
        & E4 & F & Hl).
  destruct Hok as [R L].
  exists (merged_bp P (mem_brk s)), s', fl', pre,
    (total P + extend_size words).
  split; [exact He|]. split; [exact Ok'|]. split; [exact Hnn|].
  assert (TP : 0 <= total P /\
               (forall q sq, In (q, sq, true) P -> False) /\
               (forall sq, ~ In (merged_bp P (mem_brk s), sq, true) bs)).
  { destruct NP as [|pb psz Lp]; cbn [total fold_right fst snd merged_bp].
    - split; [lia|]. split; [intros q sq []|].
      intros sq Hin.
      destruct (rep_block _ _ _ R _ _ _ Hin) as (_ & ? & ? & _). lia.
    - assert (Hp : In (pb, psz, false) bs)
        by (rewrite Ep; apply in_or_app; right; left; reflexivity).
      destruct (rep_block _ _ _ R _ _ _ Hp) as (_ & _ & X & _).
      split; [lia|]. split.
      + intros q sq [H|[]]. discriminate H.
      + intros sq Hin.
        destruct (rep_block_unique _ _ _ R _ _ _ _ _ Hp Hin) as [_ Y].
        discriminate Y. }
  destruct TP as (T1 & T2 & T3).
  split; [lia|]. split; [|split; [exact T3|]].
  - intros q sq. rewrite Ep, !in_app_iff. cbn [In]. split.
    + intros [H|[H|[]]]; [tauto | discriminate H].
    + intros [H|H]; [tauto | destruct (T2 _ _ H)].
  - split.
    + intros q sq x Hq Hx. apply F.
      * destruct (rep_block _ _ _ R _ _ _ Hq) as (_ & ? & _). lia.
      * exact (live_off_free _ _ _ _ _ _ R Hq Hx).
    + split; [|auto 10].
      intros H. rewrite Ep in H.
      destruct (nfp_app_inv _ _ H) as [H1 _].
      apply nfp_insert; [exact H1 | reflexivity | right].
      split; [|intros b l E; discriminate E].
      destruct NP as [|pb psz _]; [apply A1; reflexivity|].
      apply (nfp_around_free pre [] pb psz H).
Qed.

(** ** [malloc] on a well-formed heap *)

(** [malloc] returns NULL, leaving the state as it was, only when no free
    block is large enough and the provider cannot supply the growth.
    Otherwise it returns a block that was not live before; the blocks that
    were live stay live, with every byte as it was, and the break moves
    only when no free block was large enough. *)
Lemma malloc_full (fuel : nat) (s : state) (bs : list blk)
      (fl : Z -> list Z) (n : Z) :
  heap_ok s bs fl -> 0 <= n ->
  (forall i, 0 <= i < NUMLIST -> (length (fl i) < fuel)%nat) ->
  exists bp s',
    malloc fuel s n = Ok (bp, s') /\
    ((bp = NULL /\ s' = s /\
      mem_max_addr s < mem_brk s + grow_request n /\
      (forall q sq, In (q, sq, false) bs -> sq < adjusted_size n)) \/
     (bp <> NULL /\
      exists bs' fl' sz,
        heap_ok s' bs' fl' /\ In (bp, sz, true) bs' /\
        adjusted_size n <= sz < adjusted_size n + MINSIZE /\
        (forall q sq, In (q, sq, true) bs' <->
                      In (q, sq, true) bs \/ (q = bp /\ sq = sz)) /\
        (forall sq, ~ In (bp, sq, true) bs) /\
        keeps bs s s' /\
        (no_free_pair bs = true -> no_free_pair bs' = true) /\
        mem_start_brk s' = mem_start_brk s /\
        mem_max_addr s' = mem_max_addr s /\
        heap_listp s' = heap_listp s /\ mem_brk s <= mem_brk s' /\
        ((exists q sq, In (q, sq, false) bs /\ adjusted_size n <= sq) ->
         mem_brk s' = mem_brk s))).
Proof.
  intros Hok Hn Hf.
  destruct (adjusted_size_props n Hn) as (B & M).
  destruct (grow_request_spec n Hn) as (_ & G1 & G2 & G3).
  assert (Hf' : forall i, 0 <= i < NUMLIST -> (length (fl i) <= fuel)%nat)
    by (intros i Hi; specialize (Hf i Hi); lia).
  destruct (find_fit_listed fuel s bs fl (adjusted_size n) (proj1 Hok) Hf)
    as (r & Hr & Hcase).
  unfold malloc. cbv zeta. rewrite Hr. cbn [bind].
  destruct Hcase as [->|(csize & Hb & Hle)].
  - (* no fit: grow the heap *)
    pose proof (find_fit_complete fuel s bs fl _ Hok Hf Hr) as NoFit.
    rewrite Z.eqb_refl. cbn [negb].
    destruct (Z_le_gt_dec (mem_brk s + grow_request n) (mem_max_addr s))
      as [Hroom|Hfull].
    + destruct (extend_live fuel s bs fl _ Hok G1 G2 Hroom Hf')
        as (bp & s1 & fl1 & pre & sz1 & He & Ok1 & Hnn & Hsz & Lv1 & Fr1
            & K1 & N1 & E1 & E2 & E3 & E4 & Hl1).
      rewrite He. cbn [bind].
      destruct (Z.eqb_spec bp NULL) as [E|_]; [contradiction|].
      destruct (place_live fuel s1 fl1 pre [] bp sz1 (adjusted_size n) Ok1)
        as (s2 & fl2 & bs2 & sz2 & Hp & Ok2 & Hb2 & Hsz2 & Lv2 & K2 & N2).
      * fold (grow_request n) in Hsz. lia.
      * exact M.
      * intros i Hi. specialize (Hf i Hi). specialize (Hl1 i). lia.
      * rewrite Hp. cbn [bind]. exists bp, s2. split; [reflexivity|].
        right. split; [exact Hnn|]. exists bs2, fl2, sz2.
        destruct (place_same _ _ _ _ _ Hp) as (S1 & S2 & S3 & S4).
        split; [exact Ok2|]. split; [exact Hb2|]. split; [exact Hsz2|].
        split; [intros q sq; rewrite Lv2, Lv1; reflexivity|].
        split; [exact Fr1|].
        split.
        { intros q sq x Hq Hx. rewrite (K2 q sq x); [apply (K1 q sq x)| |];
            try assumption. apply Lv1. exact Hq. }
        split; [intros H; apply N2, N1, H|].
        split; [congruence|]. split; [congruence|]. split; [congruence|].
        split; [unfold grow_request, MINSIZE in G1; lia|].
        intros (q & sq & Hq & Hge). specialize (NoFit q sq Hq). lia.
    + rewrite extend_heap_fail by (fold (grow_request n); lia).
      cbn [bind]. rewrite Z.eqb_refl. exists NULL, s. split; [reflexivity|].
      left. split; [reflexivity|]. split; [reflexivity|].
      split; [lia | exact NoFit].
  - (* a free block fits *)
    assert (Hnn : r <> NULL).
    { destruct (rep_block _ _ _ (proj1 Hok) _ _ _ Hb) as (X & _).
      pose proof (rep_heap_bounds _ _ _ (proj1 Hok)). unfold NULL. lia. }
    destruct (Z.eqb_spec r NULL) as [E|_]; [contradiction|]. cbn [negb].
    destruct (in_split _ _ Hb) as (pre0 & post0 & E). subst bs.
    destruct (place_live fuel s fl pre0 post0 r csize (adjusted_size n) Hok)
      as (s2 & fl2 & bs2 & sz2 & Hp & Ok2 & Hb2 & Hsz2 & Lv2 & K2 & N2);
      [lia | exact M | exact Hf' |].
    rewrite Hp. cbn [bind]. exists r, s2. split; [reflexivity|].
    right. split; [exact Hnn|]. exists bs2, fl2, sz2.
    destruct (place_same _ _ _ _ _ Hp) as (S1 & S2 & S3 & S4).
    split; [exact Ok2|]. split; [exact Hb2|]. split; [exact Hsz2|].
    split; [exact Lv2|].
    split.
    { intros sq Hin.
      destruct (rep_block_unique _ _ _ (proj1 Hok) _ _ _ _ _ Hb Hin) as [_ X].
      discriminate X. }
    split; [exact K2|]. split; [exact N2|].
    split; [exact S1|]. split; [exact S3|]. split; [exact S4|].
    split; [lia|]. intros _. exact S2.
Qed.

Lemma malloc_spec (fuel : nat) (s : state) (bs : list blk)
      (fl : Z -> list Z) (n : Z) :
  heap_ok s bs fl -> 0 <= n ->
  (forall i, 0 <= i < NUMLIST -> (length (fl i) < fuel)%nat) ->
  exists bp s',
    malloc fuel s n = Ok (bp, s') /\
    ((bp = NULL /\ s' = s /\ mem_max_addr s < mem_brk s + grow_request n) \/
     (bp <> NULL /\
      exists bs' fl' sz,
        heap_ok s' bs' fl' /\ In (bp, sz, true) bs' /\
        adjusted_size n <= sz < adjusted_size n + MINSIZE)).
Proof.
  intros Hok Hn Hf.
  destruct (malloc_full fuel s bs fl n Hok Hn Hf) as (bp & s' & Hm & Hcase).
  exists bp, s'. split; [exact Hm|].
  destruct Hcase as [(A & B & C & _)|(A & bs' & fl' & sz & B & C & D & _)].
  - left. auto.
  - right. split; [exact A|]. exists bs', fl', sz. auto.
Qed.

(** C4, as amended.  For every requested size up to [SIZE_MAX - 15] the
    adjusted block size is [max(round_up_to_8(requested + 8), 16)].  On a
    well-formed heap whose provider has a capacity of at most 2^31 bytes
    (the bound is also part of [heap_ok]; it is repeated because the
    outcome for large sizes depends on it), [malloc] then
    returns NULL only when no free block has that size and the provider
    cannot supply the growth, leaving the state as it was, and otherwise a
    live block of at least that size and less than that size plus 16 (a
    free block is used whole when the remainder would be smaller than the
    minimum block).  So a request of size 0 yields a live block of size 16
    or 24 and no failure, absent provider failure. *)
Theorem malloc_block_size (fuel : nat) (s : state) (bs : list blk)
        (fl : Z -> list Z) (requested : Z) :
  0 <= requested <= SIZE_MAX - 15 ->
  heap_ok s bs fl ->
  mem_max_addr s - mem_start_brk s <= 2 ^ 31 ->
  (forall i, 0 <= i < NUMLIST -> (length (fl i) < fuel)%nat) ->
  adjusted_size requested = required_block_size requested /\
  exists bp s',
    malloc fuel s requested = Ok (bp, s') /\
    ((bp = NULL /\ s' = s /\
      mem_max_addr s < mem_brk s + grow_request requested /\
      (forall q sq, In (q, sq, false) bs ->
                    sq < required_block_size requested)) \/
     (bp <> NULL /\
      exists bs' fl' sz,
        heap_ok s' bs' fl' /\ In (bp, sz, true) bs' /\
        required_block_size requested <= sz
        < required_block_size requested + MINSIZE /\
        (requested = 0 -> sz = 16 \/ sz = 24))).
Proof.
  intros Hn Hok _ Hf.
  pose proof (adjusted_size_exact requested Hn) as E.
  split; [exact E|].
  destruct (malloc_full fuel s bs fl requested Hok (proj1 Hn) Hf)
    as (bp & s' & Hm & Hcase).
  exists bp, s'. split; [exact Hm|].
  destruct Hcase as [(A & B & C & D)
                    |(Hnn & bs' & fl' & sz & Ok' & Hb & Hsz & _)];
    [left | right].
  { rewrite <- E. split; [exact A|]. split; [exact B|].
    split; [exact C | exact D]. }
  split; [exact Hnn|]. exists bs', fl', sz.
  rewrite <- E. split; [exact Ok'|]. split; [exact Hb|].
  split; [exact Hsz|]. intros E0. subst requested.
  destruct (rep_block _ _ _ (proj1 Ok') _ _ _ Hb) as (_ & _ & _ & Hmod & _).
  pose proof (Z.div_mod sz 8 ltac:(lia)) as D. rewrite Hmod in D.
  replace (adjusted_size 0) with 16 in Hsz by (vm_compute; reflexivity).
  unfold MINSIZE in Hsz. lia.
Qed.

Lemma lists_freed24_short (i : Z) :
  0 <= i < NUMLIST -> (length (lists_freed24 i) < fuel0)%nat.
Proof.
  intros _. unfold lists_freed24, fuel0.
  destruct (i =? 5); [cbn; lia|]. destruct (i =? 8); cbn; lia.
Defined.

(** On the heap left by [run_freed24], [malloc(0)] succeeds with a block of
    size 16 or 24. *)
Lemma malloc_block_size_witness :
  adjusted_size 0 = required_block_size 0 /\
  exists bp s',
    malloc fuel0 (final run_freed24) 0 = Ok (bp, s') /\
    ((bp = NULL /\ s' = final run_freed24 /\
      mem_max_addr (final run_freed24)
      < mem_brk (final run_freed24) + grow_request 0 /\
      (forall q sq, In (q, sq, false) blocks_freed24 ->
                    sq < required_block_size 0)) \/
     (bp <> NULL /\
      exists bs' fl' sz,
        heap_ok s' bs' fl' /\ In (bp, sz, true) bs' /\
        required_block_size 0 <= sz < required_block_size 0 + MINSIZE /\
        (0 = 0 -> sz = 16 \/ sz = 24))).
Proof.
  apply (malloc_block_size fuel0 (final run_freed24) blocks_freed24
                           lists_freed24 0).
  - unfold SIZE_MAX. lia.
  - apply heap_okb_sound. vm_compute. reflexivity.
  - vm_compute. intros H. discriminate H.
  - exact lists_freed24_short.
Defined.

(** C10.  For every size above [SIZE_MAX - 15] the adjusted block size
    wraps around to 16, below the request; on the initialised heap [malloc]
    then returns a block of 16 bytes, with an 8-byte payload, instead of
    failing.  On every well-formed heap it returns a live block of fewer
    than 32 bytes, or NULL when the provider cannot supply the 256 bytes of
    a default chunk. *)
Theorem malloc_size_wraps (size : Z) :
  SIZE_MAX - 15 < size <= SIZE_MAX ->
  adjusted_size size = MINSIZE /\ adjusted_size size < size /\
  (exists bp s', malloc fuel0 heap0 size = Ok (bp, s') /\ bp <> NULL /\
                 GET_SIZE s' (HDRP bp) = Ok MINSIZE /\
                 payload_size s' bp = Ok 8) /\
  forall fuel s bs fl,
    heap_ok s bs fl ->
    (forall i, 0 <= i < NUMLIST -> (length (fl i) < fuel)%nat) ->
    exists bp s',
      malloc fuel s size = Ok (bp, s') /\
      ((bp = NULL /\ s' = s /\ mem_max_addr s < mem_brk s + 256) \/
       (bp <> NULL /\
        exists bs' fl' sz, heap_ok s' bs' fl' /\ In (bp, sz, true) bs' /\
                           MINSIZE <= sz < 2 * MINSIZE)).
Proof.
  intros Hs. unfold SIZE_MAX in Hs.
  assert (E : adjusted_size size = MINSIZE).
  { assert (C : In size (upto 15 (2 ^ 64 - 15))) by (cbn; lia).
    cbn [upto In] in C.
    repeat (destruct C as [<-|C]; [vm_compute; reflexivity|]).
    destruct C. }
  split; [exact E|]. split; [rewrite E; unfold MINSIZE; lia|]. split.
  - exists 4112, (final (malloc fuel0 heap0 SIZE_MAX)).
    assert (M : malloc fuel0 heap0 size = malloc fuel0 heap0 SIZE_MAX).
    { unfold malloc. rewrite E.
      replace (adjusted_size SIZE_MAX) with MINSIZE
        by (vm_compute; reflexivity).
      reflexivity. }
    rewrite M.
    split; [vm_compute; reflexivity|].
    split; [discriminate|].
    split; vm_compute; reflexivity.
  - intros fuel s bs fl Hok Hf.
    destruct (malloc_spec fuel s bs fl size Hok ltac:(lia) Hf)
      as (bp & s' & Hm & Hcase).
    exists bp, s'. split; [exact Hm|].
    assert (G : grow_request size = 256).
    { unfold grow_request. rewrite E. vm_compute. reflexivity. }
    rewrite E, G in Hcase. unfold MINSIZE in *.
    destruct Hcase as [H|(Hnn & bs' & fl' & sz & Ok' & Hb & Hsz)];
      [left; exact H | right].
    split; [exact Hnn|]. exists bs', fl', sz.
    split; [exact Ok'|]. split; [exact Hb | lia].
Qed.

Lemma malloc_size_wraps_witness :
  adjusted_size SIZE_MAX = MINSIZE /\ adjusted_size SIZE_MAX < SIZE_MAX /\
  exists bp s', malloc fuel0 heap0 SIZE_MAX = Ok (bp, s') /\ bp <> NULL /\
                GET_SIZE s' (HDRP bp) = Ok MINSIZE /\
                payload_size s' bp = Ok 8.
Proof.
  destruct (malloc_size_wraps SIZE_MAX) as (A & B & C & _).
  - unfold SIZE_MAX. lia.
  - split; [exact A|]. split; [exact B | exact C].
Defined.

(** * The blocks of a well-formed heap, as the heap walk meets them *)

Lemma contig_head (bs : list blk) (a e : Z) :
  contig a bs e -> a < e -> exists sz al r, bs = (a, sz, al) :: r.
Proof.
  destruct bs as [|[[bp sz] al] r]; cbn [contig].
  - lia.
  - intros (-> & _) _. eauto.
Qed.

Lemma in_heap_lt (s : state) (p : Z) : in_heap s p = true -> p < mem_brk s.
Proof.
  unfold in_heap, mem_heap_hi. intros H. apply andb_prop in H.
  destruct H as [H _]. apply Z.leb_le in H. lia.
Qed.

(** A block and the block after it, in the list of blocks. *)
Lemma block_successor (s : state) (bs : list blk) (fl : Z -> list Z)
      (bp sz : Z) (al : bool) :
  rep s bs fl -> In (bp, sz, al) bs -> bp + sz < mem_brk s ->
  exists l1 sz' al' l2,
    bs = l1 ++ (bp, sz, al) :: (bp + sz, sz', al') :: l2.
Proof.
  intros R Hb Hlt. destruct (in_split _ _ Hb) as (l1 & l2 & E).
  pose proof (rep_contig _ _ _ R) as C. rewrite E in C.
  apply contig_app in C. destruct C as (m & _ & C).
  cbn [contig] in C. destruct C as (Em & _ & _ & C). subst m.
  destruct (contig_head _ _ _ C Hlt) as (sz' & al' & r & ->).
  exists l1, sz', al', r. exact E.
Qed.

Lemma is_block_In (s : state) (bs : list blk) (fl : Z -> list Z) (bp : Z) :
  rep s bs fl -> is_block s bp -> exists sz al, In (bp, sz, al) bs.
Proof.
  intros R H. induction H as [Hh | bp nb Hb IH Hn Hh].
  - apply in_heap_lt in Hh.
    destruct (contig_head _ _ _ (rep_contig _ _ _ R) Hh) as (sz & al & r & E).
    exists sz, al. rewrite E. left. reflexivity.
  - destruct IH as (sz & al & Hin).
    destruct (rep_block _ _ _ R _ _ _ Hin) as (P1 & P2 & P3 & P4 & T1 & _).
    pose proof (rep_heap_bounds _ _ _ R) as (B1 & B2 & B3 & B4 & B5).
    rewrite (NEXT_at s bp sz al) in Hn by (try assumption; lia).
    injection Hn as <-. apply in_heap_lt in Hh.
    destruct (block_successor _ _ _ _ _ _ R Hin Hh)
      as (l1 & sz' & al' & l2 & E).
    exists sz', al'. rewrite E. apply in_or_app. right. right. left.
    reflexivity.
Qed.

(** In a well-formed heap every block's header word equals its footer
    word. *)
Lemma rep_tags_agree (s : state) (bs : list blk) (fl : Z -> list Z) :
  rep s bs fl -> tags_agree s.
Proof.
  intros R bp Hb.
  destruct (is_block_In _ _ _ _ R Hb) as (sz & al & Hin).
  destruct (rep_block _ _ _ R _ _ _ Hin) as (P1 & P2 & P3 & P4 & T1 & T2).
  pose proof (rep_heap_bounds _ _ _ R) as (B1 & B2 & B3 & B4 & B5).
  exists (tag sz al), (bp + sz - 8). split; [|split].
  - unfold HDRP, WSIZE. rewrite GET_ok by lia. rewrite T1. reflexivity.
  - apply (FTRP_at s bp sz al); try assumption; lia.
  - rewrite GET_ok by lia. rewrite T2. reflexivity.
Qed.

(** In a well-formed heap whose list of blocks has no two consecutive free
    blocks, no two adjacent blocks are both free. *)
Lemma rep_no_adjacent_free (s : state) (bs : list blk) (fl : Z -> list Z) :
  rep s bs fl -> no_free_pair bs = true -> no_adjacent_free s.
Proof.
  intros R NF bp nb Hb Hn Hnb [F1 F2].
  destruct (is_block_In _ _ _ _ R Hb) as (sz & al & Hin).
  destruct (is_block_In _ _ _ _ R Hnb) as (sz' & al' & Hin').
  destruct (rep_block _ _ _ R _ _ _ Hin) as (P1 & P2 & P3 & P4 & T1 & _).
  destruct (rep_block _ _ _ R _ _ _ Hin') as (Q1 & Q2 & Q3 & Q4 & T1' & _).
  pose proof (rep_heap_bounds _ _ _ R) as (B1 & B2 & B3 & B4 & B5).
  rewrite (NEXT_at s bp sz al) in Hn by (try assumption; lia).
  injection Hn as <-.
  unfold is_free in F1, F2.
  rewrite (GET_ALLOC_at s (HDRP bp) sz al) in F1
    by (unfold HDRP, WSIZE; try assumption; lia).
  rewrite (GET_ALLOC_at s (HDRP (bp + sz)) sz' al') in F2
    by (unfold HDRP, WSIZE; try assumption; lia).
  destruct al; [discriminate F1|]. destruct al'; [discriminate F2|].
  destruct (block_successor _ _ _ _ _ _ R Hin ltac:(lia))
    as (l1 & sz2 & al2 & l2 & E).
  assert (Hin2 : In (bp + sz, sz2, al2) bs)
    by (rewrite E; apply in_or_app; right; right; left; reflexivity).
  destruct (rep_block_unique _ _ _ R _ _ _ _ _ Hin' Hin2) as [<- <-].
  rewrite E in NF. rewrite no_free_pair_middle in NF. discriminate NF.
Qed.

(** * Runs ending in [realloc] with a size that wraps around *)

(** C7, at a failing input.  After [run_six] the heap is well formed, with
    no two adjacent free blocks; it holds the live block [p] = 4112 of 32
    bytes, a free 16-byte block at 4176 and the live 16-byte block at
    4192.  [realloc(p, SIZE_MAX)] returns 4176 after copying 32 bytes into
    its 8-byte payload; the copy overwrote the header of the live block at
    4192 and that of the block at 4208, which now both read as free, and
    they are adjacent. *)
Theorem realloc_huge_adjacent_free :
  value run_six 0 = 4112 /\
  heap_ok (final run_six) blocks_six lists_six /\
  no_adjacent_free (final run_six) /\
  value run_six_realloc 0 = 4176 /\
  ~ no_adjacent_free (final run_six_realloc).
Proof.
  assert (Hok : heap_ok (final run_six) blocks_six lists_six)
    by (apply heap_okb_sound; run).
  split; [run|]. split; [exact Hok|].
  split; [apply (rep_no_adjacent_free _ _ _ (proj1 Hok)); reflexivity|].
  split; [run|].
  intro H.
  assert (B1 : is_block (final run_six_realloc) 4112)
    by (apply (first_block (final run_six_realloc)); run).
  assert (B2 : is_block (final run_six_realloc) 4160)
    by (apply next_block with (bp := 4112); [exact B1 | run | run]).
  assert (B3 : is_block (final run_six_realloc) 4176)
    by (apply next_block with (bp := 4160); [exact B2 | run | run]).
  assert (B4 : is_block (final run_six_realloc) 4192)
    by (apply next_block with (bp := 4176); [exact B3 | run | run]).
  assert (B5 : is_block (final run_six_realloc) 4208)
    by (apply next_block with (bp := 4192); [exact B4 | run | run]).
  apply (H 4192 4208 B4); [run | exact B5 |].
  split; run.
Qed.

(** C8, at a failing input.  After [run_zeroed] the heap is well formed and
    every header equals its footer; [p] = 4112 comes from [calloc(1, 24)]
    and the 16-byte block at 4144 is free.  [realloc(p, SIZE_MAX)] returns
    4144 after copying 32 bytes into its 8-byte payload: the footer of the
    returned block now holds zero bytes of the old payload while its header
    holds 17. *)
Theorem realloc_huge_header_footer :
  value run_zeroed 0 = 4112 /\
  heap_ok (final run_zeroed) blocks_zeroed lists_zeroed /\
  tags_agree (final run_zeroed) /\
  value run_zeroed_realloc 0 = 4144 /\
  GET (final run_zeroed_realloc) (HDRP 4144) = Ok 17 /\
  (f <- FTRP (final run_zeroed_realloc) 4144 ;;
   GET (final run_zeroed_realloc) f) = Ok 0 /\
  ~ tags_agree (final run_zeroed_realloc).
Proof.
  assert (Hok : heap_ok (final run_zeroed) blocks_zeroed lists_zeroed)
    by (apply heap_okb_sound; run).
  split; [run|]. split; [exact Hok|].
  split; [apply (rep_tags_agree _ _ _ (proj1 Hok))|].
  split; [run|]. split; [run|]. split; [run|].
  intro H.
  assert (B1 : is_block (final run_zeroed_realloc) 4112)
    by (apply (first_block (final run_zeroed_realloc)); run).
  assert (B2 : is_block (final run_zeroed_realloc) 4144)
    by (apply next_block with (bp := 4112); [exact B1 | run | run]).
  destruct (H 4144 B2) as (w & f & Hw & Hf & Hg).
  assert (E1 : GET (final run_zeroed_realloc) (HDRP 4144) = Ok 17) by run.
  assert (E2 : FTRP (final run_zeroed_realloc) 4144 = Ok 4152) by run.
  assert (E3 : GET (final run_zeroed_realloc) 4152 = Ok 0) by run.
  rewrite E1 in Hw. rewrite E2 in Hf.
  injection Hw as <-. injection Hf as <-.
  rewrite E3 in Hg. discriminate Hg.
Qed.

(** C1, at a failing input.  The heap after [run_dirty] is well formed;
    [p] = 4160 is a live block with a 24-byte payload and
    [realloc(p, SIZE_MAX)] returns 4112, so the first
    [MIN(24, SIZE_MAX)] = 24 bytes should have been copied.  The returned
    block has an 8-byte payload, and the byte at offset 12, 32 in the old
    payload, is 64 after the call: the copy ran over the header of the next
    block, which [free(p)] then merged with the old block. *)
Theorem realloc_huge_payload :
  heap_ok (final run_dirty) blocks_dirty lists_dirty /\
  value run_dirty 0 = 4160 /\
  payload_size (final run_dirty) 4160 = Ok 24 /\
  value run_dirty_realloc 0 = 4112 /\
  payload_size (final run_dirty_realloc) 4112 = Ok 8 /\
  mem (final run_dirty) (4160 + 12) = 32 /\
  mem (final run_dirty_realloc) (4112 + 12) = 64 /\
  ~ prefix_copied (final run_dirty) 4160 (final run_dirty_realloc) 4112
      (MIN 24 SIZE_MAX).
Proof.
  split; [apply heap_okb_sound; run|].
  do 6 (split; [run|]).
  intros [_ H].
  specialize (H 12).
  assert (E1 : mem (final run_dirty_realloc) (4112 + 12) mod 256 = 64) by run.
  assert (E2 : mem (final run_dirty) (4160 + 12) mod 256 = 32) by run.
  rewrite E1, E2 in H.
  assert (K : 0 <= 12 < MIN 24 SIZE_MAX) by (vm_compute; split; congruence).
  specialize (H K). discriminate H.
Qed.
(** * [free] on a well-formed heap *)

Lemma fuel_lengths (s : state) (bs : list blk) (fl : Z -> list Z)
      (fuel : nat) :
  rep s bs fl -> fuel_for s fuel ->
  forall i, 0 <= i < NUMLIST -> (length (fl i) <= fuel)%nat.
Proof.
  intros R Hf i Hi. pose proof (rep_fuel _ _ _ _ R Hf i Hi). lia.
Qed.

(** [free] marks the block free in header and footer and hands it to
    [coalesce]: the block is merged with its free neighbours [P] and [N].
    It writes only bytes of the freed block and of free blocks, and does
    not move the break. *)
Lemma free_full (fuel : nat) (s : state) (fl : Z -> list Z)
      (pre0 post0 : list blk) (p sz : Z) :
  heap_ok s (pre0 ++ (p, sz, true) :: post0) fl ->
  (forall i, 0 <= i < NUMLIST -> (length (fl i) <= fuel)%nat) ->
  exists s' fl' pre P N post,
    free fuel s p = Ok s' /\
    pre0 = pre ++ P /\ post0 = N ++ post /\
    neighbour fl P /\ neighbour fl N /\
    (P = [] -> ends_allocated pre) /\ (N = [] -> starts_allocated post) /\
    heap_ok s' (pre ++ (merged_bp P p, merged_size P sz N, false) :: post)
            fl' /\
    same_heap s s' /\
    (forall x, off_free (pre0 ++ (p, sz, true) :: post0) x ->
               x < p - 4 \/ p + sz - 4 <= x -> mem s' x = mem s x).
Proof.
  intros [R L] Hf.
  assert (Hp : In (p, sz, true) (pre0 ++ (p, sz, true) :: post0))
    by apply in_middle.
  destruct (rep_block _ _ _ R _ _ _ Hp) as (P1 & P2 & P3 & P4 & T1 & T2).
  pose proof (rep_heap_bounds _ _ _ R) as (B1 & B2 & B3 & B4 & B5).
  destruct (around s fl pre0 [] [] post0 p sz true R)
    as (a & c & C1 & C2 & C3 & C4 & C5 & C6).
  cbn [contig] in C2, C3. subst a c.
  set (s1 := set_mem s (storen 4 (p - 4) sz (mem s))).
  set (s2 := set_mem s1 (storen 4 (p + sz - 8) sz (mem s1))).
  assert (R2 : rep s2 (pre0 ++ [(p, sz, false)] ++ post0) fl).
  { apply (rep_replace s s2 pre0 [(p, sz, true)] _ post0 _ p (p + sz)).
    - exact R.
    - repeat split.
    - reflexivity.
    - exact C1.
    - cbn [contig]. unfold MINSIZE. repeat split; try lia; assumption.
    - cbn [contig]. unfold MINSIZE. repeat split; try lia; assumption.
    - intros x Hx. unfold s2, s1. cbn [mem set_mem].
      rewrite !storen_other by (cbn; lia). reflexivity.
    - unfold s2, s1. cbn [mem set_mem].
      constructor; [|constructor]. cbn [tagged]. rewrite tag_free. split.
      + rewrite loadn_storen_other by (cbn; lia).
        apply load4_store4. lia.
      + apply load4_store4. lia.
    - intros x sx ax [H|[]]. injection H as <- <- <-.
      exact (live_unlisted _ _ _ _ _ R Hp). }
  cbn [app] in R2.
  destruct (coalesce_full fuel s2 fl pre0 post0 p sz R2)
    as (s3 & pre & P & N & post & fl' & Ep & En & NP & NN & Hc & Ok3 & _
        & A1 & A2 & F3).
  - intros x sx H. apply L. apply in_or_app.
    destruct H as [H|H]; [left; exact H | right; right; exact H].
  - exact (live_unlisted _ _ _ _ _ R Hp).
  - exact Hf.
  - exists s3, fl', pre, P, N, post.
    split; [|split; [exact Ep | split; [exact En | split; [exact NP |
             split; [exact NN | split; [exact A1 | split; [exact A2 |
             split; [exact Ok3 | split]]]]]]]].
    + unfold free.
      destruct (Z.eqb_spec p 0) as [E0|_]; [lia|].
      rewrite (GET_SIZE_at s (HDRP p) sz true)
        by (unfold HDRP, WSIZE; try assumption; lia).
      cbn [bind]. rewrite PACK_0. unfold HDRP, WSIZE.
      rewrite PUT_ok by lia. cbn [bind]. fold s1.
      rewrite (FTRP_at s1 p sz false);
        [ | unfold s1; cbn [set_mem mem_start_brk mem_brk mem]; try lia ..].
      2:{ rewrite tag_free. apply load4_store4. lia. }
      cbn [bind].
      rewrite PUT_ok by (unfold s1; cbn [set_mem mem_start_brk mem_brk]; lia).
      cbn [bind]. fold s2. rewrite Hc. reflexivity.
    + apply (same_heap_trans s s2 s3); [repeat split|].
      exact (coalesce_same _ _ _ _ _ Hc).
    + intros x Hx Hout. rewrite F3.
      * unfold s2, s1. cbn [mem set_mem].
        rewrite !storen_other by (cbn; lia). reflexivity.
      * intros q sq Hq. apply in_app_or in Hq.
        destruct Hq as [Hq|[Hq|Hq]].
        -- apply Hx. apply in_or_app. left. exact Hq.
        -- injection Hq as <- <-. exact Hout.
        -- apply Hx. apply in_or_app. right. right. exact Hq.
Qed.

(** After [free(p)] of a live block: the heap is well formed again, [p] is
    no longer live and lies inside a free block, every other live block is
    still live with all its bytes as they were, and the heap has not
    grown. *)
Lemma free_live (fuel : nat) (s : state) (bs : list blk)
      (fl : Z -> list Z) (p sz : Z) :
  heap_inv s bs fl -> In (p, sz, true) bs -> fuel_for s fuel ->
  exists s' bs' fl',
    free fuel s p = Ok s' /\ heap_inv s' bs' fl' /\ same_heap s s' /\
    (forall q sq, In (q, sq, true) bs' <-> In (q, sq, true) bs /\ q <> p) /\
    (exists m msz, In (m, msz, false) bs' /\ m <= p /\ p + sz <= m + msz) /\
    (forall q sq x, In (q, sq, true) bs -> q <> p ->
                    q - 4 <= x < q + sq - 4 -> mem s' x = mem s x).
Proof.
  intros (Hok & Hn & Hal) Hp Hf.
  destruct (in_split _ _ Hp) as (pre0 & post0 & E). subst bs.
  pose proof (fuel_lengths _ _ _ _ (proj1 Hok) Hf) as Hl.
  destruct (free_full fuel s fl pre0 post0 p sz Hok Hl)
    as (s' & fl' & pre & P & N & post & Hfree & Ep & En & NP & NN & A1 & A2
        & Ok' & SH & F).
  pose proof (proj1 Hok) as R.
  pose proof (rep_contig _ _ _ R) as C.
  destruct (nfp_app_inv _ _ Hn) as [Hn1 Hn2].
  apply nfp_cons in Hn2. destruct Hn2 as [Hn2 _].
  rewrite Ep in Hn1. rewrite En in Hn2.
  destruct (nfp_neighbours fl pre P N post Hn1 Hn2 NP NN A1 A2)
    as (I1 & I2 & EA & SA).
  exists s', (pre ++ (merged_bp P p, merged_size P sz N, false) :: post), fl'.
  split; [exact Hfree|]. split.
  { split; [exact Ok'|]. split.
    - apply nfp_insert; [exact I1 | exact I2 | right; split; assumption].
    - destruct SH as (_ & _ & _ & ->). exact Hal. }
  split; [exact SH|]. split; [|split].
  - intros q sq. subst pre0 post0.
    rewrite !in_app_iff. cbn [In]. rewrite !in_app_iff.
    assert (NotP : ~ In (q, sq, true) P)
      by (intros H; destruct (neighbour_blocks _ _ NP _ _ _ H) as [X _];
          discriminate X).
    assert (NotN : ~ In (q, sq, true) N)
      by (intros H; destruct (neighbour_blocks _ _ NN _ _ _ H) as [X _];
          discriminate X).
    assert (D : In (q, sq, true) pre \/ In (q, sq, true) post -> q <> p).
    { intros H.
      apply (middle_distinct _ _ _ _ _ _ _ C q sq true).
      destruct H as [H|H]; [left | right]; apply in_or_app; tauto. }
    split.
    + intros [H|[H|H]]; [|discriminate H|]; split; tauto.
    + intros [[[H|H]|[H|[H|H]]] Hne]; try tauto.
      injection H as H _. congruence.
  - exists (merged_bp P p), (merged_size P sz N).
    split; [apply in_middle|].
    pose proof (rep_contig _ _ _ (proj1 Ok')) as C'.
    subst pre0 post0.
    assert (R' : rep s (pre ++ P ++ (p, sz, true) :: N ++ post) fl)
      by (rewrite <- app_assoc in R; exact R).
    destruct (around s fl pre P N post p sz true R')
      as (a & c & C1 & C2 & C3 & C4 & _).
    unfold merged_bp, merged_size.
    pose proof (contig_total _ _ _ C2) as T2.
    pose proof (contig_total _ _ _ C3) as T3.
    pose proof (contig_le _ _ _ C3) as L3.
    destruct NP as [|pb psz _].
    + cbn [total fold_right] in *. lia.
    + cbn [contig] in C2. destruct C2 as (-> & M & _). unfold MINSIZE in M.
      cbn [total fold_right fst snd] in *. lia.
  - intros q sq x Hq Hne Hx. apply F.
    + exact (live_off_free _ _ _ _ _ _ R Hq Hx).
    + destruct (contig_disjoint _ _ _ _ _ _ _ _ _ C Hq Hp) as [X|X];
        [injection X as X _; contradiction | lia].
Qed.
(** * [malloc] between two calls *)

Lemma contig_aligned (bs : list blk) : forall a e q sq al,
  contig a bs e -> a mod 8 = 0 -> In (q, sq, al) bs -> q mod 8 = 0.
Proof.
  induction bs as [|[[bp sz] al0] bs IH]; intros a e q sq al C Ha H;
    [destruct H|].
  cbn [contig] in C. destruct C as (-> & _ & Hm & C).
  destruct H as [H|H].
  - injection H as <- _ _. exact Ha.
  - apply (IH _ _ q sq al C); [apply mod8_add; assumption | exact H].
Qed.

(** Block pointers are multiples of 8. *)
Lemma rep_aligned (s : state) (bs : list blk) (fl : Z -> list Z)
      (q sq : Z) (al : bool) :
  rep s bs fl -> heap_listp s mod 8 = 0 -> In (q, sq, al) bs -> q mod 8 = 0.
Proof.
  intros R Ha H.
  apply (contig_aligned _ _ _ q sq al (rep_contig _ _ _ R)); [|exact H].
  apply mod8_add; [exact Ha | reflexivity].
Qed.

Lemma malloc_live (fuel : nat) (s : state) (bs : list blk)
      (fl : Z -> list Z) (n : Z) :
  heap_inv s bs fl -> 0 <= n -> fuel_for s fuel ->
  exists p s',
    malloc fuel s n = Ok (p, s') /\
    ((p = NULL /\ s' = s /\
      mem_max_addr s < mem_brk s + grow_request n /\
      (forall q sq, In (q, sq, false) bs -> sq < adjusted_size n)) \/
     (p <> NULL /\
      exists bs' fl' sz,
        heap_inv s' bs' fl' /\ In (p, sz, true) bs' /\
        adjusted_size n <= sz < adjusted_size n + MINSIZE /\
        (forall q sq, In (q, sq, true) bs' <->
                      In (q, sq, true) bs \/ (q = p /\ sq = sz)) /\
        (forall sq, ~ In (p, sq, true) bs) /\
        keeps bs s s' /\
        mem_start_brk s' = mem_start_brk s /\
        mem_max_addr s' = mem_max_addr s /\
        heap_listp s' = heap_listp s /\ mem_brk s <= mem_brk s' /\
        ((exists q sq, In (q, sq, false) bs /\ adjusted_size n <= sq) ->
         mem_brk s' = mem_brk s))).
Proof.
  intros (Hok & Hn & Hal) H0 Hf.
  destruct (malloc_full fuel s bs fl n Hok H0 (rep_fuel _ _ _ _ (proj1 Hok) Hf))
    as (p & s' & Hm & Hcase).
  exists p, s'. split; [exact Hm|].
  destruct Hcase as [H|(Hnn & bs' & fl' & sz & Ok' & Hb & Hsz & Lv & Fr & K
                        & N & E1 & E2 & E3 & E4 & E5)]; [left; exact H|].
  right. split; [exact Hnn|]. exists bs', fl', sz.
  split; [split; [exact Ok' | split; [exact (N Hn) | congruence]]|].
  auto 12.
Qed.
(** * [realloc] on a well-formed heap *)

Lemma MIN_min (x y : Z) : MIN x y = Z.min x y.
Proof. unfold MIN. destruct (Z.ltb_spec x y); lia. Qed.

Lemma copy_bytes_other (n : nat) (from : memory) : forall dst src m x,
  x < dst \/ dst + Z.of_nat n <= x -> copy_bytes n from dst src m x = m x.
Proof.
  induction n as [|n IH]; intros dst src m x H; [reflexivity|].
  cbn [copy_bytes]. rewrite IH by lia. unfold upd.
  destruct (Z.eqb_spec x dst); [lia | reflexivity].
Qed.

Lemma copy_bytes_in (n : nat) (from : memory) : forall dst src m i,
  0 <= i < Z.of_nat n ->
  copy_bytes n from dst src m (dst + i) = from (src + i).
Proof.
  induction n as [|n IH]; intros dst src m i H; [lia|].
  cbn [copy_bytes]. destruct (Z.eq_dec i 0) as [->|Hi].
  - rewrite copy_bytes_other by lia. unfold upd.
    rewrite !Z.add_0_r, Z.eqb_refl. reflexivity.
  - replace (dst + i) with (dst + 1 + (i - 1)) by lia.
    replace (src + i) with (src + 1 + (i - 1)) by lia.
    apply IH. lia.
Qed.

(** [memcpy] between two ranges of the heap that do not overlap. *)
Lemma memcpy_ok (s : state) (dst src n : Z) :
  0 < n ->
  mem_start_brk s <= dst -> dst + n <= mem_brk s ->
  mem_start_brk s <= src -> src + n <= mem_brk s ->
  dst + n <= src \/ src + n <= dst ->
  memcpy s dst src n
  = Ok (set_mem s (copy_bytes (Z.to_nat n) (mem s) dst src (mem s))).
Proof.
  intros Hn D1 D2 S1 S2 Hd. unfold memcpy.
  destruct (Z.eqb_spec n 0); [lia|].
  rewrite !valid_intro by assumption. cbn [andb].
  destruct (Z.leb_spec (dst + n) src), (Z.leb_spec (src + n) dst);
    try reflexivity. lia.
Qed.

(** [realloc(p, n)] of a live block, for a size that does not wrap around:
    it fails, leaving the state as it was, when [malloc(n)] fails;
    otherwise the new block is live, the old one is not, the first
    [min(old payload size, n)] bytes of the new payload are those of the old
    one, and every other live block keeps all its bytes. *)
Lemma realloc_live (fuel : nat) (s : state) (bs : list blk)
      (fl : Z -> list Z) (p sz n : Z) :
  heap_inv s bs fl -> In (p, sz, true) bs ->
  0 < n <= SIZE_MAX - 15 -> fuel_for s fuel ->
  exists r s',
    realloc fuel s p n = Ok (r, s') /\
    ((r = NULL /\ s' = s /\
      mem_max_addr s < mem_brk s + grow_request n /\
      (forall q sq, In (q, sq, false) bs -> sq < adjusted_size n)) \/
     (r <> NULL /\
      exists bs' fl' rsz,
        heap_inv s' bs' fl' /\ In (r, rsz, true) bs' /\
        adjusted_size n <= rsz < adjusted_size n + MINSIZE /\
        (forall q sq, In (q, sq, true) bs' <->
                      (In (q, sq, true) bs /\ q <> p) \/
                      (q = r /\ sq = rsz)) /\
        (forall sq, ~ In (r, sq, true) bs) /\
        (forall i, 0 <= i < Z.min (sz - 8) n ->
                   mem s' (r + i) = mem s (p + i)) /\
        (forall q sq x, In (q, sq, true) bs -> q <> p ->
                        q - 4 <= x < q + sq - 4 -> mem s' x = mem s x) /\
        mem_start_brk s' = mem_start_brk s /\
        mem_max_addr s' = mem_max_addr s /\
        heap_listp s' = heap_listp s /\ mem_brk s <= mem_brk s')).
Proof.
  intros Hinv Hp Hn Hf.
  pose proof (proj1 (proj1 Hinv)) as R.
  destruct (rep_block _ _ _ R _ _ _ Hp) as (P1 & P2 & P3 & P4 & T1 & T2).
  pose proof (rep_heap_bounds _ _ _ R) as (B1 & B2 & B3 & B4 & B5).
  destruct (malloc_live fuel s bs fl n Hinv ltac:(lia) Hf)
    as (r & s1 & Hm & Hcase).
  unfold realloc.
  destruct (Z.eqb_spec n 0) as [E0|_]; [lia|].
  destruct (Z.eqb_spec p NULL) as [E0|_]; [unfold NULL in E0; lia|].
  rewrite Hm. cbn [bind].
  destruct Hcase as [(-> & -> & Hfull & NoFit)
                    |(Hnn & bs1 & fl1 & rsz & Inv1 & Hr & Hsz & Lv1 & Fr1 & K1
                      & E1 & E2 & E3 & E4 & _)].
  - exists NULL, s. split; [reflexivity|]. left. auto.
  - destruct (Z.eqb_spec r 0) as [E0|_]; [contradiction|].
    pose proof (proj1 (proj1 Inv1)) as R1.
    assert (Hp1 : In (p, sz, true) bs1) by (apply Lv1; left; exact Hp).
    destruct (rep_block _ _ _ R1 _ _ _ Hp1) as (Q1 & Q2 & _ & _ & U1 & _).
    destruct (rep_block _ _ _ R1 _ _ _ Hr) as (R1' & R2' & R3' & R4' & _).
    pose proof (rep_heap_bounds _ _ _ R1) as (C1 & C2 & C3 & C4 & C5).
    assert (Hne : r <> p) by (intros ->; exact (Fr1 sz Hp)).
    assert (Hdis : r + rsz <= p \/ p + sz <= r).
    { destruct (contig_disjoint _ _ _ _ _ _ _ _ _ (rep_contig _ _ _ R1)
                                Hr Hp1) as [X|X];
        [injection X as X _; contradiction | exact X]. }
    assert (Hroom : n + 8 <= rsz).
    { rewrite (adjusted_size_exact n) in Hsz by lia.
      unfold required_block_size, round_up_to_8 in Hsz.
      pose proof (Z.div_mod (n + 8 + 7) 8 ltac:(lia)) as D.
      pose proof (Z.mod_pos_bound (n + 8 + 7) 8 ltac:(lia)). lia. }
    rewrite (GET_SIZE_at s1 (HDRP p) sz true)
      by (unfold HDRP, WSIZE; try assumption; lia).
    cbn [bind]. rewrite MIN_min.
    set (L := Z.min sz n).
    assert (HL : 0 < L <= sz /\ L <= n) by (unfold L; lia).
    rewrite memcpy_ok by lia. cbn [bind].
    set (s2 := set_mem s1 (copy_bytes (Z.to_nat L) (mem s1) r p (mem s1))).
    assert (F2 : forall x, x < r \/ r + L <= x -> mem s2 x = mem s1 x).
    { intros x Hx. unfold s2. cbn [set_mem mem].
      apply copy_bytes_other. rewrite Z2Nat.id by lia. exact Hx. }
    assert (Inv2 : heap_inv s2 bs1 fl1).
    { destruct Inv1 as ((_ & L1) & N1 & A1).
      split; [split; [|exact L1] | split; [exact N1 | exact A1]].
      apply (rep_payload s1 s2 bs1 fl1 r rsz R1 Hr); [repeat split | reflexivity|].
      intros x Hx. apply F2. lia. }
    assert (Hf2 : fuel_for s2 fuel)
      by (apply (fuel_for_same s); [cbn; congruence | cbn; congruence | exact Hf]).
    destruct (free_live fuel s2 bs1 fl1 p sz Inv2 Hp1 Hf2)
      as (s3 & bs3 & fl3 & Hfree & Inv3 & SH3 & Lv3 & _ & K3).
    rewrite Hfree. cbn [bind].
    exists r, s3. split; [reflexivity|]. right.
    split; [exact Hnn|]. exists bs3, fl3, rsz.
    destruct SH3 as (G1 & G2 & G3 & G4). cbn [s2 set_mem mem_start_brk
      mem_brk mem_max_addr heap_listp] in G1, G2, G3, G4.
    split; [exact Inv3|].
    split; [apply Lv3; split; assumption|].
    split; [exact Hsz|].
    split.
    { intros q sq. rewrite Lv3, Lv1. split.
      - intros [[H|H] H']; [left; tauto | right; exact H].
      - intros [[H H']|[-> ->]]; [tauto|]. split; [right; tauto | exact Hne]. }
    split; [exact Fr1|].
    split.
    { intros i Hi.
      rewrite (K3 r rsz (r + i) Hr Hne) by lia.
      unfold s2. cbn [set_mem mem].
      rewrite copy_bytes_in by (rewrite Z2Nat.id by lia; lia).
      apply (K1 p sz); [exact Hp | lia]. }
    split.
    { intros q sq x Hq Hqp Hx.
      assert (Hq1 : In (q, sq, true) bs1) by (apply Lv1; left; exact Hq).
      rewrite (K3 q sq x Hq1 Hqp Hx).
      rewrite F2; [exact (K1 q sq x Hq Hx)|].
      assert (Hqr : q <> r) by (intros ->; exact (Fr1 sq Hq)).
      destruct (contig_disjoint _ _ _ _ _ _ _ _ _ (rep_contig _ _ _ R1)
                                Hq1 Hr) as [X|X];
        [injection X as X _; contradiction | lia]. }
    repeat split; congruence.
Qed.
(** * [calloc] on a well-formed heap *)

Lemma storen_zero (n : nat) : forall a m x,
  a <= x < a + Z.of_nat n -> storen n a 0 m x = 0.
Proof.
  induction n as [|n IH]; intros a m x H; [lia|].
  cbn [storen]. change (0 / 256) with 0. change (0 mod 256) with 0.
  destruct (Z.eq_dec x a) as [->|Hne].
  - rewrite storen_other by lia. unfold upd. rewrite Z.eqb_refl. reflexivity.
  - apply IH. lia.
Qed.

(** The zeroing loop of [calloc] over a payload of [payload] bytes, a
    multiple of 4, inside the heap. *)
Lemma zero_loop_spec (bp payload : Z) : forall fuel s i,
  0 <= i <= payload -> (payload - i) mod 4 = 0 ->
  mem_start_brk s <= bp + i -> bp + payload <= mem_brk s ->
  payload - i < 4 * Z.of_nat fuel ->
  exists s',
    zero_loop fuel s bp i payload = Ok s' /\
    same_heap s s' /\ freelists s' = freelists s /\
    (forall x, bp + i <= x < bp + payload -> mem s' x = 0) /\
    (forall x, x < bp + i \/ bp + payload <= x -> mem s' x = mem s x).
Proof.
  induction fuel as [|k IH]; intros s i Hi Hm Hlo Hhi Hf; [lia|].
  cbn [zero_loop]. destruct (Z.ltb_spec i payload) as [Hlt|Hge].
  - assert (H4 : i + 4 <= payload).
    { pose proof (Z.div_mod (payload - i) 4 ltac:(lia)) as D.
      rewrite Hm in D. lia. }
    unfold WSIZE. rewrite PUT_ok by lia. cbn [bind].
    set (s1 := set_mem s (storen 4 (bp + i) 0 (mem s))).
    destruct (IH s1 (i + 4)) as (s' & Hz & SH & EF & Z1 & Z2).
    + lia.
    + replace (payload - (i + 4)) with (payload - i + (-1) * 4) by lia.
      rewrite Z_mod_plus_full. exact Hm.
    + cbn. lia.
    + cbn. lia.
    + lia.
    + exists s'. split; [exact Hz|].
      split; [exact (same_heap_trans s s1 s' ltac:(repeat split) SH)|].
      split; [rewrite EF; reflexivity|]. split.
      * intros x Hx. destruct (Z.lt_ge_cases x (bp + i + 4)) as [Hl|Hl].
        -- rewrite Z2 by lia. unfold s1. cbn [set_mem mem].
           apply storen_zero. cbn. lia.
        -- apply Z1. lia.
      * intros x Hx. rewrite Z2 by lia. unfold s1. cbn [set_mem mem].
        apply storen_other. cbn. lia.
  - exists s. split; [reflexivity|]. split; [apply same_heap_refl|].
    split; [reflexivity|]. split; [intros x Hx; lia | reflexivity].
Qed.

Lemma to_int_small (x : Z) : 0 <= x < 2 ^ 31 -> to_int (wrap32 x) = x.
Proof.
  intros H. unfold to_int. rewrite !(wrap32_small x) by lia.
  destruct (Z.ltb_spec x (2 ^ 31)); [reflexivity | lia].
Qed.

(** [calloc(nmemb, size)] allocates [nmemb * size mod 2^64] bytes.  When
    that allocation fails, [calloc] goes on to read the header of NULL,
    outside the heap.  When it succeeds, the whole payload of the new block
    is zero and every block that was live keeps all its bytes. *)
Lemma calloc_live (fuel : nat) (s : state) (bs : list blk)
      (fl : Z -> list Z) (nmemb size : Z) :
  heap_inv s bs fl -> fuel_for s fuel ->
  exists p s1,
    malloc fuel s (wrap64 (nmemb * size)) = Ok (p, s1) /\
    ((p = NULL /\ calloc fuel s nmemb size = Fault) \/
     (p <> NULL /\
      exists s' bs' fl' sz,
        calloc fuel s nmemb size = Ok (p, s') /\
        heap_inv s' bs' fl' /\ In (p, sz, true) bs' /\
        adjusted_size (wrap64 (nmemb * size)) <= sz
        < adjusted_size (wrap64 (nmemb * size)) + MINSIZE /\
        (forall q sq, In (q, sq, true) bs' <->
                      In (q, sq, true) bs \/ (q = p /\ sq = sz)) /\
        (forall sq, ~ In (p, sq, true) bs) /\
        keeps bs s s' /\
        (forall x, p <= x < p + sz - 8 -> mem s' x = 0) /\
        mem_start_brk s' = mem_start_brk s /\
        mem_max_addr s' = mem_max_addr s /\
        heap_listp s' = heap_listp s /\ mem_brk s <= mem_brk s')).
Proof.
  intros Hinv Hf.
  set (n := wrap64 (nmemb * size)).
  assert (Hn : 0 <= n) by (unfold n, wrap64; apply Z.mod_pos_bound; lia).
  pose proof (proj1 (proj1 Hinv)) as R.
  pose proof (rep_heap_bounds _ _ _ R) as (B1 & B2 & B3 & B4 & B5).
  destruct (malloc_live fuel s bs fl n Hinv Hn Hf) as (p & s1 & Hm & Hcase).
  exists p, s1. split; [exact Hm|].
  unfold calloc. fold n. rewrite Hm. cbn [bind].
  destruct Hcase as [(-> & -> & _)
                    |(Hnn & bs1 & fl1 & sz & Inv1 & Hp & Hsz & Lv1 & Fr1 & K1
                      & E1 & E2 & E3 & E4 & _)].
  - left. split; [reflexivity|].
    unfold GET_SIZE, GET, valid, HDRP, NULL, WSIZE.
    destruct (Z.leb_spec (mem_start_brk s) (0 - 4)); [lia | reflexivity].
  - right. split; [exact Hnn|].
    pose proof (proj1 (proj1 Inv1)) as R1.
    destruct (rep_block _ _ _ R1 _ _ _ Hp) as (P1 & P2 & P3 & P4 & T1 & T2).
    pose proof (rep_heap_bounds _ _ _ R1) as (C1 & C2 & C3 & C4 & C5).
    pose proof (rep_brk _ _ _ R1) as C6.
    rewrite (GET_SIZE_at s1 (HDRP p) sz true)
      by (unfold HDRP, WSIZE; try assumption; lia).
    cbn [bind]. unfold DSIZE. rewrite to_int_small by lia.
    destruct (zero_loop_spec p (sz - 8) fuel s1 0)
      as (s2 & Hz & SH & EF & Z1 & Z2).
    + lia.
    + rewrite Z.sub_0_r.
      pose proof (Z.div_mod sz 8 ltac:(lia)) as D. rewrite P4 in D.
      replace (sz - 8) with ((2 * (sz / 8) - 2) * 4) by lia.
      apply Z.mod_mul. lia.
    + lia.
    + lia.
    + unfold fuel_for in Hf. lia.
    + rewrite Hz. cbn [bind]. exists s2, bs1, fl1, sz.
      destruct SH as (G1 & G2 & G3 & G4).
      split; [reflexivity|]. split.
      { destruct Inv1 as ((_ & L1) & N1 & A1).
        split; [split; [|exact L1] | split; [exact N1 | congruence]].
        apply (rep_payload s1 s2 bs1 fl1 p sz R1 Hp);
          [repeat split; assumption | exact EF|].
        intros x Hx. apply Z2. lia. }
      split; [exact Hp|]. split; [exact Hsz|]. split; [exact Lv1|].
      split; [exact Fr1|]. split.
      { intros q sq x Hq Hx.
        assert (Hq1 : In (q, sq, true) bs1) by (apply Lv1; left; exact Hq).
        rewrite Z2; [exact (K1 q sq x Hq Hx)|].
        assert (Hqp : q <> p) by (intros ->; exact (Fr1 sq Hq)).
        destruct (contig_disjoint _ _ _ _ _ _ _ _ _ (rep_contig _ _ _ R1)
                                  Hq1 Hp) as [X|X];
          [injection X as X _; contradiction | lia]. }
      split; [intros x Hx; apply Z1; lia|].
      repeat split; congruence.
Qed.
(** * [mm_init] *)

Lemma init_lists_spec (n : nat) : forall s i,
  mem (init_lists n s i) = mem s /\
  same_heap s (init_lists n s i) /\
  forall j, freelists (init_lists n s i) j
            = if (i <=? j) && (j <? i + Z.of_nat n) then heap_listp s
              else freelists s j.
Proof.
  induction n as [|n IH]; intros s i; cbn [init_lists].
  - split; [reflexivity|]. split; [apply same_heap_refl|]. intros j.
    destruct (Z.leb_spec i j), (Z.ltb_spec j (i + Z.of_nat 0));
      cbn [andb]; try reflexivity. lia.
  - destruct (IH (set_freelist s i (heap_listp s)) (i + 1)) as (M & SH & F).
    split; [rewrite M; reflexivity|]. split; [exact SH|]. intros j.
    rewrite F. cbn [set_freelist heap_listp freelists].
    destruct (Z.leb_spec (i + 1) j), (Z.ltb_spec j (i + 1 + Z.of_nat n)),
             (Z.leb_spec i j), (Z.ltb_spec j (i + Z.of_nat (S n)));
      cbn [andb]; try reflexivity; try lia;
      destruct (Z.eqb_spec j i); try reflexivity; lia.
Qed.

(** [mm_init] on a provider whose break is a multiple of 8 and whose
    capacity is at most 2^31 bytes.  It claims 16 bytes for the padding
    word, the prologue block and the epilogue header, then 256 bytes for a
    first free block; it returns 0 with a well-formed heap made of that one
    block when the provider can supply 272 bytes, and -1 otherwise. *)
Lemma mm_init_full (fuel : nat) (s : state) :
  0 < mem_start_brk s <= mem_brk s -> mem_brk s mod 8 = 0 ->
  mem_max_addr s <= mem_start_brk s + 2 ^ 31 -> mem_max_addr s < VOID_M1 ->
  (mem_brk s + 272 <= mem_max_addr s ->
   exists s' fl',
     mm_init fuel s = Ok (0, s') /\
     heap_inv s' [(mem_brk s + 16, 256, false)] fl' /\
     heap_listp s' = mem_brk s + 8 /\ mem_brk s' = mem_brk s + 272 /\
     mem_start_brk s' = mem_start_brk s /\
     mem_max_addr s' = mem_max_addr s /\
     (forall x, x < mem_brk s -> mem s' x = mem s x)) /\
  (mem_brk s + 16 <= mem_max_addr s < mem_brk s + 272 ->
   exists s', mm_init fuel s = Ok (-1, s') /\
              mem_brk s' = mem_brk s + 16) /\
  (mem_max_addr s < mem_brk s + 16 ->
   exists s', mm_init fuel s = Ok (-1, s') /\ mem_brk s' = mem_brk s).
Proof.
  intros H0 Hal Hcap Hmax. unfold VOID_M1 in Hmax.
  set (brk := mem_brk s) in *.
  assert (Last : mem_max_addr s < brk + 16 ->
                 exists s', mm_init fuel s = Ok (-1, s') /\ mem_brk s' = brk).
  { intros Hfull. unfold mm_init, mem_sbrk, WSIZE. fold brk.
    destruct (Z.leb_spec (brk + 4 * 4) (mem_max_addr s)); [lia|].
    rewrite Z.eqb_refl. eexists. split; reflexivity. }
  split; [|split; [|exact Last]].
  - intros Hroom.
    set (s0 := set_heap_listp (set_brk s (brk + 16)) brk).
    set (s2 := set_mem s0 (storen 4 brk 0 (mem s0))).
    set (s3 := set_mem s2 (storen 4 (brk + 4) (tag 8 true) (mem s2))).
    set (s4 := set_mem s3 (storen 4 (brk + 8) (tag 8 true) (mem s3))).
    set (s5 := set_mem s4 (storen 4 (brk + 12) (tag 0 true) (mem s4))).
    set (s6 := set_heap_listp s5 (brk + 8)).
    set (s7 := init_lists (Z.to_nat NUMLIST) s6 0).
    destruct (init_lists_spec (Z.to_nat NUMLIST) s6 0) as (M7 & SH7 & F7).
    fold s7 in M7, SH7, F7.
    destruct SH7 as (G1 & G2 & G3 & G4).
    cbn [s6 s5 s4 s3 s2 s0 set_heap_listp set_mem set_brk mem_start_brk
         mem_brk mem_max_addr heap_listp] in G1, G2, G3, G4.
    assert (M7' : mem s7 = storen 4 (brk + 12) (tag 0 true)
                     (storen 4 (brk + 8) (tag 8 true)
                        (storen 4 (brk + 4) (tag 8 true)
                           (storen 4 brk 0 (mem s)))))
      by (rewrite M7; reflexivity).
    assert (R7 : rep s7 [] (fun _ => [])).
    { constructor; rewrite ?G1, ?G2, ?G3, ?G4, ?M7'; try (unfold VOID_M1; lia).
      - rewrite !loadn_storen_other by (cbn; lia).
        replace (brk + 8 - 4) with (brk + 4) by lia.
        apply load4_store4. cbn. lia.
      - rewrite loadn_storen_other by (cbn; lia).
        apply load4_store4. cbn. lia.
      - cbn [contig]. lia.
      - constructor.
      - replace (brk + 16 - 4) with (brk + 12) by lia.
        apply load4_store4. cbn. lia.
      - intros i Hi. cbn [lseg]. rewrite F7.
        unfold NUMLIST in *. cbn [s6 set_heap_listp heap_listp].
        destruct (Z.leb_spec 0 i), (Z.ltb_spec i (0 + Z.of_nat (Z.to_nat 25)));
          cbn [andb]; try reflexivity; lia.
      - intros i bp _ [].
      - intros i _. constructor. }
    assert (Ok7 : heap_ok s7 [] (fun _ => []))
      by (split; [exact R7 | intros bp sz []]).
    assert (Es : extend_size (CHUNKSIZE / WSIZE) = 256) by reflexivity.
    destruct (extend_heap_full fuel s7 [] (fun _ => []) (CHUNKSIZE / WSIZE) Ok7)
      as (s8 & fl8 & pre & P & He & Ep & NP & _ & Ok8 & Hnn & E1 & E2 & E3
          & E4 & F8 & _).
    + rewrite Es. unfold MINSIZE. lia.
    + rewrite Es. reflexivity.
    + rewrite Es, G2, G3. lia.
    + intros i _. cbn. lia.
    + symmetry in Ep. apply app_eq_nil in Ep. destruct Ep as [-> ->].
      cbn [merged_bp total fold_right app] in *.
      rewrite Es, G2 in *. rewrite G1 in E1. rewrite G3 in E3.
      rewrite G4 in E4. replace (0 + 256) with 256 in Ok8 by lia.
      exists s8, fl8.
      split; [|split; [split; [exact Ok8 | split; [reflexivity|]]|]].
      * unfold mm_init, mem_sbrk, WSIZE. fold brk.
        destruct (Z.leb_spec (brk + 4 * 4) (mem_max_addr s)); [|lia].
        replace (brk + 4 * 4) with (brk + 16) by lia. fold s0.
        destruct (Z.eqb_spec brk (2 ^ 64 - 1)) as [Ev|_]; [lia|].
        unfold VOID_M1.
        destruct (Z.eqb_spec brk (2 ^ 64 - 1)) as [Ev|_]; [lia|].
        cbn [s0 set_heap_listp heap_listp].
        rewrite PUT_ok by (cbn; lia). cbn [bind]. fold s0. fold s2.
        change (PACK DSIZE 1) with (tag 8 true).
        change (PACK 0 1) with (tag 0 true).
        cbn [s2 set_mem heap_listp s0 set_heap_listp].
        rewrite PUT_ok by (cbn; lia). cbn [bind].
        replace (brk + 1 * 4) with (brk + 4) by lia. fold s0. fold s2. fold s3.
        cbn [s3 s2 set_mem heap_listp s0 set_heap_listp].
        rewrite PUT_ok by (cbn; lia). cbn [bind].
        replace (brk + 2 * 4) with (brk + 8) by lia.
        fold s0. fold s2. fold s3. fold s4.
        cbn [s4 s3 s2 set_mem heap_listp s0 set_heap_listp].
        rewrite PUT_ok by (cbn; lia). cbn [bind].
        replace (brk + 3 * 4) with (brk + 12) by lia.
        fold s0. fold s2. fold s3. fold s4. fold s5.
        cbn [s5 s4 s3 s2 set_mem heap_listp s0 set_heap_listp].
        fold s0. fold s2. fold s3. fold s4. fold s5.
        replace (brk + 2 * 4) with (brk + 8) by lia. fold s6. fold s7.
        fold WSIZE. rewrite He. cbn [bind].
        destruct (Z.eqb_spec (brk + 16) NULL) as [E|_];
          [contradiction | reflexivity].
      * rewrite E4. apply mod8_add; [exact Hal | reflexivity].
      * split; [exact E4|]. split; [rewrite E2; lia|].
        split; [exact E1|]. split; [exact E3|].
        intros x Hx. rewrite F8.
        -- rewrite M7'. rewrite !storen_other by (cbn; lia). reflexivity.
        -- lia.
        -- intros q sq [].
  - intros Hmid.
    set (s0 := set_heap_listp (set_brk s (brk + 16)) brk).
    set (s2 := set_mem s0 (storen 4 brk 0 (mem s0))).
    set (s3 := set_mem s2 (storen 4 (brk + 4) (tag 8 true) (mem s2))).
    set (s4 := set_mem s3 (storen 4 (brk + 8) (tag 8 true) (mem s3))).
    set (s5 := set_mem s4 (storen 4 (brk + 12) (tag 0 true) (mem s4))).
    set (s6 := set_heap_listp s5 (brk + 8)).
    set (s7 := init_lists (Z.to_nat NUMLIST) s6 0).
    destruct (init_lists_spec (Z.to_nat NUMLIST) s6 0) as (M7 & SH7 & F7).
    fold s7 in M7, SH7, F7.
    destruct SH7 as (G1 & G2 & G3 & G4).
    cbn [s6 s5 s4 s3 s2 s0 set_heap_listp set_mem set_brk mem_start_brk
         mem_brk mem_max_addr heap_listp] in G1, G2, G3, G4.
    assert (Es : extend_size (CHUNKSIZE / WSIZE) = 256) by reflexivity.
    exists s7. split; [|rewrite G2; reflexivity].
    unfold mm_init, mem_sbrk, WSIZE. fold brk.
    destruct (Z.leb_spec (brk + 4 * 4) (mem_max_addr s)); [|lia].
    replace (brk + 4 * 4) with (brk + 16) by lia. fold s0.
    unfold VOID_M1.
    destruct (Z.eqb_spec brk (2 ^ 64 - 1)) as [Ev|_]; [lia|].
    cbn [s0 set_heap_listp heap_listp].
    rewrite PUT_ok by (cbn; lia). cbn [bind]. fold s0. fold s2.
    change (PACK DSIZE 1) with (tag 8 true).
    change (PACK 0 1) with (tag 0 true).
    cbn [s2 set_mem heap_listp s0 set_heap_listp].
    rewrite PUT_ok by (cbn; lia). cbn [bind].
    replace (brk + 1 * 4) with (brk + 4) by lia. fold s0. fold s2. fold s3.
    cbn [s3 s2 set_mem heap_listp s0 set_heap_listp].
    rewrite PUT_ok by (cbn; lia). cbn [bind].
    replace (brk + 2 * 4) with (brk + 8) by lia.
    fold s0. fold s2. fold s3. fold s4.
    cbn [s4 s3 s2 set_mem heap_listp s0 set_heap_listp].
    rewrite PUT_ok by (cbn; lia). cbn [bind].
    replace (brk + 3 * 4) with (brk + 12) by lia.
    fold s0. fold s2. fold s3. fold s4. fold s5.
    cbn [s5 s4 s3 s2 set_mem heap_listp s0 set_heap_listp].
    fold s0. fold s2. fold s3. fold s4. fold s5.
    replace (brk + 2 * 4) with (brk + 8) by lia. fold s6. fold s7.
    fold WSIZE.
    rewrite extend_heap_fail by (rewrite Es, G2, G3; lia).
    cbn [bind]. rewrite Z.eqb_refl. reflexivity.
Qed.
(** * The heap between two calls *)

Lemma in_heap_intro (s : state) (p : Z) :
  mem_start_brk s <= p < mem_brk s -> in_heap s p = true.
Proof.
  intros H. unfold in_heap, mem_heap_hi, mem_heap_lo.
  apply andb_true_intro. split; [apply Z.leb_le; lia|].
  rewrite Z.geb_leb. apply Z.leb_le. lia.
Qed.

(** Every block of the list is met by the heap walk. *)
Lemma In_is_block (s : state) (bs : list blk) (fl : Z -> list Z) :
  rep s bs fl -> forall q sq al, In (q, sq, al) bs -> is_block s q.
Proof.
  intros R.
  pose proof (rep_heap_bounds _ _ _ R) as (B1 & B2 & B3 & B4 & B5).
  assert (G : forall l1 l2 q sq al,
             bs = l1 ++ (q, sq, al) :: l2 -> is_block s q).
  { induction l1 as [|x l1 IH] using rev_ind; intros l2 q sq al E;
      [|destruct x as [[q' sq'] al']].
    - pose proof (rep_contig _ _ _ R) as C. rewrite E in C.
      cbn [app contig] in C. destruct C as (-> & _).
      apply first_block. apply in_heap_intro.
      assert (Hq : In (heap_listp s + 8, sq, al) bs)
        by (rewrite E; left; reflexivity).
      destruct (rep_block _ _ _ R _ _ _ Hq) as (? & ? & ? & _).
      unfold DSIZE. lia.
    - rewrite <- app_assoc in E. cbn [app] in E.
      assert (Hq' : In (q', sq', al') bs) by (rewrite E; apply in_middle).
      assert (Hq : In (q, sq, al) bs)
        by (rewrite E; apply in_or_app; right; right; left; reflexivity).
      destruct (rep_block _ _ _ R _ _ _ Hq') as (P1 & P2 & P3 & P4 & T1 & _).
      destruct (rep_block _ _ _ R _ _ _ Hq) as (Q1 & Q2 & Q3 & _).
      pose proof (rep_contig _ _ _ R) as C. rewrite E in C.
      apply contig_app in C. destruct C as (m & _ & C).
      cbn [contig] in C. destruct C as (Em & _ & _ & Eq & _).
      subst m q.
      apply next_block with (bp := q').
      + exact (IH _ _ _ _ E).
      + apply (NEXT_at s q' sq' al'); try assumption; lia.
      + apply in_heap_intro. lia. }
  intros q sq al H. destruct (in_split _ _ H) as (l1 & l2 & E).
  exact (G _ _ _ _ _ E).
Qed.

(** The live blocks are the allocated blocks of the list. *)
Lemma live_iff (s : state) (bs : list blk) (fl : Z -> list Z) (p : Z) :
  rep s bs fl -> (live s p <-> exists sz, In (p, sz, true) bs).
Proof.
  intros R.
  pose proof (rep_heap_bounds _ _ _ R) as (B1 & B2 & B3 & B4 & B5).
  split.
  - intros [Hb Ha].
    destruct (is_block_In _ _ _ _ R Hb) as (sz & al & Hin).
    destruct (rep_block _ _ _ R _ _ _ Hin) as (P1 & P2 & P3 & P4 & T1 & _).
    rewrite (GET_ALLOC_at s (HDRP p) sz al) in Ha
      by (unfold HDRP, WSIZE; try assumption; lia).
    destruct al; [eauto | discriminate Ha].
  - intros (sz & Hin). split; [exact (In_is_block _ _ _ R _ _ _ Hin)|].
    destruct (rep_block _ _ _ R _ _ _ Hin) as (P1 & P2 & P3 & P4 & T1 & _).
    apply (GET_ALLOC_at s (HDRP p) sz true);
      unfold HDRP, WSIZE; try assumption; lia.
Qed.

(** One legal call from a well-formed heap, when it returns, leaves a
    well-formed heap over the same provider. *)
Lemma run_call_inv (fuel : nat) (s s' : state) (bs : list blk)
      (fl : Z -> list Z) (c : call) (v : Z) :
  heap_inv s bs fl -> fuel_for s fuel -> legal s c ->
  run_call fuel s c = Ok (v, s') ->
  (exists bs' fl', heap_inv s' bs' fl') /\
  mem_start_brk s' = mem_start_brk s /\ mem_max_addr s' = mem_max_addr s.
Proof.
  intros Hinv Hf Hl Hrun.
  pose proof (proj1 (proj1 Hinv)) as R.
  assert (Stay : (exists bs' fl', heap_inv s bs' fl') /\
                 mem_start_brk s = mem_start_brk s /\
                 mem_max_addr s = mem_max_addr s)
    by (split; [eauto | split; reflexivity]).
  assert (FreeCase : forall p t, p = NULL \/ live s p ->
                                 free fuel s p = Ok t ->
                                 (exists bs' fl', heap_inv t bs' fl') /\
                                 mem_start_brk t = mem_start_brk s /\
                                 mem_max_addr t = mem_max_addr s).
  { intros p t [->|Hlive] Hfree.
    - cbn in Hfree. injection Hfree as <-. exact Stay.
    - apply (live_iff _ _ _ _ R) in Hlive. destruct Hlive as (sz & Hp).
      destruct (free_live fuel s bs fl p sz Hinv Hp Hf)
        as (t' & bs' & fl' & Hfree' & Inv' & (E1 & _ & E3 & _) & _).
      rewrite Hfree' in Hfree. injection Hfree as <-.
      split; [eauto | split; assumption]. }
  assert (MallocCase : forall n p t, 0 <= n ->
                                     malloc fuel s n = Ok (p, t) ->
                                     (exists bs' fl', heap_inv t bs' fl') /\
                                     mem_start_brk t = mem_start_brk s /\
                                     mem_max_addr t = mem_max_addr s).
  { intros n p t Hn Hm.
    destruct (malloc_live fuel s bs fl n Hinv Hn Hf) as (p' & t' & Hm' & Hcase).
    rewrite Hm' in Hm. injection Hm as <- <-.
    destruct Hcase as [(_ & -> & _)
                      |(_ & bs' & fl' & sz & Inv' & _ & _ & _ & _ & _ & E1 & E2
                        & _)]; [exact Stay|].
    split; [eauto | split; assumption]. }
  destruct c as [n | p | p n | nmemb size]; cbn [run_call legal] in Hrun, Hl.
  - exact (MallocCase n v s' (proj1 Hl) Hrun).
  - apply bind_Ok in Hrun. destruct Hrun as (t & Hfree & E).
    injection E as _ <-. exact (FreeCase p t Hl Hfree).
  - destruct Hl as [Hp Hn].
    destruct (Z.eq_dec n 0) as [->|Hn0].
    + unfold realloc in Hrun. cbn [Z.eqb] in Hrun.
      apply bind_Ok in Hrun. destruct Hrun as (t & Hfree & E).
      injection E as _ <-. exact (FreeCase p t Hp Hfree).
    + destruct Hp as [->|Hlive].
      * unfold realloc in Hrun.
        destruct (Z.eqb_spec n 0); [contradiction|].
        cbn [Z.eqb NULL] in Hrun.
        exact (MallocCase n v s' (proj1 Hn) Hrun).
      * apply (live_iff _ _ _ _ R) in Hlive. destruct Hlive as (sz & Hp).
        destruct (realloc_live fuel s bs fl p sz n Hinv Hp ltac:(lia) Hf)
          as (r & t & Hr & Hcase).
        rewrite Hr in Hrun. injection Hrun as <- <-.
        destruct Hcase as [(_ & -> & _)
                          |(_ & bs' & fl' & rsz & Inv' & _ & _ & _ & _ & _ & _
                            & E1 & E2 & _)]; [exact Stay|].
        split; [eauto | split; assumption].
  - destruct (calloc_live fuel s bs fl nmemb size Hinv Hf)
      as (p & s1 & _ & [(_ & Hc)|(_ & t & bs' & fl' & sz & Hc & Inv' & _ & _
                                   & _ & _ & _ & _ & E1 & E2 & _)]).
    + rewrite Hc in Hrun. discriminate Hrun.
    + rewrite Hc in Hrun. injection Hrun as _ <-.
      split; [eauto | split; assumption].
Qed.

(** Every state between two calls is a well-formed heap. *)
Lemma reach_inv (fuel : nat) (s0 s : state) :
  provider_ok s0 -> fuel_for s0 fuel -> reach fuel s0 s ->
  (exists bs fl, heap_inv s bs fl) /\
  mem_start_brk s = mem_start_brk s0 /\ mem_max_addr s = mem_max_addr s0.
Proof.
  intros (P1 & P2 & P3 & P4) Hf H.
  induction H as [s Hinit | s s' c v Hr IH Hl Hrun].
  - destruct (mm_init_full fuel s0 P1 P2 P3 P4) as (A & B & C).
    destruct (Z_le_gt_dec (mem_brk s0 + 272) (mem_max_addr s0)) as [Hroom|Hno].
    + destruct (A Hroom) as (s' & fl' & Hi & Inv & _ & _ & E1 & E2 & _).
      rewrite Hi in Hinit. injection Hinit as <-.
      split; [eauto | split; assumption].
    + destruct (Z_le_gt_dec (mem_brk s0 + 16) (mem_max_addr s0)) as [H16|H16].
      * destruct (B ltac:(lia)) as (s' & Hi & _).
        rewrite Hi in Hinit. discriminate Hinit.
      * destruct (C ltac:(lia)) as (s' & Hi & _).
        rewrite Hi in Hinit. discriminate Hinit.
  - destruct IH as ((bs & fl & Inv) & E1 & E2).
    assert (Hf' : fuel_for s fuel) by (apply (fuel_for_same s0); assumption).
    destruct (run_call_inv fuel s s' bs fl c v Inv Hf' Hl Hrun)
      as (Inv' & E1' & E2').
    split; [exact Inv' | split; congruence].
Qed.
(** * The block list after [place], and after [place] then [free] *)

Lemma extend_size_even (words : Z) :
  0 <= words < 2 ^ 61 -> extend_size words = 8 * ((words + 1) / 2).
Proof.
  intros H. unfold extend_size, WSIZE.
  pose proof (Z.div_mod words 2 ltac:(lia)) as D.
  pose proof (Z.mod_pos_bound words 2 ltac:(lia)) as B.
  change (2 ^ 61) with 2305843009213693952 in H.
  destruct (Z.eqb_spec (words mod 2) 0) as [E|E].
  - rewrite wrap64_small by (change (2 ^ 64) with 18446744073709551616; lia).
    replace (words + 1) with (1 + (words / 2) * 2) by lia.
    rewrite Z.div_add by lia. change (1 / 2) with 0. lia.
  - rewrite (wrap64_small (words + 1))
      by (change (2 ^ 64) with 18446744073709551616; lia).
    rewrite wrap64_small by (change (2 ^ 64) with 18446744073709551616; lia).
    replace (words + 1) with ((words / 2 + 1) * 2) by lia.
    rewrite Z.div_mul by lia. lia.
Qed.

(** The blocks [place] makes of a free block of [csize] bytes. *)
Lemma place_inv (fuel : nat) (s : state) (fl : Z -> list Z)
      (pre post : list blk) (bp csize asize : Z) :
  heap_inv s (pre ++ (bp, csize, false) :: post) fl -> fuel_for s fuel ->
  MINSIZE <= asize <= csize -> asize mod 8 = 0 ->
  exists s' fl',
    place fuel s bp asize = Ok s' /\
    heap_inv s'
      (pre ++ (if csize - asize <? MINSIZE then [(bp, csize, true)]
               else [(bp, asize, true); (bp + asize, csize - asize, false)])
           ++ post) fl' /\
    keeps (pre ++ (bp, csize, false) :: post) s s' /\
    same_heap s s'.
Proof.
  intros (Hok & Hn & Hal) Hf Ha Hm.
  pose proof (fuel_lengths _ _ _ _ (proj1 Hok) Hf) as Hl.
  destruct (place_full fuel s fl pre post bp csize asize Hok Ha Hm Hl)
    as (s' & fl' & placed & Hp & Ok' & F & Hcase).
  pose proof (off_free_keeps _ _ _ _ (proj1 Hok) F) as K.
  pose proof (place_same _ _ _ _ _ Hp) as SH.
  destruct (nfp_around_free _ _ _ _ Hn) as [_ SA].
  destruct (nfp_app_inv _ _ Hn) as [H1 H2].
  apply nfp_cons in H2. destruct H2 as [H2 _].
  exists s', fl'. split; [exact Hp|].
  split; [|split; [exact K | exact SH]].
  assert (Hal' : heap_listp s' mod 8 = 0)
    by (destruct SH as (_ & _ & _ & ->); exact Hal).
  destruct Hcase as [[Hlt ->]|(Hge & N & post' & E & HN & ->)].
  - destruct (Z.ltb_spec (csize - asize) MINSIZE); [|lia].
    cbn [app]. split; [exact Ok'|]. split; [|exact Hal'].
    apply nfp_insert; [exact H1 | exact H2 | left; reflexivity].
  - destruct (Z.ltb_spec (csize - asize) MINSIZE); [lia|].
    assert (EN : N = []).
    { destruct N as [|b N]; [reflexivity|].
      pose proof (SA b (N ++ post') E) as X.
      rewrite (HN b (or_introl eq_refl)) in X. discriminate X. }
    subst N. cbn [app total fold_right] in *. subst post'.
    rewrite Z.add_0_r in Ok'.
    split; [exact Ok'|]. split; [|exact Hal'].
    apply nfp_insert; [exact H1 | | left; reflexivity].
    apply nfp_cons. split; [exact H2 | right; exact SA].
Qed.

(** [free] of the block [place] has just made gives back the block list
    there was. *)
Lemma place_free_inv (fuel : nat) (s : state) (fl : Z -> list Z)
      (pre post : list blk) (bp csize asize : Z) :
  heap_inv s (pre ++ (bp, csize, false) :: post) fl -> fuel_for s fuel ->
  MINSIZE <= asize <= csize -> asize mod 8 = 0 ->
  exists s1 s2 fl2,
    place fuel s bp asize = Ok s1 /\ free fuel s1 bp = Ok s2 /\
    heap_inv s2 (pre ++ (bp, csize, false) :: post) fl2 /\
    keeps (pre ++ (bp, csize, false) :: post) s s2 /\ same_heap s s2.
Proof.
  intros Hinv Hf Ha Hm.
  destruct (place_inv fuel s fl pre post bp csize asize Hinv Hf Ha Hm)
    as (s1 & fl1 & Hp & Inv1 & K1 & SH1).
  destruct Hinv as (Hok & Hn & Hal).
  destruct (nfp_around_free _ _ _ _ Hn) as [EA SA].
  assert (Hf1 : fuel_for s1 fuel)
    by (destruct SH1 as (E1 & _ & E3 & _); apply (fuel_for_same s); assumption).
  set (mid := if csize - asize <? MINSIZE then [(bp, csize, true)]
              else [(bp, asize, true); (bp + asize, csize - asize, false)])
    in *.
  set (sz1 := if csize - asize <? MINSIZE then csize else asize).
  set (rest := if csize - asize <? MINSIZE then post
               else (bp + asize, csize - asize, false) :: post).
  assert (Emid : mid ++ post = (bp, sz1, true) :: rest)
    by (unfold mid, sz1, rest; destruct (csize - asize <? MINSIZE); reflexivity).
  rewrite Emid in Inv1.
  destruct Inv1 as (Ok1 & N1 & Al1).
  pose proof (fuel_lengths _ _ _ _ (proj1 Ok1) Hf1) as Hl1.
  destruct (free_full fuel s1 fl1 pre rest bp sz1 Ok1 Hl1)
    as (s2 & fl2 & pre' & P & N & post' & Hfree & Ep & En & NP & NN & A1 & A2
        & Ok2 & SH2 & F2).
  (* the block before is allocated: nothing is merged on the left *)
  assert (EP : P = [] /\ pre' = pre).
  { destruct NP as [|pb psz _].
    - rewrite app_nil_r in Ep. auto.
    - exfalso. pose proof (EA pre' (pb, psz, false) Ep) as X. discriminate X. }
  destruct EP as [-> ->].
  (* on the right the remainder is merged, when there is one *)
  assert (EN : merged_size [] sz1 N = csize /\ post' = post).
  { unfold merged_size, sz1, rest in *. cbn [total fold_right].
    destruct (csize - asize <? MINSIZE).
    - destruct NN as [|nb nsz _].
      + cbn [app total fold_right] in *. split; [lia | congruence].
      + exfalso. pose proof (SA (nb, nsz, false) post' En) as X.
        discriminate X.
    - destruct NN as [|nb nsz _].
      + exfalso. cbn [app] in En.
        pose proof (A2 eq_refl (bp + asize, csize - asize, false) post
                       (eq_sym En)) as X.
        discriminate X.
      + cbn [app] in En. injection En as <- <- <-.
        cbn [total fold_right fst snd]. split; [lia | reflexivity]. }
  destruct EN as [EN ->]. rewrite EN in Ok2. cbn [merged_bp] in Ok2.
  exists s1, s2, fl2.
  split; [exact Hp|]. split; [exact Hfree|]. split; [|split].
  - split; [exact Ok2|]. split; [exact Hn|].
    destruct SH2 as (_ & _ & _ & ->). exact Al1.
  - intros q sq x Hq Hx. rewrite <- (K1 q sq x Hq Hx).
    pose proof (proj1 Hok) as R.
    assert (Hb : In (bp, csize, false) (pre ++ (bp, csize, false) :: post))
      by apply in_middle.
    destruct (contig_disjoint _ _ _ _ _ _ _ _ _ (rep_contig _ _ _ R) Hq Hb)
      as [X|X]; [discriminate X|].
    assert (Hq1 : In (q, sq, true) (pre ++ (bp, sz1, true) :: rest)).
    { apply in_app_or in Hq. apply in_or_app.
      destruct Hq as [Hq|[Hq|Hq]]; [left; exact Hq | discriminate Hq|].
      right. right. unfold rest.
      destruct (csize - asize <? MINSIZE); [exact Hq | right; exact Hq]. }
    apply F2.
    + exact (live_off_free _ _ _ _ _ _ (proj1 Ok1) Hq1 Hx).
    + assert (sz1 <= csize) by (unfold sz1; destruct (csize - asize <? MINSIZE); lia).
      lia.
  - exact (same_heap_trans _ _ _ SH1 SH2).
Qed.
(** * Free lists: pushing a block and taking it out again *)

(** [rep] reads the free lists of the 25 buckets only. *)
Lemma rep_ext (s : state) (bs : list blk) (fl fl' : Z -> list Z) :
  rep s bs fl -> (forall i, 0 <= i < NUMLIST -> fl' i = fl i) ->
  rep s bs fl'.
Proof.
  intros R E. constructor; try apply R.
  - intros i Hi. rewrite (E i Hi). apply (rep_chain _ _ _ R i Hi).
  - intros i bp Hi Hin. rewrite (E i Hi) in Hin.
    apply (rep_listed _ _ _ R i bp Hi Hin).
  - intros i Hi. rewrite (E i Hi). apply (rep_nodup _ _ _ R i Hi).
Qed.

Section Push.

Variables (s : state) (bs : list blk) (fl : Z -> list Z).
Hypothesis R : rep s bs fl.

(** The state [freelist_insert] returns. *)
Lemma freelist_insert_eq (bp sz : Z) :
  In (bp, sz, false) bs ->
  freelist_insert s bp
  = Ok (set_freelist
          (set_mem s (storen 8 bp (freelists s (smallest_bucket sz)) (mem s)))
          (smallest_bucket sz) bp).
Proof.
  intros Hb.
  destruct (rep_block _ _ _ R _ _ _ Hb) as (P1 & P2 & P3 & P4 & T1 & T2).
  pose proof (rep_heap_bounds _ _ _ R) as (B1 & B2 & B3 & B4 & B5).
  unfold freelist_insert.
  rewrite (GET_SIZE_at s (HDRP bp) sz false)
    by (unfold HDRP, WSIZE; try assumption; lia).
  cbn [bind]. rewrite size_class_spec by lia. cbn [bind].
  rewrite SUCC_set_ok by lia. reflexivity.
Qed.

(** The state [freelist_remove] returns for the block at the head of its
    list: the head becomes the successor of the block, and no memory is
    written. *)
Lemma freelist_remove_head (fuel : nat) (bp sz : Z) (l : list Z) :
  In (bp, sz, false) bs -> fl (smallest_bucket sz) = bp :: l ->
  freelist_remove fuel s bp
  = Ok (set_freelist s (smallest_bucket sz) (loadn 8 (mem s) bp)).
Proof.
  intros Hb E.
  destruct (rep_block _ _ _ R _ _ _ Hb) as (P1 & P2 & P3 & P4 & T1 & T2).
  pose proof (rep_heap_bounds _ _ _ R) as (B1 & B2 & B3 & B4 & B5).
  pose proof (smallest_bucket_range sz) as Hi.
  set (i := smallest_bucket sz) in *.
  assert (Hi' : 0 <= i < NUMLIST) by (unfold NUMLIST; lia).
  pose proof (rep_chain _ _ _ R i Hi') as C. rewrite E in C.
  cbn [lseg] in C. destruct C as [Eh C].
  unfold freelist_remove. rewrite SUCC_ok by lia. cbn [bind].
  remember (loadn 8 (mem s) bp) as sb eqn:Esb.
  destruct l as [|y l]; cbn [lseg] in C.
  - subst sb. rewrite C.
    rewrite (GET_ALLOC_at s (HDRP (heap_listp s)) 8 true);
      [ | unfold HDRP, WSIZE; try lia ..].
    2:{ apply (rep_pro_h _ _ _ R). }
    2:{ reflexivity. }
    cbn [bind].
    rewrite (GET_SIZE_at s (HDRP bp) sz false)
      by (unfold HDRP, WSIZE; try assumption; lia).
    cbn [bind]. rewrite size_class_spec by lia. cbn [bind]. fold i.
    rewrite Eh, Z.eqb_refl. reflexivity.
  - destruct C as [Ey _].
    destruct (rep_listed _ _ _ R i y Hi') as (sy & Hy & _);
      [rewrite E; right; left; reflexivity|].
    destruct (rep_block _ _ _ R _ _ _ Hy) as (Q1 & Q2 & Q3 & Q4 & U1 & _).
    rewrite Ey.
    rewrite (GET_ALLOC_at s (HDRP y) sy false)
      by (unfold HDRP, WSIZE; try assumption; lia).
    cbn [bind].
    rewrite (GET_SIZE_at s (HDRP bp) sz false)
      by (unfold HDRP, WSIZE; try assumption; lia).
    cbn [bind]. rewrite size_class_spec by lia. cbn [bind]. fold i.
    rewrite Eh, Z.eqb_refl. reflexivity.
Qed.

End Push.
(** * The heap checker on a well-formed heap *)

Lemma to_int_id (x : Z) : 0 <= x < 2 ^ 31 -> to_int x = x.
Proof.
  intros H. unfold to_int. rewrite wrap32_small by lia.
  destruct (Z.ltb_spec x (2 ^ 31)); [reflexivity | lia].
Qed.

Lemma aligned_block (p : Z) :
  0 <= p -> p + 7 < 2 ^ 64 -> p mod 8 = 0 -> aligned p = true.
Proof.
  intros H0 H1 Hm. unfold aligned. apply Z.eqb_eq.
  destruct (ALIGN_spec p H0) as (E & _). rewrite E.
  rewrite wrap64_small by lia.
  pose proof (Z.div_mod p 8 ltac:(lia)) as D. rewrite Hm in D.
  replace (p + 7) with (7 + (p / 8) * 8) by lia.
  rewrite Z.div_add by lia. change (7 / 8) with 0. lia.
Qed.

Lemma in_heap_brk (s : state) : in_heap s (mem_brk s) = false.
Proof.
  unfold in_heap, mem_heap_hi. apply andb_false_intro1.
  apply Z.leb_gt. lia.
Qed.

Lemma pick_list_spec (s : state) (size first_free : Z) (n : nat) : forall i,
  0 <= i ->
  pick_list n s size i first_free =
  match find (fun j => size <=? 2 ^ j) (upto n i) with
  | Some j => freelists s j
  | None => first_free
  end.
Proof.
  induction n as [|n IH]; intros i Hi; [reflexivity|].
  cbn [pick_list upto find]. rewrite shiftl_1 by exact Hi.
  destruct (size <=? 2 ^ i); [reflexivity|]. apply IH. lia.
Qed.

(** A size up to [2^24] selects the free list of its size class. *)
Lemma pick_list_small (s : state) (size first_free : Z) :
  size <= 2 ^ 24 ->
  pick_list (Z.to_nat NUMLIST) s size 0 first_free =
  freelists s (smallest_bucket size).
Proof.
  intros H. rewrite pick_list_spec by lia. unfold smallest_bucket, bucket_indices.
  destruct (find _ (upto (Z.to_nat NUMLIST) 0)) eqn:F; [reflexivity|].
  pose proof (find_upto_none _ _ _ F 24 ltac:(cbn; lia)) as N.
  cbn beta in N. apply Z.leb_gt in N. lia.
Qed.

(** A larger size selects none: [first_free] keeps its value. *)
Lemma pick_list_big (s : state) (size first_free : Z) :
  2 ^ 24 < size ->
  pick_list (Z.to_nat NUMLIST) s size 0 first_free = first_free.
Proof.
  intros H. rewrite pick_list_spec by lia.
  destruct (find _ (upto (Z.to_nat NUMLIST) 0)) eqn:F; [|reflexivity].
  apply find_upto_some in F. destruct F as (Hr & Hz & _).
  apply Z.leb_le in Hz. cbn in Hr.
  assert (2 ^ z <= 2 ^ 24) by (apply Z.pow_le_mono_r; lia). lia.
Qed.

Section Checker.

Variables (s : state) (bs : list blk) (fl : Z -> list Z).
Hypothesis R : rep s bs fl.

Lemma check_prologue_ok : check_prologue s = Ok [].
Proof.
  pose proof (rep_heap_bounds _ _ _ R) as (B1 & B2 & B3 & B4 & B5).
  pose proof (rep_pro_h _ _ _ R) as Ph. pose proof (rep_pro_f _ _ _ R) as Pf.
  unfold check_prologue.
  rewrite (GET_ALLOC_at s (HDRP (heap_listp s)) 8 true)
    by (unfold HDRP, WSIZE; try assumption; try reflexivity; lia).
  cbn [bind]. change (1 =? 0) with false. cbv iota.
  rewrite (GET_SIZE_at s (HDRP (heap_listp s)) 8 true)
    by (unfold HDRP, WSIZE; try assumption; try reflexivity; lia).
  cbn [bind]. change (negb (8 =? DSIZE)) with false. cbv iota.
  rewrite (FTRP_at s (heap_listp s) 8 true)
    by (try assumption; try reflexivity; lia).
  rewrite GET_ok by (unfold HDRP, WSIZE; lia). cbn [bind].
  replace (heap_listp s + 8 - 8) with (heap_listp s) by lia.
  rewrite GET_ok by lia. cbn [bind].
  unfold HDRP, WSIZE. rewrite Ph, Pf, Z.eqb_refl. reflexivity.
Qed.

(** The header of the prologue block and of a block, as the checker reads
    them. *)
Lemma prologue_alloc : GET_ALLOC s (HDRP (heap_listp s)) = Ok 1.
Proof.
  pose proof (rep_heap_bounds _ _ _ R) as (B1 & B2 & B3 & B4 & B5).
  apply (GET_ALLOC_at s (HDRP (heap_listp s)) 8 true);
    unfold HDRP, WSIZE; try reflexivity; try lia.
  exact (rep_pro_h _ _ _ R).
Qed.

Lemma block_alloc (q sq : Z) (al : bool) :
  In (q, sq, al) bs -> GET_ALLOC s (HDRP q) = Ok (bit al).
Proof.
  intros H.
  pose proof (rep_heap_bounds _ _ _ R) as (B1 & B2 & B3 & B4 & B5).
  destruct (rep_block _ _ _ R _ _ _ H) as (P1 & P2 & P3 & P4 & T1 & _).
  apply (GET_ALLOC_at s (HDRP q) sq al); unfold HDRP, WSIZE;
    try assumption; lia.
Qed.

Lemma block_in_heap (q sq : Z) (al : bool) :
  In (q, sq, al) bs -> in_heap s q = true.
Proof.
  intros H.
  pose proof (rep_heap_bounds _ _ _ R) as (B1 & B2 & B3 & B4 & B5).
  destruct (rep_block _ _ _ R _ _ _ H) as (P1 & P2 & P3 & _).
  apply in_heap_intro. lia.
Qed.

Lemma block_next (q sq : Z) (al : bool) :
  In (q, sq, al) bs -> NEXT_BLKP s q = Ok (q + sq).
Proof.
  intros H.
  pose proof (rep_heap_bounds _ _ _ R) as (B1 & B2 & B3 & B4 & B5).
  destruct (rep_block _ _ _ R _ _ _ H) as (P1 & P2 & P3 & P4 & T1 & _).
  apply (NEXT_at s q sq al); try assumption; lia.
Qed.

Lemma block_succ (q sq : Z) (al : bool) :
  In (q, sq, al) bs -> SUCC s q = Ok (loadn 8 (mem s) q).
Proof.
  intros H.
  pose proof (rep_heap_bounds _ _ _ R) as (B1 & B2 & B3 & B4 & B5).
  destruct (rep_block _ _ _ R _ _ _ H) as (P1 & P2 & P3 & _).
  apply SUCC_ok; lia.
Qed.

(** The walk over the blocks reaches every block. *)
Lemma find_in_heap_ok (y : Z) (l : list blk) : forall a fuel,
  contig a l y -> (forall b, In b l -> In b bs) -> (length l < fuel)%nat ->
  find_in_heap fuel s y a = Ok true.
Proof.
  induction l as [|[[q sq] al] l IH]; intros a fuel C I L;
    (destruct fuel as [|k]; [cbn [length] in L; lia|]); cbn [find_in_heap].
  - cbn [contig] in C. subst a. rewrite Z.eqb_refl. reflexivity.
  - cbn [contig] in C. destruct C as (-> & M & _ & C).
    pose proof (contig_le _ _ _ C) as Le. unfold MINSIZE in M.
    assert (Hq : In (a, sq, al) bs) by (apply I; left; reflexivity).
    destruct (Z.eqb_spec y a) as [->|_]; [lia|]. cbn [negb].
    rewrite (block_in_heap _ _ _ Hq). cbn [negb].
    rewrite (block_next _ _ _ Hq). cbn [bind].
    apply IH; [exact C | intros b Hb; apply I; right; exact Hb|].
    cbn [length] in L. lia.
Qed.

Lemma find_in_heap_block (y sy : Z) (al : bool) (f : nat) :
  In (y, sy, al) bs -> (length bs < f)%nat ->
  find_in_heap f s y (heap_listp s + DSIZE) = Ok true.
Proof.
  intros H L. destruct (in_split _ _ H) as (l1 & l2 & E).
  pose proof (rep_contig _ _ _ R) as C. rewrite E in C.
  apply contig_app in C. destruct C as (m & C1 & C2).
  cbn [contig] in C2. destruct C2 as (Em & _). subst m.
  apply (find_in_heap_ok y l1); [exact C1| |].
  - intros b Hb. rewrite E. apply in_or_app. left. exact Hb.
  - rewrite E, length_app in L. cbn [length] in L. unfold blk in *. lia.
Qed.

(** One free list: every element is printed, none is reported. *)
Lemma check_list_ok (f : nat) (lineno : Z) (l : list Z) :
  (length bs < f)%nat ->
  forall h fuel,
    lseg (mem s) h l (heap_listp s) ->
    (forall y, In y l -> exists sy, In (y, sy, false) bs) ->
    (length l < fuel)%nat ->
    check_list f fuel s lineno h = Ok (map Free_list_element l, Returned).
Proof.
  intros Lf.
  induction l as [|y l IH]; intros h fuel C I L;
    (destruct fuel as [|k]; [cbn [length] in L; lia|]); cbn [check_list].
  - cbn [lseg] in C. subst h. rewrite prologue_alloc. reflexivity.
  - cbn [lseg] in C. destruct C as (-> & C).
    destruct (I y ltac:(left; reflexivity)) as (sy & Hy).
    rewrite (block_alloc _ _ _ Hy). cbn [bind bit].
    change (0 =? 0) with true. cbv iota.
    rewrite (find_in_heap_block _ _ _ _ Hy Lf). cbn [bind].
    rewrite (block_in_heap _ _ _ Hy). cbn [negb].
    rewrite (block_succ _ _ _ Hy). cbn [bind].
    rewrite (IH _ k C); [reflexivity | |cbn [length] in L; lia].
    intros z Hz. apply I. right. exact Hz.
Qed.

(** All the free lists; [first_free] ends as the head of the last one. *)
Lemma check_lists_ok (fuel : nat) (lineno : Z) :
  (length bs < fuel)%nat ->
  forall n i first_free,
    0 <= i -> i + Z.of_nat n <= NUMLIST ->
    check_lists n fuel s lineno i first_free =
    Ok (list_messages fl (upto n i), Returned,
        match n with
        | O => first_free
        | S _ => freelists s (i + Z.of_nat n - 1)
        end).
Proof.
  intros Lf. induction n as [|n IH]; intros i ff Hi Hn; [reflexivity|].
  cbn [check_lists upto].
  assert (Hr : 0 <= i < NUMLIST) by lia.
  rewrite (check_list_ok fuel lineno (fl i) Lf).
  - cbn [bind]. rewrite IH by lia. cbn [bind].
    unfold list_messages. cbn [flat_map app]. rewrite <- app_assoc.
    cbn [app]. f_equal. f_equal.
    destruct n as [|n]; f_equal; lia.
  - exact (rep_chain _ _ _ R i Hr).
  - intros y Hy. destruct (rep_listed _ _ _ R i y Hr Hy) as (sy & Hb & _).
    exists sy. exact Hb.
  - pose proof (listed_length _ _ _ i R Hr). lia.
Qed.

(** The search of a free list for one of its elements. *)
Lemma find_in_list_ok (q : Z) (l1 : list Z) : forall h fuel l2,
  lseg (mem s) h (l1 ++ q :: l2) (heap_listp s) ->
  NoDup (l1 ++ q :: l2) ->
  (forall y, In y l1 -> exists sy, In (y, sy, false) bs) ->
  (length l1 < fuel)%nat ->
  find_in_list fuel s q h = Ok true.
Proof.
  induction l1 as [|y l1 IH]; intros h fuel l2 C N I L;
    (destruct fuel as [|k]; [cbn [length] in L; lia|]); cbn [find_in_list].
  - cbn [app lseg] in C. destruct C as (-> & _).
    rewrite Z.eqb_refl. reflexivity.
  - cbn [app lseg] in C. destruct C as (-> & C).
    cbn [app] in N. inversion N as [|? ? Ny N']; subst.
    destruct (Z.eqb_spec q y) as [->|_];
      [exfalso; apply Ny; apply in_middle|]. cbn [negb].
    destruct (I y ltac:(left; reflexivity)) as (sy & Hy).
    rewrite (block_alloc _ _ _ Hy). cbn [bind bit].
    change (negb (0 =? 0)) with false. cbv iota.
    rewrite (block_succ _ _ _ Hy). cbn [bind].
    apply (IH _ k l2); [exact C | exact N' | |cbn [length] in L; lia].
    intros z Hz. apply I. right. exact Hz.
Qed.

(** The search of a free list for a block that is not in it ends at the
    prologue block. *)
Lemma find_in_list_miss (q : Z) (l : list Z) : forall h fuel,
  lseg (mem s) h l (heap_listp s) -> ~ In q l -> q <> heap_listp s ->
  (forall y, In y l -> exists sy, In (y, sy, false) bs) ->
  (length l < fuel)%nat ->
  find_in_list fuel s q h = Ok false.
Proof.
  induction l as [|y l IH]; intros h fuel C N Hq I L;
    (destruct fuel as [|k]; [cbn [length] in L; lia|]); cbn [find_in_list].
  - cbn [lseg] in C. subst h.
    destruct (Z.eqb_spec q (heap_listp s)) as [E|_]; [contradiction|].
    cbn [negb]. rewrite prologue_alloc. reflexivity.
  - cbn [lseg] in C. destruct C as (-> & C).
    destruct (Z.eqb_spec q y) as [->|_];
      [exfalso; apply N; left; reflexivity|]. cbn [negb].
    destruct (I y ltac:(left; reflexivity)) as (sy & Hy).
    rewrite (block_alloc _ _ _ Hy). cbn [bind bit].
    change (negb (0 =? 0)) with false. cbv iota.
    rewrite (block_succ _ _ _ Hy). cbn [bind].
    apply (IH _ k); [exact C | | exact Hq | |cbn [length] in L; lia].
    + intros Hin. apply N. right. exact Hin.
    + intros z Hz. apply I. right. exact Hz.
Qed.

Hypothesis A : heap_listp s mod 8 = 0.

(** The checks of one block up to the choice of the free list: tags,
    size and alignment pass. *)
Lemma check_blocks_unfold (f k : nat) (lineno q sq first_free : Z)
      (al : bool) :
  In (q, sq, al) bs ->
  check_blocks f (S k) s lineno q first_free =
  (let ff := pick_list (Z.to_nat NUMLIST) s sq 0 first_free in
   found <- (if al then Ok true else find_in_list f s q ff) ;;
   if found then
     ' (ms, o) <- check_blocks f k s lineno (q + sq) ff ;;
     Ok (Checking q sq (bit al) :: ms, o)
   else Ok ([Checking q sq (bit al); Not_in_free_list q lineno], Exited)).
Proof.
  intros H.
  pose proof (rep_heap_bounds _ _ _ R) as (B1 & B2 & B3 & B4 & B5).
  destruct (rep_block _ _ _ R _ _ _ H) as (P1 & P2 & P3 & P4 & T1 & T2).
  cbn [check_blocks]. rewrite (block_in_heap _ _ _ H).
  rewrite (GET_SIZE_at s (HDRP q) sq al)
    by (unfold HDRP, WSIZE; try assumption; lia).
  rewrite (block_alloc _ _ _ H). cbn [bind].
  rewrite (FTRP_at s q sq al) by (try assumption; lia).
  rewrite GET_ok by (unfold HDRP, WSIZE; lia). cbn [bind].
  rewrite GET_ok by lia. cbn [bind].
  unfold HDRP, WSIZE. rewrite T1, T2, Z.eqb_refl. cbn [negb].
  destruct (Z.ltb_spec sq MINSIZE) as [Hlt|_]; [unfold MINSIZE in Hlt; lia|].
  rewrite aligned_block
    by (try lia; exact (rep_aligned _ _ _ _ _ _ R A H)).
  cbn [negb]. rewrite (block_next _ _ _ H).
  rewrite (to_int_id sq) by lia.
  rewrite (to_int_id (bit al)) by (destruct al; cbn; lia).
  cbv zeta. destruct al; reflexivity.
Qed.

(** A block whose checks pass: the walk goes on to the next block. *)
Lemma check_blocks_step (f k : nat) (lineno q sq first_free : Z) (al : bool) :
  In (q, sq, al) bs -> (length bs < f)%nat ->
  (al = false -> In q (fl (smallest_bucket sq)) /\ sq <= 2 ^ 24) ->
  check_blocks f (S k) s lineno q first_free =
  (' (ms, o) <- check_blocks f k s lineno (q + sq)
                  (pick_list (Z.to_nat NUMLIST) s sq 0 first_free) ;;
   Ok (Checking q sq (bit al) :: ms, o)).
Proof.
  intros H Lf G. rewrite (check_blocks_unfold _ _ _ _ _ _ _ H). cbv zeta.
  destruct al; [reflexivity|].
  destruct (G eq_refl) as (Hl & Hs).
  rewrite (pick_list_small s sq first_free Hs).
  pose proof (smallest_bucket_range sq) as Hr.
  assert (Hi : 0 <= smallest_bucket sq < NUMLIST) by (unfold NUMLIST; lia).
  destruct (in_split _ _ Hl) as (l1 & l2 & E).
  rewrite (find_in_list_ok q l1 _ f l2); [reflexivity | | | |].
  - rewrite <- E. exact (rep_chain _ _ _ R _ Hi).
  - rewrite <- E. exact (rep_nodup _ _ _ R _ Hi).
  - intros y Hy.
    destruct (rep_listed _ _ _ R (smallest_bucket sq) y Hi) as (sy & Hb & _);
      [rewrite E; apply in_or_app; left; exact Hy|].
    exists sy. exact Hb.
  - pose proof (listed_length _ _ _ _ R Hi) as Ll.
    rewrite E, length_app in Ll. cbn [length] in Ll. lia.
Qed.

(** A free block of more than [2^24] bytes met while [first_free] is the
    head of another list than the last: the block is reported missing. *)
Lemma check_blocks_stale (f k : nat) (lineno q sq i : Z) :
  In (q, sq, false) bs -> (length bs < f)%nat -> 2 ^ 24 < sq ->
  0 <= i < NUMLIST - 1 ->
  check_blocks f (S k) s lineno q (freelists s i) =
  Ok ([Checking q sq 0; Not_in_free_list q lineno], Exited).
Proof.
  intros H Lf Hs Hi. rewrite (check_blocks_unfold _ _ _ _ _ _ _ H). cbv zeta.
  rewrite (pick_list_big s sq _ Hs).
  assert (Hi' : 0 <= i < NUMLIST) by lia.
  destruct (rep_block _ _ _ R _ _ _ H) as (P1 & P2 & P3 & _).
  rewrite (find_in_list_miss q (fl i)); [reflexivity | | | | |].
  - exact (rep_chain _ _ _ R _ Hi').
  - intros Hin.
    destruct (rep_listed _ _ _ R i q Hi' Hin) as (sz & Hb & Hc).
    destruct (rep_block_unique _ _ _ R _ _ _ _ _ Hb H) as [-> _].
    rewrite (smallest_bucket_big sq Hs) in Hc. unfold NUMLIST in Hi. lia.
  - lia.
  - intros y Hy. destruct (rep_listed _ _ _ R i y Hi' Hy) as (sy & Hb & _).
    exists sy. exact Hb.
  - pose proof (listed_length _ _ _ _ R Hi'). lia.
Qed.

(** The walk over blocks whose checks pass, up to the end of the heap. *)
Lemma check_blocks_ok (f : nat) (lineno : Z) (l : list blk) :
  (length bs < f)%nat ->
  (forall q sq, In (q, sq, false) l ->
                In q (fl (smallest_bucket sq)) /\ sq <= 2 ^ 24) ->
  forall a fuel first_free,
    contig a l (mem_brk s) -> (forall b, In b l -> In b bs) ->
    (length l < fuel)%nat ->
    check_blocks f fuel s lineno a first_free =
    Ok (block_messages l, Returned).
Proof.
  intros Lf. induction l as [|[[q sq] al] l IH]; intros G a fuel ff C I L;
    (destruct fuel as [|k]; [cbn [length] in L; lia|]).
  - cbn [contig] in C. subst a. cbn [check_blocks].
    rewrite in_heap_brk. reflexivity.
  - cbn [contig] in C. destruct C as (-> & _ & _ & C).
    rewrite (check_blocks_step f k lineno a sq ff al);
      [|apply I; left; reflexivity | exact Lf
       |intros ->; apply G; left; reflexivity].
    rewrite IH; [reflexivity | | exact C | |cbn [length] in L; lia].
    + intros q' sq' Hq'. apply G. right. exact Hq'.
    + intros b Hb. apply I. right. exact Hb.
Qed.

(** The walk up to a free block of more than [2^24] bytes that follows a
    block of at most [2^23] bytes. *)
Lemma check_blocks_reject (f : nat) (lineno q sq q' sq' : Z) (al : bool)
      (post : list blk) (pre : list blk) :
  (length bs < f)%nat ->
  (forall p sp, In (p, sp, false) (pre ++ [(q, sq, al)]) ->
                In p (fl (smallest_bucket sp)) /\ sp <= 2 ^ 24) ->
  sq <= 2 ^ 23 -> 2 ^ 24 < sq' ->
  forall a fuel first_free,
    contig a (pre ++ (q, sq, al) :: (q', sq', false) :: post) (mem_brk s) ->
    (forall b, In b (pre ++ (q, sq, al) :: (q', sq', false) :: post) ->
               In b bs) ->
    (length pre + 1 < fuel)%nat ->
    check_blocks f fuel s lineno a first_free =
    Ok (block_messages (pre ++ [(q, sq, al); (q', sq', false)])
          ++ [Not_in_free_list q' lineno], Exited).
Proof.
  intros Lf G Hs Hs'.
  induction pre as [|[[p sp] ap] pre IH]; intros a fuel ff C I L;
    (destruct fuel as [|k]; [lia|]).
  - destruct k as [|k]; [cbn [length] in L; lia|].
    cbn [app contig] in C. destruct C as (-> & _ & _ & -> & _).
    cbn [app] in I.
    rewrite (check_blocks_step f (S k) lineno a sq ff al);
      [|apply I; left; reflexivity | exact Lf
       |intros ->; apply G; left; reflexivity].
    rewrite (pick_list_small s sq ff) by lia.
    rewrite (check_blocks_stale f k lineno (a + sq) sq');
      [reflexivity | apply I; right; left; reflexivity | exact Lf
       | exact Hs' |].
    pose proof (smallest_bucket_range sq) as Hr.
    pose proof (smallest_bucket_le sq 23 ltac:(lia) ltac:(lia)) as E.
    destruct (Z.leb_spec sq (2 ^ 23)) as [_|]; [|lia].
    symmetry in E. apply Z.leb_le in E. unfold NUMLIST. lia.
  - cbn [app contig] in C. destruct C as (-> & _ & _ & C).
    cbn [app] in I.
    rewrite (check_blocks_step f k lineno a sp ff ap);
      [|apply I; left; reflexivity | exact Lf
       |intros ->; apply G; left; reflexivity].
    rewrite (IH ltac:(intros p' sp' Hp'; apply G; right; exact Hp')
                _ k _ C);
      [reflexivity | |cbn [length] in L; lia].
    intros b Hb. apply I. right. exact Hb.
Qed.

(** The whole check of a heap in which every free block is listed and has
    at most [2^24] bytes. *)
Lemma checkheap_ok (fuel : nat) (lineno : Z) :
  (length bs < fuel)%nat ->
  (forall q sq, In (q, sq, false) bs ->
                In q (fl (smallest_bucket sq)) /\ sq <= 2 ^ 24) ->
  mm_checkheap fuel s lineno =
  Ok (list_messages fl bucket_indices ++ block_messages bs, Returned).
Proof.
  intros Lf G.
  unfold mm_checkheap. rewrite check_prologue_ok. cbn [bind].
  rewrite (check_lists_ok fuel lineno Lf (Z.to_nat NUMLIST) 0 0)
    by (unfold NUMLIST; lia).
  cbn [bind].
  rewrite (check_blocks_ok fuel lineno bs Lf G);
    [reflexivity | exact (rep_contig _ _ _ R) | auto | exact Lf].
Qed.

End Checker.
(** * Further properties of the allocator *)

Lemma heap_invb_sound (s : state) (bs : list blk) (fl : Z -> list Z) :
  heap_invb s bs fl = true -> heap_inv s bs fl.
Proof.
  unfold heap_invb. intros H. apply andb_prop in H. destruct H as [H H3].
  apply andb_prop in H. destruct H as [H1 H2].
  split; [apply heap_okb_sound; exact H1|]. split; [exact H2|].
  apply Z.eqb_eq. exact H3.
Qed.

Lemma fuel1_enough (s : state) :
  mem_max_addr s - mem_start_brk s = 1000 -> fuel_for s fuel1.
Proof. unfold fuel_for, fuel1. intros ->. cbn. lia. Qed.

(** ** The size-class loop and [aligned] *)

Lemma class_loop_fault (size : Z) (n : nat) : forall i,
  0 <= i -> (forall j, i <= j < i + Z.of_nat n -> 2 ^ j < size) ->
  class_loop n i size = Fault.
Proof.
  induction n as [|n IH]; intros i Hi H; [reflexivity|].
  cbn [class_loop]. rewrite shiftl_1 by lia.
  destruct (Z.gtb_spec size (2 ^ i)) as [G|G].
  - apply IH; [lia|]. intros j Hj. apply H. lia.
  - specialize (H i ltac:(lia)). lia.
Qed.

(** The bucket of a block size, as [freelist_insert] and [freelist_remove]
    compute it: for a size up to 2^24 the least [i] with [size <= 2^i], the
    last bucket for a larger size up to 2^31, and for a size above 2^31 the
    loop reaches the shift [1 << 32], which is undefined. *)
Theorem size_class_buckets (size : Z) :
  (size <= 2 ^ 31 ->
   exists i, size_class size = Ok i /\ 0 <= i <= 24 /\
             (size <= 2 ^ 24 ->
              size <= 2 ^ i /\ forall j, 0 <= j < i -> 2 ^ j < size) /\
             (2 ^ 24 < size -> i = 24)) /\
  (2 ^ 31 < size -> size_class size = Fault).
Proof.
  split.
  - intros H. exists (smallest_bucket size).
    pose proof (smallest_bucket_range size) as Hr.
    split; [apply size_class_spec; exact H|]. split; [exact Hr|]. split.
    + intros H24. split.
      * pose proof (smallest_bucket_le size (smallest_bucket size) H24 Hr) as X.
        rewrite Z.leb_refl in X. apply Z.leb_le. exact X.
      * intros j Hj.
        pose proof (smallest_bucket_le size j H24 ltac:(lia)) as X.
        destruct (Z.leb_spec (smallest_bucket size) j); [lia|].
        apply Z.leb_gt. exact X.
    + apply smallest_bucket_big.
  - intros H. unfold size_class.
    rewrite (class_loop_fault size 32 0); [reflexivity | lia|].
    intros j Hj.
    assert (2 ^ j <= 2 ^ 31) by (apply Z.pow_le_mono_r; lia). lia.
Qed.

(** [aligned(p)] holds exactly for the multiples of 8, for every pointer
    value [p], the last seven included, where [ALIGN] wraps around to 0. *)
Theorem aligned_iff (p : Z) :
  0 <= p < 2 ^ 64 -> (aligned p = true <-> p mod 8 = 0).
Proof.
  intros Hp. unfold aligned. rewrite Z.eqb_eq.
  destruct (ALIGN_spec p ltac:(lia)) as (E & _). rewrite E.
  destruct (Z_lt_ge_dec (p + 7) (2 ^ 64)) as [Hs|Hb].
  - rewrite wrap64_small by lia.
    pose proof (Z.div_mod p 8 ltac:(lia)) as D.
    pose proof (Z.mod_pos_bound p 8 ltac:(lia)) as Bd.
    split.
    + intros H. rewrite <- H. rewrite Z.mul_comm. apply Z.mod_mul. lia.
    + intros H. rewrite H in D.
      replace (p + 7) with (7 + (p / 8) * 8) by lia.
      rewrite Z.div_add by lia. change (7 / 8) with 0. lia.
  - assert (W : wrap64 (p + 7) = p + 7 - 2 ^ 64).
    { unfold wrap64. symmetry.
      apply (Z.mod_unique (p + 7) (2 ^ 64) 1); [left; lia | lia]. }
    rewrite W.
    assert (Z0 : (p + 7 - 2 ^ 64) / 8 = 0) by (apply Z.div_small; lia).
    rewrite Z0. split; [lia|].
    intros H. exfalso.
    pose proof (Z.div_mod p 8 ltac:(lia)) as D. rewrite H in D.
    change (2 ^ 64) with (8 * 2305843009213693952) in *. lia.
Qed.

Lemma aligned_iff_witness : aligned 4112 = true <-> 4112 mod 8 = 0.
Proof. apply (aligned_iff 4112). split; [discriminate | reflexivity]. Defined.

(** ** [mm_init] *)

Lemma provider_fresh : provider_ok (fresh zeros 1000).
Proof.
  unfold provider_ok, fresh, VOID_M1. cbn.
  repeat split; try lia; discriminate.
Defined.

(** [mm_init] returns 0 exactly when the provider can supply 272 bytes: 16
    for the padding word, the prologue block and the epilogue header, and
    256 for a first free block.  The heap is then well formed and made of
    that one free block, and nothing below the old break was written.
    Otherwise [mm_init] returns -1; the 16 bytes stay claimed when only the
    second request failed. *)
Theorem mm_init_outcome (fuel : nat) (s : state) :
  provider_ok s ->
  exists r s',
    mm_init fuel s = Ok (r, s') /\
    ((r = 0 /\ mem_brk s + 272 <= mem_max_addr s /\
      (exists fl, heap_inv s' [(mem_brk s + 16, 256, false)] fl) /\
      heap_listp s' = mem_brk s + 8 /\ mem_brk s' = mem_brk s + 272 /\
      (forall x, x < mem_brk s -> mem s' x = mem s x)) \/
     (r = -1 /\ mem_max_addr s < mem_brk s + 272 /\
      mem_brk s' = if mem_brk s + 16 <=? mem_max_addr s
                   then mem_brk s + 16 else mem_brk s)).
Proof.
  intros (P1 & P2 & P3 & P4).
  destruct (mm_init_full fuel s P1 P2 P3 P4) as (A & B & C).
  destruct (Z_le_gt_dec (mem_brk s + 272) (mem_max_addr s)) as [Hroom|Hno].
  - destruct (A Hroom) as (s' & fl' & Hi & Inv & E1 & E2 & _ & _ & F).
    exists 0, s'. split; [exact Hi|]. left.
    split; [reflexivity|]. split; [exact Hroom|]. split; [eauto|]. auto.
  - destruct (Z.leb_spec (mem_brk s + 16) (mem_max_addr s)) as [H16|H16].
    + destruct (B ltac:(lia)) as (s' & Hi & E).
      exists (-1), s'. split; [exact Hi|]. right.
      split; [reflexivity|]. split; [lia | exact E].
    + destruct (C ltac:(lia)) as (s' & Hi & E).
      exists (-1), s'. split; [exact Hi|]. right.
      split; [reflexivity|]. split; [lia | exact E].
Qed.

Lemma mm_init_outcome_witness :
  exists r s',
    mm_init fuel1 (fresh zeros 1000) = Ok (r, s') /\
    ((r = 0 /\
      mem_brk (fresh zeros 1000) + 272 <= mem_max_addr (fresh zeros 1000) /\
      (exists fl,
         heap_inv s' [(mem_brk (fresh zeros 1000) + 16, 256, false)] fl) /\
      heap_listp s' = mem_brk (fresh zeros 1000) + 8 /\
      mem_brk s' = mem_brk (fresh zeros 1000) + 272 /\
      (forall x, x < mem_brk (fresh zeros 1000) ->
                 mem s' x = mem (fresh zeros 1000) x)) \/
     (r = -1 /\
      mem_max_addr (fresh zeros 1000) < mem_brk (fresh zeros 1000) + 272 /\
      mem_brk s' = if mem_brk (fresh zeros 1000) + 16
                      <=? mem_max_addr (fresh zeros 1000)
                   then mem_brk (fresh zeros 1000) + 16
                   else mem_brk (fresh zeros 1000))).
Proof. exact (mm_init_outcome fuel1 (fresh zeros 1000) provider_fresh). Defined.

(** ** [malloc] *)

(** [malloc(n)] on a well-formed heap whose provider has a capacity of at
    most 2^31 bytes, for a size that does not wrap around.  (The bound is
    part of [heap_inv]; it is repeated because the outcome for large sizes
    depends on it.)  It returns NULL, leaving the state as it was, only
    when no free block is large enough and the provider cannot supply the
    growth.  Otherwise it returns a multiple of 8 that points to a block
    which was not live; its payload holds at least [n] bytes, lies inside
    the heap and overlaps no block that was live; the blocks that were live
    stay live with every byte as it was; the heap is well formed again; and
    the break moves only when no free block was large enough. *)
Theorem malloc_fresh (fuel : nat) (s : state) (bs : list blk)
        (fl : Z -> list Z) (n : Z) :
  heap_inv s bs fl -> mem_max_addr s - mem_start_brk s <= 2 ^ 31 ->
  fuel_for s fuel -> 0 <= n <= SIZE_MAX - 15 ->
  exists p s',
    malloc fuel s n = Ok (p, s') /\
    ((p = NULL /\ s' = s /\
      mem_max_addr s < mem_brk s + grow_request n /\
      (forall q sq, In (q, sq, false) bs -> sq < required_block_size n)) \/
     (p <> NULL /\ p mod 8 = 0 /\
      exists bs' fl' sz,
        heap_inv s' bs' fl' /\ In (p, sz, true) bs' /\ n + 8 <= sz /\
        mem_start_brk s' < p /\ p + n <= mem_brk s' /\
        (forall q sq, In (q, sq, true) bs' <->
                      In (q, sq, true) bs \/ (q = p /\ sq = sz)) /\
        (forall q sq, In (q, sq, true) bs -> q + sq <= p \/ p + sz <= q) /\
        keeps bs s s' /\
        mem_brk s <= mem_brk s' /\
        ((exists q sq, In (q, sq, false) bs /\ required_block_size n <= sq) ->
         mem_brk s' = mem_brk s))).
Proof.
  intros Hinv _ Hf Hn.
  destruct (malloc_live fuel s bs fl n Hinv (proj1 Hn) Hf)
    as (p & s' & Hm & Hcase).
  rewrite (adjusted_size_exact n Hn) in Hcase.
  exists p, s'. split; [exact Hm|].
  destruct Hcase as [H|(Hnn & bs' & fl' & sz & Inv' & Hp & Hsz & Lv & Fr & K
                        & E1 & E2 & E3 & E4 & E5)]; [left; exact H|].
  right. split; [exact Hnn|].
  pose proof (proj1 (proj1 Inv')) as R'.
  destruct (rep_block _ _ _ R' _ _ _ Hp) as (P1 & P2 & P3 & P4 & _).
  pose proof (rep_heap_bounds _ _ _ R') as (B1 & B2 & B3 & B4 & B5).
  split; [exact (rep_aligned _ _ _ _ _ _ R' (proj2 (proj2 Inv')) Hp)|].
  assert (Hroom : n + 8 <= sz).
  { unfold required_block_size, round_up_to_8, SIZE_MAX in *.
    pose proof (Z.div_mod (n + 8 + 7) 8 ltac:(lia)) as D.
    pose proof (Z.mod_pos_bound (n + 8 + 7) 8 ltac:(lia)). lia. }
  exists bs', fl', sz.
  split; [exact Inv'|]. split; [exact Hp|]. split; [exact Hroom|].
  split; [lia|]. split; [lia|]. split; [exact Lv|]. split.
  { intros q sq Hq.
    assert (Hq' : In (q, sq, true) bs') by (apply Lv; left; exact Hq).
    destruct (contig_disjoint _ _ _ _ _ _ _ _ _ (rep_contig _ _ _ R') Hq' Hp)
      as [X|X]; [|exact X].
    injection X as -> _. destruct (Fr _ Hq). }
  split; [exact K|]. split; [exact E4 | exact E5].
Qed.

Lemma run_six_inv : heap_inv (final run_six) blocks_six lists_six.
Proof. apply heap_invb_sound. vm_compute. reflexivity. Qed.

Lemma run_six_fuel : fuel_for (final run_six) fuel1.
Proof. apply fuel1_enough. vm_compute. reflexivity. Qed.

Lemma run_six_cap :
  mem_max_addr (final run_six) - mem_start_brk (final run_six) <= 2 ^ 31.
Proof. vm_compute. intros H. discriminate H. Qed.

Lemma malloc_fresh_witness :
  exists p s',
    malloc fuel1 (final run_six) 24 = Ok (p, s') /\
    ((p = NULL /\ s' = final run_six /\
      mem_max_addr (final run_six)
      < mem_brk (final run_six) + grow_request 24 /\
      (forall q sq, In (q, sq, false) blocks_six ->
                    sq < required_block_size 24)) \/
     (p <> NULL /\ p mod 8 = 0 /\
      exists bs' fl' sz,
        heap_inv s' bs' fl' /\ In (p, sz, true) bs' /\ 24 + 8 <= sz /\
        mem_start_brk s' < p /\ p + 24 <= mem_brk s' /\
        (forall q sq, In (q, sq, true) bs' <->
                      In (q, sq, true) blocks_six \/ (q = p /\ sq = sz)) /\
        (forall q sq, In (q, sq, true) blocks_six ->
                      q + sq <= p \/ p + sz <= q) /\
        keeps blocks_six (final run_six) s' /\
        mem_brk (final run_six) <= mem_brk s' /\
        ((exists q sq, In (q, sq, false) blocks_six /\
                       required_block_size 24 <= sq) ->
         mem_brk s' = mem_brk (final run_six)))).
Proof.
  apply (malloc_fresh fuel1 (final run_six) blocks_six lists_six 24).
  - exact run_six_inv.
  - exact run_six_cap.
  - exact run_six_fuel.
  - unfold SIZE_MAX. lia.
Defined.

(** ** [free] *)

(** [free(NULL)] does nothing.  [free(p)] of a live block leaves a
    well-formed heap in which [p] is no longer live and lies inside a free
    block; every other live block is still live with every byte as it was,
    and the break has not moved. *)
Theorem free_releases (fuel : nat) (s : state) (bs : list blk)
        (fl : Z -> list Z) (p sz : Z) :
  heap_inv s bs fl -> fuel_for s fuel -> In (p, sz, true) bs ->
  free fuel s NULL = Ok s /\
  exists s' bs' fl',
    free fuel s p = Ok s' /\ heap_inv s' bs' fl' /\
    mem_brk s' = mem_brk s /\
    (forall q sq, In (q, sq, true) bs' <-> In (q, sq, true) bs /\ q <> p) /\
    (exists m msz, In (m, msz, false) bs' /\ m <= p /\ p + sz <= m + msz) /\
    (forall q sq x, In (q, sq, true) bs -> q <> p ->
                    q - 4 <= x < q + sq - 4 -> mem s' x = mem s x).
Proof.
  intros Hinv Hf Hp. split; [reflexivity|].
  destruct (free_live fuel s bs fl p sz Hinv Hp Hf)
    as (s' & bs' & fl' & Hfree & Inv' & (_ & E & _) & Lv & M & K).
  exists s', bs', fl'. auto 8.
Qed.

Lemma free_releases_witness :
  free fuel1 (final run_six) NULL = Ok (final run_six) /\
  exists s' bs' fl',
    free fuel1 (final run_six) 4160 = Ok s' /\ heap_inv s' bs' fl' /\
    mem_brk s' = mem_brk (final run_six) /\
    (forall q sq, In (q, sq, true) bs' <->
                  In (q, sq, true) blocks_six /\ q <> 4160) /\
    (exists m msz, In (m, msz, false) bs' /\ m <= 4160 /\
                   4160 + 16 <= m + msz) /\
    (forall q sq x, In (q, sq, true) blocks_six -> q <> 4160 ->
                    q - 4 <= x < q + sq - 4 ->
                    mem s' x = mem (final run_six) x).
Proof.
  apply (free_releases fuel1 (final run_six) blocks_six lists_six 4160 16).
  - exact run_six_inv.
  - exact run_six_fuel.
  - cbn. tauto.
Defined.

(** ** [realloc] *)

(** [realloc(p, n)] of a live block of a well-formed heap whose provider has
    a capacity of at most 2^31 bytes, for [n > 0] that does not wrap
    around.  When the allocation fails the state is as it was.  Otherwise
    the new block is live in a well-formed heap, the old one is not, the
    first [min(old payload size, n)] bytes of the new payload are those of
    the old payload, and every other live block keeps every byte. *)
Theorem realloc_keeps_prefix (fuel : nat) (s : state) (bs : list blk)
        (fl : Z -> list Z) (p sz n : Z) :
  heap_inv s bs fl -> mem_max_addr s - mem_start_brk s <= 2 ^ 31 ->
  fuel_for s fuel -> In (p, sz, true) bs ->
  0 < n <= SIZE_MAX - 15 ->
  exists r s',
    realloc fuel s p n = Ok (r, s') /\
    ((r = NULL /\ s' = s) \/
     (r <> NULL /\ r <> p /\
      prefix_copied s p s' r (Z.min (sz - 8) n) /\
      exists bs' fl' rsz,
        heap_inv s' bs' fl' /\ In (r, rsz, true) bs' /\ n + 8 <= rsz /\
        (forall q sq, In (q, sq, true) bs' <->
                      (In (q, sq, true) bs /\ q <> p) \/
                      (q = r /\ sq = rsz)) /\
        (forall q sq x, In (q, sq, true) bs -> q <> p ->
                        q - 4 <= x < q + sq - 4 -> mem s' x = mem s x))).
Proof.
  intros Hinv _ Hf Hp Hn.
  destruct (realloc_live fuel s bs fl p sz n Hinv Hp Hn Hf)
    as (r & s' & Hr & Hcase).
  exists r, s'. split; [exact Hr|].
  destruct Hcase as [(A & B & _)
                    |(Hnn & bs' & fl' & rsz & Inv' & Hin & Hsz & Lv & Fr & Cp
                      & K & _)]; [left; auto|].
  right. split; [exact Hnn|].
  assert (Hne : r <> p) by (intros ->; exact (Fr sz Hp)).
  split; [exact Hne|].
  pose proof (proj1 (proj1 Inv')) as R'.
  destruct (rep_block _ _ _ R' _ _ _ Hin) as (P1 & P2 & P3 & P4 & T1 & _).
  pose proof (rep_heap_bounds _ _ _ R') as (B1 & B2 & B3 & B4 & B5).
  assert (Hroom : n + 8 <= rsz).
  { rewrite (adjusted_size_exact n) in Hsz by lia.
    unfold required_block_size, round_up_to_8, SIZE_MAX in *.
    pose proof (Z.div_mod (n + 8 + 7) 8 ltac:(lia)) as D.
    pose proof (Z.mod_pos_bound (n + 8 + 7) 8 ltac:(lia)). lia. }
  split.
  - split.
    + exists (rsz - 8). split; [|lia]. unfold payload_size.
      rewrite (GET_SIZE_at s' (HDRP r) rsz true)
        by (unfold HDRP, WSIZE; try assumption; lia).
      reflexivity.
    + intros i Hi. rewrite (Cp i Hi). reflexivity.
  - exists bs', fl', rsz. auto 8.
Qed.

Lemma realloc_keeps_prefix_witness :
  exists r s',
    realloc fuel1 (final run_six) 4112 40 = Ok (r, s') /\
    ((r = NULL /\ s' = final run_six) \/
     (r <> NULL /\ r <> 4112 /\
      prefix_copied (final run_six) 4112 s' r (Z.min (32 - 8) 40) /\
      exists bs' fl' rsz,
        heap_inv s' bs' fl' /\ In (r, rsz, true) bs' /\ 40 + 8 <= rsz /\
        (forall q sq, In (q, sq, true) bs' <->
                      (In (q, sq, true) blocks_six /\ q <> 4112) \/
                      (q = r /\ sq = rsz)) /\
        (forall q sq x, In (q, sq, true) blocks_six -> q <> 4112 ->
                        q - 4 <= x < q + sq - 4 ->
                        mem s' x = mem (final run_six) x))).
Proof.
  apply (realloc_keeps_prefix fuel1 (final run_six) blocks_six lists_six
                              4112 32 40).
  - exact run_six_inv.
  - exact run_six_cap.
  - exact run_six_fuel.
  - cbn. tauto.
  - unfold SIZE_MAX. lia.
Defined.

(** ** [calloc] *)

(** On a well-formed heap whose provider has a capacity of at most 2^31
    bytes, [calloc(nmemb, size)] allocates [nmemb * size] bytes, computed
    in [size_t] (a product that [malloc] does not wrap).  When the
    allocation fails [calloc] does not return NULL: it
    reads the header of NULL, outside the heap.  When it succeeds, every
    byte of the payload of the new block is zero, the blocks that were live
    keep every byte, and the heap is well formed. *)
Theorem calloc_zeroes (fuel : nat) (s : state) (bs : list blk)
        (fl : Z -> list Z) (nmemb size : Z) :
  heap_inv s bs fl -> mem_max_addr s - mem_start_brk s <= 2 ^ 31 ->
  fuel_for s fuel ->
  wrap64 (nmemb * size) <= SIZE_MAX - 15 ->
  exists p s1,
    malloc fuel s (wrap64 (nmemb * size)) = Ok (p, s1) /\
    ((p = NULL /\ calloc fuel s nmemb size = Fault) \/
     (p <> NULL /\
      exists s' bs' fl' sz,
        calloc fuel s nmemb size = Ok (p, s') /\
        heap_inv s' bs' fl' /\ In (p, sz, true) bs' /\
        wrap64 (nmemb * size) + 8 <= sz /\
        (forall x, p <= x < p + sz - 8 -> mem s' x = 0) /\
        (forall q sq, In (q, sq, true) bs' <->
                      In (q, sq, true) bs \/ (q = p /\ sq = sz)) /\
        keeps bs s s')).
Proof.
  intros Hinv _ Hf Hn.
  assert (H0 : 0 <= wrap64 (nmemb * size))
    by (unfold wrap64; apply Z.mod_pos_bound; lia).
  destruct (calloc_live fuel s bs fl nmemb size Hinv Hf)
    as (p & s1 & Hm & Hcase).
  exists p, s1. split; [exact Hm|].
  destruct Hcase as [H|(Hnn & s' & bs' & fl' & sz & Hc & Inv' & Hp & Hsz & Lv
                        & _ & K & Z0 & _)]; [left; exact H|].
  right. split; [exact Hnn|]. exists s', bs', fl', sz.
  split; [exact Hc|]. split; [exact Inv'|]. split; [exact Hp|].
  split; [|auto].
  rewrite (adjusted_size_exact (wrap64 (nmemb * size))) in Hsz by lia.
  unfold required_block_size, round_up_to_8, SIZE_MAX in *.
  pose proof (Z.div_mod (wrap64 (nmemb * size) + 8 + 7) 8 ltac:(lia)) as D.
  pose proof (Z.mod_pos_bound (wrap64 (nmemb * size) + 8 + 7) 8 ltac:(lia)).
  lia.
Qed.

Lemma calloc_zeroes_witness :
  exists p s1,
    malloc fuel1 (final run_six) (wrap64 (3 * 8)) = Ok (p, s1) /\
    ((p = NULL /\ calloc fuel1 (final run_six) 3 8 = Fault) \/
     (p <> NULL /\
      exists s' bs' fl' sz,
        calloc fuel1 (final run_six) 3 8 = Ok (p, s') /\
        heap_inv s' bs' fl' /\ In (p, sz, true) bs' /\
        wrap64 (3 * 8) + 8 <= sz /\
        (forall x, p <= x < p + sz - 8 -> mem s' x = 0) /\
        (forall q sq, In (q, sq, true) bs' <->
                      In (q, sq, true) blocks_six \/ (q = p /\ sq = sz)) /\
        keeps blocks_six (final run_six) s')).
Proof.
  apply (calloc_zeroes fuel1 (final run_six) blocks_six lists_six 3 8).
  - exact run_six_inv.
  - exact run_six_cap.
  - exact run_six_fuel.
  - vm_compute. discriminate.
Defined.

(** ** Sequences of calls *)

(** Between two calls the heap is well formed.  The provider [mm_init]
    starts from has its heap above address 0, a break that is a multiple of
    8, a capacity of at most 2^31 bytes and addresses below [(void * )-1]
    ([provider_ok]).  After a successful [mm_init] and any number of legal
    calls that returned, every block's header equals its footer, no two
    neighbouring blocks are both free, and every free block is in the free
    list of its size class. *)
Theorem reach_well_formed (fuel : nat) (s0 s : state) :
  provider_ok s0 -> fuel_for s0 fuel -> reach fuel s0 s ->
  (exists bs fl, heap_inv s bs fl) /\ tags_agree s /\ no_adjacent_free s.
Proof.
  intros Hp Hf Hr.
  destruct (reach_inv fuel s0 s Hp Hf Hr) as ((bs & fl & Inv) & _).
  split; [eauto|].
  destruct Inv as ((R & L) & N & A).
  split; [exact (rep_tags_agree _ _ _ R)|].
  exact (rep_no_adjacent_free _ _ _ R N).
Qed.

Lemma reach3_reached : reach fuel1 (fresh zeros 1000) reach3.
Proof.
  apply (reach_call fuel1 (fresh zeros 1000) reach2 reach3 (Free 4112) 0).
  - apply (reach_call fuel1 (fresh zeros 1000) reach1 reach2 (Malloc 24) 4112).
    + apply reach_init. vm_compute. reflexivity.
    + unfold legal, SIZE_MAX. lia.
    + vm_compute. reflexivity.
  - right. split.
    + apply (first_block reach2). vm_compute. reflexivity.
    + vm_compute. reflexivity.
  - vm_compute. reflexivity.
Qed.

Lemma reach_well_formed_witness :
  (exists bs fl, heap_inv reach3 bs fl) /\
  tags_agree reach3 /\ no_adjacent_free reach3.
Proof.
  apply (reach_well_formed fuel1 (fresh zeros 1000) reach3).
  - exact provider_fresh.
  - apply fuel1_enough. reflexivity.
  - exact reach3_reached.
Defined.

(** On a well-formed heap whose provider has a capacity of at most 2^31
    bytes, no legal call runs into undefined behaviour or fails to end, but
    for [calloc] when its allocation fails. *)
Theorem legal_call_returns (fuel : nat) (s : state) (bs : list blk)
        (fl : Z -> list Z) (c : call) :
  heap_inv s bs fl -> mem_max_addr s - mem_start_brk s <= 2 ^ 31 ->
  fuel_for s fuel -> legal s c ->
  (exists v s', run_call fuel s c = Ok (v, s')) \/
  (exists nmemb size,
     c = Calloc nmemb size /\ run_call fuel s c = Fault /\
     malloc fuel s (wrap64 (nmemb * size)) = Ok (NULL, s)).
Proof.
  intros Hinv _ Hf Hl.
  pose proof (proj1 (proj1 Hinv)) as R.
  assert (FreeCase : forall p, p = NULL \/ live s p ->
                               exists t, free fuel s p = Ok t).
  { intros p [->|Hlive]; [exists s; reflexivity|].
    apply (live_iff _ _ _ _ R) in Hlive. destruct Hlive as (sz & Hp).
    destruct (free_live fuel s bs fl p sz Hinv Hp Hf) as (t & _ & _ & H & _).
    eauto. }
  destruct c as [n | p | p n | nmemb size]; cbn [run_call legal] in *.
  - left. destruct (malloc_live fuel s bs fl n Hinv (proj1 Hl) Hf)
      as (p & s' & Hm & _). eauto.
  - left. destruct (FreeCase p Hl) as (t & ->). cbn [bind]. eauto.
  - left. destruct Hl as [Hp Hn].
    destruct (Z.eq_dec n 0) as [->|Hn0].
    + unfold realloc. cbn [Z.eqb].
      destruct (FreeCase p Hp) as (t & ->). cbn [bind]. eauto.
    + destruct Hp as [->|Hlive].
      * unfold realloc. destruct (Z.eqb_spec n 0); [contradiction|].
        cbn [Z.eqb NULL].
        destruct (malloc_live fuel s bs fl n Hinv (proj1 Hn) Hf)
          as (p & s' & Hm & _). eauto.
      * apply (live_iff _ _ _ _ R) in Hlive. destruct Hlive as (sz & Hp).
        destruct (realloc_live fuel s bs fl p sz n Hinv Hp ltac:(lia) Hf)
          as (r & t & Hr & _). eauto.
  - destruct (calloc_live fuel s bs fl nmemb size Hinv Hf)
      as (p & s1 & Hm & [(-> & Hc)|(_ & t & bs' & fl' & sz & Hc & _)]).
    + right. exists nmemb, size. split; [reflexivity|]. split; [exact Hc|].
      assert (H0 : 0 <= wrap64 (nmemb * size))
        by (unfold wrap64; apply Z.mod_pos_bound; lia).
      destruct (malloc_live fuel s bs fl _ Hinv H0 Hf)
        as (p' & s' & Hm' & [(_ & -> & _)|(Hnn & _)]).
      * rewrite Hm' in Hm. injection Hm as -> _. exact Hm'.
      * rewrite Hm' in Hm. injection Hm as -> _. contradiction.
    + left. eauto.
Qed.

Lemma run_six_live : live (final run_six) 4112.
Proof.
  split.
  - apply (first_block (final run_six)). vm_compute. reflexivity.
  - vm_compute. reflexivity.
Qed.

Lemma legal_call_returns_witness :
  (exists v s', run_call fuel1 (final run_six) (Realloc 4112 40)
                = Ok (v, s')) \/
  (exists nmemb size,
     Realloc 4112 40 = Calloc nmemb size /\
     run_call fuel1 (final run_six) (Realloc 4112 40) = Fault /\
     malloc fuel1 (final run_six) (wrap64 (nmemb * size))
     = Ok (NULL, final run_six)).
Proof.
  apply (legal_call_returns fuel1 (final run_six) blocks_six lists_six
                            (Realloc 4112 40)).
  - exact run_six_inv.
  - exact run_six_cap.
  - exact run_six_fuel.
  - split; [right; exact run_six_live | unfold SIZE_MAX; lia].
Defined.

(** ** [find_fit], [place] and [extend_heap] *)

(** [find_fit] on a well-formed heap returns NULL exactly when no free
    block is large enough, and otherwise a free block that is. *)
Theorem find_fit_finds (fuel : nat) (s : state) (bs : list blk)
        (fl : Z -> list Z) (asize : Z) :
  heap_ok s bs fl -> fuel_for s fuel ->
  exists r,
    find_fit fuel s asize = Ok r /\
    (r = NULL <-> forall q sq, In (q, sq, false) bs -> sq < asize) /\
    (r <> NULL -> exists sz, In (r, sz, false) bs /\ asize <= sz).
Proof.
  intros Hok Hf.
  pose proof (rep_fuel _ _ _ _ (proj1 Hok) Hf) as Hl.
  destruct (find_fit_listed fuel s bs fl asize (proj1 Hok) Hl)
    as (r & Hr & Hcase).
  exists r. split; [exact Hr|]. split.
  - split.
    + intros ->. exact (find_fit_complete fuel s bs fl asize Hok Hl Hr).
    + intros No. destruct Hcase as [E|(sz & Hb & Hle)]; [exact E|].
      specialize (No r sz Hb). lia.
  - intros Hnn. destruct Hcase as [E|H]; [contradiction | exact H].
Qed.

Lemma find_fit_finds_witness :
  exists r,
    find_fit fuel1 (final run_six) 24 = Ok r /\
    (r = NULL <-> forall q sq, In (q, sq, false) blocks_six -> sq < 24) /\
    (r <> NULL -> exists sz, In (r, sz, false) blocks_six /\ 24 <= sz).
Proof.
  apply (find_fit_finds fuel1 (final run_six) blocks_six lists_six 24).
  - exact (proj1 run_six_inv).
  - exact run_six_fuel.
Defined.

(** [place] on a listed free block of [csize] bytes, for an aligned size
    [asize] of at least [MINSIZE]: the block is split exactly when at least
    [MINSIZE] bytes remain, and the header then tells [asize]; otherwise the
    whole block is handed out.  The remainder is a free block of the heap,
    which stays well formed; no live block is written and the break does not
    move. *)
Theorem place_splits (fuel : nat) (s : state) (fl : Z -> list Z)
        (pre post : list blk) (bp csize asize : Z) :
  heap_inv s (pre ++ (bp, csize, false) :: post) fl -> fuel_for s fuel ->
  MINSIZE <= asize <= csize -> asize mod 8 = 0 ->
  exists s' fl',
    place fuel s bp asize = Ok s' /\
    heap_inv s'
      (pre ++ (if csize - asize <? MINSIZE then [(bp, csize, true)]
               else [(bp, asize, true); (bp + asize, csize - asize, false)])
           ++ post) fl' /\
    GET s' (HDRP bp)
    = Ok (PACK (if csize - asize <? MINSIZE then csize else asize) 1) /\
    keeps (pre ++ (bp, csize, false) :: post) s s' /\
    mem_brk s' = mem_brk s.
Proof.
  intros Hinv Hf Ha Hm.
  destruct (place_inv fuel s fl pre post bp csize asize Hinv Hf Ha Hm)
    as (s' & fl' & Hp & Inv' & K & SH).
  exists s', fl'. split; [exact Hp|]. split; [exact Inv'|].
  split; [|split; [exact K | apply SH]].
  pose proof (proj1 (proj1 Inv')) as R'.
  pose proof (rep_heap_bounds _ _ _ R') as (B1 & B2 & B3 & B4 & B5).
  assert (Hb : In (bp, if csize - asize <? MINSIZE then csize else asize, true)
                  (pre ++ (if csize - asize <? MINSIZE then [(bp, csize, true)]
                           else [(bp, asize, true);
                                 (bp + asize, csize - asize, false)]) ++ post)).
  { apply in_or_app. right.
    destruct (csize - asize <? MINSIZE); left; reflexivity. }
  destruct (rep_block _ _ _ R' _ _ _ Hb) as (P1 & P2 & P3 & P4 & T1 & _).
  rewrite PACK_1 by exact P4. unfold HDRP, WSIZE.
  rewrite GET_ok by lia. rewrite T1. reflexivity.
Qed.

Lemma place_splits_witness :
  exists s' fl',
    place fuel1 (final run_six) 4208 48 = Ok s' /\
    heap_inv s'
      ([(4112, 32, true); (4144, 16, false); (4160, 16, true);
        (4176, 16, false); (4192, 16, true)]
         ++ (if 160 - 48 <? MINSIZE then [(4208, 160, true)]
             else [(4208, 48, true); (4208 + 48, 160 - 48, false)])
         ++ []) fl' /\
    GET s' (HDRP 4208)
    = Ok (PACK (if 160 - 48 <? MINSIZE then 160 else 48) 1) /\
    keeps ([(4112, 32, true); (4144, 16, false); (4160, 16, true);
            (4176, 16, false); (4192, 16, true)]
             ++ (4208, 160, false) :: []) (final run_six) s' /\
    mem_brk s' = mem_brk (final run_six).
Proof.
  apply (place_splits fuel1 (final run_six) lists_six
           [(4112, 32, true); (4144, 16, false); (4160, 16, true);
            (4176, 16, false); (4192, 16, true)] [] 4208 160 48).
  - exact run_six_inv.
  - exact run_six_fuel.
  - unfold MINSIZE. lia.
  - reflexivity.
Defined.

(** [extend_heap(words)] for at least three words, on a well-formed heap
    whose provider has a capacity of at most 2^31 bytes.  It asks the
    provider for an even number of words.  When the provider cannot supply
    them it returns NULL and the state is as it was.  Otherwise the break
    moves up by that many bytes, which are now part of the last block of the
    heap, a free block, whose pointer is returned: the new bytes alone, or
    merged with the block that was last when that one was free.  The live
    blocks are the same, with every byte as it was. *)
Theorem extend_heap_grows (fuel : nat) (s : state) (bs : list blk)
        (fl : Z -> list Z) (words : Z) :
  heap_inv s bs fl -> mem_max_addr s - mem_start_brk s <= 2 ^ 31 ->
  fuel_for s fuel -> 3 <= words < 2 ^ 61 ->
  exists bp s',
    extend_heap fuel s words = Ok (bp, s') /\
    ((bp = NULL /\ s' = s /\
      mem_max_addr s < mem_brk s + 8 * ((words + 1) / 2)) \/
     (bp <> NULL /\ mem_brk s' = mem_brk s + 8 * ((words + 1) / 2) /\
      exists pre sz fl',
        heap_inv s' (pre ++ [(bp, sz, false)]) fl' /\
        bp <= mem_brk s /\ bp + sz = mem_brk s' /\
        (forall q sq, In (q, sq, true) (pre ++ [(bp, sz, false)]) <->
                      In (q, sq, true) bs) /\
        keeps bs s s')).
Proof.
  intros (Hok & Hn & Hal) _ Hf Hw.
  pose proof (extend_size_even words ltac:(lia)) as Es.
  assert (Hsz : 16 <= 8 * ((words + 1) / 2)).
  { pose proof (Z.div_mod (words + 1) 2 ltac:(lia)) as D.
    pose proof (Z.mod_pos_bound (words + 1) 2 ltac:(lia)). lia. }
  destruct (Z_le_gt_dec (mem_brk s + extend_size words) (mem_max_addr s))
    as [Hroom|Hfull].
  - destruct (extend_live fuel s bs fl words Hok)
      as (bp & s' & fl' & pre & sz & He & Ok' & Hnn & Hge & Lv & _ & K & N'
          & E1 & E2 & E3 & E4 & _).
    + unfold MINSIZE. lia.
    + rewrite Es. rewrite Z.mul_comm. apply Z.mod_mul. lia.
    + exact Hroom.
    + exact (fuel_lengths _ _ _ _ (proj1 Hok) Hf).
    + exists bp, s'. split; [exact He|]. right.
      split; [exact Hnn|]. split; [rewrite E2, Es; reflexivity|].
      exists pre, sz, fl'.
      pose proof (rep_contig _ _ _ (proj1 Ok')) as C.
      apply contig_app in C. destruct C as (m & _ & C).
      cbn [contig] in C. destruct C as (<- & _ & _ & C).
      split; [split; [exact Ok' | split; [exact (N' Hn) | congruence]]|].
      split; [lia|]. split; [exact C|]. split; [exact Lv | exact K].
  - exists NULL, s. split; [apply extend_heap_fail; lia|]. left.
    split; [reflexivity|]. split; [reflexivity | lia].
Qed.

Lemma extend_heap_grows_witness :
  exists bp s',
    extend_heap fuel1 (final run_six) 5 = Ok (bp, s') /\
    ((bp = NULL /\ s' = final run_six /\
      mem_max_addr (final run_six)
      < mem_brk (final run_six) + 8 * ((5 + 1) / 2)) \/
     (bp <> NULL /\
      mem_brk s' = mem_brk (final run_six) + 8 * ((5 + 1) / 2) /\
      exists pre sz fl',
        heap_inv s' (pre ++ [(bp, sz, false)]) fl' /\
        bp <= mem_brk (final run_six) /\ bp + sz = mem_brk s' /\
        (forall q sq, In (q, sq, true) (pre ++ [(bp, sz, false)]) <->
                      In (q, sq, true) blocks_six) /\
        keeps blocks_six (final run_six) s')).
Proof.
  apply (extend_heap_grows fuel1 (final run_six) blocks_six lists_six 5).
  - exact run_six_inv.
  - exact run_six_cap.
  - exact run_six_fuel.
  - split; [lia | reflexivity].
Defined.

(** ** [malloc] then [free] *)

(** When a free block is large enough, [malloc(n)] followed by [free] of
    its result gives back the block list there was: the heap has not grown,
    the block that was split is whole again, and every live block has every
    byte as it was. *)
Theorem malloc_then_free (fuel : nat) (s : state) (bs : list blk)
        (fl : Z -> list Z) (n : Z) :
  heap_inv s bs fl -> fuel_for s fuel -> 0 <= n <= SIZE_MAX - 15 ->
  (exists q sq, In (q, sq, false) bs /\ required_block_size n <= sq) ->
  exists p s1 s2 fl2,
    malloc fuel s n = Ok (p, s1) /\ p <> NULL /\ free fuel s1 p = Ok s2 /\
    heap_inv s2 bs fl2 /\ keeps bs s s2 /\ mem_brk s2 = mem_brk s.
Proof.
  intros Hinv Hf Hn (q & sq & Hq & Hge).
  pose proof (proj1 Hinv) as Hok. pose proof (proj1 Hok) as R.
  pose proof (rep_fuel _ _ _ _ R Hf) as Hl.
  rewrite <- (adjusted_size_exact n Hn) in Hge.
  destruct (adjusted_size_props n (proj1 Hn)) as (B & M).
  destruct (find_fit_listed fuel s bs fl (adjusted_size n) R Hl)
    as (r & Hr & Hcase).
  destruct Hcase as [->|(csize & Hb & Hle)].
  - pose proof (find_fit_complete fuel s bs fl _ Hok Hl Hr q sq Hq). lia.
  - assert (Hnn : r <> NULL).
    { destruct (rep_block _ _ _ R _ _ _ Hb) as (X & _).
      pose proof (rep_heap_bounds _ _ _ R). unfold NULL. lia. }
    destruct (in_split _ _ Hb) as (pre & post & E). subst bs.
    destruct (place_free_inv fuel s fl pre post r csize (adjusted_size n)
                             Hinv Hf ltac:(lia) M)
      as (s1 & s2 & fl2 & Hp & Hfree & Inv2 & K & SH).
    exists r, s1, s2, fl2.
    split; [|split; [exact Hnn | split; [exact Hfree | split; [exact Inv2 |
             split; [exact K | apply SH]]]]].
    unfold malloc. cbv zeta. rewrite Hr. cbn [bind].
    destruct (Z.eqb_spec r NULL); [contradiction|]. cbn [negb].
    rewrite Hp. reflexivity.
Qed.

Lemma malloc_then_free_witness :
  exists p s1 s2 fl2,
    malloc fuel1 (final run_six) 24 = Ok (p, s1) /\ p <> NULL /\
    free fuel1 s1 p = Ok s2 /\
    heap_inv s2 blocks_six fl2 /\ keeps blocks_six (final run_six) s2 /\
    mem_brk s2 = mem_brk (final run_six).
Proof.
  apply (malloc_then_free fuel1 (final run_six) blocks_six lists_six 24).
  - exact run_six_inv.
  - exact run_six_fuel.
  - unfold SIZE_MAX. lia.
  - exists 4208, 160. split; [cbn; tauto | vm_compute; discriminate].
Defined.

(** ** Free lists *)

(** [freelist_insert] pushes a free block at the head of the list of its
    size class: the head of that list becomes the block and the successor
    cell of the block holds the old head; the other heads stay.
    [freelist_remove] of the block right afterwards undoes it: the heads
    and the lists are as before, and no memory but the successor cell of
    the block has changed. *)
Theorem freelist_insert_remove (fuel : nat) (s : state) (bs : list blk)
        (fl : Z -> list Z) (bp sz : Z) :
  rep s bs fl -> In (bp, sz, false) bs -> unlisted fl bp ->
  exists s1 s2,
    freelist_insert s bp = Ok s1 /\
    freelists s1 (smallest_bucket sz) = bp /\
    SUCC s1 bp = Ok (freelists s (smallest_bucket sz)) /\
    (forall j, j <> smallest_bucket sz -> freelists s1 j = freelists s j) /\
    rep s1 bs (fl_insert fl sz bp) /\
    freelist_remove fuel s1 bp = Ok s2 /\
    (forall j, freelists s2 j = freelists s j) /\
    (forall x, x < bp \/ bp + 8 <= x -> mem s2 x = mem s x) /\
    rep s2 bs fl.
Proof.
  intros R Hb U.
  destruct (rep_block _ _ _ R _ _ _ Hb) as (P1 & P2 & P3 & P4 & T1 & T2).
  pose proof (rep_heap_bounds _ _ _ R) as (B1 & B2 & B3 & B4 & B5).
  pose proof (smallest_bucket_range sz) as Hi.
  set (i := smallest_bucket sz) in *.
  assert (Hi' : 0 <= i < NUMLIST) by (unfold NUMLIST; lia).
  pose proof (freelist_insert_eq s bs fl R bp sz Hb) as E1. fold i in E1.
  destruct (freelist_insert_frame s bs fl R bp sz Hb U) as (t & Et & R1 & _).
  rewrite E1 in Et. injection Et as <-.
  set (s1 := set_freelist (set_mem s (storen 8 bp (freelists s i) (mem s)))
                          i bp) in *.
  assert (L1 : fl_insert fl sz bp i = bp :: fl i)
    by (unfold fl_insert; fold i; rewrite Z.eqb_refl; reflexivity).
  pose proof (freelist_remove_head s1 bs _ R1 fuel bp sz (fl i) Hb L1) as E2.
  fold i in E2.
  assert (Ld : loadn 8 (mem s1) bp = freelists s i).
  { unfold s1. cbn [set_freelist set_mem mem].
    apply load8_store8. apply (head_range _ _ _ R). exact Hi'. }
  rewrite Ld in E2.
  destruct (freelist_remove_frame s1 bs _ R1 (length (bp :: fl i)) bp sz Hb)
    as (t & Et & R2 & _).
  { fold i. rewrite L1. left. reflexivity. }
  { fold i. rewrite L1. apply Nat.le_refl. }
  rewrite (freelist_remove_head s1 bs _ R1 _ bp sz (fl i) Hb L1) in Et.
  fold i in Et. rewrite Ld in Et. injection Et as <-.
  exists s1, (set_freelist s1 i (freelists s i)).
  split; [exact E1|]. split.
  { unfold s1. cbn [set_freelist freelists]. rewrite Z.eqb_refl. reflexivity. }
  split.
  { rewrite SUCC_ok by (unfold s1; cbn; lia). rewrite Ld. reflexivity. }
  split.
  { intros j Hj. unfold s1. cbn [set_freelist set_mem freelists].
    destruct (Z.eqb_spec j i); [contradiction | reflexivity]. }
  split; [exact R1|]. split; [exact E2|]. split.
  { intros j. unfold s1. cbn [set_freelist set_mem freelists].
    destruct (Z.eqb_spec j i) as [->|]; reflexivity. }
  split.
  { intros x Hx. unfold s1. cbn [set_freelist set_mem mem].
    apply storen_other. cbn. lia. }
  apply (rep_ext _ _ _ _ R2). intros j Hj.
  unfold fl_remove, fl_insert. fold i.
  destruct (Z.eqb_spec j i) as [->|]; [|reflexivity].
  cbn [remove]. destruct (Z.eq_dec bp bp) as [_|X]; [|contradiction].
  symmetry. apply notin_remove. apply U. exact Hi'.
Qed.

Lemma freelist_insert_remove_witness :
  exists s1 s2,
    freelist_insert (final run_freed) 4128 = Ok s1 /\
    freelists s1 (smallest_bucket 16) = 4128 /\
    SUCC s1 4128 = Ok (freelists (final run_freed) (smallest_bucket 16)) /\
    (forall j, j <> smallest_bucket 16 ->
               freelists s1 j = freelists (final run_freed) j) /\
    rep s1 ((4112, 16, false) :: (4128, 16, false) :: (4144, 16, false)
              :: blocks_after)
        (fl_insert lists_three 16 4128) /\
    freelist_remove fuel1 s1 4128 = Ok s2 /\
    (forall j, freelists s2 j = freelists (final run_freed) j) /\
    (forall x, x < 4128 \/ 4128 + 8 <= x ->
               mem s2 x = mem (final run_freed) x) /\
    rep s2 ((4112, 16, false) :: (4128, 16, false) :: (4144, 16, false)
              :: blocks_after)
        lists_three.
Proof.
  apply (freelist_insert_remove fuel1 (final run_freed)
           ((4112, 16, false) :: (4128, 16, false) :: (4144, 16, false)
              :: blocks_after) lists_three 4128 16).
  - apply repb_sound. vm_compute. reflexivity.
  - right. left. reflexivity.
  - exact lists_three_unlisted.
Defined.

(** ** [mm_checkheap] *)

(** [mm_checkheap] on a well-formed heap in which no free block has more
    than [2^24] bytes: it returns, and prints nothing but the elements of
    the 25 free lists, list by list, and then one line for each block, in
    address order, with its size and allocated bit; none of its reports is
    printed. *)
Theorem mm_checkheap_accepts (fuel : nat) (s : state) (bs : list blk)
        (fl : Z -> list Z) (lineno : Z) :
  heap_inv s bs fl -> (length bs < fuel)%nat ->
  (forall q sq, In (q, sq, false) bs -> sq <= 2 ^ 24) ->
  mm_checkheap fuel s lineno =
  Ok (list_messages fl bucket_indices ++ block_messages bs, Returned).
Proof.
  intros ((R & Hl) & _ & A) Lf Hs.
  apply (checkheap_ok s bs fl R A fuel lineno Lf).
  intros q sq H. split; [exact (Hl q sq H) | exact (Hs q sq H)].
Qed.

Lemma mm_checkheap_accepts_witness :
  mm_checkheap fuel1 (final run_six) 0 =
  Ok (list_messages lists_six bucket_indices ++ block_messages blocks_six,
      Returned).
Proof.
  apply (mm_checkheap_accepts fuel1 (final run_six) blocks_six lists_six 0).
  - apply heap_invb_sound. vm_compute. reflexivity.
  - unfold blocks_six, fuel1. cbn [length]. lia.
  - intros q sq H. unfold blocks_six in H. cbn [In] in H.
    repeat (destruct H as [H|H]; [injection H as <- <-; try discriminate; lia|]).
    destruct H.
Defined.

(** [mm_checkheap] on a well-formed heap in which a free block of more than
    [2^24] bytes follows a live block of at most [2^23] bytes (the free
    blocks before them having at most [2^24] bytes): after the line of the
    free block it reports that the block is not in the free list, and
    exits.  The block is in the last free list; the checker searches the
    list chosen for the block before it. *)
Theorem mm_checkheap_rejects (fuel : nat) (s : state) (pre post : list blk)
        (fl : Z -> list Z) (q sq q' sq' lineno : Z) :
  heap_inv s (pre ++ (q, sq, true) :: (q', sq', false) :: post) fl ->
  (length (pre ++ (q, sq, true) :: (q', sq', false) :: post) < fuel)%nat ->
  (forall p sp, In (p, sp, false) pre -> sp <= 2 ^ 24) ->
  sq <= 2 ^ 23 -> 2 ^ 24 < sq' ->
  In q' (fl (NUMLIST - 1)) /\
  mm_checkheap fuel s lineno =
  Ok (list_messages fl bucket_indices
        ++ block_messages (pre ++ [(q, sq, true); (q', sq', false)])
        ++ [Not_in_free_list q' lineno], Exited).
Proof.
  intros ((R & Hl) & _ & A) Lf Hs Hq Hq'.
  split.
  { change (NUMLIST - 1) with 24.
    rewrite <- (smallest_bucket_big sq' Hq'). apply Hl.
    apply in_or_app. right. right. left. reflexivity. }
  unfold mm_checkheap. rewrite (check_prologue_ok _ _ _ R). cbn [bind].
  rewrite (check_lists_ok _ _ _ R fuel lineno Lf (Z.to_nat NUMLIST) 0 0)
    by (unfold NUMLIST; lia).
  cbn [bind].
  rewrite (check_blocks_reject _ _ _ R A fuel lineno q sq q' sq' true
             post pre Lf);
    [reflexivity | | exact Hq | exact Hq' | exact (rep_contig _ _ _ R)
     | auto |rewrite length_app in Lf; cbn [length] in Lf; lia].
  intros p sp H. apply in_app_or in H. destruct H as [H|[H|[]]].
  - split; [|exact (Hs p sp H)]. apply Hl. apply in_or_app. left. exact H.
  - discriminate H.
Qed.

Lemma mm_checkheap_rejects_witness :
  In 4144 (lists_big (NUMLIST - 1)) /\
  mm_checkheap fuel1 (final run_big) 0 =
  Ok (list_messages lists_big bucket_indices
        ++ block_messages ([] ++ [(4112, 32, true); (4144, 16777456, false)])
        ++ [Not_in_free_list 4144 0], Exited).
Proof.
  apply (mm_checkheap_rejects fuel1 (final run_big) [] [] lists_big
           4112 32 4144 16777456 0).
  - apply heap_invb_sound. vm_compute. reflexivity.
  - unfold fuel1. cbn [app length]. lia.
  - intros p sp H. destruct H.
  - lia.
  - lia.
Defined.

(** The checker after the allocator: when the provider's capacity is at
    most [2^24] bytes, [mm_checkheap] returns without a report in every
    state between two calls, that is after a successful [mm_init] and any
    number of legal calls that returned. *)
Theorem mm_checkheap_reachable (fuel : nat) (s0 s : state) (lineno : Z) :
  provider_ok s0 -> fuel_for s0 fuel ->
  mem_max_addr s0 - mem_start_brk s0 <= 2 ^ 24 ->
  reach fuel s0 s ->
  exists bs fl,
    heap_inv s bs fl /\
    mm_checkheap fuel s lineno =
    Ok (list_messages fl bucket_indices ++ block_messages bs, Returned).
Proof.
  intros Hp Hf Hc Hr.
  destruct (reach_inv fuel s0 s Hp Hf Hr) as ((bs & fl & Inv) & E1 & E2).
  exists bs, fl. split; [exact Inv|].
  destruct Inv as ((R & Hl) & _ & A).
  pose proof (rep_heap_bounds _ _ _ R) as (B1 & B2 & B3 & B4 & B5).
  pose proof (rep_brk _ _ _ R) as B6.
  pose proof (contig_length _ _ _ (rep_contig _ _ _ R)) as Ln.
  unfold fuel_for in Hf.
  apply (checkheap_ok s bs fl R A fuel lineno); [lia|].
  intros q sq H. split; [exact (Hl q sq H)|].
  destruct (rep_block _ _ _ R _ _ _ H) as (P1 & P2 & _). lia.
Qed.

Lemma mm_checkheap_reachable_witness :
  exists bs fl,
    heap_inv reach3 bs fl /\
    mm_checkheap fuel1 reach3 0 =
    Ok (list_messages fl bucket_indices ++ block_messages bs, Returned).
Proof.
  apply (mm_checkheap_reachable fuel1 (fresh zeros 1000) reach3 0).
  - exact provider_fresh.
  - apply fuel1_enough. reflexivity.
  - cbn. lia.
  - exact reach3_reached.
Defined.
